(* ===== verification/_CoqProject ===== *)
-Q . S2P
Prelude.v
Errors.v
Types.v
Extern.v
F64.v
Config.v
Dedup.v
Quorum.v
Session.v
Identity.v
Envelope.v
Rotation.v
Lineage.v
LineageThms.v
Storage.v
Handshake.v
HandshakeThms.v
Splice.v
Engine.v
EngineThms.v
Api.v
ApiThms.v
Restart.v
Crossing.v
Component.v
ComponentThms.v
Frames.v
Peers.v
Republish.v
Network.v
Memory.v
Utf8.v
Wasi.v
WasiThms.v
Host.v
HostThms.v
NodeRuns.v
RotationRuns.v
Harness.v
HarnessThms.v
RotationTest.v
Validate.v
ValidateRuns.v
ValidateThms.v
Codec.v
Messages.v
JsonText.v
Sample.v
Witnesses.v
HostWitnesses.v
NetWitnesses.v
