(* ===== verification/Prelude.v ===== *)
(** * Witan gossip: a verification development

    ** The program

    [witan/] is a WebAssembly component for authenticated gossip between
    nodes that hold post-quantum keys.  The host owns the network: it calls the
    component's exported functions with the bytes it received and sends the
    bytes they return.  The component owns one engine: an identity (an ML-DSA-65
    signing key and a hybrid X25519/ML-KEM-768 key), the sessions with its peers,
    the handshakes in progress, a duplicate cache, a quorum tracker, counters and
    the list of mesh peers; and one key lineage, the chain of rotation records
    that lets a node change keys and keep its id.

    A call goes [component.rs] or [wasi_exports.rs] -> [api.rs] -> [gossip.rs] ->
    the parts.  The only shared state is the pair of statics of [api.rs]; every
    other part is a value the engine owns.  [wasmtime-test/] is a host: it loads
    the component several times, carries the handshake messages between the
    instances and checks what they answer.

    ** How the code is represented

    - Fallible code returns [result E A]: [Ok], [Err] or [Panic].  [Panic] stands
      for an index out of range or an [expect] that fails; nothing catches one,
      since the release profile aborts on panic, and for the same reason a mutex
      is never poisoned.
    - A method with [&mut self] is [ST S E A := S -> result E A * S]: the state
      it leaves is part of its value on error paths too, so what a failing call
      changes can be stated and proved.  The operating system (entropy, clock) is
      a second component of the state.
    - Integers are [Z].  The wrap-around of the release profile is written out
      ([wrap 64], [wrap 32]); [usize] has 32 bits, as on wasm32; subtraction of
      times is [saturating_sub].  [f64] is the Standard Library's [SpecFloat] at
      the parameters of binary64.
    - [HashMap] is [gmap].  Where the code lets the iteration order show, the
      order is a parameter ([HashOrder]) and the theorems hold for every order.
    - Strings are [String.string] with the bytes of their UTF-8 encoding.
    - Published crates are parameters: the classes of [Extern], with their
      documented behaviour as the [Laws] classes.  [Sample] gives concrete
      functions for all of them, so the laws are consistent and every definition
      runs.  SHA-256 has 32 bytes of output and therefore collisions; a theorem
      that depends on there being none names the two messages ([collide]).

    ** Where to find each part

    - [Errors]: [error.rs]; the variant names of [wasi_exports.rs].
    - [Types]: [types.rs], data and [classify_incoming].
    - [F64], [Config]: [config.rs] and the floating-point operations it and
      [quorum.rs] use.
    - [Dedup], module [Cache]: [dedup.rs].
    - [Quorum], module [Tracker]: [quorum.rs].
    - [Session], module [Store] and the derivations: [session.rs].
    - [Identity]: [identity.rs].   [Envelope]: [envelope.rs].
    - [Rotation]: [rotation.rs].  [Lineage] holds its specification: the rules of
      a successor record, chains, validity.  [Storage] is about the size of what
      [encode] writes.
    - [Handshake], modules [Context] and [Handshakes]: [handshake.rs].
    - [Engine], module [Engine]: [gossip.rs].
    - [Api], module [Api]: [api.rs], with the statics as the record [Global].
    - [Component], module [Guest]: [component.rs] and the error variant of
      [wit/gossip-protocol.wit].
    - [Memory] is the linear memory of a [wasm32] instance: its initialised
      bytes, its heap blocks, and the allocator as a parameter.  [Utf8] is
      [str::from_utf8].  On them, [Wasi], module [Wasi]: [wasi_exports.rs], where
      undefined behaviour ([Fault]) and a trap ([Panic]) are outcomes.
    - [Host]: [wasmtime-test/src/node.rs] and the function [do_handshake] of
      [main.rs]; a node is an address and the state of the component instance,
      until it traps.  [Harness]: the rest of [main.rs], a definition per group
      of its steps.  [NodeRuns] and [RotationRuns] say what each call of a node
      does in a quiet environment, as total correctness triples; [HarnessThms]
      and [RotationTest] compose them along the program.
    - [Validate]: [witan/src/bin/validate_api.rs], a definition per test;
      [ValidateRuns] says what each of its calls does in a quiet environment,
      [ValidateThms] composes them.
    - Seven files have no code of their own.  [Frames] says once for every layer
      which properties of the engine a method leaves alone, and runs any sequence
      of calls.  On it, [Peers] is an abstract machine per peer, four phases and
      a flag, which the calls of the component refine; [Republish] is about a
      message that was published, whatever is called next; and [Network] is any
      number of components on a network that belongs to an adversary, where the
      log of completed handshakes is a ghost.  [Restart] composes a rotation
      under the id with the start of a fresh component.  [Splice] is a man in the
      middle, [Crossing] two nodes that connect to each other.
    - [JsonText] writes and reads JSON values for the sample of serde_json.
    - The files whose name ends in [Thms] hold the theorems of the part; the
      others hold their own.  [Codec] and [Messages] implement bincode for the
      crate's types, [Sample] the other foreign code; [Witnesses],
      [HostWitnesses] and [NetWitnesses] apply every theorem that has hypotheses
      to concrete data.

    A definition has the name of the Rust item, a record field that name with a
    short prefix where two records share it.

    ** What is proved

    - Handshake: two honest nodes that exchange the four messages in time hold
      mirrored sessions (between managers and between whole engines); exactly
      what the client accepts; which failures change nothing and which consume
      the pending handshake; the invariant of every reachable manager; which
      handshakes a sweep evicts; what the protocol does not authenticate (the
      client's key, the session id); how a man in the middle splices the
      transcript and gets the client's secret; and that two nodes whose probes
      cross lose both handshakes.
    - Network: whatever an adversary sends, in any order, a session a node opened
      with an honest key was answered before by a node with that key, under the
      same transcript hash; the two agree on the bytes (unless these collide under
      SHA-256), and on the messages when neither read bytes past the end of one.
      The adversary's only limit is
      [unforged]: a signature of a transcript hash that verifies under an honest
      key was made by a node that answered that handshake.
    - Peers: in any state and whatever is called, the component refines one
      abstract machine per peer, and a call about one peer does not touch
      another's session or pending handshake.  A peer that is connected went
      through a whole handshake, nothing else about it having succeeded in between,
      and was not disconnected since.
    - Lineage: holding a lineage means holding a valid chain, whatever was
      called; the exact outcomes of [apply]; commitments shut out a stolen key;
      rotation and recovery keep the id and move the keys; storage round-trips up
      to the size limit and decoding accepts valid chains only; how many rotations
      that limit allows; failed operations change nothing; records and digests
      are read in one way only.
    - Envelopes: exactly which envelopes are accepted; what the signature binds
      and what it does not; built envelopes verify.
    - Cache and quorum: the cache answers as a filter that never forgets; the
      default quorum is more than two thirds for every number of peers, so two
      quorums intersect in more than a third.
    - Engine: the outcomes of publishing, a message is not published twice while
      its id is alive, whatever calls come in between, what receiving and
      disconnecting change, and how the heartbeat repairs the mesh.
    - Whole component: the two statics agree in every reachable state;
      initialization happens once, and what every call answers before; the outcomes of a rotation under the id,
      including the one that strands the node; a node that rotated is, restarted
      from the bytes it returned and its new seeds, the node it was, and its
      retired seeds are refused; no exported function panics in
      a reachable state; and the dispatcher and the two dedicated handshake
      functions of a server agree but for the mesh.
    - C interface: on arguments a host may pass, every export is the API function
      on the values the pointers denote, its answer is in the slot and the block
      it points to, and nothing else in the memory changes; any sequence of
      defined host steps keeps the memory well formed and the statics in a
      reachable state; allocate, write, read and free undo each other; when a
      reply can be freed; what text arguments become; errors are told apart by
      their text.
    - Host: in an environment that does its part ([quiet]: the clock stays within
      half a minute, entropy and key encapsulation succeed) the host loop connects
      any two nodes, and the whole integration test passes, whatever keys, nonces
      and times it meets: the mesh, and a node that rotates under its id,
      restarts, rotates to its committed key and is recovered without it.
    - Validator: in the same environment it ends with status 0, all twenty tests
      passed, provided the hash tells its five messages apart.

    ** Bounds

    Recursion is structural everywhere; there is no fuel.  Lineages are read up
    to [MAX_LINEAGE_BYTES] (4 MiB), contexts up to 255 bytes, keys at their exact
    lengths.  A theorem about a lineage that grows assumes fewer than 2^32 - 1
    records ([has_room]), the most a 32-bit address space can index; the quorum
    theorems assume a peer count that fits [usize].

    ** What is not modelled

    - The cryptography itself and the encodings of serde: parameters, as above.
    - The text of JSON documents: their values are modelled, not their bytes.
      The values of the reports are those the derived [Serialize] gives.
    - wasmtime: that an instance is loaded, linked and entered, and not entered
      again once it has trapped, is all the host programs use of it.
    - [lib.rs] declares and re-exports modules and [build.rs] names files to
      watch: there is no behaviour to translate.  The tests under
      [witan/tests/] call the API and compare what it answers with literals; the
      same calls are covered by [Harness] and [Validate], the two programs that
      do it as part of the workspace, and the theorems hold for all arguments.
      What the programs print is left out.
    - Secrecy of the keys two ends derive: it needs a symbolic or computational
      model of the primitives, which are functions with equations here.  The
      theorems about an adversary are about authentication and agreement.

    Every operation of every other file of the implementation is modelled; a
    method that only reads a field is the field, and a [Default] that calls [new]
    is [new].

    ** This file

    The prelude: bytes, machine integers, the result and state monads and the
    lemmas on invariants, frames and panics that the components share. *)

From Stdlib Require Export ZArith Lia.
From Stdlib Require Import Strings.Byte Ascii.
From Stdlib Require String.
From stdpp Require Export base list gmap strings fin_maps pretty.

(** ** Bytes *)

Abbreviation byte := Corelib.Init.Byte.byte.
Abbreviation bytes := (list byte).

Declare Scope witan_scope.
Delimit Scope witan_scope with witan.

#[global] Instance byte_eq_decision : EqDecision byte := Byte.byte_eq_dec.

#[global] Program Instance byte_countable : Countable byte := {|
  encode b := N.succ_pos (Byte.to_N b);
  decode p := Byte.of_N (Pos.pred_N p)
|}.
Next Obligation. intros b. destruct b; reflexivity. Qed.

Lemma byte_eqb_true b1 b2 : Byte.eqb b1 b2 = true <-> b1 = b2.
Proof.
  split; [apply Byte.byte_dec_bl|intros ->; by apply Byte.byte_dec_lb].
Qed.

Definition byte_to_Z (b : byte) : Z := Z.of_N (Byte.to_N b).

(** [z as u8]: the low eight bits. *)
Definition byte_of_Z (z : Z) : byte :=
  match Byte.of_N (Z.to_N (z `mod` 256)) with
  | Some b => b
  | None => x00
  end.

Lemma byte_to_Z_range b : (0 <= byte_to_Z b < 256)%Z.
Proof. unfold byte_to_Z. pose proof (Byte.to_N_bounded b). lia. Qed.

Lemma byte_to_of_Z z : byte_to_Z (byte_of_Z z) = (z `mod` 256)%Z.
Proof.
  pose proof (Z.mod_pos_bound z 256 eq_refl) as Hb.
  unfold byte_of_Z, byte_to_Z.
  destruct (Byte.of_N _) as [b|] eqn:E.
  - apply Byte.to_of_N in E. lia.
  - apply Byte.of_N_None_iff in E. lia.
Qed.

Lemma byte_to_Z_inj b1 b2 : byte_to_Z b1 = byte_to_Z b2 -> b1 = b2.
Proof.
  unfold byte_to_Z. intros H%N2Z.inj.
  pose proof (Byte.of_to_N b1). pose proof (Byte.of_to_N b2). congruence.
Qed.

Lemma byte_of_to_Z b : byte_of_Z (byte_to_Z b) = b.
Proof.
  apply byte_to_Z_inj. rewrite byte_to_of_Z.
  apply Z.mod_small, byte_to_Z_range.
Qed.

Lemma byte_of_Z_inj z1 z2 :
  (0 <= z1 < 256)%Z -> (0 <= z2 < 256)%Z -> byte_of_Z z1 = byte_of_Z z2 -> z1 = z2.
Proof.
  intros H1 H2 H%(f_equal byte_to_Z). rewrite !byte_to_of_Z in H.
  by rewrite !Z.mod_small in H.
Qed.

(** [s.as_bytes()] of a Rust [String], and back. *)
Definition as_bytes (s : string) : bytes := String.list_byte_of_string s.
Definition of_bytes (b : bytes) : string := String.string_of_list_byte b.

Lemma length_as_bytes s : length (as_bytes s) = String.length s.
Proof. unfold as_bytes. induction s as [|a s IH]; cbn; [done|]. by f_equal. Qed.

Lemma of_as_bytes s : of_bytes (as_bytes s) = s.
Proof. apply String.string_of_list_byte_of_string. Qed.

Lemma as_of_bytes b : as_bytes (of_bytes b) = b.
Proof. apply String.list_byte_of_string_of_list_byte. Qed.

(** [u8::is_ascii_hexdigit].  A [char] of more than one byte is not a digit, and
    none of its bytes is: [s.chars().all(..)] is a test of the bytes. *)
Definition is_ascii_hexdigit (b : byte) : bool :=
  let z := byte_to_Z b in
  ((48 <=? z) && (z <=? 57) || (65 <=? z) && (z <=? 70) || (97 <=? z) && (z <=? 102))%Z.

#[global] Instance as_bytes_inj : Inj (=) (=) as_bytes.
Proof. intros s1 s2 H. by rewrite <- (of_as_bytes s1), H, of_as_bytes. Qed.

(** ** Machine integers

    A [w]-bit unsigned integer is a [Z]; [wrap w] is what an operation of the
    release profile leaves when the mathematical result does not fit. *)

Definition wrap (w : Z) (z : Z) : Z := z `mod` 2 ^ w.
Definition fits (w : Z) (z : Z) : Prop := (0 <= z < 2 ^ w)%Z.

(** [a.saturating_sub(b)] on unsigned integers. *)
Definition saturating_sub (a b : Z) : Z := Z.max 0 (a - b).

Lemma wrap_fits w z : (0 <= w)%Z -> fits w (wrap w z).
Proof. intros. apply Z.mod_pos_bound. lia. Qed.

Lemma wrap_small w z : fits w z -> wrap w z = z.
Proof. intros. by apply Z.mod_small. Qed.

(** [n.to_le_bytes()] and [n.to_be_bytes()] of an integer of [k] bytes. *)
Fixpoint le_bytes (k : nat) (z : Z) : bytes :=
  match k with
  | O => []
  | S k' => byte_of_Z z :: le_bytes k' (z `div` 256)
  end.

Fixpoint le_value (b : bytes) : Z :=
  match b with
  | [] => 0
  | x :: b' => byte_to_Z x + 256 * le_value b'
  end.

Definition be_bytes (k : nat) (z : Z) : bytes := rev (le_bytes k z).

Lemma length_le_bytes k z : length (le_bytes k z) = k.
Proof. revert z; induction k; intros; cbn; auto. Qed.

Lemma length_be_bytes k z : length (be_bytes k z) = k.
Proof. unfold be_bytes. by rewrite length_rev, length_le_bytes. Qed.

Lemma le_value_bytes k z : fits (8 * Z.of_nat k) z -> le_value (le_bytes k z) = z.
Proof.
  revert z; induction k as [|k IH]; intros z Hz; unfold fits in *; cbn [le_bytes le_value].
  - cbn in Hz. lia.
  - replace (8 * Z.of_nat (S k))%Z with (8 + 8 * Z.of_nat k)%Z in Hz by lia.
    rewrite Z.pow_add_r in Hz by lia.
    rewrite byte_to_of_Z, IH; [pose proof (Z.div_mod z 256); lia|].
    split; [apply Z.div_pos; lia|]. apply Z.div_lt_upper_bound; lia.
Qed.

Lemma le_bytes_value b : le_bytes (length b) (le_value b) = b.
Proof.
  induction b as [|x b IH]; [done|]. cbn [length le_bytes le_value].
  pose proof (byte_to_Z_range x). f_equal.
  - apply byte_to_Z_inj. rewrite byte_to_of_Z.
    rewrite <- (Z.mod_small (byte_to_Z x) 256) at 2 by done.
    rewrite (Z.mul_comm 256). apply Z_mod_plus_full.
  - trans (le_bytes (length b) (le_value b)); [f_equal|done]. rewrite Z.add_comm, (Z.mul_comm 256), Z.div_add_l by done.
    rewrite Z.div_small by done. lia.
Qed.

Lemma le_value_fits b : fits (8 * Z.of_nat (length b)) (le_value b).
Proof.
  induction b as [|x b IH]; unfold fits in *; cbn [length le_value]; [cbn; lia|].
  pose proof (byte_to_Z_range x).
  replace (8 * Z.of_nat (S (length b)))%Z with (8 + 8 * Z.of_nat (length b))%Z by lia.
  rewrite Z.pow_add_r by lia. change (2 ^ 8)%Z with 256%Z. lia.
Qed.

Lemma be_bytes_inj k z1 z2 :
  fits (8 * Z.of_nat k) z1 -> fits (8 * Z.of_nat k) z2 ->
  be_bytes k z1 = be_bytes k z2 -> z1 = z2.
Proof.
  intros H1 H2 H. unfold be_bytes in H.
  apply (f_equal (@rev byte)) in H. rewrite !rev_involutive in H.
  apply (f_equal le_value) in H. by rewrite !le_value_bytes in H.
Qed.

(** ** Results

    [Ok] and [Err] are Rust's; [Panic] is an unwinding or aborting computation
    (an out-of-range index, an [expect] on an error). *)

Inductive result (E A : Type) :=
  | Ok (a : A)
  | Err (e : E)
  | Panic.
Arguments Ok {E A} a.
Arguments Err {E A} e.
Arguments Panic {E A}.

#[global] Instance result_ret {E} : MRet (result E) := λ A a, Ok a.
#[global] Instance result_bind {E} : MBind (result E) := λ A B k m,
  match m with
  | Ok a => k a
  | Err e => Err e
  | Panic => Panic
  end.

(** What a function of another crate returns: its value, or the [Display]
    string of its error.  Such a call does not panic. *)
Abbreviation fallible A := (string + A)%type.

(** [r.map_err(f)] on the result of such a call. *)
Definition map_err {E A} (f : string -> E) (r : fallible A) : result E A :=
  match r with
  | inr a => Ok a
  | inl e => Err (f e)
  end.

Definition ok_or {E A} (o : option A) (e : E) : result E A :=
  match o with
  | Some a => Ok a
  | None => Err e
  end.

(** A panicking [expect]/[unwrap]/index. *)
Definition expect {E A} (o : option A) : result E A :=
  match o with
  | Some a => Ok a
  | None => Panic
  end.

(** [&b[lo..hi]]: panics outside the bounds. *)
Definition slice {E} (b : bytes) (lo hi : nat) : result E bytes :=
  if bool_decide (lo <= hi /\ hi <= length b) then Ok (take (hi - lo) (drop lo b)) else Panic.

Definition is_ok {E A} (r : result E A) : bool :=
  match r with Ok _ => true | _ => false end.

Lemma map_err_no_panic {E A} (f : string -> E) (r : fallible A) : map_err f r ≠ Panic.
Proof. by destruct r. Qed.

Lemma bind_no_panic {E A B} (m : result E A) (k : A -> result E B) :
  m ≠ Panic -> (∀ a, m = Ok a -> k a ≠ Panic) -> m ≫= k ≠ Panic.
Proof. intros Hm Hk. destruct m; cbn; auto; done. Qed.

Lemma bind_ok {E A B} (m : result E A) (k : A -> result E B) b :
  m ≫= k = Ok b <-> ∃ a, m = Ok a ∧ k a = Ok b.
Proof. destruct m; cbn; naive_solver. Qed.

Lemma map_err_ok {E A} (f : string -> E) (r : fallible A) a :
  map_err f r = Ok a <-> r = inr a.
Proof. destruct r; cbn; naive_solver. Qed.

(** ** State-passing computations

    A method on [&mut self] that returns [Result]: the state it leaves is
    observable on the error path too, as in Rust. *)

Definition ST (S E A : Type) : Type := S -> result E A * S.

#[global] Instance st_ret {S E} : MRet (ST S E) := λ A a s, (Ok a, s).
#[global] Instance st_bind {S E} : MBind (ST S E) := λ A B k m s,
  match m s with
  | (Ok a, s') => k a s'
  | (Err e, s') => (Err e, s')
  | (Panic, s') => (Panic, s')
  end.

Definition get {S E} : ST S E S := λ s, (Ok s, s).
Definition modify {S E} (f : S -> S) : ST S E unit := λ s, (Ok tt, f s).
Definition throw {S E A} (e : E) : ST S E A := λ s, (Err e, s).

(** [r?] inside a method: an early return on error. *)
Definition lift {S E A} (r : result E A) : ST S E A := λ s, (r, s).

(** Run a method of a field. *)
Definition zoom {S T E A} (prj : S -> T) (upd : T -> S -> S) (m : ST T E A) : ST S E A :=
  λ s, let '(r, t) := m (prj s) in (r, upd t s).

(** A computation keeps a property of the state on every path. *)
Definition preserves {S E A} (I : S -> Prop) (m : ST S E A) : Prop :=
  ∀ s r s', m s = (r, s') -> I s -> I s'.

Create HintDb witan.

Section Preserves.
Context {S E : Type} (I : S -> Prop).

Lemma preserves_ret {A} (a : A) : preserves I (mret a : ST S E A).
Proof. intros s r s' [= _ <-]; auto. Qed.

Lemma preserves_lift {A} (r : result E A) : preserves I (lift r).
Proof. intros s r' s' [= _ <-]; auto. Qed.

Lemma preserves_throw {A} (e : E) : preserves I (throw e : ST S E A).
Proof. intros s r s' [= _ <-]; auto. Qed.

Lemma preserves_get : preserves I (get : ST S E S).
Proof. intros s r s' [= _ <-]; auto. Qed.

Lemma preserves_modify (f : S -> S) :
  (∀ s, I s -> I (f s)) -> preserves I (modify f : ST S E unit).
Proof. intros Hf s r s' [= _ <-]; auto. Qed.

Lemma preserves_bind {A B} (m : ST S E A) (k : A -> ST S E B) :
  preserves I m -> (∀ a, preserves I (k a)) -> preserves I (m ≫= k).
Proof.
  intros Hm Hk s r s'. unfold mbind, st_bind.
  destruct (m s) as [[a|e|] s1] eqn:Em.
  - intros H Hs. eapply Hk; [exact H|]. eapply Hm; eauto.
  - intros [= _ <-] Hs. eapply Hm; eauto.
  - intros [= _ <-] Hs. eapply Hm; eauto.
Qed.
End Preserves.

#[export] Hint Resolve preserves_ret preserves_lift preserves_throw preserves_get
  preserves_bind : witan.
#[export] Hint Resolve map_err_no_panic bind_no_panic : witan.
#[export] Hint Resolve length_le_bytes length_be_bytes : witan.

(** Take one step of a run whose next result is known. *)
Ltac unfold_bind :=
  unfold mbind, mret, st_bind, st_ret, result_bind, result_ret, lift, throw, get, modify;
  cbn beta iota delta [negb].

(** Expose the monadic structure of a run. *)
Ltac unfold_m :=
  unfold mbind, mret, st_bind, st_ret, result_bind, result_ret, lift, throw, get, modify,
    zoom in *; cbn beta iota in *.

(** Follow one run of a computation to its outcome, branch by branch. *)
Ltac run_cases :=
  repeat first [progress simplify_eq | case_match | progress (cbn beta iota in * )].

(** ** Runs of methods

    What a successful run says of its statements, one at a time. *)

Section Runs.
Context {S E : Type}.

Lemma st_bind_ok {A B} (m : ST S E A) (k : A -> ST S E B) s b s' :
  (m ≫= k) s = (Ok b, s') <-> ∃ a s1, m s = (Ok a, s1) ∧ k a s1 = (Ok b, s').
Proof.
  unfold mbind, st_bind. destruct (m s) as [[a|e|] s1]; split; try naive_solver.
Qed.

Lemma st_bind_run {A B} (m : ST S E A) (k : A -> ST S E B) s a s1 :
  m s = (Ok a, s1) -> (m ≫= k) s = k a s1.
Proof. unfold mbind, st_bind. by intros ->. Qed.

Lemma st_bind_stop {A B} (m : ST S E A) (k : A -> ST S E B) s e s1 :
  m s = (Err e, s1) -> (m ≫= k) s = (Err e, s1).
Proof. unfold mbind, st_bind. by intros ->. Qed.

Lemma lift_bind {A B} (r : result E A) (k : A -> ST S E B) s :
  (lift r ≫= k) s = match r with Ok a => k a s | Err e => (Err e, s) | Panic => (Panic, s) end.
Proof. by destruct r. Qed.

Lemma get_bind {B} (k : S -> ST S E B) s : (get ≫= k) s = k s s.
Proof. done. Qed.

Lemma lift_ok {A} (r : result E A) (s : S) a s' : lift r s = (Ok a, s') <-> r = Ok a ∧ s' = s.
Proof. unfold lift. naive_solver. Qed.

Lemma ret_ok {A} (x : A) (s : S) (a : A) (s' : S) :
  (mret x : ST S E A) s = (Ok a, s') <-> a = x ∧ s' = s.
Proof. unfold mret, st_ret. naive_solver. Qed.

Lemma modify_ok (f : S -> S) s u s' : (modify f : ST S E unit) s = (Ok u, s') <-> s' = f s.
Proof. unfold modify. destruct u. naive_solver. Qed.
End Runs.

(** Methods of a pair of which the first component is the object proper. *)
Section Frames.
Context {S T E : Type}.

(** It leaves the object alone. *)
Definition readonly {A} (m : ST (S * T) E A) : Prop := ∀ s, (m s).2.1 = s.1.

(** When it does not return [Ok], it leaves the object alone. *)
Definition atomic {A} (m : ST (S * T) E A) : Prop :=
  ∀ s, is_ok (m s).1 = false -> (m s).2.1 = s.1.

Definition total {A} (m : ST (S * T) E A) : Prop := ∀ s, is_ok (m s).1 = true.

Lemma readonly_ret {A} (a : A) : readonly (mret a).
Proof. done. Qed.
Lemma readonly_lift {A} (r : result E A) : readonly (lift r).
Proof. done. Qed.
Lemma readonly_throw {A} (e : E) : readonly (throw e : ST (S * T) E A).
Proof. done. Qed.
Lemma readonly_get : readonly get.
Proof. done. Qed.
Lemma readonly_bind {A B} (m : ST (S * T) E A) (k : A -> ST (S * T) E B) :
  readonly m -> (∀ a, readonly (k a)) -> readonly (m ≫= k).
Proof.
  intros Hm Hk s. specialize (Hm s). unfold mbind, st_bind.
  destruct (m s) as [[a|e|] s1]; cbn in *; [rewrite (Hk a s1)|..]; done.
Qed.

Lemma atomic_readonly {A} (m : ST (S * T) E A) : readonly m -> atomic m.
Proof. intros Hm s _. apply Hm. Qed.
Lemma atomic_total {A} (m : ST (S * T) E A) : total m -> atomic m.
Proof. intros Hm s Hs. by rewrite Hm in Hs. Qed.
Lemma atomic_bind {A B} (m : ST (S * T) E A) (k : A -> ST (S * T) E B) :
  readonly m -> (∀ a, atomic (k a)) -> atomic (m ≫= k).
Proof.
  intros Hm Hk s. specialize (Hm s). unfold mbind, st_bind.
  destruct (m s) as [[a|e|] s1]; cbn in *; intros Hs; [rewrite (Hk a s1 Hs)|..]; done.
Qed.

Lemma total_ret {A} (a : A) : total (mret a).
Proof. done. Qed.
Lemma total_modify (f : S * T -> S * T) : total (modify f).
Proof. done. Qed.
Lemma total_bind {A B} (m : ST (S * T) E A) (k : A -> ST (S * T) E B) :
  total m -> (∀ a, total (k a)) -> total (m ≫= k).
Proof.
  intros Hm Hk s. specialize (Hm s). unfold mbind, st_bind.
  destruct (m s) as [[a|e|] s1]; cbn in *; [apply Hk|done..].
Qed.
End Frames.

#[export] Hint Resolve readonly_ret readonly_lift readonly_throw readonly_get readonly_bind
  atomic_bind total_ret total_modify total_bind : witan.

(** No run of the method panics. *)
Definition panic_free {S E A} (m : ST S E A) : Prop := ∀ s, (m s).1 ≠ Panic.

Section PanicFree.
Context {S E : Type}.

Lemma panic_free_ret {A} (a : A) : panic_free (mret a : ST S E A).
Proof. done. Qed.
Lemma panic_free_lift {A} (r : result E A) : r ≠ Panic -> panic_free (lift r : ST S E A).
Proof. intros Hr s. done. Qed.
Lemma panic_free_throw {A} (e : E) : panic_free (throw e : ST S E A).
Proof. done. Qed.
Lemma panic_free_get : panic_free (get : ST S E S).
Proof. done. Qed.
Lemma panic_free_modify (f : S -> S) : panic_free (modify f : ST S E unit).
Proof. done. Qed.
Lemma panic_free_bind {A B} (m : ST S E A) (k : A -> ST S E B) :
  panic_free m -> (∀ a, panic_free (k a)) -> panic_free (m ≫= k).
Proof.
  intros Hm Hk s. specialize (Hm s). unfold mbind, st_bind.
  destruct (m s) as [[a|e|] s1]; [apply Hk|done..].
Qed.
Lemma panic_free_lift_bind {A B} (r : result E A) (k : A -> ST S E B) :
  r ≠ Panic -> (∀ a, r = Ok a -> panic_free (k a)) -> panic_free (lift r ≫= k).
Proof. intros Hr Hk s. rewrite lift_bind. destruct r; [by apply Hk|done..]. Qed.
Lemma panic_free_zoom {T A} (prj : S -> T) (upd : T -> S -> S) (m : ST T E A) :
  panic_free m -> panic_free (zoom prj upd m).
Proof. intros Hm s. specialize (Hm (prj s)). unfold zoom. by destruct (m (prj s)). Qed.
End PanicFree.

(** ** Lists *)

Lemma app_inj_len {A} (l1 l2 k1 k2 : list A) :
  length l1 = length l2 -> l1 ++ k1 = l2 ++ k2 -> l1 = l2 /\ k1 = k2.
Proof. intros. by apply app_inj_1. Qed.

Lemma app_inj_tail_len {A} (l1 l2 k1 k2 : list A) :
  length k1 = length k2 -> l1 ++ k1 = l2 ++ k2 -> l1 = l2 /\ k1 = k2.
Proof. intros. by apply app_inj_2. Qed.

Lemma filter_all {A} (P : A -> Prop) `{∀ x, Decision (P x)} (l : list A) :
  (∀ x, x ∈ l -> P x) -> filter P l = l.
Proof.
  induction l as [|x l IH]; intros Hl; [done|].
  rewrite filter_cons_True by (apply Hl; left). f_equal. apply IH. intros y Hy. apply Hl. by right.
Qed.

Lemma map_to_list_filter {K A} `{Countable K} (P : K * A -> Prop) `{∀ x, Decision (P x)}
    (m : gmap K A) :
  map_to_list (filter P m) ≡ₚ filter P (map_to_list m).
Proof.
  apply NoDup_Permutation; [apply NoDup_map_to_list|apply NoDup_filter, NoDup_map_to_list|].
  intros [k x]. rewrite elem_of_map_to_list, list_elem_of_filter, elem_of_map_to_list.
  rewrite map_lookup_filter_Some. tauto.
Qed.
