(* ===== verification/Errors.v ===== *)
(** * The unified error type

    [witan/src/error.rs]: the [GossipError] enum and its [Display]
    implementation, together with the variant names the C-ABI layer
    ([witan/src/wasi_exports.rs], [error_to_leaked_json]) reports. *)

From S2P Require Import Prelude.

Inductive GossipError : Type :=
  | NotInitialized
  | AlreadyInitialized
  | ConfigError (s : string)
  | IdentityError (s : string)
  | HandshakeError (s : string)
  | SessionNotFound (s : string)
  | EnvelopeError (s : string)
  | SignatureInvalid
  | ReplayDetected
  | TtlExpired
  | PeerNotFound (s : string)
  | QuorumNotReached
  | SerializationError (s : string)
  | CryptoError (s : string)
  | InvalidInput (s : string).

#[global] Instance GossipError_eq_dec : EqDecision GossipError.
Proof. solve_decision. Defined.

(** [impl Display for GossipError]. *)
Definition GossipError_fmt (e : GossipError) : string :=
  match e with
  | NotInitialized => "gossip component not initialized"
  | AlreadyInitialized => "gossip component already initialized"
  | ConfigError s => "config error: " +:+ s
  | IdentityError s => "identity error: " +:+ s
  | HandshakeError s => "handshake error: " +:+ s
  | SessionNotFound s => "session not found: " +:+ s
  | EnvelopeError s => "envelope error: " +:+ s
  | SignatureInvalid => "signature verification failed"
  | ReplayDetected => "replay detected: message outside replay window"
  | TtlExpired => "TTL expired"
  | PeerNotFound s => "peer not found: " +:+ s
  | QuorumNotReached => "quorum not reached"
  | SerializationError s => "serialization error: " +:+ s
  | CryptoError s => "crypto error: " +:+ s
  | InvalidInput s => "invalid input: " +:+ s
  end.

(** The variant tag of [error_to_leaked_json]. *)
Definition error_variant (e : GossipError) : string :=
  match e with
  | NotInitialized => "NotInitialized"
  | AlreadyInitialized => "AlreadyInitialized"
  | ConfigError _ => "ConfigError"
  | IdentityError _ => "IdentityError"
  | HandshakeError _ => "HandshakeError"
  | SessionNotFound _ => "SessionNotFound"
  | EnvelopeError _ => "EnvelopeError"
  | SignatureInvalid => "SignatureInvalid"
  | ReplayDetected => "ReplayDetected"
  | TtlExpired => "TtlExpired"
  | PeerNotFound _ => "PeerNotFound"
  | QuorumNotReached => "QuorumNotReached"
  | SerializationError _ => "SerializationError"
  | CryptoError _ => "CryptoError"
  | InvalidInput _ => "InvalidInput"
  end.

(** [Result<T, GossipError>], and a method that returns one. *)
Abbreviation res := (result GossipError).
Abbreviation method S := (ST S GossipError).
