(* ===== verification/Types.v ===== *)
(** * Domain types

    [witan/src/types.rs]: payload types, the envelope, the handshake messages,
    the API records, and [classify_incoming], the dispatch on the magic prefix.
    A [[u8; 32]] is a [bytes]; that it has 32 elements is [is32], a
    well-formedness condition of the records that hold one. *)

From Stdlib Require Import Strings.Byte.
From S2P Require Import Prelude.

Definition is32 (b : bytes) : Prop := length b = 32%nat.

(** ** Magic bytes and context strings *)

Definition HANDSHAKE_PROBE_MAGIC : bytes := as_bytes "WITAN_GOSSIP_HANDSHAKE_V1".
Definition HANDSHAKE_ACK_MAGIC : bytes := as_bytes "WITAN_GOSSIP_HANDSHAKE_ACK_V1".
Definition HANDSHAKE_FINISH_MAGIC : bytes := as_bytes "WITAN_GOSSIP_HANDSHAKE_FINISH_V1".
Definition HANDSHAKE_FINISH_ACK_MAGIC : bytes := as_bytes "WITAN_GOSSIP_HANDSHAKE_FINISH_ACK_V1".
Definition SIG_CTX_HANDSHAKE : bytes := as_bytes "WITAN_GOSSIP_HANDSHAKE_V1".
Definition SIG_CTX_MESSAGE : bytes := as_bytes "WITAN_GOSSIP_MESSAGE_V1".
Definition SIG_CTX_NODE_ID : bytes := as_bytes "WITAN_NODE_IDENTITY_V1".
Definition HKDF_INFO_SESSION : bytes := as_bytes "pqc-kem-hybrid-v1".

(** ** Payload types *)

Inductive PayloadType : Type :=
  | Transaction
  | BlockProposal
  | FinalityVote
  | StateSync
  | PeerDiscovery.

#[global] Instance PayloadType_eq_dec : EqDecision PayloadType.
Proof. solve_decision. Defined.

Definition from_u8 (v : Z) : option PayloadType :=
  match v with
  | 0%Z => Some Transaction
  | 1%Z => Some BlockProposal
  | 2%Z => Some FinalityVote
  | 3%Z => Some StateSync
  | 4%Z => Some PeerDiscovery
  | _ => None
  end.

Definition as_u8 (t : PayloadType) : Z :=
  match t with
  | Transaction => 0
  | BlockProposal => 1
  | FinalityVote => 2
  | StateSync => 3
  | PeerDiscovery => 4
  end.

(** ** Records *)

Record GossipEnvelope : Type := mkEnvelope {
  env_version : Z;              (* u8 *)
  env_message_id : bytes;       (* [u8; 32] *)
  env_sender_node_id : string;
  env_sender_public_key : bytes;
  env_payload_type : PayloadType;
  env_payload : bytes;
  env_signature : bytes;
  env_timestamp_unix_ms : Z;    (* u64 *)
  env_ttl : Z;                  (* u8 *)
}.

Record NodeIdentityPublic : Type := mkIdentityPublic {
  nip_node_id : string;
  nip_kem_public_key_json : string;
  nip_sig_public_key_hex : string;
  nip_key_epoch : string;
}.

Record PeerInfo : Type := mkPeerInfo {
  peer_info_addr : string;
  peer_info_node_id : string;
  peer_info_session_id : string;
  peer_info_established_at_ms : Z; (* u64 *)
}.

Record GossipStats : Type := mkStats {
  messages_published : Z;     (* u64 *)
  messages_received : Z;      (* u64 *)
  messages_deduplicated : Z;  (* u64 *)
  messages_dropped : Z;       (* u64 *)
  active_peers : Z;           (* u32 *)
  mesh_peers_count : Z;       (* u32, the field mesh_peers *)
  dedup_cache_size : Z;       (* u32 *)
  handshakes_completed : Z;   (* u32 *)
  handshakes_failed : Z;      (* u32 *)
}.

(** [#[derive(Default)]]. *)
Definition GossipStats_default : GossipStats := mkStats 0 0 0 0 0 0 0 0 0.

Record HandshakeProbe : Type := mkProbe {
  probe_magic : bytes;
  probe_version : Z;
  probe_client_nonce : bytes;
  probe_endpoint : string;
  probe_client_node_id : string;
  probe_timestamp_unix_ms : Z;
}.

Record HandshakeAck : Type := mkAck {
  ack_magic : bytes;
  ack_version : Z;
  ack_client_nonce : bytes;
  ack_server_nonce : bytes;
  ack_hybrid_kem_public_key_json : string;
  ack_ml_dsa_65_public_key : bytes;
  ack_server_node_id : string;
  ack_timestamp_unix_ms : Z;
}.

Record HandshakeFinish : Type := mkFinish {
  fin_magic : bytes;
  fin_version : Z;
  fin_kem_ciphertext_json : string;
  fin_client_ml_dsa_65_public_key : bytes;
  fin_client_node_id : string;
  fin_timestamp_unix_ms : Z;
}.

Record HandshakeFinishAck : Type := mkFinishAck {
  fa_magic : bytes;
  fa_version : Z;
  fa_session_id : string;
  fa_transcript_hash : bytes;
  fa_server_mac : bytes;
  fa_transcript_signature : bytes;
  fa_timestamp_unix_ms : Z;
}.

(** The values a Rust struct of each message type can hold: integers in the
    range of their type, arrays of their length, and vectors and strings
    shorter than [2 ^ 64]. *)
Definition short (n : nat) : Prop := fits 64 (Z.of_nat n).

Lemma short_small n : (n <= 4000)%nat -> short n.
Proof. unfold short, fits. change (2 ^ 64)%Z with 18446744073709551616%Z. lia. Qed.

Record envelope_fits (e : GossipEnvelope) : Prop := {
  ef_version : fits 8 (env_version e);
  ef_id : is32 (env_message_id e);
  ef_sender : short (String.length (env_sender_node_id e));
  ef_pk : short (length (env_sender_public_key e));
  ef_payload : short (length (env_payload e));
  ef_signature : short (length (env_signature e));
  ef_timestamp : fits 64 (env_timestamp_unix_ms e);
  ef_ttl : fits 8 (env_ttl e);
}.

Record probe_fits (p : HandshakeProbe) : Prop := {
  pf_magic : short (length (probe_magic p));
  pf_version : fits 8 (probe_version p);
  pf_nonce : is32 (probe_client_nonce p);
  pf_endpoint : short (String.length (probe_endpoint p));
  pf_node_id : short (String.length (probe_client_node_id p));
  pf_timestamp : fits 64 (probe_timestamp_unix_ms p);
}.

Record ack_fits (a : HandshakeAck) : Prop := {
  af_magic : short (length (ack_magic a));
  af_version : fits 8 (ack_version a);
  af_client_nonce : is32 (ack_client_nonce a);
  af_server_nonce : is32 (ack_server_nonce a);
  af_kem : short (String.length (ack_hybrid_kem_public_key_json a));
  af_pk : short (length (ack_ml_dsa_65_public_key a));
  af_node_id : short (String.length (ack_server_node_id a));
  af_timestamp : fits 64 (ack_timestamp_unix_ms a);
}.

Record finish_fits (f : HandshakeFinish) : Prop := {
  ff_magic : short (length (fin_magic f));
  ff_version : fits 8 (fin_version f);
  ff_ct : short (String.length (fin_kem_ciphertext_json f));
  ff_pk : short (length (fin_client_ml_dsa_65_public_key f));
  ff_node_id : short (String.length (fin_client_node_id f));
  ff_timestamp : fits 64 (fin_timestamp_unix_ms f);
}.

Record finish_ack_fits (f : HandshakeFinishAck) : Prop := {
  kf_magic : short (length (fa_magic f));
  kf_version : fits 8 (fa_version f);
  kf_session : short (String.length (fa_session_id f));
  kf_transcript : is32 (fa_transcript_hash f);
  kf_mac : is32 (fa_server_mac f);
  kf_signature : short (length (fa_transcript_signature f));
  kf_timestamp : fits 64 (fa_timestamp_unix_ms f);
}.

(** A [serde_json::Value]; its numbers are the integers the crate writes. *)
Inductive JsonValue : Type :=
  | JNull
  | JBool (b : bool)
  | JNumber (n : Z)
  | JString (s : string)
  | JArray (items : list JsonValue)
  | JObject (fields : list (string * JsonValue)).

(** What [#[derive(Serialize)]] makes of the records the API reports. *)
Definition bytes_value (b : bytes) : JsonValue := JArray (map (λ x, JNumber (byte_to_Z x)) b).

Definition payload_type_name (t : PayloadType) : string :=
  match t with
  | Transaction => "Transaction"
  | BlockProposal => "BlockProposal"
  | FinalityVote => "FinalityVote"
  | StateSync => "StateSync"
  | PeerDiscovery => "PeerDiscovery"
  end.

Definition envelope_value (e : GossipEnvelope) : JsonValue :=
  JObject [("version", JNumber (env_version e)); ("message_id", bytes_value (env_message_id e));
           ("sender_node_id", JString (env_sender_node_id e));
           ("sender_public_key", bytes_value (env_sender_public_key e));
           ("payload_type", JString (payload_type_name (env_payload_type e)));
           ("payload", bytes_value (env_payload e)); ("signature", bytes_value (env_signature e));
           ("timestamp_unix_ms", JNumber (env_timestamp_unix_ms e));
           ("ttl", JNumber (env_ttl e))]%string.

Definition identity_value (i : NodeIdentityPublic) : JsonValue :=
  JObject [("node_id", JString (nip_node_id i));
           ("kem_public_key_json", JString (nip_kem_public_key_json i));
           ("sig_public_key_hex", JString (nip_sig_public_key_hex i));
           ("key_epoch", JString (nip_key_epoch i))]%string.

Definition peer_value (p : PeerInfo) : JsonValue :=
  JObject [("addr", JString (peer_info_addr p)); ("node_id", JString (peer_info_node_id p));
           ("session_id", JString (peer_info_session_id p));
           ("established_at_ms", JNumber (peer_info_established_at_ms p))]%string.

Definition stats_value (s : GossipStats) : JsonValue :=
  JObject [("messages_published", JNumber (messages_published s));
           ("messages_received", JNumber (messages_received s));
           ("messages_deduplicated", JNumber (messages_deduplicated s));
           ("messages_dropped", JNumber (messages_dropped s));
           ("active_peers", JNumber (active_peers s));
           ("mesh_peers", JNumber (mesh_peers_count s));
           ("dedup_cache_size", JNumber (dedup_cache_size s));
           ("handshakes_completed", JNumber (handshakes_completed s));
           ("handshakes_failed", JNumber (handshakes_failed s))]%string.

(** ** Dispatch on the magic prefix *)

Inductive MessageKind : Type :=
  | KHandshakeProbe
  | KHandshakeAck
  | KHandshakeFinish
  | KHandshakeFinishAck
  | KGossipEnvelope.

#[global] Instance MessageKind_eq_dec : EqDecision MessageKind.
Proof. solve_decision. Defined.

(** [slice.starts_with(p)]. *)
Definition starts_with (b p : bytes) : bool := bool_decide (take (length p) b = p).

Definition classify_incoming (b : bytes) : MessageKind :=
  let payload := if bool_decide (8 < length b)%nat then drop 8 b else b in
  if starts_with payload HANDSHAKE_FINISH_ACK_MAGIC then KHandshakeFinishAck
  else if starts_with payload HANDSHAKE_FINISH_MAGIC then KHandshakeFinish
  else if starts_with payload HANDSHAKE_ACK_MAGIC then KHandshakeAck
  else if starts_with payload HANDSHAKE_PROBE_MAGIC then KHandshakeProbe
  else KGossipEnvelope.

(** The magic bytes of each handshake kind. *)
Definition magic_of (k : MessageKind) : option bytes :=
  match k with
  | KHandshakeProbe => Some HANDSHAKE_PROBE_MAGIC
  | KHandshakeAck => Some HANDSHAKE_ACK_MAGIC
  | KHandshakeFinish => Some HANDSHAKE_FINISH_MAGIC
  | KHandshakeFinishAck => Some HANDSHAKE_FINISH_ACK_MAGIC
  | KGossipEnvelope => None
  end.

(** ** Facts *)

Lemma from_as_u8 t : from_u8 (as_u8 t) = Some t.
Proof. by destruct t. Qed.

Lemma from_u8_some v t : from_u8 v = Some t -> v = as_u8 t.
Proof.
  intros H. destruct v as [|p|p]; cbn in H; [by simplify_eq| |done].
  by repeat (destruct p as [p|p|]; cbn in H; simplify_eq/=; try done).
Qed.

Lemma as_u8_range t : (0 <= as_u8 t < 256)%Z.
Proof. destruct t; cbn; lia. Qed.

#[global] Instance as_u8_inj : Inj (=) (=) as_u8.
Proof. by intros [] []. Qed.

Lemma starts_with_spec b p : starts_with b p = true <-> ∃ r, b = p ++ r.
Proof.
  unfold starts_with. rewrite bool_decide_eq_true. split.
  - intros H. exists (drop (length p) b). rewrite <- H at 1. by rewrite take_drop.
  - intros [r ->]. by rewrite take_app_length.
Qed.

(** Two byte strings differ at a position both have. *)
Fixpoint clash (p q : bytes) : bool :=
  match p, q with
  | x :: p', y :: q' => negb (Byte.eqb x y) || clash p' q'
  | _, _ => false
  end.

Lemma clash_starts_with p q r : clash p q = true -> starts_with (p ++ r) q = false.
Proof.
  intros Hc. apply not_true_is_false. intros [r' E]%starts_with_spec.
  revert q Hc E. induction p as [|x p IH]; intros [|y q] Hc E; cbn in *; try done.
  injection E as -> E. apply orb_true_iff in Hc as [Hc|Hc]; [|eauto].
  by rewrite (proj2 (byte_eqb_true y y) eq_refl) in Hc.
Qed.

(** No magic is a prefix of another: they clash pairwise, so the order of the
    tests in [classify_incoming] does not matter. *)
Lemma magics_clash k1 k2 m1 m2 :
  magic_of k1 = Some m1 -> magic_of k2 = Some m2 -> k1 ≠ k2 -> clash m1 m2 = true.
Proof. destruct k1, k2; intros [= <-] [= <-] ?; try done; vm_compute; reflexivity. Qed.

Lemma classify_tail b k m :
  magic_of k = Some m -> (8 < length b)%nat -> starts_with (drop 8 b) m = true ->
  classify_incoming b = k.
Proof.
  intros Hk Hl Hs. unfold classify_incoming. rewrite bool_decide_true by done.
  apply starts_with_spec in Hs as [r ->].
  assert (∀ k' m', magic_of k' = Some m' -> k ≠ k' -> starts_with (m ++ r) m' = false) as Hne.
  { intros k' m' Hk' Hkk. eapply clash_starts_with, magics_clash; eauto. }
  assert (starts_with (m ++ r) m = true) as Heq by (apply starts_with_spec; eauto).
  destruct k; cbn in Hk; simplify_eq;
    repeat (rewrite Heq || (erewrite Hne by (done || reflexivity))); done.
Qed.

Lemma classify_magic b k m :
  magic_of k = Some m -> classify_incoming b = k ->
  starts_with (if bool_decide (8 < length b)%nat then drop 8 b else b) m = true.
Proof.
  intros Hk Hc. unfold classify_incoming in Hc.
  repeat case_match; subst; cbn in Hk; simplify_eq; done.
Qed.

(** Dispatch is exact: bytes are classified as a handshake message exactly
    when the magic of that message follows the first eight bytes (the bincode
    length prefix); no input matches two kinds, whatever the order of the
    tests, and everything else is a gossip envelope. *)
Theorem classify_incoming_spec (b : bytes) (k : MessageKind) (m : bytes)
    (Hk : magic_of k = Some m) :
  classify_incoming b = k <-> ∃ pre rest, length pre = 8%nat ∧ b = pre ++ m ++ rest.
Proof.
  split.
  - intros Hc. pose proof (classify_magic _ _ _ Hk Hc) as Hs.
    case_bool_decide as Hl.
    + apply starts_with_spec in Hs as [r Hr].
      exists (take 8 b), r. rewrite <- Hr, take_drop. split; [|done].
      rewrite length_take. lia.
    + apply starts_with_spec in Hs as [r ->].
      destruct k; cbn in Hk; simplify_eq; cbn in Hl; lia.
  - intros (pre & rest & Hp & ->).
    apply (classify_tail _ _ m); [done| |].
    + destruct k; cbn in Hk; simplify_eq; rewrite !length_app; cbn; lia.
    + rewrite <- Hp, drop_app_length. apply starts_with_spec. eauto.
Qed.
