(* ===== verification/Extern.v ===== *)
(** * Interfaces of the code outside the crate

    The crate calls published crates (sha2, hmac, hkdf, hex, pqc-kem, pqc-sig,
    bincode, serde_json, getrandom), the clock and the iteration order of
    [std]'s hash tables.  None of that code is in the repository: each is a
    class of operations, a parameter of every definition that calls it.  The
    classes whose name ends in [Laws] state the documented behaviour the crate
    relies on; a theorem lists the ones it needs.  An error of a foreign
    operation is represented by its [Display] string, the only part of it the
    crate looks at (but for [SigError], see [SigVerdict]). *)

From S2P Require Import Prelude Errors Types.

(** ** Operating system: entropy and wall clock *)

Class OsOps := {
  Os : Type;
  (** [getrandom::getrandom] on a buffer of the given length. *)
  getrandom : nat -> Os -> fallible bytes * Os;
  (** [SystemTime::now().duration_since(UNIX_EPOCH)] in milliseconds; [None]
      for a clock before the epoch. *)
  system_time_ms : Os -> option Z * Os;
}.

Class OsLaws `{OsOps} : Prop := {
  getrandom_length n os b os' : getrandom n os = (inr b, os') -> length b = n;
  system_time_nonneg os ms os' : system_time_ms os = (Some ms, os') -> (0 <= ms)%Z;
}.

(** ** Hashing: sha2, hmac, hkdf

    Feeding a hasher in several [update]s hashes the concatenation. *)

Class Hashing := {
  sha256 : bytes -> bytes;
  (** [Hmac::<Sha256>::new_from_slice(key)] then the MAC of the message;
      [None] when the key is refused. *)
  hmac_sha256 : bytes -> bytes -> option bytes;
  (** [Hkdf::<Sha256>::new(None, ikm).expand(info, okm)] with a buffer of the
      given length; [None] when the length is refused. *)
  hkdf_sha256 : bytes -> bytes -> nat -> option bytes;
}.

Class HashingLaws `{Hashing} : Prop := {
  sha256_length m : length (sha256 m) = 32%nat;
  hmac_any_key k m : ∃ t, hmac_sha256 k m = Some t ∧ length t = 32%nat;
  hkdf_in_range ikm info n :
    (n <= 255 * 32)%nat -> ∃ okm, hkdf_sha256 ikm info n = Some okm ∧ length okm = n;
}.

(** These two messages are a collision.  With outputs of 32 bytes some pair is
    one, so that a pair exists says nothing: a theorem names its pair. *)
Definition collide `{Hashing} (m1 m2 : bytes) : Prop := m1 ≠ m2 ∧ sha256 m1 = sha256 m2.

Lemma same_hash `{Hashing} (m1 m2 : bytes) : sha256 m1 = sha256 m2 -> m1 = m2 ∨ collide m1 m2.
Proof. intros Hh. destruct (decide (m1 = m2)); [by left|by right]. Qed.

(** ** Hexadecimal: the hex crate *)

Class Hex := {
  hex_encode : bytes -> string;
  hex_decode : string -> fallible bytes;
}.

Class HexLaws `{Hex} : Prop := {
  hex_encode_length b : String.length (hex_encode b) = (2 * length b)%nat;
  hex_decode_encode b : hex_decode (hex_encode b) = inr b;
}.

(** The digits are of [0-9a-f]. *)
Class HexDigits `{Hex} : Prop :=
  hex_encode_digits b : forallb is_ascii_hexdigit (as_bytes (hex_encode b)) = true.

(** ** Signatures: pqc-sig (ML-DSA-65) *)

(** The result of [MlDsa65Keypair::verify], as the crate distinguishes it. *)
Inductive SigVerdict : Type :=
  | SigValid
  | SigVerificationFailed
  | SigOtherError (display : string).

Class PqcSig `{OsOps} := {
  SigKeypair : Type;
  sig_generate : Os -> fallible SigKeypair * Os;
  sig_from_secret_key_bytes : bytes -> fallible SigKeypair;
  sig_public_key : SigKeypair -> bytes;
  sign_deterministic : SigKeypair -> bytes -> fallible bytes;
  (** public key, message, signature *)
  sig_verify : bytes -> bytes -> bytes -> SigVerdict;
}.

Class PqcSigLaws `{PqcSig} : Prop := {
  sig_verify_sign kp m s :
    sign_deterministic kp m = inr s -> sig_verify (sig_public_key kp) m s = SigValid;
  sig_public_key_length kp : length (sig_public_key kp) = 1952%nat;
  signature_length kp m s : sign_deterministic kp m = inr s -> length s = 3309%nat;
}.

(** The last byte of a signature is the last count of its hint, at most
    ω = 55 (FIPS 204, HintBitPack); a signature with another count is not
    decoded. *)
Class SignatureHint `{PqcSig} : Prop :=
  hint_count pk m s :
    sig_verify pk m s = SigValid -> (byte_to_Z (List.last s (byte_of_Z 0)) <= 55)%Z.

(** ** Key encapsulation: pqc-kem (X25519 + ML-KEM-768) *)

Class PqcKem `{OsOps} := {
  KemKeypair : Type;
  KemPublicKey : Type;
  KemCiphertext : Type;
  KemSecret : Type;
  kem_generate : Os -> fallible KemKeypair * Os;
  (** X25519 secret, ML-KEM seed *)
  kem_from_secret_key_bytes : bytes -> bytes -> fallible KemKeypair;
  kem_public_key : KemKeypair -> KemPublicKey;
  x25519_bytes : KemPublicKey -> fallible bytes;
  mlkem_bytes : KemPublicKey -> fallible bytes;
  kem_pk_to_json : KemPublicKey -> fallible string;
  kem_pk_from_json : string -> fallible KemPublicKey;
  encapsulate_to : KemPublicKey -> Os -> fallible (KemCiphertext * KemSecret) * Os;
  decapsulate : KemKeypair -> KemCiphertext -> fallible KemSecret;
  as_32_bytes : KemSecret -> fallible bytes;
  ct_to_json : KemCiphertext -> fallible string;
  ct_from_json : string -> fallible KemCiphertext;
}.

Class PqcKemLaws `{PqcKem} : Prop := {
  kem_correct kp os ct ss os' :
    encapsulate_to (kem_public_key kp) os = (inr (ct, ss), os') -> decapsulate kp ct = inr ss;
  kem_pk_json_roundtrip pk j : kem_pk_to_json pk = inr j -> kem_pk_from_json j = inr pk;
  ct_json_roundtrip ct j : ct_to_json ct = inr j -> ct_from_json j = inr ct;
  x25519_bytes_length pk b : x25519_bytes pk = inr b -> length b = 32%nat;
  mlkem_bytes_length pk b : mlkem_bytes pk = inr b -> length b = 1184%nat;
  as_32_bytes_length ss b : as_32_bytes ss = inr b -> length b = 32%nat;
}.

(** ** Wire format: bincode

    [bincode::serialize] and [bincode::deserialize] at one type, and the
    size-limited deserializer ([DefaultOptions] with fixint encoding and a byte
    limit) the lineage decoder uses. *)

Class Bincode (A : Type) := {
  serialize : A -> fallible bytes;
  deserialize : bytes -> fallible A;
  deserialize_limit : Z -> bytes -> fallible A;
}.

Class BincodeLaws (A : Type) `{Bincode A} : Prop := {
  deserialize_serialize (a : A) b : serialize a = inr b -> deserialize b = inr a;
  deserialize_limit_serialize (a : A) b n :
    serialize a = inr b -> (Z.of_nat (length b) <= n)%Z -> deserialize_limit n b = inr a;
}.

(** [bincode::deserialize] of bincode 1.3 allows trailing bytes. *)
Class BincodeTrailing (A : Type) `{Bincode A} : Prop :=
  deserialize_trailing (a : A) b r : serialize a = inr b -> deserialize (b ++ r) = inr a.

(** A struct whose first field is a [Vec<u8>] is encoded as the length of that
    field, eight bytes, then the field ([types.rs], [classify_incoming]). *)
Class BincodeHead (A : Type) `{Bincode A} (head : A -> bytes) : Prop :=
  serialize_head (a : A) b :
    serialize a = inr b ->
    ∃ rest, b = le_bytes 8 (Z.of_nat (length (head a))) ++ head a ++ rest.

(** An envelope with its last three fields replaced. *)
Definition with_tail (s : bytes) (timestamp ttl : Z) (e : GossipEnvelope) : GossipEnvelope :=
  mkEnvelope (env_version e) (env_message_id e) (env_sender_node_id e)
    (env_sender_public_key e) (env_payload_type e) (env_payload e) s timestamp ttl.

(** The fields are encoded in the order of their declaration, a vector by its
    length and its elements, an integer in little-endian order: an envelope ends
    in its signature, its timestamp and its TTL. *)
Class EnvelopeTail `{!Bincode GossipEnvelope} : Prop :=
  serialize_tail e b :
    serialize e = inr b ->
    ∃ head,
      b = head ++ env_signature e ++ le_bytes 8 (env_timestamp_unix_ms e)
            ++ [byte_of_Z (env_ttl e)] ∧
      ∀ s timestamp ttl,
        length s = length (env_signature e) -> fits 64 timestamp -> fits 8 ttl ->
        serialize (with_tail s timestamp ttl e)
        = inr (head ++ s ++ le_bytes 8 timestamp ++ [byte_of_Z ttl]).

(** ** JSON: serde_json *)

Class ToJson (A : Type) := json_to_string : A -> fallible string.
Class FromJson (A : Type) := json_from_str : string -> fallible A.

(** ** Iteration order of [std::collections::HashMap]

    Any order the table may produce. *)

Class HashOrder := {
  hash_iter {K V} `{Countable K} : gmap K V -> list (K * V);
}.

Class HashOrderLaws `{HashOrder} : Prop := {
  hash_iter_perm {K V} `{Countable K} (m : gmap K V) : hash_iter m ≡ₚ map_to_list m;
}.

(** ** The bundle every component is written against *)

Class Ext := {
  ext_os :: OsOps;
  ext_hashing :: Hashing;
  ext_hex :: Hex;
  ext_sig :: PqcSig;
  ext_kem :: PqcKem;
  ext_order :: HashOrder;
}.

Class ExtLaws `{Ext} : Prop := {
  ext_os_laws :: OsLaws;
  ext_hashing_laws :: HashingLaws;
  ext_hex_laws :: HexLaws;
  ext_sig_laws :: PqcSigLaws;
  ext_kem_laws :: PqcKemLaws;
  ext_order_laws :: HashOrderLaws;
}.

(** The wire codecs of the messages. *)
Class WireCodecs `{Ext} := {
  wire_envelope :: Bincode GossipEnvelope;
  wire_probe :: Bincode HandshakeProbe;
  wire_ack :: Bincode HandshakeAck;
  wire_finish :: Bincode HandshakeFinish;
  wire_finish_ack :: Bincode HandshakeFinishAck;
  wire_ciphertext :: Bincode KemCiphertext;
}.

Class WireLaws `{WireCodecs} : Prop := {
  wire_envelope_laws :: BincodeLaws GossipEnvelope;
  wire_probe_laws :: BincodeLaws HandshakeProbe;
  wire_ack_laws :: BincodeLaws HandshakeAck;
  wire_finish_laws :: BincodeLaws HandshakeFinish;
  wire_finish_ack_laws :: BincodeLaws HandshakeFinishAck;
  wire_probe_head :: BincodeHead HandshakeProbe probe_magic;
  wire_ack_head :: BincodeHead HandshakeAck ack_magic;
  wire_finish_head :: BincodeHead HandshakeFinish fin_magic;
  wire_finish_ack_head :: BincodeHead HandshakeFinishAck fa_magic;
}.

(** [bincode::serialize] into a [Vec] does not fail on a value its type can
    hold. *)
Class WireTotal `{WireCodecs} : Prop := {
  serialize_envelope_total e : envelope_fits e -> ∃ b, serialize e = inr b;
  serialize_probe_total p : probe_fits p -> ∃ b, serialize p = inr b;
  serialize_ack_total a : ack_fits a -> ∃ b, serialize a = inr b;
  serialize_finish_total f : finish_fits f -> ∃ b, serialize f = inr b;
  serialize_finish_ack_total f : finish_ack_fits f -> ∃ b, serialize f = inr b;
}.

(** A call of an entropy-consuming foreign operation inside a method that
    threads the operating system next to its state. *)
Definition os_call `{OsOps} {S A} (op : Os -> fallible A * Os)
    (err : string -> GossipError) : method (S * Os) A :=
  λ s, let '(r, os') := op (snd s) in (map_err err r, (fst s, os')).

Lemma os_call_ok `{OsOps} {S A} (op : Os -> fallible A * Os) err (s : S * Os) a s' :
  os_call op err s = (Ok a, s') <-> op s.2 = (inr a, s'.2) ∧ s'.1 = s.1.
Proof.
  unfold os_call. destruct (op s.2) as [[e|a'] os'], s' as [s1 s2]; cbn; naive_solver.
Qed.

Lemma readonly_os_call `{OsOps} {S A} (op : Os -> fallible A * Os) err :
  readonly (os_call (S:=S) op err).
Proof. intros s. unfold os_call. by destruct (op s.2). Qed.

#[export] Hint Resolve readonly_os_call : witan.

Lemma panic_free_os_call `{OsOps} {S A} (op : Os -> fallible A * Os) err :
  panic_free (os_call (S:=S) op err).
Proof. intros s. unfold os_call. destruct (op s.2). apply map_err_no_panic. Qed.
