(* ===== verification/F64.v ===== *)
(** * Binary64 arithmetic

    The [f64] operations of [config.rs] and [quorum.rs], on the IEEE 754
    specification floats of the Standard Library ([SpecFloat], which is
    executable and free of axioms): the cast from [usize], the product, [ceil],
    the saturating cast back, and the order.  [usize] has the width of the
    wasm32 targets the crate ships for. *)

From Stdlib Require Export SpecFloat.
From S2P Require Import Prelude.

Abbreviation f64 := spec_float.

Definition usize_bits : Z := 32.
Definition usize_max : Z := 2 ^ usize_bits - 1.

Definition f64_prec : Z := 53.
Definition f64_emax : Z := 1024.

(** [n as f64] *)
Definition f64_of_usize (n : Z) : f64 := binary_normalize f64_prec f64_emax n 0 false.

Definition f64_mul (x y : f64) : f64 := SFmul f64_prec f64_emax x y.

(** [x <= y] of Rust: false when either is NaN. *)
Definition f64_le (x y : f64) : bool := SFleb x y.

(** Least integer at or above [± m * 2 ^ e], for a negative [e]. *)
Definition ceil_Z (s : bool) (m : positive) (e : Z) : Z :=
  (- ((- cond_Zopp s (Zpos m)) `div` 2 ^ (- e)))%Z.

(** [x.ceil()] *)
Definition f64_ceil (x : f64) : f64 :=
  match x with
  | S754_finite s m e =>
      if (0 <=? e)%Z then x else binary_normalize f64_prec f64_emax (ceil_Z s m e) 0 s
  | _ => x
  end.

(** [x as usize]: truncates, saturates, and sends NaN to 0. *)
Definition f64_as_usize (x : f64) : Z :=
  match x with
  | S754_finite false m e =>
      Z.min usize_max (if (0 <=? e)%Z then Zpos m * 2 ^ e else Zpos m `div` 2 ^ (- e))%Z
  | S754_infinity false => usize_max
  | _ => 0
  end.

(** A decimal literal [n / 10 ^ k], correctly rounded. *)
Definition f64_literal (n : Z) (k : nat) : f64 :=
  SFdiv f64_prec f64_emax (f64_of_usize n) (f64_of_usize (10 ^ Z.of_nat k)).

Definition f64_zero : f64 := S754_zero false.
Definition f64_one : f64 := f64_of_usize 1.

(** [(0.0..=1.0).contains(&x)] *)
Definition in_unit_range (x : f64) : bool := f64_le f64_zero x && f64_le x f64_one.

(** ** The size of a rounded product

    [digits2_pos] counts binary digits; rounding to 53 digits moves the value by
    less than one unit of the last kept digit. *)

Local Open Scope Z_scope.

Lemma digits2_bounds p : 2 ^ (Zpos (digits2_pos p) - 1) <= Zpos p < 2 ^ Zpos (digits2_pos p).
Proof.
  induction p as [p IH|p IH|]; cbn [digits2_pos]; [| |by cbn]; rewrite Pos2Z.inj_succ;
    replace (Z.succ (Zpos (digits2_pos p)) - 1) with (Zpos (digits2_pos p)) by lia;
    rewrite Z.pow_succ_r by lia;
    replace (2 ^ Zpos (digits2_pos p)) with (2 * 2 ^ (Zpos (digits2_pos p) - 1)) in *
      by (rewrite <- Z.pow_succ_r by lia; f_equal; lia); lia.
Qed.

Lemma digits2_unique p d : 2 ^ (d - 1) <= Zpos p < 2 ^ d -> 0 < d -> Zpos (digits2_pos p) = d.
Proof.
  intros [H1 H2] Hd. pose proof (digits2_bounds p) as [H3 H4].
  assert (d - 1 < Zpos (digits2_pos p)) by (apply (Z.pow_lt_mono_r_iff 2); lia).
  assert (Zpos (digits2_pos p) - 1 < d) by (apply (Z.pow_lt_mono_r_iff 2); lia).
  lia.
Qed.

Lemma digits2_le p d : Zpos p < 2 ^ d -> 0 <= d -> Zpos (digits2_pos p) <= d.
Proof.
  intros H Hd. pose proof (digits2_bounds p) as [H3 _].
  assert (Zpos (digits2_pos p) - 1 < d) by (apply (Z.pow_lt_mono_r_iff 2); lia). lia.
Qed.

Lemma pos_iter_xO p k : Zpos (Pos.iter xO p k) = Zpos p * 2 ^ Zpos k.
Proof.
  induction k using Pos.peano_ind; [cbn; lia|].
  rewrite Pos.iter_succ, Pos2Z.inj_succ, Z.pow_succ_r by lia. lia.
Qed.

Lemma iter_pos_nat {A : Type} (f : A -> A) (n : positive) (x : A) :
  SpecFloat.iter_pos f n x = Nat.iter (Pos.to_nat n) f x.
Proof.
  revert x; induction n as [n IH|n IH|]; intros x; cbn [SpecFloat.iter_pos]; [| |done]; rewrite !IH;
    rewrite ?Pos2Nat.inj_xI, ?Pos2Nat.inj_xO, <- Nat.iter_add.
  - rewrite Nat.iter_succ_r. f_equal. lia.
  - f_equal. lia.
Qed.

Lemma shr_1_m r : 0 <= shr_m r -> shr_m (shr_1 r) = shr_m r / 2.
Proof.
  destruct r as [m a b]; cbn; intros Hm.
  destruct m as [|[p|p|]|p]; cbn; try lia; try done.
  - rewrite Pos2Z.inj_xI. apply (Z.div_unique _ _ _ 1); lia.
  - rewrite Pos2Z.inj_xO. apply (Z.div_unique _ _ _ 0); lia.
Qed.

Lemma shr_iter_m k r : 0 <= shr_m r -> shr_m (Nat.iter k shr_1 r) = shr_m r / 2 ^ Z.of_nat k.
Proof.
  intros Hr. induction k as [|k IH]; [cbn; by rewrite Z.div_1_r|].
  change (Nat.iter (S k) shr_1 r) with (shr_1 (Nat.iter k shr_1 r)).
  rewrite shr_1_m; rewrite IH.
  - rewrite Nat2Z.inj_succ, Z.pow_succ_r, (Z.mul_comm 2), Z.div_div by lia. done.
  - apply Z.div_pos; lia.
Qed.

(** One right shift of [shr]: the kept part is the quotient. *)
Lemma shr_spec r e n :
  0 <= shr_m r ->
  shr_m (shr r e n).1 = shr_m r / 2 ^ Z.max 0 n ∧ (shr r e n).2 = e + Z.max 0 n.
Proof.
  intros Hr. destruct n as [|p|p]; cbn [shr fst snd];
    rewrite ?Z.max_l, ?Z.max_r, ?Z.div_1_r, ?Z.add_0_r by lia; try done.
  by rewrite iter_pos_nat, shr_iter_m, positive_nat_Z.
Qed.

Lemma round_nearest_even_bounds m l : m <= round_nearest_even m l <= m + 1.
Proof. destruct l as [|[]]; cbn; try lia. case_match; lia. Qed.

Lemma fexp_normal d e :
  - 1074 <= d + e - 53 -> fexp f64_prec f64_emax (d + e) = d + e - 53.
Proof. intros. unfold fexp, emin, f64_prec, f64_emax. lia. Qed.

Lemma pow2_split a b : 0 <= a -> 0 <= b -> 2 ^ (a + b) = 2 ^ a * 2 ^ b.
Proof. intros. by apply Z.pow_add_r. Qed.

Lemma quotient_digits mx n1 :
  n1 = Zpos (digits2_pos mx) - 53 -> 0 <= n1 -> 2 ^ 52 <= Zpos mx / 2 ^ n1 < 2 ^ 53.
Proof.
  intros -> Hn. pose proof (digits2_bounds mx) as [H1 H2].
  set (d := Zpos (digits2_pos mx)) in *.
  replace (2 ^ (d - 1)) with (2 ^ (d - 53) * 2 ^ 52) in H1 by (rewrite <- pow2_split by lia; f_equal; lia).
  replace (2 ^ d) with (2 ^ (d - 53) * 2 ^ 53) in H2 by (rewrite <- pow2_split by lia; f_equal; lia).
  split; [apply Z.div_le_lower_bound; lia|apply Z.div_lt_upper_bound; lia].
Qed.

(** Rounding a mantissa of at least 53 digits, away from underflow and
    overflow. *)
Lemma round_aux_bounds mx ex n1 :
  n1 = Zpos (digits2_pos mx) - 53 -> 0 <= n1 -> - 1074 <= ex + n1 -> ex + n1 + 1 <= 971 ->
  ∃ m e, binary_round_aux f64_prec f64_emax false (Zpos mx) ex loc_Exact = S754_finite false m e ∧
    ex + n1 <= e <= ex + n1 + 1 ∧
    Zpos mx - 2 ^ (n1 + 1) <= Zpos m * 2 ^ (e - ex) <= Zpos mx + 2 ^ n1.
Proof.
  intros Hn1 Hn Hlow Hhigh. unfold binary_round_aux, shr_fexp. cbn [shr_record_of_loc Zdigits2].
  pose proof (quotient_digits _ _ Hn1 Hn) as HM.
  rewrite fexp_normal by lia.
  replace (Zpos (digits2_pos mx) + ex - 53 - ex) with n1 by lia.
  pose proof (shr_spec (Build_shr_record (Zpos mx) false false) ex n1) as [Hs1 Hs2]; [cbn; lia|].
  destruct (shr _ ex n1) as [r1 e1]. cbn [fst snd shr_m] in Hs1, Hs2.
  rewrite Z.max_r in Hs1, Hs2 by done. subst e1. rewrite Hs1.
  pose proof (round_nearest_even_bounds (Zpos mx / 2 ^ n1) (loc_of_shr_record r1)) as HR.
  set (m1 := round_nearest_even _ _) in *. clearbody m1.
  destruct m1 as [|p1|p1]; try lia. cbn [Zdigits2].
  assert (53 <= Zpos (digits2_pos p1) <= 54) as Hd.
  { split; [|apply digits2_le; lia].
    pose proof (digits2_bounds p1) as [_ Hu].
    assert (52 < Zpos (digits2_pos p1)) by (apply (Z.pow_lt_mono_r_iff 2); lia). lia. }
  rewrite fexp_normal by lia.
  set (n2 := Zpos (digits2_pos p1) + (ex + n1) - 53 - (ex + n1)).
  assert (0 <= n2 <= 1) as Hn2 by (unfold n2; lia).
  pose proof (shr_spec (Build_shr_record (Zpos p1) false false) (ex + n1) n2) as [Ht1 Ht2]; [cbn; lia|].
  destruct (shr _ (ex + n1) n2) as [r2 e2]. cbn [fst snd shr_m] in Ht1, Ht2.
  rewrite Z.max_r in Ht1, Ht2 by lia. subst e2.
  assert (0 < 2 ^ n1) as Hp by (apply Z.pow_pos_nonneg; lia).
  pose proof (Z.div_mod (Zpos mx) (2 ^ n1)) as Hdm.
  pose proof (Z.mod_pos_bound (Zpos mx) (2 ^ n1) Hp) as Hmb.
  assert (1 <= 2 ^ n2 <= 2) as Hp2.
  { destruct (decide (n2 = 0)) as [->|]; [cbn; lia|]. replace n2 with 1 by lia. cbn. lia. }
  pose proof (Z.div_mod (Zpos p1) (2 ^ n2)) as Hdm2.
  pose proof (Z.mod_pos_bound (Zpos p1) (2 ^ n2)) as Hmb2.
  rewrite Ht1. destruct (Zpos p1 / 2 ^ n2) as [|m2|m2] eqn:E2; [nia| |nia].
  rewrite (proj2 (Z.leb_le _ _)) by (unfold f64_emax, f64_prec; lia).
  exists m2, (ex + n1 + n2). split; [done|]. split; [lia|].
  replace (ex + n1 + n2 - ex) with (n2 + n1) by lia.
  rewrite !pow2_split by lia. change (2 ^ 1) with 2. rewrite Z.mul_assoc.
  nia.
Qed.

(** Integers below [2 ^ 53] are exact: mantissa of 53 digits. *)
Lemma f64_of_usize_spec p :
  let d := Zpos (digits2_pos p) in
  d <= 53 ->
  ∃ m, f64_of_usize (Zpos p) = S754_finite false m (d - 53) ∧
    Zpos m = Zpos p * 2 ^ (53 - d) ∧ Zpos (digits2_pos m) = 53.
Proof.
  intros d Hd. pose proof (digits2_bounds p) as Hb. fold d in Hb.
  set (m := match 53 - d with Zpos k => Pos.iter xO p k | _ => p end).
  assert (Zpos m = Zpos p * 2 ^ (53 - d)) as Hm.
  { unfold m. destruct (53 - d) as [|k|k] eqn:E; [lia|apply pos_iter_xO|lia]. }
  assert (Zpos (digits2_pos m) = 53) as Hdm.
  { apply digits2_unique; [|lia]. rewrite Hm.
    replace (2 ^ (53 - 1)) with (2 ^ (d - 1) * 2 ^ (53 - d)) by (rewrite <- pow2_split by lia; f_equal; lia).
    replace (2 ^ 53) with (2 ^ d * 2 ^ (53 - d)) by (rewrite <- pow2_split by lia; f_equal; lia).
    pose proof (Z.pow_pos_nonneg 2 (53 - d)). nia. }
  exists m. split; [|done]. unfold f64_of_usize, binary_normalize, binary_round.
  assert (shl_align p 0 (fexp f64_prec f64_emax (Zpos (digits2_pos p) + 0)) = (m, d - 53)) as ->.
  { fold d. rewrite fexp_normal by lia. unfold shl_align, m.
    replace (d + 0 - 53 - 0) with (- (53 - d)) by lia.
    destruct (53 - d) as [|k|k] eqn:E; cbn [Z.opp]; f_equal; lia. }
  unfold binary_round_aux, shr_fexp. cbn [shr_record_of_loc Zdigits2].
  rewrite fexp_normal by lia. rewrite Hdm.
  replace (53 + (d - 53) - 53 - (d - 53)) with 0 by lia. cbn [shr shr_m loc_of_shr_record round_nearest_even].
  cbn [Zdigits2]. rewrite fexp_normal by lia. rewrite Hdm.
  replace (53 + (d - 53) - 53 - (d - 53)) with 0 by lia. cbn [shr shr_m shr_record_of_loc].
  by rewrite (proj2 (Z.leb_le _ _)) by (unfold f64_emax, f64_prec; lia).
Qed.

Lemma f64_usize_roundtrip z :
  0 <= z < 2 ^ 53 -> f64_as_usize (f64_of_usize z) = Z.min usize_max z.
Proof.
  intros Hz. destruct z as [|p|p]; [done| |lia].
  pose proof (digits2_le p 53) as Hd.
  destruct (f64_of_usize_spec p) as (m & -> & Hm & _); [lia|].
  cbn [f64_as_usize]. destruct (Z.leb_spec 0 (Zpos (digits2_pos p) - 53)).
  - assert (Zpos (digits2_pos p) = 53) as E by lia. rewrite E in *. cbn in Hm. f_equal. cbn. lia.
  - f_equal. replace (- (Zpos (digits2_pos p) - 53)) with (53 - Zpos (digits2_pos p)) by lia.
    rewrite Hm, Z.div_mul; [done|]. apply Z.pow_nonzero; lia.
Qed.

(** The ceiling of a positive value below [2 ^ 52], cast back. *)
Lemma f64_ceil_usize m e :
  e < 0 -> Zpos m <= 2 ^ 52 * 2 ^ (- e) ->
  ∃ q, f64_as_usize (f64_ceil (S754_finite false m e)) = Z.min usize_max q ∧
    (q - 1) * 2 ^ (- e) < Zpos m <= q * 2 ^ (- e).
Proof.
  intros He Hm. unfold f64_ceil. rewrite (proj2 (Z.leb_gt _ _)) by lia.
  pose proof (Z.pow_pos_nonneg 2 (- e)) as Hp.
  set (P := 2 ^ (- e)) in *. set (q := ceil_Z false m e).
  assert ((q - 1) * P < Zpos m <= q * P) as Hq.
  { unfold q, ceil_Z. cbn [cond_Zopp]. fold P.
    pose proof (Z.div_mod (- Zpos m) P). pose proof (Z.mod_pos_bound (- Zpos m) P). nia. }
  exists q. split; [|done]. apply (f64_usize_roundtrip q). nia.
Qed.

(** The literal [0.67] as the nearest binary64. *)
Lemma literal_067 : f64_literal 67 2 = S754_finite false 6034823500676465 (-53).
Proof. vm_compute. reflexivity. Qed.
