(* ===== verification/Config.v ===== *)
(** * Configuration

    [witan/src/config.rs]: the optional fields of the JSON configuration, and
    [resolve], which decodes the seeds, applies the defaults and validates the
    mesh parameters and the quorum fraction. *)

From S2P Require Import Prelude Errors Types Extern F64.

Record GossipConfig : Type := mkConfig {
  cfg_node_id : option string;
  cfg_kem_seed_hex : option string;
  cfg_sig_seed_hex : option string;
  cfg_key_epoch : option string;
  cfg_mesh_n : option Z;            (* u8 *)
  cfg_mesh_n_low : option Z;        (* u8 *)
  cfg_mesh_n_high : option Z;       (* u8 *)
  cfg_heartbeat_ms : option Z;      (* u64 *)
  cfg_max_message_bytes : option Z; (* usize *)
  cfg_dedup_cache_secs : option Z;  (* u64 *)
  cfg_quorum_fraction : option f64;
  cfg_replay_window_ms : option Z;  (* u64 *)
  cfg_default_ttl : option Z;       (* u8 *)
}.

Record ResolvedConfig : Type := mkResolved {
  node_id_override : option string;
  kem_seed : option bytes;
  sig_seed : option bytes;
  key_epoch : string;
  mesh_n : Z;
  mesh_n_low : Z;
  mesh_n_high : Z;
  heartbeat_ms : Z;
  max_message_bytes : Z;
  dedup_cache_secs : Z;
  quorum_fraction : f64;
  replay_window_ms : Z;
  default_ttl : Z;
}.

(** [GossipConfig::default()] of the JSON text ["{}"]: every field missing. *)
Definition empty_config : GossipConfig :=
  mkConfig None None None None None None None None None None None None None.

(** The values the optional fields of the Rust struct can hold. *)
Definition opt_fits (w : Z) (o : option Z) : Prop := ∀ z, o = Some z -> fits w z.

Record config_fits (c : GossipConfig) : Prop := {
  cf_mesh_n : opt_fits 8 (cfg_mesh_n c);
  cf_mesh_n_low : opt_fits 8 (cfg_mesh_n_low c);
  cf_mesh_n_high : opt_fits 8 (cfg_mesh_n_high c);
  cf_heartbeat_ms : opt_fits 64 (cfg_heartbeat_ms c);
  cf_max_message_bytes : opt_fits usize_bits (cfg_max_message_bytes c);
  cf_dedup_cache_secs : opt_fits 64 (cfg_dedup_cache_secs c);
  cf_replay_window_ms : opt_fits 64 (cfg_replay_window_ms c);
  cf_default_ttl : opt_fits 8 (cfg_default_ttl c);
}.

(** serde_json refuses a number its field cannot hold. *)
Class ConfigJsonLaws `{FromJson GossipConfig} : Prop :=
  json_config_fits s c : json_from_str s = inr c -> config_fits c.

Section Config.
Context {X : Ext}.

(** [GossipConfig::from_json]. *)
Definition from_json `{!FromJson GossipConfig} (s : string) : res GossipConfig :=
  map_err (λ e, ConfigError ("JSON parse error: " +:+ e)) (json_from_str s).

(** One of the two seed blocks of [resolve]. *)
Definition decode_seed (field : string) (len : nat) (o : option string) : res (option bytes) :=
  match o with
  | Some hex_str =>
      bytes ← map_err (λ e, ConfigError (field +:+ " decode error: " +:+ e)) (hex_decode hex_str);
      if bool_decide (length bytes = len) then Ok (Some bytes)
      else Err (ConfigError (field +:+ " must be " +:+ pretty len +:+ " bytes ("
                             +:+ pretty (2 * len)%nat +:+ " hex chars), got "
                             +:+ pretty (length bytes) +:+ " bytes"))
  | None => Ok None
  end.

(** [GossipConfig::resolve]. *)
Definition resolve (c : GossipConfig) : res ResolvedConfig :=
  kem ← decode_seed "kem_seed_hex" 96 (cfg_kem_seed_hex c);
  sig ← decode_seed "sig_seed_hex" 32 (cfg_sig_seed_hex c);
  let n := default 8%Z (cfg_mesh_n c) in
  let low := default 4%Z (cfg_mesh_n_low c) in
  let high := default 12%Z (cfg_mesh_n_high c) in
  let q := default (f64_literal 67 2) (cfg_quorum_fraction c) in
  if (n <? low)%Z then Err (ConfigError "mesh_n_low must be <= mesh_n")
  else if (high <? n)%Z then Err (ConfigError "mesh_n must be <= mesh_n_high")
  else if negb (in_unit_range q) then
    Err (ConfigError "quorum_fraction must be between 0.0 and 1.0")
  else Ok {|
    node_id_override := cfg_node_id c;
    kem_seed := kem;
    sig_seed := sig;
    key_epoch := default "ephemeral-runtime" (cfg_key_epoch c);
    mesh_n := n;
    mesh_n_low := low;
    mesh_n_high := high;
    heartbeat_ms := default 700%Z (cfg_heartbeat_ms c);
    max_message_bytes := default 1048576%Z (cfg_max_message_bytes c);
    dedup_cache_secs := default 60%Z (cfg_dedup_cache_secs c);
    quorum_fraction := q;
    replay_window_ms := default 30000%Z (cfg_replay_window_ms c);
    default_ttl := default 8%Z (cfg_default_ttl c);
  |}.

(** What every resolved configuration satisfies. *)
Record config_wf (r : ResolvedConfig) : Prop := {
  wf_mesh_low : (mesh_n_low r <= mesh_n r)%Z;
  wf_mesh_high : (mesh_n r <= mesh_n_high r)%Z;
  wf_quorum : in_unit_range (quorum_fraction r) = true;
  wf_kem_seed s : kem_seed r = Some s -> length s = 96%nat;
  wf_sig_seed s : sig_seed r = Some s -> length s = 32%nat;
}.

(** The seed fields of an accepted configuration. *)
Definition seed_ok (len : nat) (o : option string) : Prop :=
  ∀ h, o = Some h -> ∃ b, hex_decode h = inr b ∧ length b = len.

Lemma decode_seed_ok field len o s :
  decode_seed field len o = Ok s ->
  seed_ok len o ∧ (∀ b, s = Some b -> length b = len).
Proof.
  unfold decode_seed, seed_ok. unfold_m. intros H.
  destruct o as [h|]; simplify_eq; [|by split].
  destruct (hex_decode h) as [e|b] eqn:E; cbn in H; try done.
  case_bool_decide; simplify_eq. naive_solver.
Qed.

Lemma decode_seed_complete field len o :
  seed_ok len o -> ∃ s, decode_seed field len o = Ok s.
Proof.
  unfold decode_seed, seed_ok. intros H. destruct o as [h|]; [|eauto].
  destruct (H h eq_refl) as (b & Hb & Hl). unfold_m.
  rewrite Hb. cbn. rewrite bool_decide_true by done. eauto.
Qed.

Lemma decode_seed_no_panic field len o : decode_seed field len o ≠ Panic.
Proof.
  destruct o as [h|]; [|done]. apply bind_no_panic; [apply map_err_no_panic|].
  intros b _. by case_bool_decide.
Qed.

Lemma resolve_no_panic c : resolve c ≠ Panic.
Proof.
  unfold resolve. repeat (apply bind_no_panic; [apply decode_seed_no_panic|intros ? _]).
  by repeat case_match.
Qed.

(** The conditions under which [resolve] accepts. *)
Definition acceptable (c : GossipConfig) : Prop :=
  seed_ok 96 (cfg_kem_seed_hex c) ∧ seed_ok 32 (cfg_sig_seed_hex c) ∧
  (default 4 (cfg_mesh_n_low c) <= default 8 (cfg_mesh_n c))%Z ∧
  (default 8 (cfg_mesh_n c) <= default 12 (cfg_mesh_n_high c))%Z ∧
  in_unit_range (default (f64_literal 67 2) (cfg_quorum_fraction c)) = true.

Lemma resolve_inv c r : resolve c = Ok r -> acceptable c ∧ config_wf r.
Proof.
  unfold resolve. unfold_m. intros H.
  destruct (decode_seed "kem_seed_hex" _ _) as [kem|e|] eqn:Ek; try done.
  destruct (decode_seed "sig_seed_hex" _ _) as [sig|e|] eqn:Es; try done.
  apply decode_seed_ok in Ek as [Hk Ek], Es as [Hs Es].
  destruct (Z.ltb_spec (default 8%Z (cfg_mesh_n c)) (default 4%Z (cfg_mesh_n_low c))); [done|].
  destruct (Z.ltb_spec (default 12%Z (cfg_mesh_n_high c)) (default 8%Z (cfg_mesh_n c))); [done|].
  destruct (in_unit_range _) eqn:Eq; cbn in H; simplify_eq.
  split; [unfold acceptable; auto|by constructor; cbn].
Qed.

Lemma resolve_high_nonneg c r :
  config_fits c -> resolve c = Ok r -> (0 <= mesh_n_high r)%Z.
Proof.
  intros Hc H. pose proof (cf_mesh_n_high _ Hc) as Hh.
  assert (mesh_n_high r = default 12%Z (cfg_mesh_n_high c)) as ->.
  { unfold resolve in H. unfold_m. repeat (case_match; try done). by simplify_eq. }
  destruct (cfg_mesh_n_high c) as [z|]; cbn; [|lia]. apply (Hh z eq_refl).
Qed.

(** Every configuration [resolve] accepts is well formed: the mesh
    watermarks are ordered, the quorum fraction lies in the unit interval
    (so it is not NaN), and a seed that is present has its exact length. *)
Theorem resolve_wf (c : GossipConfig) (r : ResolvedConfig) (H : resolve c = Ok r) :
  config_wf r.
Proof. by apply resolve_inv in H as [_ H]. Qed.

(** [resolve] accepts exactly the configurations whose seeds decode to
    the right length and whose defaulted mesh and quorum parameters are in
    range; it never panics. *)
Theorem resolve_accepts (c : GossipConfig) :
  resolve c ≠ Panic ∧ ((∃ r, resolve c = Ok r) <-> acceptable c).
Proof.
  split; [apply resolve_no_panic|].
  split; [intros [r H]; by apply resolve_inv in H as [H _]|].
  intros (Hk & Hs & Hl & Hh & Hq). unfold resolve. unfold_m.
  destruct (decode_seed_complete "kem_seed_hex" _ _ Hk) as [kem ->].
  destruct (decode_seed_complete "sig_seed_hex" _ _ Hs) as [sig ->].
  rewrite Hq, !(proj2 (Z.ltb_ge _ _)) by lia. cbn. eauto.
Qed.
End Config.
