(* ===== verification/Dedup.v ===== *)
(** * Deduplication cache

    [witan/src/dedup.rs]: message id -> insertion time, with lazy eviction.
    The cache is compared with an abstract filter that never forgets: over any
    history whose clock does not run backwards the two give the same answers,
    so eviction is invisible but for the memory it frees. *)

From S2P Require Import Prelude.

Module Cache.

Record DedupCache : Type := mkDedup {
  entries : gmap bytes Z;   (* HashMap<[u8; 32], u64> *)
  ttl_ms : Z;               (* u64 *)
}.

(** [ttl_secs * 1000] in [u64]. *)
Definition new (ttl_secs : Z) : DedupCache := mkDedup ∅ (wrap 64 (ttl_secs * 1000)).

(** An entry of age at most the TTL; the age saturates at 0. *)
Definition alive (ttl now ts : Z) : Prop := (saturating_sub now ts <= ttl)%Z.

#[global] Instance alive_dec ttl now ts : Decision (alive ttl now ts).
Proof. unfold alive. apply _. Defined.

Definition evict_expired (now : Z) (c : DedupCache) : DedupCache :=
  mkDedup (filter (λ kv, alive (ttl_ms c) now kv.2) (entries c)) (ttl_ms c).

Definition is_duplicate (id : bytes) (now : Z) (c : DedupCache) : bool * DedupCache :=
  let c' := evict_expired now c in
  (bool_decide (is_Some (entries c' !! id)), c').

Definition insert (id : bytes) (now : Z) (c : DedupCache) : DedupCache :=
  mkDedup (<[id := now]> (entries c)) (ttl_ms c).

Definition len (c : DedupCache) : nat := size (entries c).
Definition is_empty (c : DedupCache) : bool := bool_decide (len c = 0%nat).

(** [active_ids]: the keys, up to the order of iteration, which its only
    caller does not look at. *)
Definition active_ids (c : DedupCache) : list bytes := (map_to_list (entries c)).*1.

Lemma elem_of_active_ids c id : id ∈ active_ids c <-> is_Some (entries c !! id).
Proof.
  unfold active_ids. rewrite list_elem_of_fmap. split.
  - intros ([k v] & -> & H%elem_of_map_to_list). by exists v.
  - intros [v H]. exists (id, v). by rewrite elem_of_map_to_list.
Qed.

Lemma lookup_evict now c id ts :
  entries (evict_expired now c) !! id = Some ts <->
  entries c !! id = Some ts ∧ alive (ttl_ms c) now ts.
Proof. cbn. by rewrite map_lookup_filter_Some. Qed.

Lemma ttl_ms_evict now c : ttl_ms (evict_expired now c) = ttl_ms c.
Proof. done. Qed.

Lemma is_duplicate_true id now c :
  (is_duplicate id now c).1 = true <->
  ∃ ts, entries c !! id = Some ts ∧ alive (ttl_ms c) now ts.
Proof.
  cbn. rewrite bool_decide_eq_true. unfold is_Some.
  by setoid_rewrite map_lookup_filter_Some.
Qed.

Lemma evict_idemp now c : evict_expired now (evict_expired now c) = evict_expired now c.
Proof.
  unfold evict_expired. cbn. f_equal. rewrite map_filter_filter.
  apply map_filter_ext. cbn. tauto.
Qed.

(** ** Histories *)

Inductive op : Type :=
  | Query (id : bytes) (now : Z)
  | Insert (id : bytes) (now : Z)
  | Evict (now : Z).

Definition op_time (o : op) : Z :=
  match o with Query _ t | Insert _ t | Evict t => t end.

(** Run a history; a query leaves its answer. *)
Definition step (c : DedupCache) (o : op) : list bool * DedupCache :=
  match o with
  | Query id t => let '(b, c') := is_duplicate id t c in ([b], c')
  | Insert id t => ([], insert id t c)
  | Evict t => ([], evict_expired t c)
  end.

Fixpoint run (c : DedupCache) (h : list op) : list bool * DedupCache :=
  match h with
  | [] => ([], c)
  | o :: h' =>
      let '(a, c') := step c o in
      let '(a', c'') := run c' h' in
      (a ++ a', c'')
  end.

(** The abstract filter: the last insertion time of every id ever seen, and the
    test a query makes on it. *)
Definition seen_within (ttl : Z) (m : gmap bytes Z) (id : bytes) (now : Z) : bool :=
  match m !! id with
  | Some ts => bool_decide (now - ts <= ttl)%Z
  | None => false
  end.

Fixpoint spec_run (ttl : Z) (m : gmap bytes Z) (h : list op) : list bool :=
  match h with
  | [] => []
  | Query id t :: h' => seen_within ttl m id t :: spec_run ttl m h'
  | Insert id t :: h' => spec_run ttl (<[id := t]> m) h'
  | Evict _ :: h' => spec_run ttl m h'
  end.

(** The clock of a history does not run backwards from [t0]. *)
Fixpoint monotone (t0 : Z) (h : list op) : Prop :=
  match h with
  | [] => True
  | o :: h' => (t0 <= op_time o)%Z ∧ monotone (op_time o) h'
  end.

(** The simulation relation at clock [t]: the cache holds only last insertion
    times, none from the future, and misses only expired ones. *)
Record sim (t : Z) (c : DedupCache) (m : gmap bytes Z) : Prop := {
  sim_ttl : (0 <= ttl_ms c)%Z;
  sim_sub id ts : entries c !! id = Some ts -> m !! id = Some ts;
  sim_past id ts : m !! id = Some ts -> (ts <= t)%Z;
  sim_miss id ts : m !! id = Some ts -> entries c !! id = None -> (ttl_ms c < t - ts)%Z;
}.

Lemma sim_evict t t' c m : sim t c m -> (t <= t')%Z -> sim t' (evict_expired t' c) m.
Proof.
  intros [Httl Hsub Hpast Hmiss] Ht. split; [done|..].
  - intros id ts [H _]%lookup_evict. eauto.
  - intros id ts H%Hpast. lia.
  - intros id ts Hm Hnone. rewrite ttl_ms_evict. pose proof (Hpast _ _ Hm).
    destruct (entries c !! id) as [ts'|] eqn:E.
    + pose proof (Hsub _ _ E). simplify_eq.
      destruct (decide (alive (ttl_ms c) t' ts)) as [Ha|Ha].
      * assert (entries (evict_expired t' c) !! id = Some ts) by (by apply lookup_evict).
        congruence.
      * unfold alive, saturating_sub in Ha. lia.
    + pose proof (Hmiss _ _ Hm E). lia.
Qed.

Lemma sim_insert t t' c m id :
  sim t c m -> (t <= t')%Z -> sim t' (insert id t' c) (<[id := t']> m).
Proof.
  intros [Httl Hsub Hpast Hmiss] Ht.
  split; cbn; [done|intros id' ts H..|intros id' ts H Hn];
    destruct (decide (id = id')) as [->|]; simplify_map_eq; eauto; try lia.
  - apply Hpast in H. lia.
  - pose proof (Hmiss _ _ H Hn). lia.
Qed.

Lemma sim_query t c m id t' :
  sim t c m -> (t <= t')%Z ->
  (is_duplicate id t' c).1 = seen_within (ttl_ms c) m id t'.
Proof.
  intros [Httl Hsub Hpast Hmiss] Ht. apply eq_true_iff_eq.
  rewrite is_duplicate_true. unfold seen_within, alive, saturating_sub.
  destruct (m !! id) as [ts|] eqn:Em.
  - rewrite bool_decide_eq_true. pose proof (Hpast _ _ Em) as Hp. split.
    + intros (ts' & H & ?). pose proof (Hsub _ _ H). simplify_eq. lia.
    + intros ?. destruct (entries c !! id) as [ts'|] eqn:E.
      * pose proof (Hsub _ _ E). simplify_eq. exists ts. split; [done|lia].
      * pose proof (Hmiss _ _ Em E). lia.
  - split; [|done]. intros (ts & H & _). apply Hsub in H. congruence.
Qed.

Lemma run_refines t c m h :
  sim t c m -> monotone t h -> (run c h).1 = spec_run (ttl_ms c) m h.
Proof.
  revert t c m. induction h as [|o h IH]; intros t c m Hs Hm; [done|].
  destruct Hm as [Ht Hm]. destruct o as [id t'|id t'|t']; cbn [run step op_time] in *.
  - pose proof (sim_query _ _ _ id _ Hs Ht) as Hq. pose proof (sim_evict _ _ _ _ Hs Ht) as Hs'.
    specialize (IH _ _ _ Hs' Hm). cbn [spec_run]. rewrite <- Hq. unfold is_duplicate.
    destruct (run (evict_expired t' c) h) as [a c'']. cbn in *. by rewrite IH.
  - pose proof (sim_insert _ _ _ _ id Hs Ht) as Hs'. specialize (IH _ _ _ Hs' Hm).
    destruct (run (insert id t' c) h) as [a c'']. cbn in *. done.
  - pose proof (sim_evict _ _ _ _ Hs Ht) as Hs'. specialize (IH _ _ _ Hs' Hm).
    destruct (run (evict_expired t' c) h) as [a c'']. cbn in *. done.
Qed.

(** C14. The cache refines a filter that never forgets: over any history whose
    clock does not run backwards, every query answers "duplicate" exactly when
    the id was inserted before and its last insertion is at most the TTL old;
    evictions, explicit or lazy, change no answer. *)
Theorem dedup_refines_filter (ttl_secs t0 : Z) (h : list op) (Hm : monotone t0 h) :
  (run (new ttl_secs) h).1 = spec_run (wrap 64 (ttl_secs * 1000)) ∅ h.
Proof.
  apply (run_refines t0); [|done].
  split; [apply wrap_fits; lia|done..].
Qed.

(** After an eviction the cache holds exactly the entries that were alive,
    with their times, so it keeps no entry older than the TTL and drops none
    younger; the answer of a query is whether its id is among them. *)
Theorem evict_keeps_alive (c : DedupCache) (now : Z) (id : bytes)
    (Httl : (0 <= ttl_ms c)%Z) :
  (∀ ts, entries (evict_expired now c) !! id = Some ts <->
         entries c !! id = Some ts ∧ (now - ts <= ttl_ms c)%Z) ∧
  is_duplicate id now c = (bool_decide (id ∈ active_ids (evict_expired now c)), evict_expired now c) ∧
  evict_expired now (evict_expired now c) = evict_expired now c.
Proof.
  split; [|split].
  - intros ts. rewrite lookup_evict. unfold alive, saturating_sub. split; intros []; (split; [done|lia]).
  - unfold is_duplicate. f_equal. apply bool_decide_ext. by rewrite elem_of_active_ids.
  - apply evict_idemp.
Qed.

End Cache.
