(* ===== verification/Quorum.v ===== *)
(** * BFT quorum tracker

    [witan/src/quorum.rs]: which peers acknowledged each message, and whether
    the acknowledgements reach [ceil(total_peers * quorum_fraction)], computed
    in binary64 as the code does.  The arithmetic of the default fraction is
    bounded for every [usize] peer count, and two quorums of acknowledgements
    from one peer set are shown to overlap in more than a third of it. *)

From S2P Require Import Prelude F64.

Module Tracker.

Record QuorumTracker : Type := mkTracker {
  acks : gmap bytes (gset string);   (* HashMap<[u8; 32], HashSet<String>> *)
  quorum_fraction : f64;
}.

Definition new (q : f64) : QuorumTracker := mkTracker ∅ q.

Definition record_ack (id : bytes) (peer_addr : string) (t : QuorumTracker) : QuorumTracker :=
  mkTracker (<[id := {[peer_addr]} ∪ default ∅ (acks t !! id)]> (acks t)) (quorum_fraction t).

Definition ack_count (t : QuorumTracker) (id : bytes) : Z :=
  match acks t !! id with Some s => Z.of_nat (size s) | None => 0 end.

(** [(total_peers as f64 * self.quorum_fraction).ceil() as usize] *)
Definition required (q : f64) (total_peers : Z) : Z :=
  f64_as_usize (f64_ceil (f64_mul (f64_of_usize total_peers) q)).

Definition has_quorum (t : QuorumTracker) (id : bytes) (total_peers : Z) : bool :=
  if (total_peers =? 0)%Z then false
  else (required (quorum_fraction t) total_peers <=? ack_count t id)%Z.

Definition prune (known : list bytes) (t : QuorumTracker) : QuorumTracker :=
  mkTracker (filter (λ kv, kv.1 ∈ known) (acks t)) (quorum_fraction t).

(** The acknowledging peers of a message. *)
Definition ackers (t : QuorumTracker) (id : bytes) : gset string := default ∅ (acks t !! id).

Lemma ack_count_ackers t id : ack_count t id = Z.of_nat (size (ackers t id)).
Proof. unfold ack_count, ackers. by destruct (acks t !! id). Qed.

Lemma ackers_record t id id' p :
  ackers (record_ack id p t) id' =
  if decide (id = id') then {[p]} ∪ ackers t id' else ackers t id'.
Proof.
  unfold ackers, record_ack. cbn [acks]. rewrite lookup_insert. by case_decide; subst.
Qed.

Lemma ackers_prune known t id :
  ackers (prune known t) id = if decide (id ∈ known) then ackers t id else ∅.
Proof.
  unfold ackers, prune. cbn [acks]. rewrite map_lookup_filter.
  destruct (acks t !! id) as [s|]; cbn; repeat case_decide; naive_solver.
Qed.

(** Inclusion and exclusion inside a common superset. *)
Lemma size_overlap (A B C : gset string) :
  A ⊆ C -> B ⊆ C -> (size A + size B <= size C + size (A ∩ B))%nat.
Proof.
  intros HA HB.
  assert (size B = size (B ∖ A) + size (A ∩ B))%nat as ->.
  { rewrite <- size_union by set_solver. f_equal. apply leibniz_equiv. intros x.
    set_unfold. destruct (decide (x ∈ A)); tauto. }
  pose proof (size_union_alt A B) as HU.
  assert (size (A ∪ B) <= size C)%nat by (apply subseteq_size; set_solver).
  lia.
Qed.

(** ** The arithmetic of the default fraction *)

Local Open Scope Z_scope.

(** The rounded product [n * 0.67] in units of its last place. *)
Lemma product_067 p :
  let d := Zpos (digits2_pos p) in
  d <= 32 ->
  ∃ m e, f64_mul (f64_of_usize (Zpos p)) (f64_literal 67 2) = S754_finite false m e ∧
    d - 54 <= e <= d - 52 ∧
    (2 ^ 53 * Zpos p * 6034823500676465 - 2 ^ (d + 54) <= Zpos m * 2 ^ (e + 106)
     <= 2 ^ 53 * Zpos p * 6034823500676465 + 2 ^ (d + 53))%Z.
Proof.
  intros d Hd. destruct (f64_of_usize_spec p) as (mp & -> & Hmp & Hdp); [lia|]. fold d.
  fold d in Hmp. rewrite literal_067. unfold f64_mul, SFmul. cbn [xorb].
  replace (d - 53 + -53) with (d - 106) by lia.
  set (mx := (mp * 6034823500676465)%positive).
  assert (105 <= Zpos (digits2_pos mx) <= 106) as Hdx.
  { pose proof (digits2_bounds mp) as Hb. rewrite Hdp in Hb. cbn in Hb. split.
    - pose proof (digits2_bounds mx) as [_ Hu].
      assert (104 < Zpos (digits2_pos mx)); [|lia]. apply (Z.pow_lt_mono_r_iff 2); [lia..|].
      eapply Z.le_lt_trans; [|exact Hu]. unfold mx. rewrite Pos2Z.inj_mul. lia.
    - apply digits2_le; [|lia]. unfold mx. rewrite Pos2Z.inj_mul. lia. }
  destruct (round_aux_bounds mx (d - 106) (Zpos (digits2_pos mx) - 53)) as (m & e & -> & He & Hv); [lia..|].
  exists m, e. split; [done|]. split; [lia|].
  assert (Zpos mx * 2 ^ d = 2 ^ 53 * Zpos p * 6034823500676465) as Hx.
  { unfold mx. rewrite Pos2Z.inj_mul, Hmp.
    replace (2 ^ 53) with (2 ^ (53 - d) * 2 ^ d) by (rewrite <- pow2_split by lia; f_equal; lia). lia. }
  assert (2 ^ (e + 106) = 2 ^ (e - (d - 106)) * 2 ^ d) as He'
    by (rewrite <- pow2_split by lia; f_equal; lia).
  assert (2 ^ (d + 53) = 2 ^ 53 * 2 ^ d) as H53 by (rewrite <- pow2_split by lia; f_equal; lia).
  assert (2 ^ (d + 54) = 2 ^ 54 * 2 ^ d) as H54 by (rewrite <- pow2_split by lia; f_equal; lia).
  assert (2 ^ (Zpos (digits2_pos mx) - 53) <= 2 ^ 53) by (apply Z.pow_le_mono_r; lia).
  assert (2 ^ (Zpos (digits2_pos mx) - 53 + 1) <= 2 ^ 54) by (apply Z.pow_le_mono_r; lia).
  pose proof (Z.pow_pos_nonneg 2 d). rewrite He', H53, H54. nia.
Qed.

(** Two thirds, strictly, and never more than every peer. *)
Lemma required_default n :
  1 <= n <= usize_max ->
  2 * n < 3 * required (f64_literal 67 2) n ∧ required (f64_literal 67 2) n <= n.
Proof.
  intros Hn. destruct n as [|p|p]; [lia| |lia].
  assert (usize_max = 2 ^ 32 - 1) as Hmax by done.
  pose proof (digits2_le p 32) as Hd. pose proof (digits2_bounds p) as Hb.
  destruct (product_067 p) as (m & e & Hm & He & Hlo & Hhi); [lia|].
  set (d := Zpos (digits2_pos p)) in *.
  unfold required. rewrite Hm.
  assert (2 ^ 106 = 2 ^ (e + 106) * 2 ^ (- e)) as H106 by (rewrite <- pow2_split by lia; f_equal; lia).
  assert (0 < 2 ^ (e + 106)) as Hpe by (apply Z.pow_pos_nonneg; lia).
  assert (0 < 2 ^ (- e)) as Hpn by (apply Z.pow_pos_nonneg; lia).
  assert (2 ^ (d + 54) <= 2 ^ 55 * Zpos p) as Hd54.
  { replace (d + 54) with (55 + (d - 1)) by lia. rewrite pow2_split by lia. nia. }
  assert (2 ^ (d + 53) <= 2 ^ 54 * Zpos p) as Hd53.
  { replace (d + 53) with (54 + (d - 1)) by lia. rewrite pow2_split by lia. nia. }
  destruct (f64_ceil_usize m e) as (q & -> & Hq1 & Hq2); [lia|nia|].
  assert (Zpos m * 2 ^ (e + 106) <= q * 2 ^ 106) by (rewrite H106; nia).
  assert ((q - 1) * 2 ^ 106 < Zpos m * 2 ^ (e + 106)) by (rewrite H106; nia).
  lia.
Qed.

(** The default fraction 0.67, evaluated in binary64, asks for strictly more
    than two thirds of the peers and never for more peers than there are,
    whatever the number of peers.  (With three peers this is all three: two of
    three is exactly 2/3, which does not reach the default quorum.) *)
Theorem default_fraction_two_thirds (t : QuorumTracker) (id : bytes) (n : Z)
    (Hq : quorum_fraction t = f64_literal 67 2) (Hn : 1 <= n <= usize_max) :
  (has_quorum t id n = true -> 2 * n < 3 * ack_count t id) ∧
  (n <= ack_count t id -> has_quorum t id n = true).
Proof.
  pose proof (required_default n Hn) as [Hlo Hhi].
  unfold has_quorum. rewrite Hq, (proj2 (Z.eqb_neq n 0)) by lia.
  rewrite Z.leb_le. split; lia.
Qed.

(** C15. Quorum intersection: if two messages both reach the default quorum over
    the same peer set, and only those peers acknowledged them, then more than a
    third of the peers acknowledged both; so with at most a third of the peers
    faulty, some correct peer acknowledged both. *)
Theorem quorum_intersection (t : QuorumTracker) (id1 id2 : bytes) (peers : gset string)
    (Hq : quorum_fraction t = f64_literal 67 2)
    (Hn : (Z.of_nat (size peers) <= usize_max)%Z)
    (H1 : ackers t id1 ⊆ peers) (H2 : ackers t id2 ⊆ peers)
    (Hq1 : has_quorum t id1 (Z.of_nat (size peers)) = true)
    (Hq2 : has_quorum t id2 (Z.of_nat (size peers)) = true) :
  (size peers < 3 * size (ackers t id1 ∩ ackers t id2))%nat.
Proof.
  destruct (decide (size peers = 0%nat)) as [E|]; [unfold has_quorum in Hq1; by rewrite E in Hq1|].
  pose proof (required_default (Z.of_nat (size peers))) as [Hlo _]; [lia|].
  unfold has_quorum in *. rewrite Hq in *. rewrite (proj2 (Z.eqb_neq _ 0)) in Hq1, Hq2 by lia.
  apply Z.leb_le in Hq1, Hq2. rewrite ack_count_ackers in Hq1, Hq2.
  set (A := ackers t id1) in *. set (B := ackers t id2) in *.
  pose proof (size_overlap A B peers H1 H2). lia.
Qed.

(** Acknowledgements form sets: recording one adds exactly that peer to that
    message (a repeated acknowledgement changes nothing), pruning forgets
    exactly the messages that are no longer known, and a quorum once reached is
    not lost by further acknowledgements. *)
Theorem acks_are_sets (t : QuorumTracker) (id id' : bytes) (p : string) (known : list bytes) (n : Z) :
  ackers (record_ack id p t) id' = (if decide (id = id') then {[p]} ∪ ackers t id' else ackers t id') ∧
  ackers (prune known t) id' = (if decide (id' ∈ known) then ackers t id' else ∅) ∧
  (p ∈ ackers t id -> ack_count (record_ack id p t) id = ack_count t id) ∧
  (p ∉ ackers t id -> ack_count (record_ack id p t) id = ack_count t id + 1) ∧
  (has_quorum t id' n = true -> has_quorum (record_ack id p t) id' n = true).
Proof.
  rewrite ackers_record, ackers_prune. do 2 (split; [done|]).
  rewrite !ack_count_ackers, ackers_record, decide_True by done. split_and!.
  - intros Hp. by rewrite (subseteq_union_1_L {[p]}) by set_solver.
  - intros Hp. rewrite size_union by set_solver. rewrite size_singleton. lia.
  - unfold has_quorum. destruct (n =? 0); [done|]. rewrite !Z.leb_le, !ack_count_ackers, ackers_record.
    cbn [quorum_fraction record_ack]. intros Hr. etrans; [exact Hr|].
    case_decide; [|done]. apply inj_le, subseteq_size. set_solver.
Qed.

End Tracker.
