(* ===== verification/Session.v ===== *)
(** * Sessions

    [witan/src/session.rs]: the in-memory session store, keyed by peer address,
    and the three derivations of the handshake: session id, transcript hash,
    server MAC. *)

From S2P Require Import Prelude Errors Types Extern.

Record SessionRecord : Type := mkSession {
  session_id : string;
  peer_addr : string;
  peer_node_id : string;
  peer_sig_public_key : bytes;
  transcript_hash : bytes;      (* [u8; 32] *)
  established_at_ms : Z;        (* u64 *)
  is_active : bool;
}.

Module Store.

Record SessionStore : Type := mkStore {
  sessions : gmap string SessionRecord;
}.

Definition new : SessionStore := mkStore ∅.

Definition insert (r : SessionRecord) (s : SessionStore) : SessionStore :=
  mkStore (<[peer_addr r := r]> (sessions s)).

Definition get (s : SessionStore) (addr : string) : option SessionRecord := sessions s !! addr.

(** Returns the removed record. *)
Definition remove (addr : string) (s : SessionStore) : option SessionRecord * SessionStore :=
  (sessions s !! addr, mkStore (delete addr (sessions s))).

Definition count (s : SessionStore) : nat := size (sessions s).

Definition peer_info (r : SessionRecord) : PeerInfo :=
  mkPeerInfo (peer_addr r) (peer_node_id r) (session_id r) (established_at_ms r).

Definition active_peers `{HashOrder} (s : SessionStore) : list PeerInfo :=
  peer_info <$> filter (λ r, is_active r = true) ((hash_iter (sessions s)).*2).

(** Every record is stored under its own address and is active: the only
    records the crate ever inserts. *)
Definition wf (s : SessionStore) : Prop :=
  ∀ addr r, sessions s !! addr = Some r -> peer_addr r = addr ∧ is_active r = true.

Lemma wf_new : wf new.
Proof. intros addr r H. cbn in H. by rewrite lookup_empty in H. Qed.

Lemma wf_insert r s : is_active r = true -> wf s -> wf (insert r s).
Proof.
  intros Ha Hs addr r'. cbn. destruct (decide (peer_addr r = addr)) as [<-|].
  - rewrite lookup_insert_eq. intros [= <-]. done.
  - rewrite lookup_insert_ne by done. apply Hs.
Qed.

Lemma wf_remove addr s : wf s -> wf (remove addr s).2.
Proof. intros Hs addr' r. cbn. rewrite lookup_delete_Some. intros [_ H]. by apply Hs. Qed.

#[export] Hint Resolve wf_new wf_insert wf_remove : witan.

Section Order.
Context `{HashOrderLaws}.

(** On a well-formed store the peer list is the stored sessions, one each. *)
Lemma active_peers_perm s :
  wf s -> active_peers s ≡ₚ peer_info <$> (map_to_list (sessions s)).*2.
Proof.
  intros Hs. unfold active_peers.
  assert (filter (λ r, is_active r = true) (hash_iter (sessions s)).*2 = (hash_iter (sessions s)).*2)
    as ->; [|by rewrite hash_iter_perm].
  apply filter_all. intros r ([k r'] & -> & Hin)%list_elem_of_fmap.
  rewrite hash_iter_perm in Hin. apply elem_of_map_to_list in Hin. by apply Hs in Hin as [_ ?].
Qed.

Lemma active_addrs_perm s :
  wf s -> peer_info_addr <$> active_peers s ≡ₚ (map_to_list (sessions s)).*1.
Proof.
  intros Hs. rewrite (active_peers_perm s Hs), <- !list_fmap_compose.
  apply Permutation_refl', list_fmap_ext. intros i [k r] Hi.
  assert ((k, r) ∈ map_to_list (sessions s)) as Hin by (apply list_elem_of_lookup; eauto).
  apply elem_of_map_to_list in Hin. by apply Hs in Hin as [? _].
Qed.

Lemma active_addrs_NoDup s : wf s -> NoDup (peer_info_addr <$> active_peers s).
Proof. intros Hs. rewrite (active_addrs_perm s Hs). apply NoDup_fst_map_to_list. Qed.

Lemma elem_of_active_addrs s addr :
  wf s -> addr ∈ (peer_info_addr <$> active_peers s) <-> is_Some (sessions s !! addr).
Proof.
  intros Hs. rewrite (active_addrs_perm s Hs). rewrite list_elem_of_fmap. split.
  - intros ([k r] & -> & Hin%elem_of_map_to_list). by exists r.
  - intros [r Hr]. exists (addr, r). by rewrite elem_of_map_to_list.
Qed.

Lemma length_active_addrs s :
  wf s -> length (peer_info_addr <$> active_peers s) = count s.
Proof.
  intros Hs. rewrite (active_addrs_perm s Hs), length_fmap. by rewrite length_map_to_list.
Qed.
End Order.

End Store.

(** ** Derivations *)

Section Derive.
Context {X : Ext}.

(** [derive_session_id]; the HKDF [expect] and the HMAC [expect] are panics. *)
Definition derive_session_id (shared_secret client_nonce server_nonce ciphertext : bytes)
    (node_id : string) : res string :=
  let ikm := shared_secret ++ client_nonce ++ server_nonce ++ ciphertext ++ as_bytes node_id in
  okm ← expect (hkdf_sha256 ikm HKDF_INFO_SESSION 32);
  mret (hex_encode okm).

Definition compute_transcript_hash (probe ack finish : bytes) : bytes :=
  sha256 (probe ++ ack ++ finish).

Definition compute_server_mac (shared_secret transcript_hash : bytes) : res bytes :=
  expect (hmac_sha256 shared_secret transcript_hash).

Context {L : ExtLaws}.

Lemma derive_session_id_ok ss cn sn ct id :
  ∃ s, derive_session_id ss cn sn ct id = Ok s ∧ String.length s = 64%nat.
Proof.
  unfold derive_session_id.
  destruct (hkdf_in_range (ss ++ cn ++ sn ++ ct ++ as_bytes id) HKDF_INFO_SESSION 32)
    as (okm & -> & Hl); [lia|].
  exists (hex_encode okm). split; [done|]. by rewrite hex_encode_length, Hl.
Qed.

Lemma compute_server_mac_ok ss th :
  ∃ t, compute_server_mac ss th = Ok t ∧ length t = 32%nat.
Proof.
  destruct (hmac_any_key ss th) as (t & Ht & Hl). exists t.
  unfold compute_server_mac. by rewrite Ht.
Qed.
End Derive.
