(* ===== verification/Identity.v ===== *)
(** * Node identity

    [witan/src/identity.rs]: key generation and restoration, the node id
    derived from the two public keys, and ML-DSA-65 signatures bound to a
    context string by a tagged message. *)

From S2P Require Import Prelude Errors Types Extern.

Section Identity.
Context {X : Ext}.

Record NodeIdentity : Type := mkIdentity {
  node_id : string;
  kem_keypair : KemKeypair;
  sig_keypair : SigKeypair;
  id_key_epoch : string;
}.

(** Canonical bytes (x25519 || mlkem) of a hybrid public key. *)
Definition kem_public_key_bytes (pk : KemPublicKey) : res bytes :=
  x25519 ← map_err (λ e, IdentityError ("KEM x25519_bytes failed: " +:+ e)) (x25519_bytes pk);
  mlkem ← map_err (λ e, IdentityError ("KEM mlkem_bytes failed: " +:+ e)) (mlkem_bytes pk);
  mret (x25519 ++ mlkem).

Definition derive_node_id (kem_pk sig_pk : bytes) : string :=
  hex_encode (sha256 (kem_pk ++ sig_pk)).

(** The tail [generate] and [from_seeds] share: derive the id of the keys. *)
Definition identity_of_keys (kem : KemKeypair) (sig : SigKeypair) (key_epoch : string) :
    res NodeIdentity :=
  kem_pk ← kem_public_key_bytes (kem_public_key kem);
  mret (mkIdentity (derive_node_id kem_pk (sig_public_key sig)) kem sig key_epoch).

Definition generate {S} (key_epoch : string) : method (S * Os) NodeIdentity :=
  kem ← os_call kem_generate (λ e, IdentityError ("KEM keygen failed: " +:+ e));
  sig ← os_call sig_generate (λ e, IdentityError ("SIG keygen failed: " +:+ e));
  lift (identity_of_keys kem sig key_epoch).

Definition from_seeds (x25519_seed mlkem_seed sig_seed : bytes) (key_epoch : string) :
    res NodeIdentity :=
  kem ← map_err (λ e, IdentityError ("KEM restore failed: " +:+ e))
          (kem_from_secret_key_bytes x25519_seed mlkem_seed);
  sig ← map_err (λ e, IdentityError ("SIG restore failed: " +:+ e))
          (sig_from_secret_key_bytes sig_seed);
  identity_of_keys kem sig key_epoch.

Definition sig_public_key_bytes (i : NodeIdentity) : bytes := sig_public_key (sig_keypair i).

Definition sig_public_key_hex (i : NodeIdentity) : string := hex_encode (sig_public_key_bytes i).

Definition kem_public_key_canonical_bytes (i : NodeIdentity) : res bytes :=
  kem_public_key_bytes (kem_public_key (kem_keypair i)).

Definition kem_public_key_json (i : NodeIdentity) : res string :=
  map_err (λ e, IdentityError ("KEM pk to_json failed: " +:+ e))
    (kem_pk_to_json (kem_public_key (kem_keypair i))).

Definition public_view (i : NodeIdentity) : res NodeIdentityPublic :=
  json ← kem_public_key_json i;
  mret (mkIdentityPublic (node_id i) json (sig_public_key_hex i) (id_key_epoch i)).

(** The tagged message [0x00 || context_len_byte || context || message]. *)
Definition tagged (context message : bytes) : bytes :=
  byte_of_Z 0 :: byte_of_Z (Z.of_nat (length context)) :: context ++ message.

Definition context_too_long : GossipError := CryptoError "context must be ≤ 255 bytes".

Definition sign (i : NodeIdentity) (message context : bytes) : res bytes :=
  if bool_decide (255 < length context)%nat then Err context_too_long
  else map_err (λ e, CryptoError ("ML-DSA-65 sign failed: " +:+ e))
         (sign_deterministic (sig_keypair i) (tagged context message)).

Definition verify_external (sig_pk message signature context : bytes) : res bool :=
  if bool_decide (255 < length context)%nat then Err context_too_long
  else match sig_verify sig_pk (tagged context message) signature with
       | SigValid => Ok true
       | SigVerificationFailed => Ok false
       | SigOtherError e => Err (CryptoError ("ML-DSA-65 verify error: " +:+ e))
       end.

Definition verify (i : NodeIdentity) (message signature context : bytes) : res bool :=
  verify_external (sig_public_key_bytes i) message signature context.

(** The id is the one its keys derive. *)
Definition self_derived (i : NodeIdentity) : Prop :=
  ∃ kem_pk, kem_public_key_canonical_bytes i = Ok kem_pk ∧
            node_id i = derive_node_id kem_pk (sig_public_key_bytes i).

(** ** Lemmas *)

Lemma verify_external_no_panic pk m s c : verify_external pk m s c ≠ Panic.
Proof. unfold verify_external. by repeat case_match. Qed.

Lemma sign_no_panic i m c : sign i m c ≠ Panic.
Proof. unfold sign. case_match; [done|apply map_err_no_panic]. Qed.

(** The key pair signs (ML-DSA signing with a valid key does not fail). *)
Definition can_sign (i : NodeIdentity) : Prop :=
  ∀ m, ∃ s, sign_deterministic (sig_keypair i) m = inr s.

Lemma can_sign_ok i m c : can_sign i -> (length c <= 255)%nat -> ∃ s, sign i m c = Ok s.
Proof.
  intros Hi Hc. unfold sign. rewrite bool_decide_false by lia.
  destruct (Hi (tagged c m)) as [s ->]. eauto.
Qed.

Lemma kem_bytes_no_panic pk : kem_public_key_bytes pk ≠ Panic.
Proof. unfold kem_public_key_bytes. auto with witan. Qed.

Lemma identity_of_keys_inv kem sig e i :
  identity_of_keys kem sig e = Ok i ->
  self_derived i ∧ sig_keypair i = sig ∧ kem_keypair i = kem ∧ id_key_epoch i = e.
Proof.
  unfold identity_of_keys. intros (pk & Hpk & [= <-])%bind_ok.
  split_and!; try done. by exists pk.
Qed.

Lemma from_seeds_inv x m s e i :
  from_seeds x m s e = Ok i -> self_derived i ∧ id_key_epoch i = e.
Proof.
  unfold from_seeds. intros (kem & _ & (sig & _ & H)%bind_ok)%bind_ok.
  apply identity_of_keys_inv in H. tauto.
Qed.

Lemma generate_inv {S} e (s s' : S * Os) i :
  generate e s = (Ok i, s') -> s'.1 = s.1 ∧ self_derived i ∧ id_key_epoch i = e.
Proof.
  unfold generate, os_call. unfold_m. destruct s as [s os]. cbn.
  destruct (kem_generate os) as [[ek|kem] os1]; [by cbn|]. cbn.
  destruct (sig_generate os1) as [[es|sig] os2]; [by cbn|]. cbn.
  intros [= H <-]. apply identity_of_keys_inv in H. tauto.
Qed.

Lemma generate_state {S} e (s : S * Os) : (generate e s).2.1 = s.1.
Proof.
  unfold generate, os_call. unfold_m. destruct s as [s os]. cbn.
  destruct (kem_generate os) as [[ek|kem] os1]; [done|]. cbn.
  by destruct (sig_generate os1) as [[es|sig] os2].
Qed.

Lemma tagged_inj c1 c2 m1 m2 :
  (length c1 <= 255)%nat -> (length c2 <= 255)%nat ->
  tagged c1 m1 = tagged c2 m2 -> c1 = c2 ∧ m1 = m2.
Proof.
  intros H1 H2 [= Hl%byte_of_Z_inj Happ]; [|lia..].
  apply app_inj_len in Happ; [done|lia].
Qed.

Context {L : ExtLaws}.

Lemma verify_signed i m s c :
  sign i m c = Ok s -> verify_external (sig_public_key_bytes i) m s c = Ok true.
Proof.
  unfold sign, verify_external, sig_public_key_bytes. case_bool_decide; [done|].
  intros Hs%map_err_ok. by rewrite (sig_verify_sign _ _ _ Hs).
Qed.

Lemma sign_length i m c s : sign i m c = Ok s -> length s = 3309%nat.
Proof. unfold sign. case_match; [done|]. intros Hs%map_err_ok. by eapply signature_length. Qed.

Lemma kem_bytes_length pk b : kem_public_key_bytes pk = Ok b -> length b = 1216%nat.
Proof.
  unfold kem_public_key_bytes.
  intros (x & Hx%map_err_ok & (m & Hm%map_err_ok & [= <-])%bind_ok)%bind_ok.
  by rewrite length_app, (x25519_bytes_length _ _ Hx), (mlkem_bytes_length _ _ Hm).
Qed.

Lemma sig_public_key_bytes_length i : length (sig_public_key_bytes i) = 1952%nat.
Proof. apply sig_public_key_length. Qed.

Lemma sign_tagged i m c s :
  sign i m c = Ok s -> sign_deterministic (sig_keypair i) (tagged c m) = inr s.
Proof. unfold sign. case_match; [done|]. by intros ?%map_err_ok. Qed.

Lemma context_refused i m s c :
  (255 < length c)%nat ->
  sign i m c = Err context_too_long ∧ verify i m s c = Err context_too_long.
Proof. intros Hc. unfold sign, verify, verify_external. by rewrite !bool_decide_true. Qed.

Lemma self_derived_length i : self_derived i -> String.length (node_id i) = 64%nat.
Proof. intros (k & _ & ->). unfold derive_node_id. by rewrite hex_encode_length, sha256_length. Qed.

(** Every identity built from keys carries the id its own keys derive, 64
    hexadecimal characters, whether the keys are generated or restored from
    seeds; generating one consumes entropy and nothing else. *)
Theorem identity_self_derived {S} (x m s : bytes) (e : string) (w : S * Os) (i : NodeIdentity)
    (H : from_seeds x m s e = Ok i ∨ (generate e w).1 = Ok i) :
  self_derived i ∧ id_key_epoch i = e ∧ String.length (node_id i) = 64%nat ∧
  (generate e w).2.1 = w.1.
Proof.
  assert (self_derived i ∧ id_key_epoch i = e) as [Hd He].
  { destruct H as [H|H]; [by apply from_seeds_inv in H|].
    destruct (generate e w) as [r w'] eqn:E. cbn in H. subst r.
    apply generate_inv in E. tauto. }
  split_and!; try done; [by apply self_derived_length|apply generate_state].
Qed.
End Identity.
