(* ===== verification/Envelope.v ===== *)
(** * Gossip envelopes

    [witan/src/envelope.rs]: message ids, the signed bytes, building, encoding
    and verifying an envelope. *)

From S2P Require Import Prelude Errors Types Extern F64 Config Identity.

Section Envelope.
Context {X : Ext}.

Definition type_byte (t : PayloadType) : byte := byte_of_Z (as_u8 t).

Definition compute_message_id (t : PayloadType) (payload : bytes) : bytes :=
  sha256 (type_byte t :: payload).

Definition signing_input (env : GossipEnvelope) : bytes :=
  env_message_id env ++ type_byte (env_payload_type env) :: env_payload env.

(** [build_envelope]: the envelope without a signature, then signed. *)
Definition unsigned_envelope (t : PayloadType) (payload : bytes) (i : NodeIdentity)
    (default_ttl now_ms : Z) : GossipEnvelope := {|
  env_version := 1;
  env_message_id := compute_message_id t payload;
  env_sender_node_id := node_id i;
  env_sender_public_key := sig_public_key_bytes i;
  env_payload_type := t;
  env_payload := payload;
  env_signature := [];
  env_timestamp_unix_ms := now_ms;
  env_ttl := default_ttl;
|}.

Definition set_signature (s : bytes) (e : GossipEnvelope) : GossipEnvelope :=
  mkEnvelope (env_version e) (env_message_id e) (env_sender_node_id e)
    (env_sender_public_key e) (env_payload_type e) (env_payload e) s
    (env_timestamp_unix_ms e) (env_ttl e).

Definition build_envelope (t : PayloadType) (payload : bytes) (i : NodeIdentity)
    (default_ttl now_ms : Z) : res GossipEnvelope :=
  let env := unsigned_envelope t payload i default_ttl now_ms in
  signature ← sign i (signing_input env) SIG_CTX_MESSAGE;
  mret (set_signature signature env).

Definition encode_envelope `{!Bincode GossipEnvelope} (e : GossipEnvelope) : res bytes :=
  map_err (λ e, SerializationError ("bincode encode failed: " +:+ e)) (serialize e).

Definition decode_envelope `{!Bincode GossipEnvelope} (b : bytes) : res GossipEnvelope :=
  map_err (λ e, SerializationError ("bincode decode failed: " +:+ e)) (deserialize b).

Definition verify_envelope (env : GossipEnvelope) (config : ResolvedConfig) (now_ms : Z) :
    res bool :=
  if negb (env_version env =? 1)%Z then
    Err (EnvelopeError ("unsupported version: " +:+ pretty (env_version env)))
  else if bool_decide
      (env_message_id env ≠ compute_message_id (env_payload_type env) (env_payload env)) then
    Err (EnvelopeError "message_id mismatch")
  else if (replay_window_ms config <? saturating_sub now_ms (env_timestamp_unix_ms env))%Z then
    Err ReplayDetected
  else if (env_ttl env =? 0)%Z then Err TtlExpired
  else if (max_message_bytes config <? Z.of_nat (length (env_payload env)))%Z then
    Err (EnvelopeError "payload too large")
  else
    verified ← verify_external (env_sender_public_key env) (signing_input env)
                 (env_signature env) SIG_CTX_MESSAGE;
    if (verified : bool) then Ok true else Err SignatureInvalid.

(** The six checks, as a predicate. *)
Record accepts (env : GossipEnvelope) (config : ResolvedConfig) (now_ms : Z) : Prop := {
  acc_version : env_version env = 1%Z;
  acc_id : env_message_id env = compute_message_id (env_payload_type env) (env_payload env);
  acc_age : (saturating_sub now_ms (env_timestamp_unix_ms env) <= replay_window_ms config)%Z;
  acc_ttl : env_ttl env ≠ 0%Z;
  acc_size : (Z.of_nat (length (env_payload env)) <= max_message_bytes config)%Z;
  acc_sig : verify_external (env_sender_public_key env) (signing_input env)
              (env_signature env) SIG_CTX_MESSAGE = Ok true;
}.

Lemma verify_envelope_true env config now :
  verify_envelope env config now = Ok true <-> accepts env config now.
Proof.
  unfold verify_envelope. split.
  - intros H. destruct (Z.eqb_spec (env_version env) 1); [|done]. cbn [negb] in H.
    case_bool_decide as Hid; [done|].
    destruct (Z.ltb_spec (replay_window_ms config) (saturating_sub now (env_timestamp_unix_ms env)));
      [done|].
    destruct (Z.eqb_spec (env_ttl env) 0); [done|].
    destruct (Z.ltb_spec (max_message_bytes config) (Z.of_nat (length (env_payload env)))); [done|].
    apply bind_ok in H as ([] & Hv & Hb); [|done]. by constructor.
  - intros [-> Hid Hage Httl Hsz ->]. cbn [negb Z.eqb Pos.eqb].
    rewrite bool_decide_false by auto.
    rewrite (proj2 (Z.ltb_ge _ _)) by done. rewrite (proj2 (Z.eqb_neq _ _)) by done.
    by rewrite (proj2 (Z.ltb_ge _ _)).
Qed.

Lemma verify_envelope_not_false env config now : verify_envelope env config now ≠ Ok false.
Proof.
  unfold verify_envelope. repeat (case_match; try done).
  intros ([] & _ & Hf)%bind_ok; done.
Qed.

Lemma verify_envelope_no_panic env config now : verify_envelope env config now ≠ Panic.
Proof.
  unfold verify_envelope. repeat (case_match; try done).
  apply bind_no_panic; [apply verify_external_no_panic|by intros []].
Qed.

Lemma signing_input_inj e1 e2 :
  is32 (env_message_id e1) -> is32 (env_message_id e2) ->
  signing_input e1 = signing_input e2 ->
  env_message_id e1 = env_message_id e2 ∧ env_payload_type e1 = env_payload_type e2 ∧
  env_payload e1 = env_payload e2.
Proof.
  unfold is32, signing_input. intros H1 H2 [-> [= Ht Hp]]%app_inj_len; [|lia].
  split_and!; try done. apply (inj as_u8), byte_of_Z_inj; auto using as_u8_range.
Qed.

Lemma build_envelope_inv t p i ttl now env :
  build_envelope t p i ttl now = Ok env ->
  ∃ s, sign i (signing_input env) SIG_CTX_MESSAGE = Ok s ∧
       env = set_signature s (unsigned_envelope t p i ttl now).
Proof. unfold build_envelope. intros (s & Hs & [= <-])%bind_ok. by exists s. Qed.

(** The envelope with its transport metadata replaced: the fields no
    signature covers. *)
Definition restamp (sender : string) (timestamp ttl : Z) (e : GossipEnvelope) : GossipEnvelope :=
  mkEnvelope (env_version e) (env_message_id e) sender (env_sender_public_key e)
    (env_payload_type e) (env_payload e) (env_signature e) timestamp ttl.

(** The age of a timestamp that is not in the past is 0. *)
Lemma verify_envelope_ahead env config now :
  verify_envelope env config (Z.min now (env_timestamp_unix_ms env))
  = verify_envelope env config (env_timestamp_unix_ms env).
Proof.
  unfold verify_envelope.
  replace (saturating_sub (Z.min now (env_timestamp_unix_ms env)) (env_timestamp_unix_ms env))
    with (saturating_sub (env_timestamp_unix_ms env) (env_timestamp_unix_ms env)); [done|].
  unfold saturating_sub. lia.
Qed.

(** C6. [verify_envelope] answers [Ok true] exactly when the six checks of the
    code hold, otherwise an error, never [Ok false] and never a panic.  The
    check of the age is one-sided, where the comments and the documentation have
    a window on both sides of the clock: the age saturates at zero, so on a
    clock any time behind the envelope's timestamp the verdict is that on a
    clock at the timestamp itself. *)
Theorem verify_envelope_exact (env : GossipEnvelope) (config : ResolvedConfig) (now_ms : Z) :
  (verify_envelope env config now_ms = Ok true <-> accepts env config now_ms) ∧
  (¬ accepts env config now_ms -> ∃ e, verify_envelope env config now_ms = Err e) ∧
  verify_envelope env config (Z.min now_ms (env_timestamp_unix_ms env))
  = verify_envelope env config (env_timestamp_unix_ms env).
Proof.
  split; [apply verify_envelope_true|]. split; [|by apply verify_envelope_ahead].
  rewrite <- verify_envelope_true.
  pose proof (verify_envelope_not_false env config now_ms).
  pose proof (verify_envelope_no_panic env config now_ms).
  destruct (verify_envelope env config now_ms) as [[]| |]; try done. eauto.
Qed.

(** The signature does not cover the sender's node id, the timestamp or
    the TTL: an accepted envelope stays accepted under any other sender id,
    any positive TTL and any timestamp in the window; and since the age
    saturates at zero, the window is one-sided: every timestamp in the future
    is accepted. *)
Theorem accepted_restamped (env : GossipEnvelope) (config : ResolvedConfig)
    (now_ms now' timestamp ttl : Z) (sender : string)
    (H : verify_envelope env config now_ms = Ok true)
    (Hw : (0 <= replay_window_ms config)%Z) (Httl : (0 < ttl)%Z)
    (Hts : (now' - timestamp <= replay_window_ms config)%Z) :
  verify_envelope (restamp sender timestamp ttl env) config now' = Ok true.
Proof.
  apply verify_envelope_true in H as [Hv Hid _ _ Hsz Hs].
  apply verify_envelope_true. constructor; try done; cbn; unfold saturating_sub; lia.
Qed.

Context {L : ExtLaws}.

Lemma compute_message_id_length t p : is32 (compute_message_id t p).
Proof. apply sha256_length. Qed.

Lemma built_accepted t payload i ttl now_ms now' config env :
  build_envelope t payload i ttl now_ms = Ok env -> (0 < ttl)%Z ->
  (0 <= replay_window_ms config)%Z -> (now' - now_ms <= replay_window_ms config)%Z ->
  (Z.of_nat (length payload) <= max_message_bytes config)%Z ->
  accepts env config now'.
Proof.
  intros (s & Hs & ->)%build_envelope_inv Httl Hw Hts Hsz. constructor; cbn; try done.
  - unfold saturating_sub. lia.
  - lia.
  - by apply verify_signed.
Qed.

(** Signing and verification agree: an envelope a node builds is accepted
    by every verifier whose clock is at most the replay window ahead, as long
    as its TTL is positive and its payload within the size limit. *)
Theorem built_envelope_verifies (t : PayloadType) (payload : bytes) (i : NodeIdentity)
    (ttl now_ms now' : Z) (config : ResolvedConfig) (env : GossipEnvelope)
    (H : build_envelope t payload i ttl now_ms = Ok env) (Httl : (0 < ttl)%Z)
    (Hw : (0 <= replay_window_ms config)%Z)
    (Hts : (now' - now_ms <= replay_window_ms config)%Z)
    (Hsz : (Z.of_nat (length payload) <= max_message_bytes config)%Z) :
  verify_envelope env config now' = Ok true.
Proof.
  apply verify_envelope_true. by eapply built_accepted.
Qed.

(** What the message id is the hash of. *)
Definition content (env : GossipEnvelope) : bytes :=
  type_byte (env_payload_type env) :: env_payload env.

Lemma content_inj e1 e2 :
  content e1 = content e2 ->
  env_payload_type e1 = env_payload_type e2 ∧ env_payload e1 = env_payload e2.
Proof.
  intros [= Ht Hp]. split; [|done]. apply (inj as_u8), byte_of_Z_inj; auto using as_u8_range.
Qed.

Lemma other_content_refused env config now_ms :
  env_version env = 1%Z -> env_message_id env ≠ sha256 (content env) ->
  verify_envelope env config now_ms = Err (EnvelopeError "message_id mismatch").
Proof. intros Hv Hid. unfold verify_envelope. rewrite Hv. by rewrite bool_decide_true. Qed.

(** C34. A signature cannot be moved to other content.  Given an accepted
    envelope, another of version 1 whose payload or type was changed while its
    message id was kept is refused for that reason, by every verifier at every time, or else
    the two contents are a collision of SHA-256; and if the other is accepted
    and its signature is over the same bytes, it has the same payload type and
    payload, whatever the hash does. *)
Theorem content_bound (e1 e2 : GossipEnvelope) (config1 config2 : ResolvedConfig)
    (now1 now2 : Z) (H1 : verify_envelope e1 config1 now1 = Ok true) (Hv : env_version e2 = 1%Z) :
  (env_message_id e2 = env_message_id e1 ->
   (env_payload_type e2 = env_payload_type e1 ∧ env_payload e2 = env_payload e1) ∨
   verify_envelope e2 config2 now2 = Err (EnvelopeError "message_id mismatch") ∨
   collide (content e2) (content e1)) ∧
  (verify_envelope e2 config2 now2 = Ok true -> signing_input e2 = signing_input e1 ->
   env_payload_type e2 = env_payload_type e1 ∧ env_payload e2 = env_payload e1).
Proof.
  apply verify_envelope_true in H1. pose proof (acc_id _ _ _ H1) as E1. split.
  - intros Hid. rewrite E1 in Hid.
    destruct (decide (env_message_id e2 = sha256 (content e2))) as [E2|Hne].
    + rewrite E2 in Hid. destruct (same_hash _ _ Hid); [left; by apply content_inj|by right; right].
    + right. left. by apply other_content_refused.
  - intros H2%verify_envelope_true. pose proof (acc_id _ _ _ H2) as E2. intros H.
    apply signing_input_inj in H; [tauto|rewrite E2|rewrite E1]; apply compute_message_id_length.
Qed.
End Envelope.
