(* ===== verification/Rotation.v ===== *)
(** * Key rotation under a stable node id

    [witan/src/rotation.rs]: rotation records, key states and their digests,
    and the lineage, a chain of records each verified against the state it
    replaces.  [successor] states the four rules of the module documentation;
    [valid] is a lineage whose chain obeys them from its inception. *)

From S2P Require Import Prelude Errors Types Extern F64 Identity.

Definition SIG_CTX_KEY_ROTATION : bytes := as_bytes "WITAN_KEY_ROTATION_V1".
Definition SIG_CTX_KEY_POSSESSION : bytes := as_bytes "WITAN_KEY_POSSESSION_V1".
Definition STATE_DIGEST_TAG : bytes := as_bytes "WITAN_KEY_STATE_V1".
Definition ROTATION_SIGNING_TAG : bytes := as_bytes "WITAN_KEY_ROTATION_RECORD_V1".
Definition COMMITMENT_TAG : bytes := as_bytes "WITAN_NEXT_KEY_COMMITMENT_V1".
Definition SIG_PK_LEN : nat := 1952.
Definition KEM_PK_LEN : nat := 32 + 1184.
Definition LINEAGE_VERSION : Z := 1.
Definition MAX_LINEAGE_BYTES : Z := 4 * 1024 * 1024.

(** ** Data *)

Record KeyRotation : Type := mkRotation {
  rot_version : Z;                       (* u8 *)
  rot_node_id : string;
  rot_sequence : Z;                      (* u64 *)
  rot_prev_state_digest : bytes;         (* [u8; 32] *)
  rot_new_kem_public_key : bytes;
  rot_new_sig_public_key : bytes;
  rot_new_key_epoch : string;
  rot_next_key_commitment : option bytes; (* Option<[u8; 32]> *)
  rot_timestamp_unix_ms : Z;             (* u64 *)
  rot_authorization : bytes;
  rot_possession : bytes;
}.

#[global] Instance KeyRotation_eq_dec : EqDecision KeyRotation.
Proof. solve_decision. Defined.

Record KeyState : Type := mkKeyState {
  ks_sequence : Z;                       (* u64 *)
  ks_kem_public_key : bytes;
  ks_sig_public_key : bytes;
  ks_key_epoch : string;
  ks_next_key_commitment : option bytes; (* Option<[u8; 32]> *)
}.

Record LineageWire : Type := mkWire {
  wire_version : Z;                      (* u8 *)
  wire_inception_kem_public_key : bytes;
  wire_inception_sig_public_key : bytes;
  wire_inception_key_epoch : string;
  wire_rotations : list KeyRotation;
}.

Record KeyLineage : Type := mkLineage {
  lin_node_id : string;
  lin_inception : KeyState;
  lin_rotations : list KeyRotation;
  lin_current : KeyState;
}.

(** ** Encoding helpers *)

Definition put_bytes (b : bytes) : bytes := be_bytes 8 (Z.of_nat (length b)) ++ b.

Definition put_commitment (c : option bytes) : bytes :=
  match c with
  | Some c => byte_of_Z 1 :: c
  | None => [byte_of_Z 0]
  end.

Definition rotation_signing_input (r : KeyRotation) : bytes :=
  ROTATION_SIGNING_TAG ++ byte_of_Z (rot_version r) :: put_bytes (as_bytes (rot_node_id r)) ++
  be_bytes 8 (rot_sequence r) ++ rot_prev_state_digest r ++
  put_bytes (rot_new_kem_public_key r) ++ put_bytes (rot_new_sig_public_key r) ++
  put_bytes (as_bytes (rot_new_key_epoch r)) ++ put_commitment (rot_next_key_commitment r) ++
  be_bytes 8 (rot_timestamp_unix_ms r).

(** The bytes [KeyState::digest] hashes. *)
Definition digest_input (node_id : string) (s : KeyState) : bytes :=
  STATE_DIGEST_TAG ++ put_bytes (as_bytes node_id) ++ be_bytes 8 (ks_sequence s) ++
  put_bytes (ks_kem_public_key s) ++ put_bytes (ks_sig_public_key s) ++
  put_bytes (as_bytes (ks_key_epoch s)) ++ put_commitment (ks_next_key_commitment s).

Definition check_key_lengths (kem_pk sig_pk : bytes) : res unit :=
  if negb (bool_decide (length kem_pk = KEM_PK_LEN)) then
    Err (IdentityError ("invalid kem pk size: expected " +:+ pretty KEM_PK_LEN +:+ ", got "
                        +:+ pretty (length kem_pk)))
  else if negb (bool_decide (length sig_pk = SIG_PK_LEN)) then
    Err (IdentityError ("invalid sig pk size: expected " +:+ pretty SIG_PK_LEN +:+ ", got "
                        +:+ pretty (length sig_pk)))
  else Ok tt.

(** What a record or a state holds in memory: integers of their width, 32-byte
    digests, vectors no longer than [u64] counts. *)
Definition vec_fits (b : bytes) : Prop := fits 64 (Z.of_nat (length b)).
Definition commitment_fits (c : option bytes) : Prop := ∀ b, c = Some b -> is32 b.

Record rotation_fits (r : KeyRotation) : Prop := {
  rf_version : fits 8 (rot_version r);
  rf_node_id : vec_fits (as_bytes (rot_node_id r));
  rf_sequence : fits 64 (rot_sequence r);
  rf_digest : is32 (rot_prev_state_digest r);
  rf_kem : vec_fits (rot_new_kem_public_key r);
  rf_sig : vec_fits (rot_new_sig_public_key r);
  rf_epoch : vec_fits (as_bytes (rot_new_key_epoch r));
  rf_commitment : commitment_fits (rot_next_key_commitment r);
  rf_timestamp : fits 64 (rot_timestamp_unix_ms r);
}.

Record state_fits (s : KeyState) : Prop := {
  sf_sequence : fits 64 (ks_sequence s);
  sf_kem : vec_fits (ks_kem_public_key s);
  sf_sig : vec_fits (ks_sig_public_key s);
  sf_epoch : vec_fits (as_bytes (ks_key_epoch s));
  sf_commitment : commitment_fits (ks_next_key_commitment s);
}.

(** ** The encodings are uniquely readable *)

Lemma put_bytes_inj a b r s :
  vec_fits a -> vec_fits b -> put_bytes a ++ r = put_bytes b ++ s -> a = b ∧ r = s.
Proof.
  unfold put_bytes. intros Ha Hb H. rewrite <- !(assoc_L (++)) in H.
  apply app_inj_len in H as [Hl%be_bytes_inj H]; [|done|done|by rewrite !length_be_bytes].
  apply app_inj_len in H; [done|lia].
Qed.

Lemma put_string_inj a b r s :
  vec_fits (as_bytes a) -> vec_fits (as_bytes b) ->
  put_bytes (as_bytes a) ++ r = put_bytes (as_bytes b) ++ s -> a = b ∧ r = s.
Proof. intros Ha Hb [H%(inj as_bytes) ?]%put_bytes_inj; done. Qed.

Lemma put_commitment_inj c d r s :
  commitment_fits c -> commitment_fits d ->
  put_commitment c ++ r = put_commitment d ++ s -> c = d ∧ r = s.
Proof.
  unfold commitment_fits, is32. intros Hc Hd H. destruct c as [c|], d as [d|]; cbn in H.
  - injection H as H. apply app_inj_len in H as [-> ->]; [done|].
    rewrite (Hc c), (Hd d); done.
  - injection H as H _. done.
  - injection H as H _. done.
  - by injection H as ->.
Qed.

Lemma be_bytes_app_inj z1 z2 r s :
  fits 64 z1 -> fits 64 z2 -> be_bytes 8 z1 ++ r = be_bytes 8 z2 ++ s -> z1 = z2 ∧ r = s.
Proof.
  intros H1 H2 H. apply app_inj_len in H as [H%be_bytes_inj ?]; [done|done|done|].
  by rewrite !length_be_bytes.
Qed.

Lemma digest_input_inj id1 id2 s1 s2 :
  vec_fits (as_bytes id1) -> vec_fits (as_bytes id2) -> state_fits s1 -> state_fits s2 ->
  digest_input id1 s1 = digest_input id2 s2 -> id1 = id2 ∧ s1 = s2.
Proof.
  intros Hi1 Hi2 [] [] H. unfold digest_input in H.
  apply (inj (app _)) in H.
  apply put_string_inj in H as [-> H]; [|done..].
  apply be_bytes_app_inj in H as [E1 H]; [|done..].
  apply put_bytes_inj in H as [E2 H]; [|done..].
  apply put_bytes_inj in H as [E3 H]; [|done..].
  apply put_string_inj in H as [E4 H]; [|done..].
  rewrite <- (app_nil_r (put_commitment (ks_next_key_commitment s1))),
    <- (app_nil_r (put_commitment (ks_next_key_commitment s2))) in H.
  apply put_commitment_inj in H as [E5 _]; [|done..].
  destruct s1, s2; cbn in *. by subst.
Qed.

(** Two records with the same signed bytes differ at most in their
    signatures. *)
Definition same_content (r1 r2 : KeyRotation) : Prop :=
  r1 = mkRotation (rot_version r2) (rot_node_id r2) (rot_sequence r2) (rot_prev_state_digest r2)
         (rot_new_kem_public_key r2) (rot_new_sig_public_key r2) (rot_new_key_epoch r2)
         (rot_next_key_commitment r2) (rot_timestamp_unix_ms r2)
         (rot_authorization r1) (rot_possession r1).

Lemma rotation_signing_input_inj r1 r2 :
  rotation_fits r1 -> rotation_fits r2 ->
  rotation_signing_input r1 = rotation_signing_input r2 -> same_content r1 r2.
Proof.
  intros [] [] H. unfold rotation_signing_input in H.
  apply (inj (app _)) in H. apply cons_eq_inj in H as [E0%byte_of_Z_inj H]; [|done..].
  apply put_string_inj in H as [E1 H]; [|done..].
  apply be_bytes_app_inj in H as [E2 H]; [|done..].
  apply app_inj_len in H as [E3 H]; [|unfold is32 in *; lia].
  apply put_bytes_inj in H as [E4 H]; [|done..].
  apply put_bytes_inj in H as [E5 H]; [|done..].
  apply put_string_inj in H as [E6 H]; [|done..].
  apply put_commitment_inj in H as [E7 H]; [|done..].
  apply be_bytes_inj in H; [|done..].
  unfold same_content. destruct r1, r2; cbn in *. by subst.
Qed.

(** ** Lineage operations *)

Section Lineage.
Context {X : Ext}.

Definition key_commitment (sig_pk : bytes) : bytes := sha256 (COMMITMENT_TAG ++ sig_pk).

Definition key_commitment_for_seed (sig_seed : bytes) : res bytes :=
  kp ← map_err (λ e, IdentityError ("SIG restore failed: " +:+ e))
         (sig_from_secret_key_bytes sig_seed);
  mret (key_commitment (sig_public_key kp)).

Definition digest (s : KeyState) (node_id : string) : bytes := sha256 (digest_input node_id s).

Definition inception (kem_pk sig_pk : bytes) (key_epoch : string) : res KeyLineage :=
  _ ← check_key_lengths kem_pk sig_pk;
  let state := mkKeyState 0 kem_pk sig_pk key_epoch None in
  mret (mkLineage (derive_node_id kem_pk sig_pk) state [] state).

Definition from_identity (i : NodeIdentity) : res KeyLineage :=
  kem_pk ← kem_public_key_canonical_bytes i;
  lineage ← inception kem_pk (sig_public_key_bytes i) (id_key_epoch i);
  if bool_decide (lin_node_id lineage = node_id i) then Ok lineage
  else Err (IdentityError "identity node_id is not derived from its keys; supply its lineage").

Definition sequence (l : KeyLineage) : Z := ks_sequence (lin_current l).
Definition current_sig_public_key (l : KeyLineage) : bytes := ks_sig_public_key (lin_current l).
Definition current_kem_public_key (l : KeyLineage) : bytes := ks_kem_public_key (lin_current l).
Definition current_key_epoch (l : KeyLineage) : string := ks_key_epoch (lin_current l).
Definition next_key_commitment (l : KeyLineage) : option bytes :=
  ks_next_key_commitment (lin_current l).

(** [n => &self.rotations[n - 2]]: an index, a panic out of range. *)
Definition previous_sig_public_key (l : KeyLineage) : res (option bytes) :=
  match length (lin_rotations l) with
  | 0%nat => Ok None
  | 1%nat => Ok (Some (ks_sig_public_key (lin_inception l)))
  | n => r ← expect (lin_rotations l !! (n - 2)%nat); mret (Some (rot_new_sig_public_key r))
  end.

(** [self.current.sequence + 1] in [u64]. *)
Definition next_sequence (l : KeyLineage) : Z := wrap 64 (sequence l + 1).

Definition rejected (msg : string) : GossipError := IdentityError ("rotation rejected: " +:+ msg).

(** The state a record installs. *)
Definition state_of (r : KeyRotation) : KeyState :=
  mkKeyState (rot_sequence r) (rot_new_kem_public_key r) (rot_new_sig_public_key r)
    (rot_new_key_epoch r) (rot_next_key_commitment r).

(** The [match] on the commitment in [verify_next]. *)
Definition check_authorization (s : KeyState) (r : KeyRotation) : res unit :=
  match ks_next_key_commitment s with
  | Some commitment =>
      if negb (bool_decide (key_commitment (rot_new_sig_public_key r) = commitment)) then
        Err (rejected "new key does not match the pre-rotation commitment")
      else if negb (bool_decide (rot_authorization r = [])) then
        Err (rejected "authorization must be empty when a commitment is in force")
      else Ok tt
  | None =>
      ok ← verify_external (ks_sig_public_key s) (rotation_signing_input r)
             (rot_authorization r) SIG_CTX_KEY_ROTATION;
      if (ok : bool) then Ok tt
      else Err (rejected "previous key's authorization is invalid")
  end.

Definition verify_next (l : KeyLineage) (r : KeyRotation) : res KeyState :=
  if negb (rot_version r =? 1)%Z then
    Err (rejected ("unsupported version " +:+ pretty (rot_version r)))
  else if negb (bool_decide (rot_node_id r = lin_node_id l)) then
    Err (rejected "node_id does not match lineage")
  else if negb (rot_sequence r =? next_sequence l)%Z then
    Err (rejected ("expected sequence " +:+ pretty (next_sequence l) +:+ ", got "
                   +:+ pretty (rot_sequence r)))
  else if negb (bool_decide (rot_prev_state_digest r = digest (lin_current l) (lin_node_id l))) then
    Err (rejected "prev_state_digest does not match current state")
  else
    _ ← check_key_lengths (rot_new_kem_public_key r) (rot_new_sig_public_key r);
    possessed ← verify_external (rot_new_sig_public_key r) (rotation_signing_input r)
                  (rot_possession r) SIG_CTX_KEY_POSSESSION;
    if negb possessed then Err (rejected "new key's proof of possession is invalid")
    else
      _ ← check_authorization (lin_current l) r;
      mret (state_of r).

Definition push_rotation (r : KeyRotation) (next : KeyState) (l : KeyLineage) : KeyLineage :=
  mkLineage (lin_node_id l) (lin_inception l) (lin_rotations l ++ [r]) next.

Definition apply (r : KeyRotation) : method KeyLineage unit :=
  l ← get;
  if (1 <=? rot_sequence r)%Z && (rot_sequence r <=? sequence l)%Z then
    existing ← lift (expect (lin_rotations l !! Z.to_nat (wrap usize_bits (rot_sequence r - 1))));
    if bool_decide (existing = r) then mret tt
    else throw (IdentityError ("lineage fork: conflicting rotation at sequence "
                  +:+ pretty (rot_sequence r) +:+ " for node " +:+ lin_node_id l))
  else
    next ← lift (verify_next l r);
    modify (push_rotation r next).

Definition check_envelope_sender (l : KeyLineage) (env : GossipEnvelope) : res unit :=
  if negb (bool_decide (env_sender_node_id env = lin_node_id l)) then
    Err (IdentityError ("sender " +:+ env_sender_node_id env +:+ " is not lineage node "
                        +:+ lin_node_id l))
  else if negb (bool_decide (env_sender_public_key env = current_sig_public_key l)) then
    Err (IdentityError ("sender key is not the current key for node " +:+ lin_node_id l
                        +:+ " (sequence " +:+ pretty (sequence l) +:+ ")"))
  else Ok tt.

(** [build_and_apply]: the record before signing, then signed and applied. *)
Definition unsigned_rotation (l : KeyLineage) (kem_pk : bytes) (next : NodeIdentity)
    (commitment : option bytes) (now_ms : Z) : KeyRotation := {|
  rot_version := 1;
  rot_node_id := lin_node_id l;
  rot_sequence := next_sequence l;
  rot_prev_state_digest := digest (lin_current l) (lin_node_id l);
  rot_new_kem_public_key := kem_pk;
  rot_new_sig_public_key := sig_public_key_bytes next;
  rot_new_key_epoch := id_key_epoch next;
  rot_next_key_commitment := commitment;
  rot_timestamp_unix_ms := now_ms;
  rot_authorization := [];
  rot_possession := [];
|}.

Definition with_signatures (authorization possession : bytes) (r : KeyRotation) : KeyRotation :=
  mkRotation (rot_version r) (rot_node_id r) (rot_sequence r) (rot_prev_state_digest r)
    (rot_new_kem_public_key r) (rot_new_sig_public_key r) (rot_new_key_epoch r)
    (rot_next_key_commitment r) (rot_timestamp_unix_ms r) authorization possession.

Definition sign_rotation (l : KeyLineage) (current : option NodeIdentity) (next : NodeIdentity)
    (rotation : KeyRotation) : res KeyRotation :=
  let input := rotation_signing_input rotation in
  authorization ←
    match next_key_commitment l with
    | None =>
        current ← ok_or current (IdentityError "rotation needs the current key");
        sign current input SIG_CTX_KEY_ROTATION
    | Some _ => Ok []
    end;
  possession ← sign next input SIG_CTX_KEY_POSSESSION;
  mret (with_signatures authorization possession rotation).

Definition build_and_apply (current : option NodeIdentity) (next : NodeIdentity)
    (commitment : option bytes) (now_ms : Z) : method KeyLineage KeyRotation :=
  l ← get;
  kem_pk ← lift (kem_public_key_canonical_bytes next);
  rotation ← lift (sign_rotation l current next (unsigned_rotation l kem_pk next commitment now_ms));
  _ ← apply rotation;
  mret rotation.

Definition rotate (current next : NodeIdentity) (commitment : option bytes) (now_ms : Z) :
    method KeyLineage KeyRotation :=
  l ← get;
  if negb (bool_decide (sig_public_key_bytes current = current_sig_public_key l)) then
    throw (IdentityError "rotating identity does not hold this lineage's current key")
  else build_and_apply (Some current) next commitment now_ms.

Definition recover (next : NodeIdentity) (commitment : option bytes) (now_ms : Z) :
    method KeyLineage KeyRotation :=
  l ← get;
  if bool_decide (next_key_commitment l = None) then
    throw (IdentityError "recovery needs a pre-rotation commitment; this lineage has none")
  else build_and_apply None next commitment now_ms.

Definition to_wire (l : KeyLineage) : LineageWire :=
  mkWire LINEAGE_VERSION (ks_kem_public_key (lin_inception l)) (ks_sig_public_key (lin_inception l))
    (ks_key_epoch (lin_inception l)) (lin_rotations l).

(** The loop of [decode]. *)
Fixpoint replay (rs : list KeyRotation) : method KeyLineage unit :=
  match rs with
  | [] => mret tt
  | r :: rs' =>
      l ← get;
      if negb (rot_sequence r =? next_sequence l)%Z then
        throw (IdentityError ("lineage out of order: expected sequence "
                 +:+ pretty (next_sequence l) +:+ ", got " +:+ pretty (rot_sequence r)))
      else
        _ ← apply r;
        replay rs'
  end.

Definition from_wire (wire : LineageWire) : res KeyLineage :=
  if negb (wire_version wire =? LINEAGE_VERSION)%Z then
    Err (IdentityError ("unsupported lineage version: " +:+ pretty (wire_version wire)))
  else
    lineage ← inception (wire_inception_kem_public_key wire) (wire_inception_sig_public_key wire)
                (wire_inception_key_epoch wire);
    let '(r, lineage') := replay (wire_rotations wire) lineage in
    _ ← r;
    mret lineage'.

Definition encode `{!Bincode LineageWire} (l : KeyLineage) : res bytes :=
  map_err (λ e, SerializationError ("bincode encode failed: " +:+ e)) (serialize (to_wire l)).

Definition decode `{!Bincode LineageWire} (b : bytes) : res KeyLineage :=
  if (MAX_LINEAGE_BYTES <? Z.of_nat (length b))%Z then
    Err (InvalidInput ("lineage too large: " +:+ pretty (length b) +:+ " > "
                       +:+ pretty MAX_LINEAGE_BYTES +:+ " bytes"))
  else
    wire ← map_err (λ e, SerializationError ("bincode decode failed: " +:+ e))
             (deserialize_limit MAX_LINEAGE_BYTES b);
    from_wire wire.
End Lineage.
