(* ===== verification/Lineage.v ===== *)
(** * Lineages: the rules, and that every operation keeps them

    The specification side of [witan/src/rotation.rs].  [successor] is one step
    of the documented rules, [chain] a sequence of steps, [valid] what holding a
    [KeyLineage] is documented to mean; the operations of [Rotation] are shown
    to implement them. *)

From S2P Require Import Prelude Errors Types Extern F64 Identity Rotation.

Section Rules.
Context {X : Ext}.

(** Who authorizes a record that replaces state [s]. *)
Definition authorized (s : KeyState) (r : KeyRotation) : Prop :=
  match ks_next_key_commitment s with
  | Some c => key_commitment (rot_new_sig_public_key r) = c ∧ rot_authorization r = []
  | None => verify_external (ks_sig_public_key s) (rotation_signing_input r)
              (rot_authorization r) SIG_CTX_KEY_ROTATION = Ok true
  end.

(** The rules for a record [r] that replaces state [s] of node [id]. *)
Record successor (id : string) (s : KeyState) (r : KeyRotation) : Prop := {
  suc_version : rot_version r = 1%Z;
  suc_node_id : rot_node_id r = id;
  suc_sequence : rot_sequence r = (ks_sequence s + 1)%Z;
  suc_digest : rot_prev_state_digest r = digest s id;
  suc_kem_len : length (rot_new_kem_public_key r) = KEM_PK_LEN;
  suc_sig_len : length (rot_new_sig_public_key r) = SIG_PK_LEN;
  suc_possession : verify_external (rot_new_sig_public_key r) (rotation_signing_input r)
                     (rot_possession r) SIG_CTX_KEY_POSSESSION = Ok true;
  suc_authorized : authorized s r;
}.

Inductive chain (id : string) (s : KeyState) : list KeyRotation -> KeyState -> Prop :=
  | chain_nil : chain id s [] s
  | chain_snoc rs s' r :
      chain id s rs s' -> successor id s' r -> chain id s (rs ++ [r]) (state_of r).

Record valid (l : KeyLineage) : Prop := {
  val_inception : lin_inception l = mkKeyState 0 (ks_kem_public_key (lin_inception l))
      (ks_sig_public_key (lin_inception l)) (ks_key_epoch (lin_inception l)) None;
  val_kem_len : length (ks_kem_public_key (lin_inception l)) = KEM_PK_LEN;
  val_sig_len : length (ks_sig_public_key (lin_inception l)) = SIG_PK_LEN;
  val_node_id : lin_node_id l = derive_node_id (ks_kem_public_key (lin_inception l))
                                  (ks_sig_public_key (lin_inception l));
  val_chain : chain (lin_node_id l) (lin_inception l) (lin_rotations l) (lin_current l);
  val_size : (Z.of_nat (length (lin_rotations l)) <= usize_max)%Z;
}.

(** A [Vec] never holds more than [usize::MAX] elements: there is room for
    one more record. *)
Definition has_room (l : KeyLineage) : Prop :=
  (Z.of_nat (length (lin_rotations l)) < usize_max)%Z.

(** ** Chains *)

Lemma chain_sequence id s rs s' :
  chain id s rs s' -> ks_sequence s' = (ks_sequence s + Z.of_nat (length rs))%Z.
Proof.
  induction 1 as [|rs s' r Hc IH Hs]; cbn; [lia|].
  rewrite length_app, (suc_sequence _ _ _ Hs), IH. cbn. lia.
Qed.

Lemma valid_sequence l : valid l -> sequence l = Z.of_nat (length (lin_rotations l)).
Proof.
  intros H. unfold sequence. rewrite (chain_sequence _ _ _ _ (val_chain _ H)).
  rewrite (val_inception _ H). cbn. lia.
Qed.

Lemma next_sequence_exact l : valid l -> next_sequence l = (sequence l + 1)%Z.
Proof.
  intros H. unfold next_sequence. apply wrap_small. rewrite (valid_sequence _ H).
  pose proof (val_size _ H) as Hs. unfold usize_max, usize_bits, fits in *. lia.
Qed.

(** Every record of a chain extends the state its prefix reaches. *)
Lemma chain_lookup id s rs s' n r :
  chain id s rs s' -> rs !! n = Some r ->
  ∃ sn, chain id s (take n rs) sn ∧ successor id sn r.
Proof.
  induction 1 as [|rs s' r' Hc IH Hs]; [done|]. intros Hn.
  apply lookup_app_Some in Hn as [Hn|[Hge Hn]].
  - destruct (IH Hn) as (sn & Hsn & ?). exists sn. split; [|done].
    rewrite take_app_le; [done|]. apply lookup_lt_Some in Hn. lia.
  - apply list_lookup_singleton_Some in Hn as [Hn0 <-].
    exists s'. split; [|done]. rewrite take_app_le, take_ge by lia. done.
Qed.

Lemma chain_snoc_inv id s rs r s' :
  chain id s (rs ++ [r]) s' -> s' = state_of r ∧ ∃ s0, chain id s rs s0 ∧ successor id s0 r.
Proof.
  inversion 1 as [Hn|rs' s0 r' Hc Hs Heq].
  - by destruct rs.
  - apply app_inj_tail in Heq as [-> ->]. eauto.
Qed.

(** ** [verify_next] decides [successor] *)

Lemma check_key_lengths_ok k s :
  check_key_lengths k s = Ok tt <-> length k = KEM_PK_LEN ∧ length s = SIG_PK_LEN.
Proof.
  unfold check_key_lengths.
  repeat case_bool_decide; cbn [negb]; intuition congruence.
Qed.

Lemma check_key_lengths_no_panic k s : check_key_lengths k s ≠ Panic.
Proof. unfold check_key_lengths. by repeat case_match. Qed.

Lemma check_authorization_ok s r : check_authorization s r = Ok tt <-> authorized s r.
Proof.
  unfold check_authorization, authorized. destruct (ks_next_key_commitment s) as [c|].
  - repeat case_bool_decide; cbn [negb]; intuition congruence.
  - rewrite bind_ok. split.
    + intros ([] & Hv & H); [done|done].
    + intros Hv. by exists true.
Qed.

Lemma check_authorization_no_panic s r : check_authorization s r ≠ Panic.
Proof.
  unfold check_authorization. case_match; [by repeat case_match|].
  apply bind_no_panic; [apply verify_external_no_panic|by intros []].
Qed.

Lemma verify_next_no_panic l r : verify_next l r ≠ Panic.
Proof.
  unfold verify_next. repeat (case_match; [done|]).
  apply bind_no_panic; [apply check_key_lengths_no_panic|intros _ _].
  apply bind_no_panic; [apply verify_external_no_panic|intros [] _; [|done]].
  cbn [negb]. apply bind_no_panic; [apply check_authorization_no_panic|done].
Qed.

Lemma verify_next_ok l r s' :
  valid l ->
  verify_next l r = Ok s' <-> successor (lin_node_id l) (lin_current l) r ∧ s' = state_of r.
Proof.
  intros Hv. unfold verify_next. rewrite (next_sequence_exact _ Hv). unfold sequence. split.
  - destruct (Z.eqb_spec (rot_version r) 1); cbn [negb]; [|done].
    case_bool_decide; cbn [negb]; [|done].
    destruct (Z.eqb_spec (rot_sequence r) (ks_sequence (lin_current l) + 1)); cbn [negb]; [|done].
    case_bool_decide; cbn [negb]; [|done].
    intros ([] & [? ?]%check_key_lengths_ok & Hb)%bind_ok.
    apply bind_ok in Hb as ([] & Hp & Hb); cbn [negb] in Hb; [|done].
    apply bind_ok in Hb as ([] & Ha%check_authorization_ok & [= <-]).
    split; [|done]. by constructor.
  - intros [[Hver Hid Hseq Hdig Hk Hs Hp Ha] ->].
    rewrite Hver, Hseq, !Z.eqb_refl. cbn [negb].
    rewrite !bool_decide_true by done. cbn [negb].
    rewrite (proj2 (check_key_lengths_ok _ _)) by done. unfold_bind.
    rewrite Hp. unfold_bind. by rewrite (proj2 (check_authorization_ok _ _) Ha).
Qed.

(** ** [apply] *)

Lemma push_valid l r :
  valid l -> has_room l -> successor (lin_node_id l) (lin_current l) r ->
  valid (push_rotation r (state_of r) l).
Proof.
  intros [] Hroom Hs. constructor; cbn; try done.
  - by eapply chain_snoc.
  - unfold has_room in Hroom. rewrite length_app. cbn. lia.
Qed.

(** The three outcomes of [apply] on a valid lineage. *)
Lemma apply_cases l r :
  valid l ->
  (∃ n, rot_sequence r = (Z.of_nat n + 1)%Z ∧ lin_rotations l !! n = Some r ∧
        apply r l = (Ok tt, l)) ∨
  (∃ n r', rot_sequence r = (Z.of_nat n + 1)%Z ∧ lin_rotations l !! n = Some r' ∧ r' ≠ r ∧
        ∃ e, apply r l = (Err e, l)) ∨
  (¬ (1 <= rot_sequence r <= sequence l)%Z ∧
   ((successor (lin_node_id l) (lin_current l) r ∧
     apply r l = (Ok tt, push_rotation r (state_of r) l)) ∨
    (¬ successor (lin_node_id l) (lin_current l) r ∧ ∃ e, apply r l = (Err e, l)))).
Proof.
  intros Hv. unfold apply. unfold_m.
  destruct (Z.leb_spec 1 (rot_sequence r)) as [Hge|]; cbn [andb].
  1: destruct (Z.leb_spec (rot_sequence r) (sequence l)) as [Hle|].
  { set (n := Z.to_nat (rot_sequence r - 1)).
    rewrite (valid_sequence _ Hv) in Hle.
    assert (Z.to_nat (wrap usize_bits (rot_sequence r - 1)) = n) as ->.
    { unfold n. f_equal. apply wrap_small. pose proof (val_size _ Hv).
      unfold fits, usize_max in *. lia. }
    destruct (lookup_lt_is_Some_2 (lin_rotations l) n) as [r' Hr']; [unfold n; lia|].
    rewrite Hr'. cbn.
    destruct (decide (r' = r)) as [->|Hne].
    - left. exists n. rewrite bool_decide_true by done. split_and!; [unfold n; lia|done|done].
    - right; left. exists n, r'. rewrite bool_decide_false by done.
      split_and!; [unfold n; lia|done|done|eauto]. }
  all: right; right; split; [lia|].
  all: pose proof (verify_next_no_panic l r) as Hnp;
    destruct (verify_next l r) as [s'|e|] eqn:E; [| |done].
  all: try (left; apply (verify_next_ok _ _ _ Hv) in E as [Hs ->]; by split).
  all: right; split; [|eauto]; intros Hs.
  all: assert (verify_next l r = Ok (state_of r)) by (by apply verify_next_ok); congruence.
Qed.

Lemma apply_successor l r :
  valid l -> successor (lin_node_id l) (lin_current l) r ->
  apply r l = (Ok tt, push_rotation r (state_of r) l).
Proof.
  intros Hv Hs. pose proof (suc_sequence _ _ _ Hs) as Hseq.
  pose proof (valid_sequence _ Hv) as Hlen. unfold sequence in Hlen.
  destruct (apply_cases l r Hv) as [(n & Hn & Hr & _)|[(n & r' & Hn & Hr & _)|(_ & Hc)]];
    [apply lookup_lt_Some in Hr; lia..|].
  by destruct Hc as [[_ ?]|[? _]].
Qed.

Lemma apply_valid l r o l' : valid l -> has_room l -> apply r l = (o, l') -> valid l'.
Proof.
  intros Hv Hroom Happ.
  destruct (apply_cases l r Hv) as [(n & ? & ? & E)|[(n & r' & ? & ? & ? & e & E)|
    (? & [(Hs & E)|(? & e & E)])]]; rewrite E in Happ; injection Happ as <- <-; try done.
  by apply push_valid.
Qed.

Lemma apply_node_id l r o l' : apply r l = (o, l') -> lin_node_id l' = lin_node_id l ∧
  lin_inception l' = lin_inception l.
Proof.
  unfold apply. unfold_m. intros H.
  repeat (case_match; cbn in *; simplify_eq; try done).
Qed.

(** ** [build_and_apply] *)

Lemma build_and_apply_cases cur next c now l :
  valid l ->
  (∃ kem r, kem_public_key_canonical_bytes next = Ok kem ∧
     sign_rotation l cur next (unsigned_rotation l kem next c now) = Ok r ∧
     successor (lin_node_id l) (lin_current l) r ∧
     build_and_apply cur next c now l = (Ok r, push_rotation r (state_of r) l)) ∨
  (∃ e, build_and_apply cur next c now l = (Err e, l)).
Proof.
  intros Hv. unfold build_and_apply. unfold_bind.
  pose proof (kem_bytes_no_panic (kem_public_key (kem_keypair next))) as Hkp.
  unfold kem_public_key_canonical_bytes in *.
  destruct (kem_public_key_bytes _) as [kem|e|]; [|eauto|done].
  destruct (sign_rotation l cur next (unsigned_rotation l kem next c now)) as [r|e|] eqn:Er;
    [|eauto|].
  - assert (rot_sequence r = next_sequence l) as Hseq.
    { revert Er. unfold sign_rotation. intros (a & _ & (p & _ & [= <-])%bind_ok)%bind_ok. done. }
    rewrite (next_sequence_exact _ Hv) in Hseq.
    destruct (apply_cases l r Hv) as [(n & Hn & Hr & _)|[(n & r' & Hn & Hr & _)|(_ & Hc)]].
    1,2: apply lookup_lt_Some in Hr; rewrite (valid_sequence _ Hv) in Hseq; lia.
    destruct Hc as [(Hs & E)|(_ & e & E)]; rewrite E.
    + left. exists kem, r. by rewrite Er.
    + right. eauto.
  - exfalso. revert Er. unfold sign_rotation. apply bind_no_panic.
    + case_match; [done|]. apply bind_no_panic; [by destruct cur|].
      intros. apply sign_no_panic.
    + intros. apply bind_no_panic; [apply sign_no_panic|done].
Qed.

Lemma build_and_apply_valid cur next c now l o l' :
  valid l -> has_room l -> build_and_apply cur next c now l = (o, l') -> valid l'.
Proof.
  intros Hv Hr H.
  destruct (build_and_apply_cases cur next c now l Hv) as [(kem & r & _ & _ & Hs & E)|(e & E)];
    rewrite E in H; injection H as <- <-; [by apply push_valid|done].
Qed.

Lemma rotate_valid cur next c now l o l' :
  valid l -> has_room l -> rotate cur next c now l = (o, l') -> valid l'.
Proof.
  intros Hv Hr. unfold rotate. unfold_bind.
  case_match; [by intros [= _ <-]|by apply build_and_apply_valid].
Qed.

Lemma recover_valid next c now l o l' :
  valid l -> has_room l -> recover next c now l = (o, l') -> valid l'.
Proof.
  intros Hv Hr. unfold recover. unfold_bind.
  case_match; [by intros [= _ <-]|by apply build_and_apply_valid].
Qed.

(** ** Inception *)

Lemma inception_ok k s e l :
  inception k s e = Ok l <->
  length k = KEM_PK_LEN ∧ length s = SIG_PK_LEN ∧
  l = mkLineage (derive_node_id k s) (mkKeyState 0 k s e None) [] (mkKeyState 0 k s e None).
Proof.
  unfold inception. rewrite bind_ok. split.
  - intros ([] & [? ?]%check_key_lengths_ok & [= <-]). done.
  - intros (? & ? & ->). exists tt. by rewrite check_key_lengths_ok.
Qed.

Lemma inception_no_panic k s e : inception k s e ≠ Panic.
Proof. unfold inception. apply bind_no_panic; [apply check_key_lengths_no_panic|done]. Qed.

Lemma inception_valid k s e l : inception k s e = Ok l -> valid l.
Proof.
  intros (? & ? & ->)%inception_ok. constructor; cbn; try done. constructor.
Qed.

Lemma from_identity_valid i l : from_identity i = Ok l -> valid l ∧ lin_node_id l = node_id i.
Proof.
  unfold from_identity. intros (k & _ & (l' & Hl & Hb)%bind_ok)%bind_ok.
  case_bool_decide; [|done]. injection Hb as ->. split; [by eapply inception_valid|done].
Qed.

(** ** Replaying a chain *)

Lemma chain_cons id s r rs s' :
  chain id s (r :: rs) s' <-> successor id s r ∧ chain id (state_of r) rs s'.
Proof.
  revert s'. induction rs as [|r' rs IH] using rev_ind; intros s'.
  - split.
    + intros (-> & s0 & H0 & Hs)%(chain_snoc_inv id s []). inversion H0 as [|rs ? ? ? ? E]; subst.
      * split; [done|constructor].
      * by destruct rs.
    + intros [Hs Hc]. inversion Hc as [|rs ? ? ? ? E]; subst; [|by destruct rs].
      by apply (chain_snoc id s [] s), Hs; constructor.
  - rewrite app_comm_cons. split.
    + intros (-> & s0 & [Hs H0]%IH & Hs')%chain_snoc_inv. split; [done|]. by eapply chain_snoc.
    + intros [Hs (-> & s0 & H0 & Hs')%chain_snoc_inv]. eapply chain_snoc; [|done]. by apply IH.
Qed.

Definition extend (l : KeyLineage) (rs : list KeyRotation) (s : KeyState) : KeyLineage :=
  mkLineage (lin_node_id l) (lin_inception l) (lin_rotations l ++ rs) s.

Lemma replay_cons r rs l :
  (rot_sequence r = next_sequence l ∧
   replay (r :: rs) l = (_ ← apply r; replay rs) l) ∨
  (rot_sequence r ≠ next_sequence l ∧ ∃ e, replay (r :: rs) l = (Err e, l)).
Proof.
  cbn [replay]. unfold_bind. destruct (Z.eqb_spec (rot_sequence r) (next_sequence l)); [|eauto].
  left. split; [done|]. reflexivity.
Qed.

Lemma replay_ok rs l l' :
  valid l -> (Z.of_nat (length (lin_rotations l) + length rs) <= usize_max)%Z ->
  replay rs l = (Ok tt, l') <->
  ∃ s, chain (lin_node_id l) (lin_current l) rs s ∧ l' = extend l rs s.
Proof.
  revert l. induction rs as [|r rs IH]; intros l Hv Hsz.
  - unfold extend. split.
    + intros [= <-]. exists (lin_current l). rewrite app_nil_r. split; [constructor|by destruct l].
    + intros (s & Hc & ->). rewrite app_nil_r. inversion Hc as [|rs ? ? ? ? E]; subst; [|by destruct rs].
      by destruct l.
  - cbn [length] in Hsz. assert (has_room l) as Hroom by (unfold has_room; lia).
    assert (∀ s, extend (push_rotation r (state_of r) l) rs s = extend l (r :: rs) s) as Hext.
    { intros s. unfold extend. cbn. by rewrite <- app_assoc. }
    setoid_rewrite chain_cons.
    destruct (replay_cons r rs l) as [(Hseq & ->)|(Hseq & e & ->)];
      rewrite (next_sequence_exact _ Hv) in Hseq.
    2: { split; [done|]. intros (s & [Hs _] & _). by apply suc_sequence in Hs. }
    unfold_bind.
    destruct (apply_cases l r Hv) as [(n & Hn & Hr & _)|[(n & r' & Hn & Hr & _)|(_ & Hc)]].
    1,2: apply lookup_lt_Some in Hr; rewrite (valid_sequence _ Hv) in Hseq; lia.
    destruct Hc as [(Hs & ->)|(Hn & e & ->)].
    + rewrite IH; [|by apply push_valid|cbn; rewrite length_app; cbn; lia].
      setoid_rewrite Hext. cbn [lin_node_id lin_current push_rotation]. naive_solver.
    + split; [done|]. intros (s & [Hs _] & _). done.
Qed.

Lemma replay_no_panic rs l :
  valid l -> (Z.of_nat (length (lin_rotations l) + length rs) <= usize_max)%Z ->
  (replay rs l).1 ≠ Panic.
Proof.
  revert l. induction rs as [|r rs IH]; intros l Hv Hsz; [done|].
  cbn [length] in Hsz. assert (has_room l) as Hroom by (unfold has_room; lia).
  destruct (replay_cons r rs l) as [(Hseq & ->)|(Hseq & e & ->)]; [|done]. unfold_bind.
  destruct (apply_cases l r Hv) as [(n & ? & Hr & ->)|[(n & r' & ? & ? & ? & e & ->)|
    (? & [(Hs & ->)|(? & e & ->)])]]; try done; apply IH; try done; try lia.
  - by apply push_valid.
  - cbn. rewrite length_app. cbn. lia.
Qed.

Definition wire_fits (w : LineageWire) : Prop :=
  (Z.of_nat (length (wire_rotations w)) <= usize_max)%Z.

(** [from_wire] accepts exactly the wire forms of valid lineages. *)
Lemma from_wire_ok w l : wire_fits w -> from_wire w = Ok l <-> valid l ∧ to_wire l = w.
Proof.
  intros Hw. unfold from_wire. split.
  - destruct (Z.eqb_spec (wire_version w) LINEAGE_VERSION) as [Ev|]; cbn [negb]; [|done].
    intros (l0 & Hl0 & H)%bind_ok. pose proof (inception_valid _ _ _ _ Hl0) as Hv0.
    apply inception_ok in Hl0 as (Hk & Hs & ->).
    destruct (replay _ _) as [o l'] eqn:E. apply bind_ok in H as ([] & -> & [= ->]).
    apply replay_ok in E as (s & Hc & ->); [|done|done].
    split; [by constructor; cbn|]. unfold to_wire, extend. cbn. rewrite <- Ev. by destruct w.
  - intros [[Hi Hk Hs Hid Hc Hsz] <-]. cbn [to_wire wire_version negb]. rewrite Z.eqb_refl. cbn [negb].
    set (l0 := mkLineage (lin_node_id l) (lin_inception l) [] (lin_inception l)).
    assert (inception (ks_kem_public_key (lin_inception l)) (ks_sig_public_key (lin_inception l))
      (ks_key_epoch (lin_inception l)) = Ok l0) as Hl0.
    { apply inception_ok. split_and!; try done. unfold l0. by rewrite <- Hid, <- Hi. }
    cbn [to_wire wire_inception_kem_public_key wire_inception_sig_public_key
      wire_inception_key_epoch wire_rotations].
    rewrite Hl0. unfold_bind. pose proof (inception_valid _ _ _ _ Hl0) as Hv0.
    rewrite (proj2 (replay_ok (lin_rotations l) l0 l Hv0 Hsz)); [done|].
    exists (lin_current l). split; [done|]. by destruct l.
Qed.

Lemma from_wire_no_panic w : wire_fits w -> from_wire w ≠ Panic.
Proof.
  intros Hw. unfold from_wire. case_match; [done|].
  apply bind_no_panic; [apply inception_no_panic|]. intros l0 Hl0.
  pose proof (inception_valid _ _ _ _ Hl0) as Hv0. apply inception_ok in Hl0 as (_ & _ & ->).
  pose proof (replay_no_panic (wire_rotations w) _ Hv0 Hw) as Hp.
  destruct (replay _ _) as [o l']. cbn in Hp. by destruct o.
Qed.
End Rules.
