(* ===== verification/LineageThms.v ===== *)
(** * What a lineage guarantees

    The properties of [witan/src/rotation.rs] for its users: holding a lineage
    means holding a valid chain, decoding yields no other, rotation keeps the id
    and moves the keys, a commitment shuts out whoever stole the current key, and
    the four kinds of signatures, the records and the digests are read in one way
    only. *)

From S2P Require Import Prelude Errors Types Extern F64 Identity Envelope Config Rotation Lineage.

(** The codec of stored lineages. *)
Class LineageCodec `{Bincode LineageWire} : Prop := {
  lineage_codec_laws :: BincodeLaws LineageWire;
  (** A decoded [Vec] has at most [usize::MAX] elements. *)
  decoded_wire_fits n b w : deserialize_limit n b = inr w -> wire_fits w;
}.

Section Thms.
Context {X : Ext} `{!Bincode LineageWire}.

(** Every way of obtaining a lineage. *)
Inductive obtained : KeyLineage -> Prop :=
  | ob_inception k s e l : inception k s e = Ok l -> obtained l
  | ob_identity i l : from_identity i = Ok l -> obtained l
  | ob_decode b l : decode b = Ok l -> obtained l
  | ob_apply l r o l' : obtained l -> has_room l -> apply r l = (o, l') -> obtained l'
  | ob_rotate l cur next c now o l' :
      obtained l -> has_room l -> rotate cur next c now l = (o, l') -> obtained l'
  | ob_recover l next c now o l' :
      obtained l -> has_room l -> recover next c now l = (o, l') -> obtained l'.

Lemma decode_inv b l :
  decode b = Ok l ->
  (Z.of_nat (length b) <= MAX_LINEAGE_BYTES)%Z ∧
  ∃ w, deserialize_limit MAX_LINEAGE_BYTES b = inr w ∧ from_wire w = Ok l.
Proof.
  unfold decode. destruct (Z.ltb_spec MAX_LINEAGE_BYTES (Z.of_nat (length b))) as [|Hl]; [done|].
  intros (w & Hw%map_err_ok & Hf)%bind_ok. eauto.
Qed.

(** C7. "Holding a [KeyLineage] means holding a valid chain": every lineage any
    sequence of the operations can produce, successful or not, obeys the
    rules from its inception to its current state, and its id is the one its
    inception keys derive. *)
Theorem obtained_valid `{!LineageCodec} (l : KeyLineage) (Hob : obtained l) : valid l.
Proof.
  induction Hob as [k s e l Hl|i l Hl|b l Hl|l r o l' _ IH Hr Ha|l cur next c now o l' _ IH Hr Ha
    |l next c now o l' _ IH Hr Ha].
  - by eapply inception_valid.
  - by apply from_identity_valid in Hl as [? _].
  - apply decode_inv in Hl as (_ & w & Hw%decoded_wire_fits & Hl).
    by apply from_wire_ok in Hl as [? _].
  - by eapply apply_valid.
  - by eapply rotate_valid.
  - by eapply recover_valid.
Qed.

(** C8. [apply] on a valid lineage has three outcomes. A record of the chain is
    accepted again without effect; a different record at a sequence the chain
    already has is a fork, an error; any other record extends the chain
    exactly when it is a rule-abiding successor of the current state. An error
    leaves the lineage as it was, and the index into the records never
    panics. *)
Theorem apply_outcomes (l : KeyLineage) (r : KeyRotation) (Hv : valid l) :
  (r ∈ lin_rotations l -> apply r l = (Ok tt, l)) ∧
  ((1 <= rot_sequence r <= sequence l)%Z -> r ∉ lin_rotations l ->
     ∃ e, apply r l = (Err e, l)) ∧
  (¬ (1 <= rot_sequence r <= sequence l)%Z ->
     (successor (lin_node_id l) (lin_current l) r ->
        apply r l = (Ok tt, push_rotation r (state_of r) l)) ∧
     (¬ successor (lin_node_id l) (lin_current l) r -> ∃ e, apply r l = (Err e, l))).
Proof.
  assert (∀ n r', lin_rotations l !! n = Some r' -> rot_sequence r' = (Z.of_nat n + 1)%Z) as Hnth.
  { intros n r' Hn. pose proof (lookup_lt_Some _ _ _ Hn).
    destruct (chain_lookup _ _ _ _ _ _ (val_chain _ Hv) Hn) as (sn & Hc & Hs).
    rewrite (suc_sequence _ _ _ Hs), (chain_sequence _ _ _ _ Hc), (val_inception _ Hv).
    rewrite length_take. cbn. lia. }
  pose proof (valid_sequence _ Hv) as Hseq.
  destruct (apply_cases l r Hv) as [(n & Hn & Hr & E)|[(n & r' & Hn & Hr & Hne & e & E)|
    (Hout & Hc)]].
  - pose proof (lookup_lt_Some _ _ _ Hr). split_and!; [done| |lia].
    intros _ Hnin. destruct Hnin. by eapply list_elem_of_lookup_2.
  - pose proof (lookup_lt_Some _ _ _ Hr). split_and!; [|eauto|lia].
    intros [m Hm]%list_elem_of_lookup. pose proof (Hnth _ _ Hm).
    assert (m = n) as -> by lia. congruence.
  - split_and!; [| done |destruct Hc; naive_solver].
    intros [m Hm]%list_elem_of_lookup. pose proof (Hnth _ _ Hm).
    apply lookup_lt_Some in Hm. lia.
Qed.

Lemma decode_no_panic `{!LineageCodec} b : decode b ≠ Panic.
Proof.
  unfold decode. case_match; [done|]. apply bind_no_panic; [apply map_err_no_panic|].
  intros w Hw%map_err_ok%decoded_wire_fits. by apply from_wire_no_panic.
Qed.

(** C27. Decoding accepts exactly the stored forms, within the size limit, of
    valid lineages: the current state is recomputed by verifying every
    record, whatever the bytes claim, and no input makes it panic. *)
Theorem decode_exact `{!LineageCodec} (b : bytes) (l : KeyLineage) :
  decode b ≠ Panic ∧
  (decode b = Ok l <->
   (Z.of_nat (length b) <= MAX_LINEAGE_BYTES)%Z ∧
   deserialize_limit MAX_LINEAGE_BYTES b = inr (to_wire l) ∧ valid l).
Proof.
  split; [apply decode_no_panic|]. split.
  - intros (Hl & w & Hw & Hf)%decode_inv. pose proof (decoded_wire_fits _ _ _ Hw) as Hfit.
    by apply from_wire_ok in Hf as [Hv <-].
  - intros (Hl & Hw & Hv). unfold decode. rewrite (proj2 (Z.ltb_ge _ _)) by done.
    rewrite Hw. unfold_bind. cbn [map_err].
    apply from_wire_ok; [by eapply decoded_wire_fits|done].
Qed.

Lemma decode_encoded `{!LineageCodec} (l : KeyLineage) (b : bytes) :
  valid l -> encode l = Ok b -> (Z.of_nat (length b) <= MAX_LINEAGE_BYTES)%Z -> decode b = Ok l.
Proof.
  intros Hv He%map_err_ok Hl. unfold decode. rewrite (proj2 (Z.ltb_ge _ _)) by done.
  rewrite (deserialize_limit_serialize _ _ _ He Hl). unfold_bind. cbn [map_err].
  by apply from_wire_ok; [apply (val_size _ Hv)|].
Qed.

Lemma decode_too_long (b : bytes) :
  (MAX_LINEAGE_BYTES < Z.of_nat (length b))%Z -> ∃ s, decode b = Err (InvalidInput s).
Proof. intros Hl. unfold decode. rewrite (proj2 (Z.ltb_lt _ _)) by done. eauto. Qed.

(** ** Rotation *)

(** What [sign_rotation] signs on behalf of a successor of [l]. *)
Definition opens (l : KeyLineage) (next : NodeIdentity) : Prop :=
  ∀ c, next_key_commitment l = Some c -> key_commitment (sig_public_key_bytes next) = c.

Lemma sign_rotation_content l cur next u r :
  sign_rotation l cur next u = Ok r -> ∃ a p, r = with_signatures a p u.
Proof. unfold sign_rotation. intros (a & _ & (p & _ & [= <-])%bind_ok)%bind_ok. eauto. Qed.

Lemma build_content cur next c now l r l' :
  valid l -> build_and_apply cur next c now l = (Ok r, l') ->
  ∃ kem a p, kem_public_key_canonical_bytes next = Ok kem ∧
    r = with_signatures a p (unsigned_rotation l kem next c now) ∧
    successor (lin_node_id l) (lin_current l) r ∧ l' = push_rotation r (state_of r) l.
Proof.
  intros Hv H.
  destruct (build_and_apply_cases cur next c now l Hv) as [(kem & r' & Hk & Hs & Hsuc & E)|(e & E)];
    rewrite E in H; [|done]. injection H as <- <-.
  apply sign_rotation_content in Hs as (a & p & ->). eauto 10.
Qed.

(** What holds after a record that moves [l] to the keys of [next]. *)
Record moved (l : KeyLineage) (next : NodeIdentity) (commitment : option bytes)
    (r : KeyRotation) (l' : KeyLineage) : Prop := {
  mv_node_id : lin_node_id l' = lin_node_id l;
  mv_sequence : sequence l' = (sequence l + 1)%Z;
  mv_sig_key : current_sig_public_key l' = sig_public_key_bytes next;
  mv_kem_key : kem_public_key_canonical_bytes next = Ok (current_kem_public_key l');
  mv_epoch : current_key_epoch l' = id_key_epoch next;
  mv_commitment : next_key_commitment l' = commitment;
  mv_record : apply r l = (Ok tt, l');
  mv_valid : valid l';
}.

Lemma build_moved cur next c now l r l' :
  valid l -> has_room l -> build_and_apply cur next c now l = (Ok r, l') -> moved l next c r l'.
Proof.
  intros Hv Hr H. pose proof (build_content _ _ _ _ _ _ _ Hv H) as (kem & a & p & Hk & -> & Hs & ->).
  constructor; try done.
  - cbn. apply (next_sequence_exact _ Hv).
  - by apply apply_successor.
  - by apply push_valid.
Qed.

Lemma build_and_apply_error cur next c now l e l' :
  valid l -> build_and_apply cur next c now l = (Err e, l') -> l' = l.
Proof.
  intros Hv H.
  destruct (build_and_apply_cases cur next c now l Hv) as [(? & ? & _ & _ & _ & E)|(? & E)];
    rewrite E in H; congruence.
Qed.

Lemma build_and_apply_no_panic cur next c now l :
  valid l -> (build_and_apply cur next c now l).1 ≠ Panic.
Proof.
  intros Hv.
  by destruct (build_and_apply_cases cur next c now l Hv) as [(? & ? & _ & _ & _ & ->)|(? & ->)].
Qed.

Lemma rotate_successor cur next c now l r l' :
  valid l -> rotate cur next c now l = (Ok r, l') ->
  successor (lin_node_id l) (lin_current l) r.
Proof.
  intros Hv. unfold rotate. rewrite get_bind. case_match; [done|].
  by intros (_ & _ & _ & _ & _ & Hs & _)%build_content.
Qed.

Lemma rotate_no_panic cur next c now l : valid l -> (rotate cur next c now l).1 ≠ Panic.
Proof.
  intros Hv. unfold rotate. unfold_bind. case_match; [done|]. by apply build_and_apply_no_panic.
Qed.

Lemma recover_no_panic next c now l : valid l -> (recover next c now l).1 ≠ Panic.
Proof.
  intros Hv. unfold recover. unfold_bind. case_match; [done|]. by apply build_and_apply_no_panic.
Qed.

(** A rotation moves the lineage, on behalf of the holder of its current key,
    or changes nothing. *)
Lemma rotate_cases cur next c now l :
  valid l -> has_room l ->
  (∃ r l', rotate cur next c now l = (Ok r, l') ∧ moved l next c r l' ∧
           sig_public_key_bytes cur = current_sig_public_key l) ∨
  (∃ e, rotate cur next c now l = (Err e, l)).
Proof.
  intros Hv Hr. unfold rotate. unfold_bind. case_bool_decide as Hk; cbn [negb]; [|eauto].
  destruct (build_and_apply_cases (Some cur) next c now l Hv) as [(? & r & _ & _ & _ & E)|(e & E)].
  - left. exists r, (push_rotation r (state_of r) l). split_and!; [done| |done].
    by apply (build_moved _ _ _ _ _ _ _ Hv Hr E).
  - right. by exists e.
Qed.

Context {L : ExtLaws}.

(** The party that may authorize the next record of [l]. *)
Definition may_rotate (l : KeyLineage) (cur : option NodeIdentity) (next : NodeIdentity) : Prop :=
  match next_key_commitment l with
  | Some c => key_commitment (sig_public_key_bytes next) = c
  | None => ∃ i, cur = Some i ∧ can_sign i ∧ sig_public_key_bytes i = current_sig_public_key l
  end.

Lemma sign_rotation_successor l cur next kem c now :
  valid l -> kem_public_key_canonical_bytes next = Ok kem -> can_sign next ->
  may_rotate l cur next ->
  ∃ r, sign_rotation l cur next (unsigned_rotation l kem next c now) = Ok r ∧
       successor (lin_node_id l) (lin_current l) r.
Proof.
  intros Hv Hk Hn Hm. unfold sign_rotation. set (u := unsigned_rotation l kem next c now).
  destruct (can_sign_ok next (rotation_signing_input u) SIG_CTX_KEY_POSSESSION Hn) as [p Hp];
    [cbn; lia|].
  assert (∃ a, (match next_key_commitment l with
                | None => current ← ok_or cur (IdentityError "rotation needs the current key");
                    sign current (rotation_signing_input u) SIG_CTX_KEY_ROTATION
                | Some _ => Ok [] end) = Ok a ∧
            authorized (lin_current l) (with_signatures a p u)) as (a & -> & Ha).
  { unfold may_rotate, authorized, next_key_commitment in *.
    destruct (ks_next_key_commitment (lin_current l)) as [cm|]; [by exists []|].
    destruct Hm as (i & -> & Hi & Hpk). cbn [ok_or].
    destruct (can_sign_ok i (rotation_signing_input u) SIG_CTX_KEY_ROTATION Hi) as [a Ha]; [cbn; lia|].
    exists a. split; [done|]. unfold current_sig_public_key in Hpk. rewrite <- Hpk.
    by apply verify_signed. }
  unfold_bind. rewrite Hp. exists (with_signatures a p u). split; [done|].
  constructor; cbn; try done.
  - apply (next_sequence_exact _ Hv).
  - by apply (kem_bytes_length _ _ Hk).
  - apply sig_public_key_bytes_length.
  - by apply verify_signed.
Qed.

Lemma build_and_apply_ok l cur next kem c now :
  valid l -> kem_public_key_canonical_bytes next = Ok kem -> can_sign next ->
  may_rotate l cur next ->
  ∃ r l', build_and_apply cur next c now l = (Ok r, l').
Proof.
  intros Hv Hk Hn Hm. destruct (sign_rotation_successor l cur next kem c now) as (r & Hr & Hs); [done..|].
  exists r, (push_rotation r (state_of r) l). unfold build_and_apply. unfold_bind.
  rewrite Hk, Hr. by rewrite (apply_successor _ _ Hv Hs).
Qed.

(** The holder of the current key rotates to a key the lineage admits. *)
Lemma rotate_run l cur next kem c now :
  valid l -> sig_public_key_bytes cur = current_sig_public_key l -> can_sign cur -> can_sign next ->
  kem_public_key_canonical_bytes next = Ok kem -> opens l next ->
  ∃ r l', rotate cur next c now l = (Ok r, l').
Proof.
  intros Hv Hcur Hsc Hsn Hk Ho.
  destruct (build_and_apply_ok l (Some cur) next kem c now) as (r & l' & E); try done.
  { unfold may_rotate, opens in *. destruct (next_key_commitment l) as [cm|]; [by apply Ho|eauto]. }
  exists r, l'. unfold rotate. unfold_bind. by rewrite bool_decide_true.
Qed.

(** C16. Rotation keeps the id and moves the keys. The holder of the current key
    always succeeds in rotating to a key that the lineage's commitment, if
    any, admits; afterwards the id is unchanged, the new keys, epoch and
    commitment are current, and any other holder of the old lineage reaches
    the same lineage by applying the returned record. *)
Theorem rotate_moves_keys (l : KeyLineage) (current next : NodeIdentity) (kem : bytes)
    (commitment : option bytes) (now_ms : Z)
    (Hv : valid l) (Hroom : has_room l)
    (Hcur : sig_public_key_bytes current = current_sig_public_key l)
    (Hsc : can_sign current) (Hsn : can_sign next)
    (Hkem : kem_public_key_canonical_bytes next = Ok kem) (Hopen : opens l next) :
  ∃ r l', rotate current next commitment now_ms l = (Ok r, l') ∧ moved l next commitment r l'.
Proof.
  destruct (rotate_run l current next kem commitment now_ms) as (r & l' & E); try done.
  exists r, l'. split; [done|].
  destruct (rotate_cases current next commitment now_ms l Hv Hroom) as [(r2 & l2 & E2 & Hm & _)|(err & E2)];
    rewrite E2 in E; [by injection E as -> ->|done].
Qed.

(** Recovery does the same without the current key, exactly when the lineage
    carries a commitment and the new key opens it. *)
Theorem recover_needs_commitment (l : KeyLineage) (next : NodeIdentity) (kem : bytes)
    (commitment : option bytes) (now_ms : Z)
    (Hv : valid l) (Hroom : has_room l) (Hsn : can_sign next)
    (Hkem : kem_public_key_canonical_bytes next = Ok kem) :
  (∃ c, next_key_commitment l = Some c ∧ key_commitment (sig_public_key_bytes next) = c) <->
  ∃ r l', recover next commitment now_ms l = (Ok r, l') ∧ moved l next commitment r l'.
Proof.
  unfold recover. unfold_bind. split.
  - intros (c & Hc & Ho). rewrite bool_decide_false by congruence.
    destruct (build_and_apply_ok l None next kem commitment now_ms) as (r & l' & E); try done.
    { unfold may_rotate. by rewrite Hc. }
    exists r, l'. split; [done|]. by eapply build_moved.
  - intros (r & l' & H & _). case_bool_decide as Hc; [done|].
    destruct (next_key_commitment l) as [c|] eqn:Ec; [|done]. exists c. split; [done|].
    apply build_content in H as (k & a & p & _ & -> & Hs & _); [|done].
    apply suc_authorized in Hs. unfold authorized, next_key_commitment in *.
    rewrite Ec in Hs. by destruct Hs as [Hs _].
Qed.

(** One run of an operation that may add a record, whatever it answers. *)
Inductive operated (l : KeyLineage) : KeyLineage -> Prop :=
  | op_apply r o l' : apply r l = (o, l') -> operated l l'
  | op_rotate cur next c now o l' : rotate cur next c now l = (o, l') -> operated l l'
  | op_recover next c now o l' : recover next c now l = (o, l') -> operated l l'.

Lemma built_successor cur next c now l o l' :
  valid l -> build_and_apply cur next c now l = (o, l') -> l' ≠ l ->
  ∃ r, successor (lin_node_id l) (lin_current l) r ∧ l' = push_rotation r (state_of r) l.
Proof.
  intros Hv E Hne.
  destruct (build_and_apply_cases cur next c now l Hv) as [(? & r & _ & _ & Hs & E')|(? & E')];
    rewrite E' in E; injection E as _ <-; [by exists r|done].
Qed.

(** What an operation adds is a successor. *)
Lemma operated_successor l l' :
  valid l -> operated l l' -> l' ≠ l ->
  ∃ r, successor (lin_node_id l) (lin_current l) r ∧ l' = push_rotation r (state_of r) l.
Proof.
  intros Hv [r o l1 E|cur next c now o l1 E|next c now o l1 E] Hne.
  - destruct (apply_cases l r Hv) as [(? & _ & _ & E')|[(? & ? & _ & _ & _ & ? & E')|
      (_ & [(Hs & E')|(_ & ? & E')])]]; rewrite E' in E; injection E as _ <-; try done.
    by exists r.
  - revert E. unfold rotate. rewrite get_bind. case_match; [by intros [= _ <-]|].
    intros E. by eapply built_successor.
  - revert E. unfold recover. rewrite get_bind. case_match; [by intros [= _ <-]|].
    intros E. by eapply built_successor.
Qed.

(** C9. A commitment shuts out whoever stole the current key. While one is in
    force, every operation that adds a record (applying a record whatever
    signatures it carries, rotating with whatever current key, recovering)
    installs a key that opens the commitment: the committed key itself, or
    else the two tagged keys are a collision of SHA-256. *)
Theorem commitment_enforced (l l' : KeyLineage) (pk : bytes)
    (Hv : valid l) (Hc : next_key_commitment l = Some (key_commitment pk))
    (Ha : operated l l') (Hne : l' ≠ l) :
  current_sig_public_key l' = pk ∨
  collide (COMMITMENT_TAG ++ current_sig_public_key l') (COMMITMENT_TAG ++ pk).
Proof.
  destruct (operated_successor l l' Hv Ha Hne) as (r & Hs & ->).
  apply suc_authorized in Hs. unfold authorized, next_key_commitment in *. rewrite Hc in Hs.
  destruct Hs as [Hs _]. cbn.
  destruct (same_hash _ _ Hs) as [E|]; [left; by apply app_inv_head in E|by right].
Qed.

(** A failed operation changes nothing: [rotate], [recover] and [apply] on a
    valid lineage never panic and leave it untouched when they return an
    error. *)
Theorem failure_is_atomic (l : KeyLineage) (cur next : NodeIdentity) (r : KeyRotation)
    (c : option bytes) (now_ms : Z) (e : GossipError) (l' : KeyLineage) (Hv : valid l) :
  ((rotate cur next c now_ms l).1 ≠ Panic ∧ (recover next c now_ms l).1 ≠ Panic ∧
   (apply r l).1 ≠ Panic) ∧
  (rotate cur next c now_ms l = (Err e, l') -> l' = l) ∧
  (recover next c now_ms l = (Err e, l') -> l' = l) ∧
  (apply r l = (Err e, l') -> l' = l).
Proof.
  split_and!; [by apply rotate_no_panic|by apply recover_no_panic|..];
    unfold rotate, recover; unfold_bind.
  - by destruct (apply_cases l r Hv) as [(? & _ & _ & ->)|[(? & ? & _ & _ & _ & ? & ->)|
      (_ & [(_ & ->)|(_ & ? & ->)])]].
  - case_match; [by intros [= _ <-]|]. by apply build_and_apply_error.
  - case_match; [by intros [= _ <-]|]. by apply build_and_apply_error.
  - destruct (apply_cases l r Hv) as [(? & _ & _ & ->)|[(? & ? & _ & _ & _ & ? & ->)|
      (_ & [(_ & ->)|(_ & ? & ->)])]]; congruence.
Qed.

(** ** Separation of the signatures *)

(** C35. What a node signs under a context it verifies under that context, and
    the bytes it signs are the context and the message, tagged so that they can
    be told apart: the bytes signed for a handshake, for an envelope, for a
    rotation and for a possession proof are never the same, whatever the four
    messages, and under one of these contexts two messages are never signed as
    the same bytes.  A context of more than 255 bytes is refused. *)
Theorem sign_verify_separated (i : NodeIdentity) (c m s m1 m2 m3 m4 : bytes) :
  (sign i m c = Ok s ->
     sign_deterministic (sig_keypair i) (tagged c m) = inr s ∧ verify i m s c = Ok true) ∧
  NoDup [tagged SIG_CTX_HANDSHAKE m1; tagged SIG_CTX_MESSAGE m2; tagged SIG_CTX_KEY_ROTATION m3;
         tagged SIG_CTX_KEY_POSSESSION m4] ∧
  ((length c <= 255)%nat -> tagged c m1 = tagged c m2 -> m1 = m2) ∧
  ((255 < length c)%nat ->
   sign i m c = Err context_too_long ∧ verify i m s c = Err context_too_long).
Proof.
  split; [intros Hs; split; [by apply sign_tagged|by apply verify_signed]|].
  split; [|split; [intros Hc Ht; by eapply tagged_inj|apply context_refused]].
  repeat (apply NoDup_cons; split); [..|apply NoDup_nil_2].
  all: rewrite ?not_elem_of_cons; split_and?; try apply not_elem_of_nil.
  all: intros [Hc _]%tagged_inj; [discriminate Hc|cbn; lia..].
Qed.

(** ** Uniqueness of encodings *)

Definition lineage_fits (l : KeyLineage) : Prop :=
  vec_fits (as_bytes (lin_node_id l)) ∧ state_fits (lin_current l).

(** C38. The bytes both signatures of a record cover determine every field of it
    but the signatures; and a record is bound to the state it replaces: one
    record that extends two lineages replaces the same state of the same node
    in both, or else the digest inputs of the two states are a collision of
    SHA-256. *)
Theorem record_binds_state (l1 l2 : KeyLineage) (r1 r2 : KeyRotation)
    (Hf1 : rotation_fits r1) (Hf2 : rotation_fits r2)
    (Hl1 : lineage_fits l1) (Hl2 : lineage_fits l2)
    (Hs1 : successor (lin_node_id l1) (lin_current l1) r1)
    (Hs2 : successor (lin_node_id l2) (lin_current l2) r2)
    (Hin : rotation_signing_input r1 = rotation_signing_input r2) :
  same_content r1 r2 ∧
  ((lin_node_id l1 = lin_node_id l2 ∧ lin_current l1 = lin_current l2) ∨
   collide (digest_input (lin_node_id l1) (lin_current l1))
     (digest_input (lin_node_id l2) (lin_current l2))).
Proof.
  apply rotation_signing_input_inj in Hin; [|done..]. split; [done|].
  pose proof (suc_digest _ _ _ Hs1) as Hd1. pose proof (suc_digest _ _ _ Hs2) as Hd2.
  rewrite Hin in Hd1. cbn in Hd1. rewrite Hd2 in Hd1. unfold digest in Hd1.
  destruct Hl1, Hl2.
  destruct (same_hash _ _ (eq_sym Hd1)) as [E|]; [left; by apply digest_input_inj in E|by right].
Qed.

(** ** Envelopes *)

(** [check_envelope_sender] accepts exactly the envelopes of the lineage's
    node under its current key; after a rotation to another key, no envelope
    passes against both the old and the new lineage. *)
Theorem sender_check_exact (l l' : KeyLineage) (next : NodeIdentity) (c : option bytes)
    (r : KeyRotation) (env : GossipEnvelope) :
  (check_envelope_sender l env = Ok tt <->
   env_sender_node_id env = lin_node_id l ∧
   env_sender_public_key env = current_sig_public_key l) ∧
  (moved l next c r l' -> sig_public_key_bytes next ≠ current_sig_public_key l ->
   check_envelope_sender l env = Ok tt -> ∃ e, check_envelope_sender l' env = Err e).
Proof.
  assert (∀ k, check_envelope_sender k env = Ok tt <->
    env_sender_node_id env = lin_node_id k ∧
    env_sender_public_key env = current_sig_public_key k) as Hiff.
  { intros k. unfold check_envelope_sender.
    repeat case_bool_decide; cbn [negb]; intuition congruence. }
  split; [apply Hiff|]. intros Hm Hk [Hid Hpk]%Hiff.
  unfold check_envelope_sender. rewrite bool_decide_true by (by rewrite (mv_node_id _ _ _ _ _ Hm)).
  rewrite (mv_sig_key _ _ _ _ _ Hm), bool_decide_false by congruence. cbn [negb]. eauto.
Qed.
End Thms.
