(* ===== verification/Storage.v ===== *)
(** * How much a stored lineage takes

    [KeyLineage::encode] writes a lineage of any size, [KeyLineage::decode] reads
    4 MiB: storage round-trips within it, and how many rotations that is. *)

From S2P Require Import Prelude Errors Types Extern F64 Identity Envelope Config Rotation Lineage LineageThms.

(** ** The size bincode gives a lineage *)

Definition vec_size (b : bytes) : Z := 8 + Z.of_nat (length b).
Definition text_size (s : string) : Z := vec_size (as_bytes s).
Definition option_size (c : option bytes) : Z :=
  match c with Some b => 1 + Z.of_nat (length b) | None => 1 end.

Definition rotation_size (r : KeyRotation) : Z :=
  1 + text_size (rot_node_id r) + 8 + Z.of_nat (length (rot_prev_state_digest r)) +
  vec_size (rot_new_kem_public_key r) + vec_size (rot_new_sig_public_key r) +
  text_size (rot_new_key_epoch r) + option_size (rot_next_key_commitment r) + 8 +
  vec_size (rot_authorization r) + vec_size (rot_possession r).

Definition sum_sizes (rs : list KeyRotation) : Z :=
  foldr (λ r n, rotation_size r + n)%Z 0%Z rs.

Definition wire_size (w : LineageWire) : Z :=
  1 + vec_size (wire_inception_kem_public_key w) + vec_size (wire_inception_sig_public_key w) +
  text_size (wire_inception_key_epoch w) + 8 + sum_sizes (wire_rotations w).

(** What a lineage of the program holds: values of their types. *)
Record record_fits (r : KeyRotation) : Prop := {
  cf_content : rotation_fits r;
  cf_authorization : vec_fits (rot_authorization r);
  cf_possession : vec_fits (rot_possession r);
}.

Record stored_fits (w : LineageWire) : Prop := {
  st_version : fits 8 (wire_version w);
  st_kem : vec_fits (wire_inception_kem_public_key w);
  st_sig : vec_fits (wire_inception_sig_public_key w);
  st_epoch : vec_fits (as_bytes (wire_inception_key_epoch w));
  st_rotations : Forall record_fits (wire_rotations w);
  st_count : wire_fits w;
}.

(** bincode's fixed-width encoding: it does not fail on such a value, and its
    size is the sum of those of the fields. *)
Class LineageSizes `{!Bincode LineageWire} : Prop :=
  lineage_serialize w :
    stored_fits w -> ∃ b, serialize w = inr b ∧ Z.of_nat (length b) = wire_size w.

Section Storage.
Context {X : Ext} `{!Bincode LineageWire}.

(** ** The lineages a node writes *)

Definition short_epoch (s : string) : Prop := (length (as_bytes s) <= 256)%nat.

Record light_record (r : KeyRotation) : Prop := {
  lr_fits : rotation_fits r;
  lr_id : length (as_bytes (rot_node_id r)) = 64%nat;
  lr_kem : length (rot_new_kem_public_key r) = KEM_PK_LEN;
  lr_sig : length (rot_new_sig_public_key r) = SIG_PK_LEN;
  lr_epoch : short_epoch (rot_new_key_epoch r);
  lr_authorization : rot_authorization r = [] ∨ length (rot_authorization r) = 3309%nat;
  lr_possession : length (rot_possession r) = 3309%nat;
}.

Record light (l : KeyLineage) : Prop := {
  lt_valid : valid l;
  lt_epoch : short_epoch (ks_key_epoch (lin_inception l));
  lt_records : Forall light_record (lin_rotations l);
}.

Lemma light_record_fits r : light_record r -> record_fits r.
Proof.
  intros []. constructor; [done|..]; apply short_small; [|lia].
  destruct lr_authorization0 as [->| ->]; cbn; lia.
Qed.

Lemma light_fits l : light l -> stored_fits (to_wire l).
Proof.
  intros [[] He Hr]. unfold short_epoch in He.
  constructor; cbn [to_wire wire_version wire_inception_kem_public_key wire_inception_sig_public_key
    wire_inception_key_epoch wire_rotations]; try done.
  - apply short_small. rewrite val_kem_len. unfold KEM_PK_LEN. lia.
  - apply short_small. rewrite val_sig_len. unfold SIG_PK_LEN. lia.
  - apply short_small. lia.
  - eapply Forall_impl; [exact Hr|]. intros r. apply light_record_fits.
Qed.

(** ** Bounds *)

Lemma light_record_size r : light_record r -> (6639 <= rotation_size r <= 10236)%Z.
Proof.
  intros [[_ _ _ Hd _ _ _ Hc _] Hid Hk Hs He Ha Hp]. unfold rotation_size, text_size, vec_size, short_epoch, is32 in *.
  assert (1 <= option_size (rot_next_key_commitment r) <= 33)%Z.
  { unfold option_size. destruct (rot_next_key_commitment r) as [c|] eqn:Ec; [|lia].
    rewrite (Hc c eq_refl). lia. }
  assert (length (rot_authorization r) <= 3309)%nat by (destruct Ha as [->| ->]; cbn; lia).
  rewrite Hid, Hk, Hs, Hp, Hd. unfold KEM_PK_LEN, SIG_PK_LEN. lia.
Qed.

Lemma sum_sizes_bounds rs :
  Forall light_record rs ->
  (6639 * Z.of_nat (length rs) <= sum_sizes rs <= 10236 * Z.of_nat (length rs))%Z.
Proof.
  induction 1 as [|r rs Hr%light_record_size _ IH]; [by cbn|]. cbn [sum_sizes foldr length].
  fold (sum_sizes rs). lia.
Qed.

Lemma light_size l :
  light l ->
  let n := Z.of_nat (length (lin_rotations l)) in
  (3201 + 6639 * n <= wire_size (to_wire l) <= 3457 + 10236 * n)%Z.
Proof.
  intros [[] He Hr]. cbv zeta. pose proof (sum_sizes_bounds _ Hr).
  unfold wire_size, text_size, vec_size, short_epoch in *. cbn [to_wire wire_inception_kem_public_key
    wire_inception_sig_public_key wire_inception_key_epoch wire_rotations].
  rewrite val_kem_len, val_sig_len. unfold KEM_PK_LEN, SIG_PK_LEN. lia.
Qed.

Context {LC : LineageCodec} {LS : LineageSizes}.

Lemma fits_encode l :
  stored_fits (to_wire l) -> ∃ b, encode l = Ok b ∧ Z.of_nat (length b) = wire_size (to_wire l).
Proof.
  intros Hl. destruct (lineage_serialize _ Hl) as (b & Hb & Hn).
  exists b. unfold encode. by rewrite Hb.
Qed.

Lemma light_encode l :
  light l -> ∃ b, encode l = Ok b ∧ Z.of_nat (length b) = wire_size (to_wire l).
Proof. intros Hl. by apply fits_encode, light_fits. Qed.

(** C17. Storage round-trips.  A valid lineage whose texts and lists have lengths
    of 64 bits is always encoded, in as many bytes as its fields take, whatever
    their number: of at most 4 MiB, they decode to the same lineage; of more, no
    decoder takes them back. *)
Theorem encode_decode (l : KeyLineage) (Hv : valid l) (Hf : stored_fits (to_wire l)) :
  ∃ b, encode l = Ok b ∧ Z.of_nat (length b) = wire_size (to_wire l) ∧
    ((wire_size (to_wire l) <= MAX_LINEAGE_BYTES)%Z -> decode b = Ok l) ∧
    ((MAX_LINEAGE_BYTES < wire_size (to_wire l))%Z -> ∃ s, decode b = Err (InvalidInput s)).
Proof.
  destruct (fits_encode l Hf) as (b & Hb & Hn). exists b. do 2 (split; [done|]). rewrite <- Hn.
  split; [by apply decode_encoded|apply decode_too_long].
Qed.

(** Bytes that hold a lineage. *)
Definition stored (l : KeyLineage) (b : bytes) : Prop := encode l = Ok b ∧ decode b = Ok l.

Lemma light_stored l :
  light l -> (length (lin_rotations l) <= 409)%nat -> ∃ b, stored l b.
Proof.
  intros Hl Hn. destruct (light_encode l Hl) as (b & Hb & Hlen). exists b. split; [done|].
  pose proof (light_size l Hl) as [_ Hsize].
  apply decode_encoded; [apply (lt_valid _ Hl)|done|]. rewrite Hlen. unfold MAX_LINEAGE_BYTES. lia.
Qed.

(** ** Growing a lineage *)

Context {L : ExtLaws}.

Lemma sign_rotation_lengths l cur next u r :
  sign_rotation l cur next u = Ok r ->
  ∃ a p, r = with_signatures a p u ∧ (a = [] ∨ length a = 3309%nat) ∧ length p = 3309%nat.
Proof.
  unfold sign_rotation. intros (a & Ha & (p & Hp & [= <-])%bind_ok)%bind_ok.
  exists a, p. split; [done|]. split; [|by eapply sign_length].
  destruct (next_key_commitment l); [left; by injection Ha|right].
  apply bind_ok in Ha as (i & _ & Ha). by eapply sign_length.
Qed.

Lemma light_node_id l : valid l -> length (as_bytes (lin_node_id l)) = 64%nat.
Proof.
  intros Hv. rewrite (val_node_id _ Hv), length_as_bytes. unfold derive_node_id.
  by rewrite hex_encode_length, sha256_length.
Qed.

(** What a caller passes: an epoch of at most 256 bytes, a commitment of 32 bytes,
    a time that fits [u64]. *)
Record passable (next : NodeIdentity) (c : option bytes) (now : Z) : Prop := {
  ps_epoch : short_epoch (id_key_epoch next);
  ps_commitment : commitment_fits c;
  ps_now : fits 64 now;
}.

Lemma light_built l cur next c now r l' :
  light l -> has_room l -> passable next c now -> build_and_apply cur next c now l = (Ok r, l') ->
  light l' ∧ lin_rotations l' = lin_rotations l ++ [r].
Proof.
  intros Hl Hroom [He Hc Hn] E. pose proof (lt_valid _ Hl) as Hv.
  destruct (build_and_apply_cases cur next c now l Hv) as [(kem & r' & Hk & Hs & Hsuc & E')|(e & E')];
    rewrite E' in E; [|done]. injection E as -> <-. split; [|done].
  constructor; [by apply push_valid|apply Hl|]. cbn. apply Forall_app_2; [apply Hl|].
  apply Forall_singleton. pose proof (light_node_id l Hv) as Hid.
  apply sign_rotation_lengths in Hs as (a & p & -> & Ha & Hp).
  pose proof (suc_kem_len _ _ _ Hsuc) as Hkl. pose proof (suc_sig_len _ _ _ Hsuc) as Hsl.
  pose proof (kem_bytes_length _ _ Hk). cbn [with_signatures unsigned_rotation rot_new_kem_public_key
    rot_new_sig_public_key] in Hkl, Hsl.
  constructor; try done. constructor; try done.
  - apply short_small. change (length (as_bytes (lin_node_id l)) <= 4000)%nat. lia.
  - apply wrap_fits. lia.
  - apply sha256_length.
  - apply short_small. cbn. rewrite Hkl. unfold KEM_PK_LEN. lia.
  - apply short_small. cbn. rewrite Hsl. unfold SIG_PK_LEN. lia.
  - apply short_small. change (length (as_bytes (id_key_epoch next)) <= 4000)%nat.
    unfold short_epoch in He. lia.
Qed.

Lemma light_identity i l :
  short_epoch (id_key_epoch i) -> from_identity i = Ok l -> light l ∧ lin_rotations l = [].
Proof.
  intros He Hl. destruct (from_identity_valid _ _ Hl) as [Hv _]. revert Hl. unfold from_identity.
  intros (k & _ & (l' & (_ & _ & El)%inception_ok & Hb)%bind_ok)%bind_ok.
  case_bool_decide; [|done]. injection Hb as <-. subst l'. by split; [constructor|].
Qed.

Lemma rotate_built cur next c now l r l' :
  rotate cur next c now l = (Ok r, l') -> build_and_apply (Some cur) next c now l = (Ok r, l').
Proof. unfold rotate. rewrite get_bind. by case_bool_decide. Qed.

Lemma recover_built next c now l r l' :
  recover next c now l = (Ok r, l') -> build_and_apply None next c now l = (Ok r, l').
Proof. unfold recover. rewrite get_bind. by case_bool_decide. Qed.

(** The lineages a node's own calls make of its first one. *)
Inductive grown : KeyLineage -> Prop :=
  | grown_identity i l : short_epoch (id_key_epoch i) -> from_identity i = Ok l -> grown l
  | grown_rotate l cur next c now r l' :
      grown l -> has_room l -> passable next c now -> rotate cur next c now l = (Ok r, l') -> grown l'
  | grown_recover l next c now r l' :
      grown l -> has_room l -> passable next c now -> recover next c now l = (Ok r, l') -> grown l'.

Lemma grown_light l : grown l -> light l.
Proof.
  induction 1 as [i l He Hl|l cur next c now r l' _ IH Hr Hp E%rotate_built
    |l next c now r l' _ IH Hr Hp E%recover_built].
  - by apply (light_identity i).
  - by apply (light_built l (Some cur) next c now r l').
  - by apply (light_built l None next c now r l').
Qed.

(** ** One step, saved *)

(** The current keys of [l] are those of [i]. *)
Record carries (i : NodeIdentity) (l : KeyLineage) : Prop := {
  ca_sig : current_sig_public_key l = sig_public_key_bytes i;
  ca_kem : kem_public_key_canonical_bytes i = Ok (current_kem_public_key l);
}.

(** [l'] is [l] after a step to the keys of [next]. *)
Record grows (l : KeyLineage) (next : NodeIdentity) (c : option bytes) (l' : KeyLineage) : Prop := {
  gr_light : light l';
  gr_id : lin_node_id l' = lin_node_id l;
  gr_count : length (lin_rotations l') = S (length (lin_rotations l));
  gr_keys : carries next l';
  gr_commitment : next_key_commitment l' = c;
}.

Lemma small_room l : (length (lin_rotations l) <= 408)%nat -> has_room l.
Proof. unfold has_room, usize_max, usize_bits. lia. Qed.

Lemma built_grows l cur next c now r l' :
  light l -> (length (lin_rotations l) <= 408)%nat -> passable next c now ->
  build_and_apply cur next c now l = (Ok r, l') -> grows l next c l' ∧ ∃ b, stored l' b.
Proof.
  intros Hl Hn Hp E. pose proof (small_room l Hn) as Hr.
  destruct (light_built l cur next c now r l' Hl Hr Hp E) as [Hl' Hrs].
  assert (length (lin_rotations l') = S (length (lin_rotations l))) as Hlen.
  { rewrite Hrs, length_app. cbn. lia. }
  split; [|apply light_stored; [done|lia]].
  destruct (build_moved cur next c now l r l' (lt_valid _ Hl) Hr E). by constructor.
Qed.

Lemma rotate_grows l cur next kem c now :
  light l -> (length (lin_rotations l) <= 408)%nat -> passable next c now ->
  current_sig_public_key l = sig_public_key_bytes cur -> can_sign cur -> can_sign next ->
  kem_public_key_canonical_bytes next = Ok kem -> opens l next ->
  ∃ r l' b, rotate cur next c now l = (Ok r, l') ∧ grows l next c l' ∧ stored l' b.
Proof.
  intros Hl Hn Hp Hcur Hsc Hsn Hk Ho.
  destruct (rotate_run l cur next kem c now) as (r & l' & E); try done; [apply Hl|].
  pose proof (rotate_built _ _ _ _ _ _ _ E) as Eb.
  destruct (built_grows l (Some cur) next c now r l' Hl Hn Hp Eb) as [Hg [b Hb]].
  by exists r, l', b.
Qed.

Lemma recover_grows l next kem c now com :
  light l -> (length (lin_rotations l) <= 408)%nat -> passable next c now -> can_sign next ->
  kem_public_key_canonical_bytes next = Ok kem ->
  next_key_commitment l = Some com -> key_commitment (sig_public_key_bytes next) = com ->
  ∃ r l' b, recover next c now l = (Ok r, l') ∧ grows l next c l' ∧ stored l' b.
Proof.
  intros Hl Hn Hp Hsn Hk Hc Ho.
  destruct (build_and_apply_ok l None next kem c now) as (r & l' & E); try done; [apply Hl| |].
  { unfold may_rotate. by rewrite Hc. }
  destruct (built_grows l None next c now r l' Hl Hn Hp E) as [Hg [b Hb]].
  exists r, l', b. split; [|done]. unfold recover. rewrite get_bind. by rewrite bool_decide_false by congruence.
Qed.

(** A key that does not open the commitment in force is refused. *)
Lemma built_closed l cur next c now :
  valid l -> ¬ opens l next -> ∃ e, build_and_apply cur next c now l = (Err e, l).
Proof.
  intros Hv Hno.
  destruct (build_and_apply_cases cur next c now l Hv) as [(kem & r & _ & Hs & Hsuc & _)|H]; [|done].
  destruct Hno. intros com Hc. apply sign_rotation_content in Hs as (a & p & ->).
  apply suc_authorized in Hsuc. unfold authorized, next_key_commitment in *. rewrite Hc in Hsuc.
  by destruct Hsuc as [Hsuc _].
Qed.

Lemma rotate_closed l cur next c now :
  valid l -> ¬ opens l next -> ∃ e, rotate cur next c now l = (Err e, l).
Proof.
  intros Hv Hno. unfold rotate. rewrite get_bind. case_match; [by eexists|by apply built_closed].
Qed.

Lemma recover_closed l next c now :
  valid l -> ¬ opens l next -> ∃ e, recover next c now l = (Err e, l).
Proof.
  intros Hv Hno. unfold recover. rewrite get_bind. case_match; [by eexists|by apply built_closed].
Qed.

(** C18. How many rotations a node survives.  A lineage the node has grown by its
    own rotations and recoveries, with epochs of at most 256 bytes, can always be
    encoded; with at most 409 records what was encoded is read back as the same
    lineage; with 632 or more it is refused as too large, so the node can neither
    restart with it nor convince a peer. *)
Theorem lineage_lifetime (l : KeyLineage) (Hg : grown l) :
  ∃ b, encode l = Ok b ∧ Z.of_nat (length b) = wire_size (to_wire l) ∧
    ((length (lin_rotations l) <= 409)%nat -> decode b = Ok l) ∧
    ((632 <= length (lin_rotations l))%nat -> ∃ s, decode b = Err (InvalidInput s)).
Proof.
  apply grown_light in Hg as Hl. destruct (light_encode l Hl) as (b & Hb & Hlen).
  pose proof (light_size l Hl) as Hsz. cbv zeta in Hsz.
  exists b. split_and!; [done..| |].
  - intros Hn. destruct (light_stored l Hl Hn) as (b' & Hb' & Hd). congruence.
  - intros Hn. apply decode_too_long. unfold MAX_LINEAGE_BYTES. lia.
Qed.
End Storage.
