(* ===== verification/Handshake.v ===== *)
(** * The four-message handshake

    [witan/src/handshake.rs]: the per-peer client and server states, the
    manager that holds them, one definition per handler, and the dispatch on
    the kind of an incoming message.  A handler is a method of the manager and
    of the operating system (entropy), [method hs]; the state it leaves is
    visible on its error paths.  The theorems are in [HandshakeThms]. *)

From S2P Require Import Prelude Errors Types Extern Identity Session.

Definition HANDSHAKE_TIMEOUT_MS : Z := 10000.

Record ProbeSentData : Type := mkProbeSent {
  ps_client_nonce : bytes;          (* [u8; 32] *)
  ps_probe_bytes : bytes;
  ps_sent_at_ms : Z;                (* u64 *)
}.

Record FinishSentData : Type := mkFinishSent {
  fs_client_nonce : bytes;          (* [u8; 32] *)
  fs_server_nonce : bytes;          (* [u8; 32] *)
  fs_kem_ciphertext_bytes : bytes;
  fs_shared_secret_32b : bytes;     (* [u8; 32] *)
  fs_probe_bytes : bytes;
  fs_ack_bytes : bytes;
  fs_finish_bytes : bytes;
  fs_server_sig_pk : bytes;
  fs_server_node_id : string;
  fs_sent_at_ms : Z;                (* u64 *)
}.

Record AckSentData : Type := mkAckSent {
  as_client_nonce : bytes;          (* [u8; 32] *)
  as_server_nonce : bytes;          (* [u8; 32] *)
  as_probe_bytes : bytes;
  as_ack_bytes : bytes;
  as_sent_at_ms : Z;                (* u64 *)
}.

Inductive ClientHandshakeState : Type :=
  | ClientIdle
  | ProbeSent (d : ProbeSentData)
  | FinishSent (d : FinishSentData)
  | ClientComplete (s : SessionRecord)
  | ClientFailed (s : string).

Inductive ServerHandshakeState : Type :=
  | ServerIdle
  | AckSent (d : AckSentData)
  | ServerComplete (s : SessionRecord)
  | ServerFailed (s : string).

Inductive HandshakeContext : Type :=
  | Client (c : ClientHandshakeState)
  | Server (s : ServerHandshakeState).

Module Context.

Definition new_client : HandshakeContext := Client ClientIdle.
Definition new_server (s : ServerHandshakeState) : HandshakeContext := Server s.

Definition is_timed_out (now_ms : Z) (c : HandshakeContext) : bool :=
  match c with
  | Client (ProbeSent d) => HANDSHAKE_TIMEOUT_MS <? saturating_sub now_ms (ps_sent_at_ms d)
  | Client (FinishSent d) => HANDSHAKE_TIMEOUT_MS <? saturating_sub now_ms (fs_sent_at_ms d)
  | Server (AckSent d) => HANDSHAKE_TIMEOUT_MS <? saturating_sub now_ms (as_sent_at_ms d)
  | _ => false
  end%Z.

Definition is_complete (c : HandshakeContext) : bool :=
  match c with
  | Client (ClientComplete _) | Server (ServerComplete _) => true
  | _ => false
  end.

Definition into_session (c : HandshakeContext) : option SessionRecord :=
  match c with
  | Client (ClientComplete s) => Some s
  | Server (ServerComplete s) => Some s
  | _ => None
  end.

End Context.

(** The constant-time comparison: [diff |= x ^ y] over the zipped slices. *)
Definition constant_time_eq (a b : bytes) : bool :=
  if negb (length a =? length b)%nat then false
  else
    let diff := fold_left
      (λ diff xy, Z.lor diff (Z.lxor (byte_to_Z xy.1) (byte_to_Z xy.2))) (zip a b) 0%Z in
    (diff =? 0)%Z.

(** ** What the four messages have in common

    Each handler starts with the same decoding and the same three checks on its
    message: magic, version, age. *)

Class HandshakeMessage (A : Type) := {
  hm_label : string;
  hm_expected_magic : bytes;
  hm_magic : A -> bytes;
  hm_version : A -> Z;
  hm_timestamp : A -> Z;
}.

#[export] Instance probe_message : HandshakeMessage HandshakeProbe :=
  {| hm_label := "probe"; hm_expected_magic := HANDSHAKE_PROBE_MAGIC; hm_magic := probe_magic;
     hm_version := probe_version; hm_timestamp := probe_timestamp_unix_ms |}.
#[export] Instance ack_message : HandshakeMessage HandshakeAck :=
  {| hm_label := "ack"; hm_expected_magic := HANDSHAKE_ACK_MAGIC; hm_magic := ack_magic;
     hm_version := ack_version; hm_timestamp := ack_timestamp_unix_ms |}.
#[export] Instance finish_message : HandshakeMessage HandshakeFinish :=
  {| hm_label := "finish"; hm_expected_magic := HANDSHAKE_FINISH_MAGIC; hm_magic := fin_magic;
     hm_version := fin_version; hm_timestamp := fin_timestamp_unix_ms |}.
#[export] Instance finish_ack_message : HandshakeMessage HandshakeFinishAck :=
  {| hm_label := "finish_ack"; hm_expected_magic := HANDSHAKE_FINISH_ACK_MAGIC;
     hm_magic := fa_magic; hm_version := fa_version; hm_timestamp := fa_timestamp_unix_ms |}.

Definition check_header {A} `{HandshakeMessage A} (m : A) (now_ms : Z) : res unit :=
  if bool_decide (hm_magic m ≠ hm_expected_magic) then
    Err (HandshakeError ("invalid " +:+ hm_label +:+ " magic"))
  else if negb (hm_version m =? 1)%Z then
    Err (HandshakeError ("version mismatch: expected 1, got " +:+ pretty (hm_version m)))
  else if (30000 <? saturating_sub now_ms (hm_timestamp m))%Z then
    Err (HandshakeError "timestamp out of window")
  else Ok tt.

(** [bincode::deserialize] and the three checks. *)
Definition receive {A} `{HandshakeMessage A} `{!Bincode A} (b : bytes) (now_ms : Z) : res A :=
  m ← map_err (λ e, HandshakeError (hm_label +:+ " deserialize: " +:+ e)) (deserialize b);
  _ ← check_header m now_ms;
  mret m.

Definition wire_out {A} `{HandshakeMessage A} `{!Bincode A} (m : A) : res bytes :=
  map_err (λ e, SerializationError (hm_label +:+ " serialize: " +:+ e)) (serialize m).

(** ** The manager *)

Record HandshakeManager : Type := mkManager {
  pending : gmap string HandshakeContext;
  completed : gmap string SessionRecord;
}.

Module Handshakes.

Section Clock.
Context `{OsOps}.

(** [current_time_unix_ms] of [api.rs]. *)
Definition current_time_unix_ms {S} : method (S * Os) Z :=
  λ s, let '(o, os') := system_time_ms (snd s) in
       (Ok (match o with Some ms => wrap 64 ms | None => 0%Z end), (fst s, os')).
End Clock.

Definition new : HandshakeManager := mkManager ∅ ∅.

Definition insert_pending (addr : string) (c : HandshakeContext) (m : HandshakeManager) :
    HandshakeManager :=
  mkManager (<[addr := c]> (pending m)) (completed m).

Definition delete_pending (addr : string) (m : HandshakeManager) : HandshakeManager :=
  mkManager (delete addr (pending m)) (completed m).

Definition insert_completed (addr : string) (s : SessionRecord) (m : HandshakeManager) :
    HandshakeManager :=
  mkManager (pending m) (<[addr := s]> (completed m)).

Definition is_complete (m : HandshakeManager) (addr : string) : bool :=
  bool_decide (is_Some (completed m !! addr)).

Definition is_handshake_complete (m : HandshakeManager) (addr : string) : bool :=
  is_complete m addr.

Definition get_session (m : HandshakeManager) (addr : string) : option SessionRecord :=
  completed m !! addr.

Definition remove (addr : string) (m : HandshakeManager) : HandshakeManager :=
  mkManager (delete addr (pending m)) (delete addr (completed m)).

Definition evict_timed_out `{HashOrder} (now_ms : Z) (m : HandshakeManager) :
    list string * HandshakeManager :=
  ((filter (λ kc, Context.is_timed_out now_ms kc.2 = true) (hash_iter (pending m))).*1,
   mkManager (filter (λ kc, Context.is_timed_out now_ms kc.2 = false) (pending m)) (completed m)).

Definition take_session (addr : string) (m : HandshakeManager) :
    option SessionRecord * HandshakeManager :=
  (match pending m !! addr with Some c => Context.into_session c | None => None end,
   delete_pending addr m).

Section Handlers.
Context {X : Ext} {W : WireCodecs}.

Abbreviation hs := (HandshakeManager * Os)%type.

(** An update of the manager alone. *)
Definition on_manager (f : HandshakeManager -> HandshakeManager) : method hs unit :=
  modify (λ s, (f s.1, s.2)).

Definition random_32 : method hs bytes :=
  os_call (getrandom 32) (λ e, CryptoError ("getrandom failed: " +:+ e)).

Definition build_probe (addr : string) (i : NodeIdentity) (now_ms : Z) : method hs bytes :=
  client_nonce ← random_32;
  let probe := mkProbe HANDSHAKE_PROBE_MAGIC 1 client_nonce addr (node_id i) now_ms in
  probe_bytes ← lift (wire_out probe);
  _ ← on_manager (insert_pending addr (Client (ProbeSent
        (mkProbeSent client_nonce probe_bytes now_ms))));
  mret probe_bytes.

Definition process_probe_build_ack (addr : string) (probe_bytes : bytes) (i : NodeIdentity)
    (now_ms : Z) : method hs bytes :=
  probe ← lift (receive (A:=HandshakeProbe) probe_bytes now_ms);
  server_nonce ← random_32;
  kem_pk_json ← lift (map_err (λ e, CryptoError ("KEM pk to_json: " +:+ e))
                        (kem_pk_to_json (kem_public_key (kem_keypair i))));
  let ack := mkAck HANDSHAKE_ACK_MAGIC 1 (probe_client_nonce probe) server_nonce kem_pk_json
               (sig_public_key_bytes i) (node_id i) now_ms in
  ack_bytes ← lift (wire_out ack);
  _ ← on_manager (insert_pending addr (Server (AckSent
        (mkAckSent (probe_client_nonce probe) server_nonce probe_bytes ack_bytes now_ms))));
  mret ack_bytes.

(** [Some (client_nonce, probe_bytes)] of a pending [ProbeSent]. *)
Definition pending_probe (addr : string) (m : HandshakeManager) : res (bytes * bytes) :=
  match pending m !! addr with
  | Some (Client (ProbeSent d)) => Ok (ps_client_nonce d, ps_probe_bytes d)
  | _ => Err (HandshakeError ("no pending client handshake for " +:+ addr))
  end.

Definition secret_32 (ss : KemSecret) : res bytes :=
  map_err (λ e, CryptoError ("shared secret not 32 bytes: " +:+ e)) (as_32_bytes ss).

Definition ciphertext_bytes (ct : KemCiphertext) : res bytes :=
  map_err (λ e, SerializationError ("ciphertext serialize: " +:+ e)) (serialize ct).

Definition process_ack_build_finish (addr : string) (ack_bytes : bytes) (i : NodeIdentity)
    (now_ms : Z) : method hs bytes :=
  ack ← lift (receive (A:=HandshakeAck) ack_bytes now_ms);
  if bool_decide (length (ack_ml_dsa_65_public_key ack) ≠ 1952%nat) then
    throw (HandshakeError ("invalid sig pk size: expected 1952, got "
                           +:+ pretty (length (ack_ml_dsa_65_public_key ack))))
  else
    s ← get;
    '(client_nonce, probe_bytes) ← lift (pending_probe addr s.1);
    if bool_decide (ack_client_nonce ack ≠ client_nonce) then
      throw (HandshakeError "nonce mismatch")
    else
      server_kem_pk ← lift (map_err (λ e, CryptoError ("KEM pk from_json: " +:+ e))
                              (kem_pk_from_json (ack_hybrid_kem_public_key_json ack)));
      '(ciphertext, shared_secret) ←
        os_call (encapsulate_to server_kem_pk) (λ e, CryptoError ("KEM encapsulate failed: " +:+ e));
      shared_secret_32b ← lift (secret_32 shared_secret);
      ciphertext_json ← lift (map_err (λ e, CryptoError ("ciphertext to_json: " +:+ e))
                                (ct_to_json ciphertext));
      kem_ciphertext_bytes ← lift (ciphertext_bytes ciphertext);
      let finish := mkFinish HANDSHAKE_FINISH_MAGIC 1 ciphertext_json (sig_public_key_bytes i)
                      (node_id i) now_ms in
      finish_bytes ← lift (wire_out finish);
      _ ← on_manager (insert_pending addr (Client (FinishSent
            (mkFinishSent client_nonce (ack_server_nonce ack) kem_ciphertext_bytes
               shared_secret_32b probe_bytes ack_bytes finish_bytes
               (ack_ml_dsa_65_public_key ack) (ack_server_node_id ack) now_ms))));
      mret finish_bytes.

(** [self.pending.remove(peer_addr)]: the context is gone whatever follows. *)
Definition remove_pending (addr : string) : method hs (option HandshakeContext) :=
  λ s, (Ok (pending s.1 !! addr), (delete_pending addr s.1, s.2)).

Definition expect_ack_sent (addr : string) (c : option HandshakeContext) : res AckSentData :=
  match c with
  | Some (Server (AckSent d)) => Ok d
  | _ => Err (HandshakeError ("no pending server handshake for " +:+ addr))
  end.

Definition process_finish_build_finish_ack (addr : string) (finish_bytes : bytes)
    (i : NodeIdentity) (now_ms : Z) : method hs (bytes * SessionRecord) :=
  finish ← lift (receive (A:=HandshakeFinish) finish_bytes now_ms);
  if bool_decide (length (fin_client_ml_dsa_65_public_key finish) ≠ 1952%nat) then
    throw (HandshakeError ("invalid client sig pk size: expected 1952, got "
                           +:+ pretty (length (fin_client_ml_dsa_65_public_key finish))))
  else
    c ← remove_pending addr;
    d ← lift (expect_ack_sent addr c);
    ciphertext ← lift (map_err (λ e, CryptoError ("ciphertext from_json: " +:+ e))
                         (ct_from_json (fin_kem_ciphertext_json finish)));
    shared_secret ← lift (map_err (λ e, CryptoError ("KEM decapsulate failed: " +:+ e))
                            (decapsulate (kem_keypair i) ciphertext));
    shared_secret_32b ← lift (secret_32 shared_secret);
    kem_ciphertext_bytes ← lift (ciphertext_bytes ciphertext);
    let th := compute_transcript_hash (as_probe_bytes d) (as_ack_bytes d) finish_bytes in
    server_mac ← lift (compute_server_mac shared_secret_32b th);
    transcript_signature ← lift (sign i th SIG_CTX_HANDSHAKE);
    sid ← lift (derive_session_id shared_secret_32b (as_client_nonce d) (as_server_nonce d)
                  kem_ciphertext_bytes (node_id i));
    let finish_ack := mkFinishAck HANDSHAKE_FINISH_ACK_MAGIC 1 sid th server_mac
                        transcript_signature now_ms in
    finish_ack_bytes ← lift (wire_out finish_ack);
    mret (finish_ack_bytes,
          mkSession sid addr (fin_client_node_id finish) (fin_client_ml_dsa_65_public_key finish)
            th now_ms true).

Definition expect_finish_sent (addr : string) (c : option HandshakeContext) :
    res FinishSentData :=
  match c with
  | Some (Client (FinishSent d)) => Ok d
  | _ => Err (HandshakeError ("no pending client finish for " +:+ addr))
  end.

Definition process_finish_ack (addr : string) (finish_ack_bytes : bytes) (now_ms : Z) :
    method hs SessionRecord :=
  finish_ack ← lift (receive (A:=HandshakeFinishAck) finish_ack_bytes now_ms);
  c ← remove_pending addr;
  d ← lift (expect_finish_sent addr c);
  let expected := compute_transcript_hash (fs_probe_bytes d) (fs_ack_bytes d)
                    (fs_finish_bytes d) in
  if bool_decide (fa_transcript_hash finish_ack ≠ expected) then
    throw (HandshakeError "transcript hash mismatch")
  else
    expected_mac ← lift (compute_server_mac (fs_shared_secret_32b d) expected);
    if negb (constant_time_eq (fa_server_mac finish_ack) expected_mac) then
      throw (HandshakeError "mac verification failed")
    else
      sig_valid ← lift (verify_external (fs_server_sig_pk d) (fa_transcript_hash finish_ack)
                          (fa_transcript_signature finish_ack) SIG_CTX_HANDSHAKE);
      if negb sig_valid then throw (HandshakeError "transcript signature invalid")
      else
        mret (mkSession (fa_session_id finish_ack) addr (fs_server_node_id d)
                (fs_server_sig_pk d) (fa_transcript_hash finish_ack) now_ms true).

Definition not_a_handshake : GossipError :=
  HandshakeError "expected handshake message, got gossip envelope".

Definition process_incoming (addr : string) (b : bytes) (i : NodeIdentity) (now_ms : Z) :
    method hs bytes :=
  match classify_incoming b with
  | KHandshakeProbe => process_probe_build_ack addr b i now_ms
  | KHandshakeAck => process_ack_build_finish addr b i now_ms
  | KHandshakeFinish =>
      '(finish_ack_bytes, session) ← process_finish_build_finish_ack addr b i now_ms;
      _ ← on_manager (insert_completed addr session);
      mret finish_ack_bytes
  | KHandshakeFinishAck =>
      session ← process_finish_ack addr b now_ms;
      _ ← on_manager (insert_completed addr session);
      mret []
  | KGossipEnvelope => throw not_a_handshake
  end.

Definition create_identity_probe (addr : string) (i : NodeIdentity) : method hs bytes :=
  now_ms ← current_time_unix_ms;
  build_probe addr i now_ms.
End Handlers.

End Handshakes.
