(* ===== verification/HandshakeThms.v ===== *)
(** * The handshake: what the handlers promise

    Exact outcomes of the handlers, the invariant of every reachable manager,
    and the run of the four messages between two honest nodes. *)

From S2P Require Import Prelude Errors Types Extern Identity Session Handshake.
Import Handshakes.

Abbreviation hs := (HandshakeManager * Os)%type.

(** ** The comparison of MACs *)

Lemma fold_lor_zero (l : list (byte * byte)) d :
  (0 <= d)%Z ->
  fold_left (λ diff xy, Z.lor diff (Z.lxor (byte_to_Z xy.1) (byte_to_Z xy.2))) l d = 0%Z <->
  d = 0%Z ∧ ∀ xy, xy ∈ l -> xy.1 = xy.2.
Proof.
  revert d. induction l as [|[x y] l IH]; intros d Hd; cbn.
  - split; [intros ->|naive_solver]. split; [done|]. intros xy []%elem_of_nil.
  - assert (0 <= Z.lxor (byte_to_Z x) (byte_to_Z y))%Z as Hx.
    { apply Z.lxor_nonneg. pose proof (byte_to_Z_range x). pose proof (byte_to_Z_range y). lia. }
    rewrite IH by (apply Z.lor_nonneg; lia). rewrite Z.lor_eq_0_iff, Z.lxor_eq_0_iff. split.
    + intros [[-> Hxy%byte_to_Z_inj] Hl]. split; [done|].
      intros xy [->|Hin]%elem_of_cons; [done|by apply Hl].
    + intros [-> Hl]. split; [split; [done|]|].
      * f_equal. apply (Hl (x, y)). by left.
      * intros xy Hin. apply Hl. by right.
Qed.

Lemma zip_eq (a b : bytes) :
  length a = length b -> (∀ xy, xy ∈ zip a b -> xy.1 = xy.2) -> a = b.
Proof.
  revert b. induction a as [|x a IH]; intros [|y b] Hl Hz; try done.
  f_equal; [apply (Hz (x, y)); left|]. apply IH; [by injection Hl|].
  intros xy Hin. apply Hz. by right.
Qed.

(** The loop answers equality. *)
Lemma constant_time_eq_spec a b : constant_time_eq a b = true <-> a = b.
Proof.
  unfold constant_time_eq. destruct (Nat.eqb_spec (length a) (length b)) as [Hl|Hl]; cbn [negb].
  - rewrite Z.eqb_eq, fold_lor_zero by done. split.
    + intros [_ Hz]. by apply zip_eq.
    + intros ->. split; [done|]. clear Hl. induction b as [|y b IH]; cbn.
      * intros xy []%elem_of_nil.
      * intros xy [->|Hin]%elem_of_cons; [done|by apply IH].
  - split; [done|by intros ->].
Qed.

(** ** The header checks *)

Record header_ok {A} `{HandshakeMessage A} (m : A) (now_ms : Z) : Prop := {
  hdr_magic : hm_magic m = hm_expected_magic;
  hdr_version : hm_version m = 1%Z;
  hdr_fresh : (now_ms - hm_timestamp m <= 30000)%Z;
}.

Lemma check_header_ok {A} `{HandshakeMessage A} (m : A) now u :
  check_header m now = Ok u <-> header_ok m now.
Proof.
  destruct u. unfold check_header, saturating_sub. split.
  - case_bool_decide as Hm; [done|]. destruct (Z.eqb_spec (hm_version m) 1); [|done].
    destruct (Z.ltb_spec 30000 (Z.max 0 (now - hm_timestamp m))); [done|].
    intros _. constructor; [done|done|lia].
  - intros [Hm -> Hf]. rewrite bool_decide_false by auto. cbn [Z.eqb Pos.eqb negb].
    rewrite (proj2 (Z.ltb_ge _ _)) by lia. done.
Qed.

Lemma receive_ok {A} `{HandshakeMessage A} `{!Bincode A} b now (m : A) :
  receive b now = Ok m <-> deserialize b = inr m ∧ header_ok m now.
Proof.
  unfold receive. rewrite bind_ok. split.
  - intros (m' & Hd%map_err_ok & (u & Hc%check_header_ok & [= ->])%bind_ok). done.
  - intros [Hd Hc]. exists m. rewrite map_err_ok. split; [done|].
    apply bind_ok. exists tt. by rewrite check_header_ok.
Qed.

Lemma wire_out_ok {A} `{HandshakeMessage A} `{!Bincode A} (m : A) b :
  wire_out m = Ok b <-> serialize m = inr b.
Proof. apply map_err_ok. Qed.

(** A message that was sent is received, while it is fresh. *)
Lemma receive_wire_out {A} `{HandshakeMessage A} `{!Bincode A, !BincodeLaws A} (m : A) b now :
  wire_out m = Ok b -> header_ok m now -> receive b now = Ok m.
Proof.
  intros Hw%wire_out_ok Hh. apply receive_ok. split; [|done].
  by apply deserialize_serialize.
Qed.

(** Discharge a step of a run: a lifted result whose value is known. *)
Ltac by_lift := apply lift_ok; split; [first [assumption | by apply map_err_ok]|reflexivity].

Section Outcomes.
Context {X : Ext} {W : WireCodecs}.

(** ** Successful runs *)

Lemma random_32_ok (s : hs) b s' :
  random_32 s = (Ok b, s') <-> getrandom 32 s.2 = (inr b, s'.2) ∧ s'.1 = s.1.
Proof. apply os_call_ok. Qed.

Lemma on_manager_ok f (s : hs) u s' : on_manager f s = (Ok u, s') <-> s' = (f s.1, s.2).
Proof. unfold on_manager. by rewrite modify_ok. Qed.

(** The probe [build_probe] sends. *)
Definition probe_of (addr : string) (i : NodeIdentity) (nonce : bytes) (now : Z) :
    HandshakeProbe :=
  mkProbe HANDSHAKE_PROBE_MAGIC 1 nonce addr (node_id i) now.

Lemma build_probe_ok addr i now (s : hs) b s' :
  build_probe addr i now s = (Ok b, s') <->
  ∃ nonce, getrandom 32 s.2 = (inr nonce, s'.2) ∧
    wire_out (probe_of addr i nonce now) = Ok b ∧
    s'.1 = insert_pending addr (Client (ProbeSent (mkProbeSent nonce b now))) s.1.
Proof.
  unfold build_probe. split.
  - intros H. apply st_bind_ok in H as (nonce & s1 & [Hg H1]%random_32_ok & H).
    apply st_bind_ok in H as (b' & s2 & [Hw ->]%lift_ok & H).
    apply st_bind_ok in H as (u & s3 & ->%on_manager_ok & [-> ->]%ret_ok).
    exists nonce. cbn. by rewrite <- H1.
  - intros (nonce & Hg & Hw & Hs). destruct s' as [m' os']. cbn in *.
    rewrite (st_bind_run _ _ _ nonce (s.1, os')) by (by apply random_32_ok).
    rewrite (st_bind_run _ _ _ b (s.1, os')) by by_lift. by subst.
Qed.

(** The acknowledgement of a probe. *)
Definition ack_of (probe : HandshakeProbe) (i : NodeIdentity) (nonce : bytes) (kem_json : string)
    (now : Z) : HandshakeAck :=
  mkAck HANDSHAKE_ACK_MAGIC 1 (probe_client_nonce probe) nonce kem_json
    (sig_public_key_bytes i) (node_id i) now.

Lemma process_probe_ok addr pb i now (s : hs) b s' :
  process_probe_build_ack addr pb i now s = (Ok b, s') <->
  ∃ probe nonce kem_json,
    receive (A:=HandshakeProbe) pb now = Ok probe ∧
    getrandom 32 s.2 = (inr nonce, s'.2) ∧
    kem_pk_to_json (kem_public_key (kem_keypair i)) = inr kem_json ∧
    wire_out (ack_of probe i nonce kem_json now) = Ok b ∧
    s'.1 = insert_pending addr (Server (AckSent
             (mkAckSent (probe_client_nonce probe) nonce pb b now))) s.1.
Proof.
  unfold process_probe_build_ack. split.
  - intros H. apply st_bind_ok in H as (probe & s0 & [Hr ->]%lift_ok & H).
    apply st_bind_ok in H as (nonce & s1 & [Hg H1]%random_32_ok & H).
    apply st_bind_ok in H as (kj & s2 & [Hk%map_err_ok ->]%lift_ok & H).
    apply st_bind_ok in H as (b' & s3 & [Hw ->]%lift_ok & H).
    apply st_bind_ok in H as (u & s4 & ->%on_manager_ok & [-> ->]%ret_ok).
    exists probe, nonce, kj. cbn. by rewrite <- H1.
  - intros (probe & nonce & kj & Hr & Hg & Hk & Hw & Hs). destruct s' as [m' os']. cbn in *.
    rewrite (st_bind_run _ _ _ probe s) by by_lift.
    rewrite (st_bind_run _ _ _ nonce (s.1, os')) by (by apply random_32_ok).
    rewrite (st_bind_run _ _ _ kj (s.1, os')) by by_lift.
    rewrite (st_bind_run _ _ _ b (s.1, os')) by by_lift. by subst.
Qed.

Lemma pending_probe_ok addr m cn pb :
  pending_probe addr m = Ok (cn, pb) <->
  ∃ t, pending m !! addr = Some (Client (ProbeSent (mkProbeSent cn pb t))).
Proof.
  unfold pending_probe. split.
  - intros H. repeat case_match; simplify_eq. destruct d. by eexists.
  - intros [t ->]. done.
Qed.

Lemma expect_ack_sent_ok addr c d :
  expect_ack_sent addr c = Ok d <-> c = Some (Server (AckSent d)).
Proof. unfold expect_ack_sent. repeat case_match; naive_solver. Qed.

Lemma expect_finish_sent_ok addr c d :
  expect_finish_sent addr c = Ok d <-> c = Some (Client (FinishSent d)).
Proof. unfold expect_finish_sent. repeat case_match; naive_solver. Qed.

Lemma remove_pending_ok addr (s : hs) c s' :
  remove_pending addr s = (Ok c, s') <->
  c = pending s.1 !! addr ∧ s' = (delete_pending addr s.1, s.2).
Proof. unfold remove_pending. naive_solver. Qed.

(** What the client remembers once the acknowledgement is accepted. *)
Definition finish_of (i : NodeIdentity) (ct_json : string) (now : Z) : HandshakeFinish :=
  mkFinish HANDSHAKE_FINISH_MAGIC 1 ct_json (sig_public_key_bytes i) (node_id i) now.

Definition finish_sent_of (ack : HandshakeAck) (pb ab fb ctb key : bytes) (now : Z) :
    FinishSentData :=
  mkFinishSent (ack_client_nonce ack) (ack_server_nonce ack) ctb key pb ab fb
    (ack_ml_dsa_65_public_key ack) (ack_server_node_id ack) now.

Lemma process_ack_ok addr ab i now (s : hs) b s' :
  process_ack_build_finish addr ab i now s = (Ok b, s') <->
  ∃ ack pb t pk ct ss key cj ctb,
    receive (A:=HandshakeAck) ab now = Ok ack ∧
    length (ack_ml_dsa_65_public_key ack) = 1952%nat ∧
    pending s.1 !! addr = Some (Client (ProbeSent (mkProbeSent (ack_client_nonce ack) pb t))) ∧
    kem_pk_from_json (ack_hybrid_kem_public_key_json ack) = inr pk ∧
    encapsulate_to pk s.2 = (inr (ct, ss), s'.2) ∧
    as_32_bytes ss = inr key ∧ ct_to_json ct = inr cj ∧ serialize ct = inr ctb ∧
    wire_out (finish_of i cj now) = Ok b ∧
    s'.1 = insert_pending addr (Client (FinishSent (finish_sent_of ack pb ab b ctb key now))) s.1.
Proof.
  unfold process_ack_build_finish. split.
  - intros H. apply st_bind_ok in H as (ack & s0 & [Hr ->]%lift_ok & H).
    case_bool_decide as Hl; [done|].
    apply st_bind_ok in H as (s1 & s2 & [= <- <-] & H).
    apply st_bind_ok in H as ([cn pb] & s1 & [Hp%pending_probe_ok ->]%lift_ok & H).
    case_bool_decide as Hn; [done|]. subst cn. destruct Hp as [t Hp].
    apply st_bind_ok in H as (pk & s1 & [Hk%map_err_ok ->]%lift_ok & H).
    apply st_bind_ok in H as ([ct ss] & s1 & [He Hs1]%os_call_ok & H).
    apply st_bind_ok in H as (key & s2 & [H32%map_err_ok ->]%lift_ok & H).
    apply st_bind_ok in H as (cj & s2 & [Hcj%map_err_ok ->]%lift_ok & H).
    apply st_bind_ok in H as (ctb & s2 & [Hctb%map_err_ok ->]%lift_ok & H).
    apply st_bind_ok in H as (b' & s2 & [Hw ->]%lift_ok & H).
    apply st_bind_ok in H as (u & s2 & ->%on_manager_ok & [-> ->]%ret_ok).
    exists ack, pb, t, pk, ct, ss, key, cj, ctb. cbn. rewrite Hs1. by split_and!.
  - intros (ack & pb & t & pk & ct & ss & key & cj & ctb & Hr & Hl & Hp & Hk & He & H32 & Hcj
            & Hctb & Hw & Hs). destruct s' as [m' os']. cbn in *.
    rewrite (st_bind_run _ _ _ ack s) by by_lift.
    rewrite bool_decide_false by auto. rewrite (st_bind_run _ _ _ s s) by done.
    rewrite (st_bind_run _ _ _ (ack_client_nonce ack, pb) s)
      by (apply lift_ok; rewrite pending_probe_ok; eauto).
    cbn beta iota. rewrite bool_decide_false by auto.
    rewrite (st_bind_run _ _ _ pk s) by by_lift.
    rewrite (st_bind_run _ _ _ (ct, ss) (s.1, os')) by (by apply os_call_ok). cbn beta iota.
    rewrite (st_bind_run _ _ _ key (s.1, os')) by by_lift.
    rewrite (st_bind_run _ _ _ cj (s.1, os')) by by_lift.
    rewrite (st_bind_run _ _ _ ctb (s.1, os')) by by_lift.
    rewrite (st_bind_run _ _ _ b (s.1, os')) by by_lift. by subst.
Qed.

(** The last message of the server, and its session. *)
Definition transcript_of (d : AckSentData) (fb : bytes) : bytes :=
  compute_transcript_hash (as_probe_bytes d) (as_ack_bytes d) fb.

Definition finish_ack_of (sid : string) (th mac sg : bytes) (now : Z) : HandshakeFinishAck :=
  mkFinishAck HANDSHAKE_FINISH_ACK_MAGIC 1 sid th mac sg now.

Definition server_session (addr sid : string) (fin : HandshakeFinish) (th : bytes) (now : Z) :
    SessionRecord :=
  mkSession sid addr (fin_client_node_id fin) (fin_client_ml_dsa_65_public_key fin) th now true.

Lemma process_finish_ok addr fb i now (s : hs) b se s' :
  process_finish_build_finish_ack addr fb i now s = (Ok (b, se), s') <->
  ∃ fin d ct ss key ctb mac sg sid,
    receive (A:=HandshakeFinish) fb now = Ok fin ∧
    length (fin_client_ml_dsa_65_public_key fin) = 1952%nat ∧
    pending s.1 !! addr = Some (Server (AckSent d)) ∧
    ct_from_json (fin_kem_ciphertext_json fin) = inr ct ∧
    decapsulate (kem_keypair i) ct = inr ss ∧
    as_32_bytes ss = inr key ∧ serialize ct = inr ctb ∧
    compute_server_mac key (transcript_of d fb) = Ok mac ∧
    sign i (transcript_of d fb) SIG_CTX_HANDSHAKE = Ok sg ∧
    derive_session_id key (as_client_nonce d) (as_server_nonce d) ctb (node_id i) = Ok sid ∧
    wire_out (finish_ack_of sid (transcript_of d fb) mac sg now) = Ok b ∧
    se = server_session addr sid fin (transcript_of d fb) now ∧
    s' = (delete_pending addr s.1, s.2).
Proof.
  unfold process_finish_build_finish_ack. split.
  - intros H. apply st_bind_ok in H as (fin & s0 & [Hr ->]%lift_ok & H).
    case_bool_decide as Hl; [done|].
    apply st_bind_ok in H as (c & s1 & [-> ->]%remove_pending_ok & H).
    apply st_bind_ok in H as (d & s1 & [Hd%expect_ack_sent_ok ->]%lift_ok & H).
    apply st_bind_ok in H as (ct & s1 & [Hct%map_err_ok ->]%lift_ok & H).
    apply st_bind_ok in H as (ss & s1 & [Hss%map_err_ok ->]%lift_ok & H).
    apply st_bind_ok in H as (key & s1 & [Hkey%map_err_ok ->]%lift_ok & H).
    apply st_bind_ok in H as (ctb & s1 & [Hctb%map_err_ok ->]%lift_ok & H).
    apply st_bind_ok in H as (mac & s1 & [Hmac ->]%lift_ok & H).
    apply st_bind_ok in H as (sg & s1 & [Hsg ->]%lift_ok & H).
    apply st_bind_ok in H as (sid & s1 & [Hsid ->]%lift_ok & H).
    apply st_bind_ok in H as (b' & s1 & [Hw ->]%lift_ok & [[= -> ->] ->]%ret_ok).
    exists fin, d, ct, ss, key, ctb, mac, sg, sid. by split_and!.
  - intros (fin & d & ct & ss & key & ctb & mac & sg & sid & Hr & Hl & Hd & Hct & Hss & Hkey
            & Hctb & Hmac & Hsg & Hsid & Hw & -> & ->).
    set (s1 := (delete_pending addr s.1, s.2)).
    rewrite (st_bind_run _ _ _ fin s) by by_lift.
    rewrite bool_decide_false by auto.
    rewrite (st_bind_run _ _ _ _ s1) by (by apply remove_pending_ok).
    rewrite (st_bind_run _ _ _ d s1) by (apply lift_ok; by rewrite expect_ack_sent_ok).
    rewrite (st_bind_run _ _ _ ct s1) by by_lift.
    rewrite (st_bind_run _ _ _ ss s1) by by_lift.
    rewrite (st_bind_run _ _ _ key s1) by by_lift.
    rewrite (st_bind_run _ _ _ ctb s1) by by_lift.
    cbv zeta. fold (transcript_of d fb).
    rewrite (st_bind_run _ _ _ mac s1) by by_lift.
    rewrite (st_bind_run _ _ _ sg s1) by by_lift.
    rewrite (st_bind_run _ _ _ sid s1) by by_lift.
    rewrite (st_bind_run _ _ _ b s1) by by_lift. done.
Qed.

(** The session of the client. *)
Definition client_session (addr : string) (fa : HandshakeFinishAck) (d : FinishSentData)
    (now : Z) : SessionRecord :=
  mkSession (fa_session_id fa) addr (fs_server_node_id d) (fs_server_sig_pk d)
    (fa_transcript_hash fa) now true.

(** The three checks of the last message against what the client sent. *)
Record finish_ack_matches (fa : HandshakeFinishAck) (d : FinishSentData) : Prop := {
  fam_transcript : fa_transcript_hash fa =
    compute_transcript_hash (fs_probe_bytes d) (fs_ack_bytes d) (fs_finish_bytes d);
  fam_mac : compute_server_mac (fs_shared_secret_32b d) (fa_transcript_hash fa) =
    Ok (fa_server_mac fa);
  fam_signature : verify_external (fs_server_sig_pk d) (fa_transcript_hash fa)
    (fa_transcript_signature fa) SIG_CTX_HANDSHAKE = Ok true;
}.

Lemma process_finish_ack_ok addr b now (s : hs) se s' :
  process_finish_ack addr b now s = (Ok se, s') <->
  ∃ fa d, receive (A:=HandshakeFinishAck) b now = Ok fa ∧
    pending s.1 !! addr = Some (Client (FinishSent d)) ∧
    finish_ack_matches fa d ∧ se = client_session addr fa d now ∧
    s' = (delete_pending addr s.1, s.2).
Proof.
  unfold process_finish_ack. split.
  - intros H. apply st_bind_ok in H as (fa & s0 & [Hr ->]%lift_ok & H).
    apply st_bind_ok in H as (c & s1 & [-> ->]%remove_pending_ok & H).
    apply st_bind_ok in H as (d & s1 & [Hd%expect_finish_sent_ok ->]%lift_ok & H).
    cbv zeta in H. case_bool_decide as Ht; [done|].
    apply st_bind_ok in H as (mac & s1 & [Hmac ->]%lift_ok & H).
    destruct (constant_time_eq _ _) eqn:Ec; [|done]. apply constant_time_eq_spec in Ec as <-.
    cbn [negb] in H.
    apply st_bind_ok in H as ([] & s1 & [Hv ->]%lift_ok & H); [|done].
    apply ret_ok in H as [-> ->].
    exists fa, d. split_and!; try done. constructor; [done|by rewrite Ht|done].
  - intros (fa & d & Hr & Hd & [Ht Hmac Hv] & -> & ->).
    set (s1 := (delete_pending addr s.1, s.2)).
    rewrite (st_bind_run _ _ _ fa s) by by_lift.
    rewrite (st_bind_run _ _ _ _ s1) by (by apply remove_pending_ok).
    rewrite (st_bind_run _ _ _ d s1) by (apply lift_ok; by rewrite expect_finish_sent_ok).
    cbv zeta. rewrite bool_decide_false by auto. rewrite <- Ht.
    rewrite (st_bind_run _ _ _ (fa_server_mac fa) s1) by by_lift.
    rewrite (proj2 (constant_time_eq_spec _ _) eq_refl). cbn [negb].
    by rewrite (st_bind_run _ _ _ true s1) by by_lift.
Qed.
End Outcomes.

(** ** What a handler leaves behind when it fails *)

Section Frame.
Context {X : Ext} {W : WireCodecs}.

Lemma readonly_random : readonly random_32.
Proof. apply readonly_os_call. Qed.

Lemma atomic_commit {A} f (a : A) : atomic (on_manager f ≫= λ _, mret a).
Proof. apply atomic_total, total_bind; [apply total_modify|done]. Qed.

Lemma atomic_throw {A} (e : GossipError) : atomic (throw e : method hs A).
Proof. by apply atomic_readonly. Qed.

Lemma build_probe_atomic addr i now : atomic (build_probe addr i now).
Proof.
  apply atomic_bind; [apply readonly_random|intros n].
  apply atomic_bind; [done|intros b]. apply atomic_commit.
Qed.

Lemma process_probe_atomic addr pb i now : atomic (process_probe_build_ack addr pb i now).
Proof.
  apply atomic_bind; [done|intros p]. apply atomic_bind; [apply readonly_random|intros n].
  do 2 (apply atomic_bind; [done|intros ?]). apply atomic_commit.
Qed.

Lemma process_ack_atomic addr ab i now : atomic (process_ack_build_finish addr ab i now).
Proof.
  apply atomic_bind; [done|intros ack]. case_match; [apply atomic_throw|].
  do 2 (apply atomic_bind; [done|intros ?]). case_match.
  case_match; [apply atomic_throw|].
  apply atomic_bind; [done|intros pk]. apply atomic_bind; [apply readonly_os_call|intros [ct ss]].
  do 4 (apply atomic_bind; [done|intros ?]). apply atomic_commit.
Qed.

(** The two finishing handlers take the pending context out before they look
    at what it is or at the message: the context is gone on every path. *)
Lemma after_remove {A} addr (k : option HandshakeContext -> method hs A) (s : hs) :
  (∀ c, readonly (k c)) -> ((remove_pending addr ≫= k) s).2.1 = delete_pending addr s.1.
Proof. intros Hk. unfold mbind, st_bind, remove_pending. by rewrite Hk. Qed.

Lemma finish_tail_readonly {A B} (r : res A) (k : A -> method hs B) :
  (∀ a, readonly (k a)) -> readonly (lift r ≫= k).
Proof. intros. by apply readonly_bind. Qed.

Lemma process_finish_state addr fb i now (s : hs) :
  (process_finish_build_finish_ack addr fb i now s).2.1 =
  match receive (A:=HandshakeFinish) fb now with
  | Ok fin =>
      if bool_decide (length (fin_client_ml_dsa_65_public_key fin) = 1952%nat)
      then delete_pending addr s.1 else s.1
  | _ => s.1
  end.
Proof.
  unfold process_finish_build_finish_ack. unfold mbind at 1, st_bind at 1, lift at 1.
  destruct (receive _ _) as [fin|e|]; [|done..].
  destruct (decide (length (fin_client_ml_dsa_65_public_key fin) = 1952%nat)) as [Hl|Hl].
  - rewrite (bool_decide_true (_ = _)), (bool_decide_false (_ ≠ _)) by auto.
    apply after_remove. intros c. cbv zeta.
    repeat (apply finish_tail_readonly; intros ?). done.
  - by rewrite (bool_decide_false (_ = _)), (bool_decide_true (_ ≠ _)) by auto.
Qed.

Lemma process_finish_ack_state addr b now (s : hs) :
  (process_finish_ack addr b now s).2.1 =
  if is_ok (receive (A:=HandshakeFinishAck) b now) then delete_pending addr s.1 else s.1.
Proof.
  unfold process_finish_ack. unfold mbind at 1, st_bind at 1, lift at 1.
  destruct (receive _ _) as [fa|e|]; [|done..]. cbn [is_ok].
  apply after_remove. intros c. apply finish_tail_readonly. intros d. cbv zeta.
  case_match; [done|]. apply finish_tail_readonly. intros mac.
  case_match; [done|]. apply finish_tail_readonly. intros v. by case_match.
Qed.
End Frame.

(** ** The invariant of reachable managers *)

Section Reachable.
Context {X : Ext} {W : WireCodecs}.

(** One call of a public method; its other arguments, the entropy and the
    answer of the foreign code are arbitrary. *)
Inductive mgr_step (m : HandshakeManager) : HandshakeManager -> Prop :=
  | step_build_probe addr i now os : mgr_step m (build_probe addr i now (m, os)).2.1
  | step_create_probe addr i os : mgr_step m (create_identity_probe addr i (m, os)).2.1
  | step_probe addr b i now os : mgr_step m (process_probe_build_ack addr b i now (m, os)).2.1
  | step_ack addr b i now os : mgr_step m (process_ack_build_finish addr b i now (m, os)).2.1
  | step_finish addr b i now os :
      mgr_step m (process_finish_build_finish_ack addr b i now (m, os)).2.1
  | step_finish_ack addr b now os : mgr_step m (process_finish_ack addr b now (m, os)).2.1
  | step_incoming addr b i now os : mgr_step m (process_incoming addr b i now (m, os)).2.1
  | step_remove addr : mgr_step m (remove addr m)
  | step_evict now : mgr_step m (evict_timed_out now m).2
  | step_take addr : mgr_step m (take_session addr m).2.

Definition reachable (m : HandshakeManager) : Prop := rtc mgr_step new m.

(** The client's context after its probe: a probe of its own that carries the
    nonce it kept. *)
Definition probe_sent_wf (addr : string) (d : ProbeSentData) : Prop :=
  is32 (ps_client_nonce d) ∧
  ∃ node ts, serialize (mkProbe HANDSHAKE_PROBE_MAGIC 1 (ps_client_nonce d) addr node ts)
    = inr (ps_probe_bytes d).

(** After the acknowledgement: the client's messages of the transcript are
    encodings, the server's decodes, the server echoed the nonce, and the keys
    kept are the server's. *)
Definition finish_sent_wf (addr : string) (d : FinishSentData) : Prop :=
  length (fs_server_sig_pk d) = 1952%nat ∧ is32 (fs_client_nonce d) ∧
  is32 (fs_shared_secret_32b d) ∧
  ∃ (probe : HandshakeProbe) (ack : HandshakeAck) (fin : HandshakeFinish),
    serialize probe = inr (fs_probe_bytes d) ∧ deserialize (fs_ack_bytes d) = inr ack ∧
    serialize fin = inr (fs_finish_bytes d) ∧
    probe_endpoint probe = addr ∧ probe_client_nonce probe = fs_client_nonce d ∧
    ack_client_nonce ack = fs_client_nonce d ∧ ack_server_nonce ack = fs_server_nonce d ∧
    ack_ml_dsa_65_public_key ack = fs_server_sig_pk d ∧
    ack_server_node_id ack = fs_server_node_id d.

Definition ack_sent_wf (d : AckSentData) : Prop :=
  is32 (as_server_nonce d) ∧
  ∃ (probe : HandshakeProbe) (ack : HandshakeAck),
    deserialize (as_probe_bytes d) = inr probe ∧ serialize ack = inr (as_ack_bytes d) ∧
    probe_magic probe = HANDSHAKE_PROBE_MAGIC ∧ ack_magic ack = HANDSHAKE_ACK_MAGIC ∧
    probe_client_nonce probe = as_client_nonce d ∧ ack_client_nonce ack = as_client_nonce d ∧
    ack_server_nonce ack = as_server_nonce d.

Definition context_wf (addr : string) (c : HandshakeContext) : Prop :=
  match c with
  | Client (ProbeSent d) => probe_sent_wf addr d
  | Client (FinishSent d) => finish_sent_wf addr d
  | Server (AckSent d) => ack_sent_wf d
  | _ => False
  end.

Definition session_wf (addr : string) (s : SessionRecord) : Prop :=
  peer_addr s = addr ∧ is_active s = true ∧
  length (peer_sig_public_key s) = 1952%nat ∧ is32 (transcript_hash s).

Record manager_wf (m : HandshakeManager) : Prop := {
  mwf_pending addr c : pending m !! addr = Some c -> context_wf addr c;
  mwf_completed addr s : completed m !! addr = Some s -> session_wf addr s;
}.

Lemma manager_wf_new : manager_wf new.
Proof. split; intros ? ? H; cbn in H; by rewrite lookup_empty in H. Qed.

Lemma wf_insert_pending addr c m :
  context_wf addr c -> manager_wf m -> manager_wf (insert_pending addr c m).
Proof.
  intros Hc [Hp Hd]. split; [|done]. intros a c'. cbn.
  rewrite lookup_insert_Some. intros [[<- <-]|[_ H]]; [done|by apply Hp].
Qed.

Lemma wf_delete_pending addr m : manager_wf m -> manager_wf (delete_pending addr m).
Proof.
  intros [Hp Hd]. split; [|done]. intros a c'. cbn.
  rewrite lookup_delete_Some. intros [_ H]. by apply Hp.
Qed.

Lemma wf_insert_completed addr s m :
  session_wf addr s -> manager_wf m -> manager_wf (insert_completed addr s m).
Proof.
  intros Hs [Hp Hd]. split; [done|]. intros a s'. cbn.
  rewrite lookup_insert_Some. intros [[<- <-]|[_ H]]; [done|by apply Hd].
Qed.

Lemma manager_wf_remove addr m : manager_wf m -> manager_wf (remove addr m).
Proof.
  intros [Hp Hd]. split; intros a x; cbn; rewrite lookup_delete_Some; intros [_ H]; eauto.
Qed.

Lemma wf_evict now m : manager_wf m -> manager_wf (evict_timed_out now m).2.
Proof.
  intros [Hp Hd]. split; [|done]. intros a c. cbn.
  rewrite map_lookup_filter_Some. intros [H _]. by apply Hp.
Qed.

(** A run that is not [Ok] keeps the manager: what is left is to look at the
    successful ones. *)
Lemma wf_of_atomic {A} (f : method hs A) (s : hs) :
  atomic f -> manager_wf s.1 ->
  (∀ a s', f s = (Ok a, s') -> manager_wf s'.1) -> manager_wf (f s).2.1.
Proof.
  intros Ha Hs Hok. specialize (Ha s). destruct (f s) as [[a|e|] s'] eqn:E; cbn in *.
  - by eapply Hok.
  - by rewrite Ha.
  - by rewrite Ha.
Qed.

Context {L : ExtLaws} {WL : WireLaws}.

Lemma build_probe_wf addr i now (s : hs) :
  manager_wf s.1 -> manager_wf (build_probe addr i now s).2.1.
Proof.
  intros Hs. apply wf_of_atomic; [apply build_probe_atomic|done|].
  intros b s' (nonce & Hg & Hw%wire_out_ok & ->)%build_probe_ok.
  apply wf_insert_pending; [|done]. split; [by eapply getrandom_length|].
  by exists (node_id i), now.
Qed.

Lemma process_probe_wf addr b i now (s : hs) :
  manager_wf s.1 -> manager_wf (process_probe_build_ack addr b i now s).2.1.
Proof.
  intros Hs. apply wf_of_atomic; [apply process_probe_atomic|done|].
  intros ab s' (p & n & kj & [Hd Hh]%receive_ok & Hg & _ & Hw%wire_out_ok & ->)%process_probe_ok.
  apply wf_insert_pending; [|done]. split; [by eapply getrandom_length|].
  exists p, (ack_of p i n kj now). split_and!; try done. apply Hh.
Qed.

Lemma process_ack_wf addr b i now (s : hs) :
  manager_wf s.1 -> manager_wf (process_ack_build_finish addr b i now s).2.1.
Proof.
  intros Hs. apply wf_of_atomic; [apply process_ack_atomic|done|].
  intros fb s' (ack & pb & t & pk & ct & ss & key & cj & ctb & [Hd _]%receive_ok & Hl & Hp & _ & _
    & Hkey & _ & _ & Hw%wire_out_ok & ->)%process_ack_ok.
  apply wf_insert_pending; [|done]. apply (mwf_pending _ Hs) in Hp as [Hn (node & ts & Hpr)].
  split_and!; [done|done|by eapply as_32_bytes_length|].
  by eexists _, ack, (finish_of i cj now); split_and!.
Qed.

Lemma process_finish_wf addr b i now (s : hs) :
  manager_wf s.1 -> manager_wf (process_finish_build_finish_ack addr b i now s).2.1.
Proof.
  intros Hs. rewrite process_finish_state.
  repeat case_match; auto using wf_delete_pending.
Qed.

Lemma process_finish_ack_wf addr b now (s : hs) :
  manager_wf s.1 -> manager_wf (process_finish_ack addr b now s).2.1.
Proof. intros Hs. rewrite process_finish_ack_state. case_match; auto using wf_delete_pending. Qed.

(** The session a finishing handler returns is well formed. *)
Lemma finish_session_wf addr b i now (s s' : hs) fb se :
  process_finish_build_finish_ack addr b i now s = (Ok (fb, se), s') -> session_wf addr se.
Proof.
  intros (fin & d & ct & ss & key & ctb & mac & sg & sid & _ & Hl & _ & _ & _ & _ & _ & _ & _ & _
    & _ & -> & _)%process_finish_ok.
  split_and!; try done. apply sha256_length.
Qed.

Lemma finish_ack_session_wf addr b now (s s' : hs) se :
  manager_wf s.1 -> process_finish_ack addr b now s = (Ok se, s') -> session_wf addr se.
Proof.
  intros Hs (fa & d & _ & Hp & Hm & -> & _)%process_finish_ack_ok.
  apply (mwf_pending _ Hs) in Hp as [Hl _].
  split_and!; try done. unfold client_session. cbn. rewrite (fam_transcript _ _ Hm).
  apply sha256_length.
Qed.

Lemma process_incoming_wf addr b i now (s : hs) :
  manager_wf s.1 -> manager_wf (process_incoming addr b i now s).2.1.
Proof.
  intros Hs. unfold process_incoming. case_match; auto using process_probe_wf, process_ack_wf.
  - pose proof (process_finish_wf addr b i now s Hs) as Hw. unfold mbind, st_bind.
    destruct (process_finish_build_finish_ack addr b i now s) as [[[fb se]|e|] s'] eqn:E; try done.
    apply wf_insert_completed; [by eapply finish_session_wf|done].
  - pose proof (process_finish_ack_wf addr b now s Hs) as Hw. unfold mbind, st_bind.
    destruct (process_finish_ack addr b now s) as [[se|e|] s'] eqn:E; try done.
    apply wf_insert_completed; [by apply (finish_ack_session_wf _ _ _ _ _ _ Hs E)|done].
Qed.

Lemma mgr_step_wf m m' : mgr_step m m' -> manager_wf m -> manager_wf m'.
Proof.
  intros Hst Hm. destruct Hst.
  2: { unfold create_identity_probe, current_time_unix_ms. unfold mbind, st_bind. cbn.
       destruct (system_time_ms os) as [o os']. by apply build_probe_wf. }
  all: first [by apply build_probe_wf | by apply process_probe_wf | by apply process_ack_wf
    | by apply process_finish_wf | by apply process_finish_ack_wf | by apply process_incoming_wf
    | by apply manager_wf_remove | by apply wf_evict | by apply wf_delete_pending].
Qed.

Lemma reachable_manager_wf m : reachable m -> manager_wf m.
Proof.
  unfold reachable. intros Hr. cut (manager_wf new); [|apply manager_wf_new].
  induction Hr as [m|m1 m2 m3 Hst Hr IH]; [done|]. intros Hm. by apply IH, (mgr_step_wf m1).
Qed.
End Reachable.

Lemma delete_insert_pending addr c m :
  delete_pending addr (insert_pending addr c m) = delete_pending addr m.
Proof. unfold delete_pending, insert_pending. cbn. by rewrite delete_insert_eq. Qed.

(** ** Dispatch *)

Section Dispatch.
Context {X : Ext} {W : WireCodecs}.

Lemma incoming_probe_run ca i t m b os r :
  classify_incoming b = KHandshakeProbe ->
  process_probe_build_ack ca b i t (m, os) = r ->
  process_incoming ca b i t (m, os) = r.
Proof. intros Hc H. unfold process_incoming. by rewrite Hc. Qed.

Lemma incoming_ack_run sa i t m b os r :
  classify_incoming b = KHandshakeAck ->
  process_ack_build_finish sa b i t (m, os) = r ->
  process_incoming sa b i t (m, os) = r.
Proof. intros Hc H. unfold process_incoming. by rewrite Hc. Qed.

Lemma incoming_finish_run ca i t m b os kb se m' os' :
  classify_incoming b = KHandshakeFinish ->
  process_finish_build_finish_ack ca b i t (m, os) = (Ok (kb, se), (m', os')) ->
  process_incoming ca b i t (m, os)
  = (Ok kb, (insert_completed ca se m', os')).
Proof.
  intros Hc H. unfold process_incoming. rewrite Hc. by rewrite (st_bind_run _ _ _ _ _ H).
Qed.

Lemma incoming_finish_ack_run sa i t m b os se m' os' :
  classify_incoming b = KHandshakeFinishAck ->
  process_finish_ack sa b t (m, os) = (Ok se, (m', os')) ->
  process_incoming sa b i t (m, os)
  = (Ok [], (insert_completed sa se m', os')).
Proof.
  intros Hc H. unfold process_incoming. rewrite Hc. by rewrite (st_bind_run _ _ _ _ _ H).
Qed.

(** A session id is the text of 32 bytes. *)
Lemma finish_session_id {L : ExtLaws} ca fb i t s kb se s' :
  process_finish_build_finish_ack ca fb i t s = (Ok (kb, se), s') ->
  ∃ okm, length okm = 32%nat ∧ session_id se = hex_encode okm.
Proof.
  intros (fin & d & ct & ss & key & ctb & mac & sg & sid & _ & _ & _ & _ & _ & _ & _ & _ & _ & Hsid
    & _ & -> & _)%process_finish_ok. cbn. revert Hsid. unfold derive_session_id.
  edestruct (hkdf_in_range) as (okm & -> & Hl); [|intros [= <-]; by exists okm]. lia.
Qed.
End Dispatch.

(** ** A run between two honest nodes *)

Section HonestRun.
Context {X : Ext} {W : WireCodecs}.
(** The client knows the server as [sa], the server the client as [ca]. *)
Context (ca sa : string) (idc ids : NodeIdentity) (osc oss : Os) (t1 t2 t3 t4 t5 : Z).

(** The entropy source and the key encapsulation succeed in this run. *)
Record foreign_ok : Prop := {
  fok_client : ∃ cn osc1 ct ss osc2 key cj ctb,
    getrandom 32 osc = (inr cn, osc1) ∧
    encapsulate_to (kem_public_key (kem_keypair ids)) osc1 = (inr (ct, ss), osc2) ∧
    as_32_bytes ss = inr key ∧ ct_to_json ct = inr cj ∧ short (String.length cj) ∧
    serialize ct = inr ctb;
  fok_server : ∃ sn oss1 kj,
    getrandom 32 oss = (inr sn, oss1) ∧
    kem_pk_to_json (kem_public_key (kem_keypair ids)) = inr kj ∧ short (String.length kj);
  fok_sign : can_sign ids;
}.

(** No message is more than 30 seconds old when it is processed. *)
Record in_time : Prop := {
  it_fits : fits 64 t1 ∧ fits 64 t2 ∧ fits 64 t3 ∧ fits 64 t4;
  it_probe : (t2 - t1 <= 30000)%Z;
  it_ack : (t3 - t2 <= 30000)%Z;
  it_finish : (t4 - t3 <= 30000)%Z;
  it_finish_ack : (t5 - t4 <= 30000)%Z;
}.

Record names_short : Prop := {
  ns_sa : short (String.length sa);
  ns_ic : short (String.length (node_id idc));
  ns_is : short (String.length (node_id ids));
}.

(** What the two ends hold after a handshake. *)
Record mirror (sc ss : SessionRecord) : Prop := {
  mir_id : session_id sc = session_id ss;
  mir_transcript : transcript_hash sc = transcript_hash ss;
  mir_client : sc = mkSession (session_id sc) sa (node_id ids) (sig_public_key_bytes ids)
                      (transcript_hash sc) t5 true;
  mir_server : ss = mkSession (session_id ss) ca (node_id idc) (sig_public_key_bytes idc)
                      (transcript_hash ss) t4 true;
}.

Context {L : ExtLaws} {WL : WireLaws} {WT : WireTotal}.

Lemma header_fresh {A} `{HandshakeMessage A} (m : A) now :
  hm_magic m = hm_expected_magic -> hm_version m = 1%Z -> (now - hm_timestamp m <= 30000)%Z ->
  header_ok m now.
Proof. by constructor. Qed.

(** The bytes of a message carry its magic after the length prefix, whatever
    follows them. *)
Lemma classify_extended {A} `{HandshakeMessage A} `{!Bincode A, !BincodeHead A hm_magic}
    (m : A) b r k :
  wire_out m = Ok b -> hm_magic m = hm_expected_magic ->
  magic_of k = Some hm_expected_magic -> classify_incoming (b ++ r) = k.
Proof.
  intros Hw%wire_out_ok Hm Hk. apply (serialize_head (head:=hm_magic)) in Hw as [rest ->].
  rewrite Hm, <- !(assoc_L (++)). apply (classify_tail _ _ _ Hk).
  - rewrite length_app, length_le_bytes, length_app.
    assert (0 < length (hm_expected_magic (A:=A)))%nat; [|lia].
    destruct k; cbn in Hk; simplify_eq;
      match goal with Hk : _ = hm_expected_magic |- _ => rewrite <- Hk; cbn; lia end.
  - rewrite drop_app_length' by (symmetry; apply length_le_bytes).
    apply starts_with_spec. eauto.
Qed.

Lemma classify_wire_out {A} `{HandshakeMessage A} `{!Bincode A, !BincodeHead A hm_magic}
    (m : A) b k :
  wire_out m = Ok b -> hm_magic m = hm_expected_magic ->
  magic_of k = Some hm_expected_magic -> classify_incoming b = k.
Proof. intros Hw Hm Hk. rewrite <- (app_nil_r b). by eapply classify_extended. Qed.

(** The five steps of an exchange, each on any manager that holds what the step
    needs: whatever else the two nodes do in between does not matter.  First,
    what each message on the wire is. *)
Definition on_probe (cn pb : bytes) : Prop := is32 cn ∧ wire_out (probe_of sa idc cn t1) = Ok pb.

Definition ack_msg (cn sn : bytes) (kj : string) : HandshakeAck :=
  ack_of (probe_of sa idc cn t1) ids sn kj t2.

Record on_ack (cn pb sn : bytes) (kj : string) (ab : bytes) : Prop := {
  oa_probe : on_probe cn pb;
  oa_nonce : is32 sn;
  oa_kem : kem_pk_to_json (kem_public_key (kem_keypair ids)) = inr kj;
  oa_wire : wire_out (ack_msg cn sn kj) = Ok ab;
}.

(** What the key encapsulation gave the client. *)
Record encapsulated (ct : KemCiphertext) (ss : KemSecret) (key : bytes) (cj : string)
    (ctb : bytes) : Prop := {
  en_decapsulate : decapsulate (kem_keypair ids) ct = inr ss;
  en_key : as_32_bytes ss = inr key;
  en_json : ct_to_json ct = inr cj;
  en_bytes : serialize ct = inr ctb;
}.

Lemma can_sig_pk_short i : short (length (sig_public_key_bytes i)).
Proof. rewrite sig_public_key_bytes_length. apply short_small. lia. Qed.

Lemma run_probe (m : HandshakeManager) os os' cn :
  in_time -> names_short -> getrandom 32 os = (inr cn, os') ->
  ∃ pb, on_probe cn pb ∧
    build_probe sa idc t1 (m, os) =
      (Ok pb, (insert_pending sa (Client (ProbeSent (mkProbeSent cn pb t1))) m, os')).
Proof.
  intros [(F1 & _) _ _ _ _] [Nsa Nic Nis] Hcn.
  assert (is32 cn) as Hl by (by eapply getrandom_length).
  destruct (serialize_probe_total (probe_of sa idc cn t1)) as [pb Hpb%wire_out_ok]; [done|].
  exists pb. split; [done|]. apply build_probe_ok. by exists cn.
Qed.

Lemma run_ack (m : HandshakeManager) os os' cn pb sn kj :
  in_time -> names_short -> on_probe cn pb -> getrandom 32 os = (inr sn, os') ->
  kem_pk_to_json (kem_public_key (kem_keypair ids)) = inr kj -> short (String.length kj) ->
  ∃ ab, on_ack cn pb sn kj ab ∧
    process_probe_build_ack ca pb ids t2 (m, os) =
      (Ok ab, (insert_pending ca (Server (AckSent (mkAckSent cn sn pb ab t2))) m, os')).
Proof.
  intros [(F1 & F2 & _) D1 _ _ _] [Nsa Nic Nis] [Hcn Hpb] Hsn Hkj Hkjs.
  assert (is32 sn) as Hl by (by eapply getrandom_length).
  destruct (serialize_ack_total (ack_msg cn sn kj)) as [ab Hab%wire_out_ok].
  { constructor; try done. apply can_sig_pk_short. }
  exists ab. split; [done|]. apply process_probe_ok. exists (probe_of sa idc cn t1), sn, kj.
  split_and!; try done. by apply receive_wire_out, header_fresh.
Qed.

Lemma run_finish (m : HandshakeManager) os os' cn pb sn kj ab ct ss key cj ctb :
  in_time -> names_short -> on_ack cn pb sn kj ab ->
  pending m !! sa = Some (Client (ProbeSent (mkProbeSent cn pb t1))) ->
  encapsulate_to (kem_public_key (kem_keypair ids)) os = (inr (ct, ss), os') ->
  as_32_bytes ss = inr key -> ct_to_json ct = inr cj -> serialize ct = inr ctb ->
  short (String.length cj) ->
  ∃ fb, wire_out (finish_of idc cj t3) = Ok fb ∧ encapsulated ct ss key cj ctb ∧
    process_ack_build_finish sa ab idc t3 (m, os) =
      (Ok fb, (insert_pending sa (Client (FinishSent
                 (finish_sent_of (ack_msg cn sn kj) pb ab fb ctb key t3))) m, os')).
Proof.
  intros [(F1 & F2 & F3 & _) _ D2 _ _] [Nsa Nic Nis] [_ _ Hkj Hab] Hp Henc Hkey Hcj Hctb Hcjs.
  destruct (serialize_finish_total (finish_of idc cj t3)) as [fb Hfb%wire_out_ok].
  { constructor; try done. apply can_sig_pk_short. }
  exists fb. split_and!; [done|constructor; try done; by eapply kem_correct|].
  apply process_ack_ok.
  exists (ack_msg cn sn kj), pb, t1, (kem_public_key (kem_keypair ids)), ct, ss, key, cj, ctb.
  split_and!; try done.
  - by apply receive_wire_out, header_fresh.
  - apply sig_public_key_bytes_length.
  - by apply kem_pk_json_roundtrip.
Qed.

(** What the server signs, once it has the client's last message. *)
Definition transcript (cn sn pb ab fb : bytes) : bytes :=
  transcript_of (mkAckSent cn sn pb ab t2) fb.

Record on_finish_ack (key th : bytes) (fa : HandshakeFinishAck) (kb : bytes) : Prop := {
  of_wire : wire_out fa = Ok kb;
  of_shape : fa = finish_ack_of (fa_session_id fa) th (fa_server_mac fa)
                    (fa_transcript_signature fa) t4;
  of_mac : compute_server_mac key th = Ok (fa_server_mac fa);
  of_signature : sign ids th SIG_CTX_HANDSHAKE = Ok (fa_transcript_signature fa);
}.

Lemma finish_ack_total key th cn sn ctb :
  in_time -> can_sign ids -> is32 th ->
  ∃ fa kb, on_finish_ack key th fa kb ∧
    derive_session_id key cn sn ctb (node_id ids) = Ok (fa_session_id fa).
Proof.
  intros [(_ & _ & _ & F4) _ _ _ _] Hsign Hth.
  destruct (compute_server_mac_ok key th) as (mac & Hmac & Lmac).
  destruct (can_sign_ok ids th SIG_CTX_HANDSHAKE Hsign) as [sg Hsg]; [cbn; lia|].
  destruct (derive_session_id_ok key cn sn ctb (node_id ids)) as (sid & Hsid & Lsid).
  destruct (serialize_finish_ack_total (finish_ack_of sid th mac sg t4)) as [kb Hkb%wire_out_ok].
  { constructor; try done; cbn; [rewrite Lsid|rewrite (sign_length _ _ _ _ Hsg)];
      apply short_small; lia. }
  by exists (finish_ack_of sid th mac sg t4), kb.
Qed.

Lemma run_finish_ack (m : HandshakeManager) os cn pb sn ab ct ss key cj ctb fb :
  in_time -> can_sign ids -> wire_out (finish_of idc cj t3) = Ok fb ->
  encapsulated ct ss key cj ctb ->
  pending m !! ca = Some (Server (AckSent (mkAckSent cn sn pb ab t2))) ->
  let th := transcript cn sn pb ab fb in
  ∃ fa kb, on_finish_ack key th fa kb ∧
    process_finish_build_finish_ack ca fb ids t4 (m, os) =
      (Ok (kb, server_session ca (fa_session_id fa) (finish_of idc cj t3) th t4),
       (delete_pending ca m, os)).
Proof.
  intros Ht Hsign Hfb [Hdec Hkey Hcj Hctb] Hp th.
  destruct (finish_ack_total key th cn sn ctb) as (fa & kb & Hon & Hsid);
    [done|done|apply sha256_length|].
  exists fa, kb. split; [done|]. destruct Hon as [Hw Hshape Hmac Hsg]. destruct Ht as [_ _ _ D3 _].
  apply process_finish_ok.
  exists (finish_of idc cj t3), (mkAckSent cn sn pb ab t2), ct, ss, key, ctb, (fa_server_mac fa),
    (fa_transcript_signature fa), (fa_session_id fa).
  split_and!; try done.
  - by apply receive_wire_out, header_fresh.
  - apply sig_public_key_bytes_length.
  - by apply ct_json_roundtrip.
  - fold (transcript cn sn pb ab fb). fold th. by rewrite <- Hshape.
Qed.

Lemma run_done (m : HandshakeManager) os cn pb sn kj ab key ctb fb fa kb :
  in_time -> on_finish_ack key (transcript cn sn pb ab fb) fa kb ->
  pending m !! sa =
    Some (Client (FinishSent (finish_sent_of (ack_msg cn sn kj) pb ab fb ctb key t3))) ->
  process_finish_ack sa kb t5 (m, os) =
    (Ok (client_session sa fa (finish_sent_of (ack_msg cn sn kj) pb ab fb ctb key t3) t5),
     (delete_pending sa m, os)).
Proof.
  intros [_ _ _ _ D4] [Hw Hshape Hmac Hsg] Hp. apply process_finish_ack_ok.
  exists fa, (finish_sent_of (ack_msg cn sn kj) pb ab fb ctb key t3).
  split_and!; try done.
  - apply receive_wire_out; [done|]. rewrite Hshape. by apply header_fresh.
  - rewrite Hshape. constructor; [done|done|]. by apply verify_signed.
Qed.

Lemma sessions_mirror cn sn kj pb ab fb ctb key cj fa kb :
  on_finish_ack key (transcript cn sn pb ab fb) fa kb ->
  mirror (client_session sa fa (finish_sent_of (ack_msg cn sn kj) pb ab fb ctb key t3) t5)
    (server_session ca (fa_session_id fa) (finish_of idc cj t3) (transcript cn sn pb ab fb) t4).
Proof. intros [_ Hshape _ _]. rewrite Hshape. by constructor. Qed.

(** How the four messages are dispatched. *)
Lemma probe_classified cn pb : on_probe cn pb -> classify_incoming pb = KHandshakeProbe.
Proof. intros [_ Hw]. by apply (classify_wire_out (probe_of sa idc cn t1)). Qed.

Lemma ack_classified cn pb sn kj ab :
  on_ack cn pb sn kj ab -> classify_incoming ab = KHandshakeAck.
Proof. intros []. by apply (classify_wire_out (ack_msg cn sn kj)). Qed.

Lemma finish_classified cj fb :
  wire_out (finish_of idc cj t3) = Ok fb -> classify_incoming fb = KHandshakeFinish.
Proof. intros Hw. by apply (classify_wire_out (finish_of idc cj t3)). Qed.

Lemma finish_ack_classified key th fa kb :
  on_finish_ack key th fa kb -> classify_incoming kb = KHandshakeFinishAck.
Proof. intros [Hw Hs _ _]. apply (classify_wire_out fa); [done|by rewrite Hs|done]. Qed.

(** The five handler calls, in order, on any two managers. *)
Lemma handshake_run (mc ms : HandshakeManager) :
  foreign_ok -> in_time -> names_short ->
  ∃ pb ab fb kb mc1 osc1 mc2 osc2 ms1 oss1 sc ss,
    build_probe sa idc t1 (mc, osc) = (Ok pb, (mc1, osc1)) ∧
    process_probe_build_ack ca pb ids t2 (ms, oss) = (Ok ab, (ms1, oss1)) ∧
    process_ack_build_finish sa ab idc t3 (mc1, osc1) = (Ok fb, (mc2, osc2)) ∧
    process_finish_build_finish_ack ca fb ids t4 (ms1, oss1) =
      (Ok (kb, ss), (delete_pending ca ms, oss1)) ∧
    process_finish_ack sa kb t5 (mc2, osc2) = (Ok sc, (delete_pending sa mc, osc2)) ∧
    mirror sc ss ∧
    classify_incoming pb = KHandshakeProbe ∧ classify_incoming ab = KHandshakeAck ∧
    classify_incoming fb = KHandshakeFinish ∧ classify_incoming kb = KHandshakeFinishAck.
Proof.
  intros [(cn & osc1 & ct & sec & osc2 & key & cj & ctb & Hcn & Henc & Hkey & Hcj & Hcjs & Hctb)
          (sn & oss1 & kj & Hsn & Hkj & Hkjs) Hsign] Ht Hn.
  destruct (run_probe mc osc osc1 cn Ht Hn Hcn) as (pb & Hp & H1).
  destruct (run_ack ms oss oss1 cn pb sn kj Ht Hn Hp Hsn Hkj Hkjs) as (ab & Ha & H2).
  edestruct (run_finish (insert_pending sa (Client (ProbeSent (mkProbeSent cn pb t1))) mc))
    as (fb & Hf & Hen & H3); [done|done|exact Ha|apply lookup_insert_eq|done..|].
  edestruct (run_finish_ack (insert_pending ca (Server (AckSent (mkAckSent cn sn pb ab t2))) ms))
    with (os := oss1) as (fa & kb & Hk & H4); [done|done|exact Hf|done|apply lookup_insert_eq|].
  eexists pb, ab, fb, kb, _, osc1, _, osc2, _, oss1, _, _.
  split_and!; [exact H1|exact H2|exact H3| | |by eapply sessions_mirror|..].
  - rewrite H4. by rewrite delete_insert_pending.
  - rewrite (run_done _ osc2 cn pb sn kj ab key ctb fb fa kb Ht Hk) by apply lookup_insert_eq.
    by rewrite !delete_insert_pending.
  - by eapply probe_classified.
  - by eapply ack_classified.
  - by eapply finish_classified.
  - by eapply finish_ack_classified.
Qed.
End HonestRun.

(** ** The properties *)

Section Theorems.
Context {X : Ext} {W : WireCodecs}.

(** The wire message with another session id. *)
Definition with_session_id (sid : string) (fa : HandshakeFinishAck) : HandshakeFinishAck :=
  mkFinishAck (fa_magic fa) (fa_version fa) sid (fa_transcript_hash fa) (fa_server_mac fa)
    (fa_transcript_signature fa) (fa_timestamp_unix_ms fa).

(** The wire message with another client identity. *)
Definition with_client (pk : bytes) (node : string) (f : HandshakeFinish) : HandshakeFinish :=
  mkFinish (fin_magic f) (fin_version f) (fin_kem_ciphertext_json f) pk node
    (fin_timestamp_unix_ms f).

(** C2. The client accepts a final message exactly when it decodes with a fresh
    header, the client was waiting for it, its transcript hash is the hash of
    the three messages the client itself sent and received, its MAC is the
    HMAC of that hash under the shared secret, and its signature verifies
    under the key of the acknowledgement; the session then records that key
    and node id. *)
Theorem finish_ack_exact (addr : string) (b : bytes) (now_ms : Z) (s : hs) (se : SessionRecord) :
  (process_finish_ack addr b now_ms s).1 = Ok se <->
  ∃ fa d, receive (A:=HandshakeFinishAck) b now_ms = Ok fa ∧
    pending s.1 !! addr = Some (Client (FinishSent d)) ∧
    finish_ack_matches fa d ∧
    se = mkSession (fa_session_id fa) addr (fs_server_node_id d) (fs_server_sig_pk d)
           (compute_transcript_hash (fs_probe_bytes d) (fs_ack_bytes d) (fs_finish_bytes d))
           now_ms true.
Proof.
  destruct (process_finish_ack addr b now_ms s) as [r s'] eqn:E. cbn [fst]. split.
  - intros ->. apply process_finish_ack_ok in E as (fa & d & Hr & Hp & Hm & -> & _).
    exists fa, d. split_and!; try done. unfold client_session. by rewrite (fam_transcript _ _ Hm).
  - intros (fa & d & Hr & Hp & Hm & ->).
    assert (process_finish_ack addr b now_ms s =
      (Ok (client_session addr fa d now_ms), (delete_pending addr s.1, s.2))) as E'.
    { apply process_finish_ack_ok. by exists fa, d. }
    rewrite E in E'. injection E' as -> _. unfold client_session.
    by rewrite (fam_transcript _ _ Hm).
Qed.

(** C30. A handler that fails before its commit point changes nothing: building
    a probe, answering a probe and answering an acknowledgement leave the
    manager as it was on every error.  The two finishing handlers differ.  The
    client's removes the pending context of that peer as soon as the header of
    the message is accepted, the server's as soon as the header and the length
    of the client's key are, whatever the kind of the context and whether or
    not the message is then accepted; before that they change nothing.  So the
    same exchange cannot be finished twice. *)
Theorem finishing_consumes_pending (addr : string) (b : bytes) (i : NodeIdentity) (now_ms : Z)
    (s : hs) :
  atomic (build_probe addr i now_ms) ∧ atomic (process_probe_build_ack addr b i now_ms) ∧
  atomic (process_ack_build_finish addr b i now_ms) ∧
  (process_finish_ack addr b now_ms s).2.1 =
    (if is_ok (receive (A:=HandshakeFinishAck) b now_ms) then delete_pending addr s.1 else s.1) ∧
  (process_finish_build_finish_ack addr b i now_ms s).2.1 =
    match receive (A:=HandshakeFinish) b now_ms with
    | Ok fin =>
        if bool_decide (length (fin_client_ml_dsa_65_public_key fin) = 1952%nat)
        then delete_pending addr s.1 else s.1
    | _ => s.1
    end ∧
  (∀ se s', process_finish_ack addr b now_ms s = (Ok se, s') ->
     ∃ e, (process_finish_ack addr b now_ms s').1 = Err e) ∧
  (∀ r s', process_finish_build_finish_ack addr b i now_ms s = (Ok r, s') ->
     ∃ e, (process_finish_build_finish_ack addr b i now_ms s').1 = Err e).
Proof.
  split_and!; [apply build_probe_atomic|apply process_probe_atomic|apply process_ack_atomic|
    apply process_finish_ack_state|apply process_finish_state|..].
  - intros se s' (fa & d & Hr & _ & _ & _ & ->)%process_finish_ack_ok.
    exists (HandshakeError ("no pending client finish for " +:+ addr)).
    unfold process_finish_ack. rewrite (st_bind_run _ _ _ fa (delete_pending addr s.1, s.2)) by by_lift.
    unfold_bind. cbn. by rewrite lookup_delete_eq.
  - intros [b' se] s'
      (fin & d & ct & ss & key & ctb & mac & sg & sid & Hr & Hl & _ & _ & _ & _ & _ & _ & _ & _ & _
       & _ & ->)%process_finish_ok.
    exists (HandshakeError ("no pending server handshake for " +:+ addr)).
    unfold process_finish_build_finish_ack. rewrite (st_bind_run _ _ _ fin (delete_pending addr s.1, s.2))
      by by_lift.
    rewrite bool_decide_false by auto. unfold_bind. cbn. by rewrite lookup_delete_eq.
Qed.

(** A timed-out handshake is one whose last message was sent more than ten
    seconds ago.  Eviction removes exactly those, reports each of them once,
    and touches neither the others nor any completed session. *)
Theorem evict_timed_out_exact `{!HashOrderLaws} (now_ms : Z) (m : HandshakeManager) :
  let '(evicted, m') := evict_timed_out now_ms m in
  NoDup evicted ∧ completed m' = completed m ∧
  (∀ addr, addr ∈ evicted <->
     ∃ c, pending m !! addr = Some c ∧ Context.is_timed_out now_ms c = true) ∧
  (∀ addr c, pending m' !! addr = Some c <->
     pending m !! addr = Some c ∧ Context.is_timed_out now_ms c = false) ∧
  (length evicted + size (pending m') = size (pending m))%nat.
Proof.
  unfold evict_timed_out. cbn [pending completed].
  set (out := λ kc : string * HandshakeContext, Context.is_timed_out now_ms kc.2 = true).
  assert (filter out (hash_iter (pending m)) ≡ₚ map_to_list (filter out (pending m))) as Hp.
  { by rewrite map_to_list_filter, hash_iter_perm. }
  split_and!.
  - rewrite Hp. apply NoDup_fst_map_to_list.
  - done.
  - intros addr. rewrite Hp, list_elem_of_fmap. split.
    + intros ([a c] & -> & Hin%elem_of_map_to_list). apply map_lookup_filter_Some in Hin. by exists c.
    + intros (c & Hc & Ht). exists (addr, c). split; [done|].
      apply elem_of_map_to_list. by apply map_lookup_filter_Some.
  - intros addr c. by rewrite map_lookup_filter_Some.
  - rewrite Hp, length_fmap, length_map_to_list.
    rewrite <- (map_filter_union_complement out (pending m)) at 3.
    rewrite map_size_disj_union by apply map_disjoint_filter_complement.
    f_equal. f_equal. apply map_filter_ext. intros a c _. unfold out. cbn.
    by rewrite not_true_iff_false.
Qed.

Context {L : ExtLaws} {WL : WireLaws}.

(** C28. In every manager the public methods can produce, every pending context
    is one of the three waiting states and fits its peer: the messages it
    sent are encodings and those it received decode, the nonces in them agree (the server echoed the client's
    nonce), the key kept for the server is the one of its acknowledgement;
    and every completed session is active, filed under its own peer address.
    No idle, failed or completed context is ever pending, so [take_session]
    never returns a session. *)
Theorem reachable_wf (m : HandshakeManager) (Hr : reachable m) :
  manager_wf m ∧ ∀ addr, (take_session addr m).1 = None.
Proof.
  pose proof (reachable_manager_wf m Hr) as Hm. split; [done|]. intros addr. cbn.
  destruct (pending m !! addr) as [c|] eqn:E; [|done]. apply (mwf_pending _ Hm) in E.
  by destruct c as [[]|[]].
Qed.

(** The session id of the final message is not authenticated: neither the
    MAC nor the signature covers it and the client does not recompute it.
    Whoever relays an acceptable final message can replace the id by any
    other; the client accepts and records that one. *)
Theorem session_id_unauthenticated (addr sid : string) (b b' : bytes) (now_ms : Z) (s : hs)
    (fa : HandshakeFinishAck) (se : SessionRecord)
    (Hd : deserialize b = inr fa) (Hb' : serialize (with_session_id sid fa) = inr b')
    (Hok : (process_finish_ack addr b now_ms s).1 = Ok se) :
  (process_finish_ack addr b' now_ms s).1 =
    Ok (mkSession sid addr (peer_node_id se) (peer_sig_public_key se) (transcript_hash se)
          now_ms true).
Proof.
  destruct (process_finish_ack addr b now_ms s) as [r s'] eqn:E. cbn in Hok. subst r.
  apply process_finish_ack_ok in E as (fa' & d & [Hd' [Hm Hv Hf]]%receive_ok & Hp & [Ht Hmac Hs]
    & -> & ->).
  rewrite Hd in Hd'. injection Hd' as <-.
  assert (process_finish_ack addr b' now_ms s =
    (Ok (client_session addr (with_session_id sid fa) d now_ms), (delete_pending addr s.1, s.2)))
    as ->; [|done].
  apply process_finish_ack_ok. exists (with_session_id sid fa), d. split_and!; try done.
  apply receive_ok. split; [by apply deserialize_serialize|done].
Qed.

Context {WT : WireTotal}.

(** C39. The handshake authenticates the server, not the client: nothing in the
    finish message is signed by the client.  If the server accepts a finish,
    it accepts the same finish under any other 1952-byte signing key and node
    id, derives the same session id and records the claimed identity. *)
Theorem client_unauthenticated (addr node : string) (fb fb' pk kb : bytes) (i : NodeIdentity)
    (now_ms : Z) (s s' : hs) (fin : HandshakeFinish) (se : SessionRecord)
    (Hd : deserialize fb = inr fin) (Hfb' : serialize (with_client pk node fin) = inr fb')
    (Hpk : length pk = 1952%nat) (Hi : can_sign i) (Hnow : fits 64 now_ms)
    (Hok : process_finish_build_finish_ack addr fb i now_ms s = (Ok (kb, se), s')) :
  ∃ kb' th, process_finish_build_finish_ack addr fb' i now_ms s =
    (Ok (kb', mkSession (session_id se) addr node pk th now_ms true), s').
Proof.
  apply process_finish_ok in Hok as (fin' & d & ct & ss & key & ctb & mac & sg & sid
    & [Hd' [Hm Hv Hf]]%receive_ok & Hl & Hp & Hct & Hss & Hkey & Hctb & _ & _ & Hsid & _ & -> & ->).
  rewrite Hd in Hd'. injection Hd' as <-.
  destruct (compute_server_mac_ok key (transcript_of d fb')) as (mac' & Hmac & Lmac).
  destruct (can_sign_ok i (transcript_of d fb') SIG_CTX_HANDSHAKE Hi) as [sg' Hsg]; [cbn; lia|].
  destruct (derive_session_id_ok key (as_client_nonce d) (as_server_nonce d) ctb (node_id i))
    as (sid' & Hsid' & Lsid).
  rewrite Hsid in Hsid'. injection Hsid' as <-.
  destruct (serialize_finish_ack_total (finish_ack_of sid (transcript_of d fb') mac' sg' now_ms))
    as [kb' Hkb].
  { constructor; try done; cbn.
    - rewrite Lsid. apply short_small. lia.
    - apply sha256_length.
    - rewrite (sign_length _ _ _ _ Hsg). apply short_small. lia. }
  exists kb', (transcript_of d fb'). apply process_finish_ok.
  exists (with_client pk node fin), d, ct, ss, key, ctb, mac', sg', sid.
  split_and!; try done; [|by apply wire_out_ok].
  apply receive_ok. split; [by apply deserialize_serialize|done].
Qed.

(** C1. Two honest nodes complete the handshake: when the foreign calls succeed
    and no message is more than thirty seconds old on arrival, the probe and
    the four dispatched messages are all answered, both ends leave nothing
    pending, and each holds a session that mirrors the other's: the same
    session id and transcript hash, and the node id and key of the peer. *)
Theorem handshake_establishes (ca sa : string) (idc ids : NodeIdentity) (osc oss : Os)
    (t1 t2 t3 t4 t5 : Z) (mc ms : HandshakeManager)
    (Hf : foreign_ok ids osc oss) (Ht : in_time t1 t2 t3 t4 t5) (Hn : names_short sa idc ids) :
  ∃ pb ab fb kb mc1 ms1 mc2 ms2 mc3 sc ss,
    build_probe sa idc t1 (mc, osc) = (Ok pb, mc1) ∧
    process_incoming ca pb ids t2 (ms, oss) = (Ok ab, ms1) ∧
    process_incoming sa ab idc t3 mc1 = (Ok fb, mc2) ∧
    process_incoming ca fb ids t4 ms1 = (Ok kb, ms2) ∧
    process_incoming sa kb idc t5 mc2 = (Ok [], mc3) ∧
    get_session mc3.1 sa = Some sc ∧ get_session ms2.1 ca = Some ss ∧
    pending mc3.1 !! sa = None ∧ pending ms2.1 !! ca = None ∧
    mirror ca sa idc ids t4 t5 sc ss.
Proof.
  destruct (handshake_run ca sa idc ids osc oss t1 t2 t3 t4 t5 mc ms Hf Ht Hn)
    as (pb & ab & fb & kb & mc1 & osc1 & mc2 & osc2 & ms1 & oss1 & sc & ss & H1 & H2 & H3 & H4 & H5
        & Hm & C1 & C2 & C3 & C4).
  exists pb, ab, fb, kb, (mc1, osc1), (ms1, oss1), (mc2, osc2).
  exists (insert_completed ca ss (delete_pending ca ms), oss1).
  exists (insert_completed sa sc (delete_pending sa mc), osc2), sc, ss.
  split_and!; [done|by apply incoming_probe_run|by apply incoming_ack_run
    |by apply incoming_finish_run|by apply incoming_finish_ack_run|..|done].
  - apply lookup_insert_eq.
  - apply lookup_insert_eq.
  - apply lookup_delete_eq.
  - apply lookup_delete_eq.
Qed.
End Theorems.
