(* ===== verification/Splice.v ===== *)
(** * Splicing a transcript

    What the four-message handshake of [witan/src/handshake.rs] does not
    guarantee, for lack of framing: the transcript hash is over the plain
    concatenation of three messages, and a message may carry trailing bytes.

    A man in the middle inserts an acknowledgement of his own, with the server's
    signing key and a KEM key of his: he appends it to the client's probe on the
    way to the server, and prepends it to the server's acknowledgement on the
    way to the client.  The two ends cut the same bytes differently. *)

From S2P Require Import Prelude Errors Types Extern Identity Session Handshake HandshakeThms.
Import Handshakes.

Section Splice.
Context {X : Ext} {W : WireCodecs}.

(** ** The man in the middle

    He knows what goes over the wire, the server's public key and node id, and
    his own KEM key pair. *)

(** The acknowledgement he inserts. *)
Definition inserted_ack (probe : HandshakeProbe) (nonce : bytes) (kem_json : string)
    (server_key : bytes) (server_id : string) (now : Z) : HandshakeAck :=
  mkAck HANDSHAKE_ACK_MAGIC 1 (probe_client_nonce probe) nonce kem_json server_key server_id now.

(** The secret the client encapsulated to his key. *)
Definition intercepted_secret (kem : KemKeypair) (finish : HandshakeFinish) : res bytes :=
  ct ← map_err CryptoError (ct_from_json (fin_kem_ciphertext_json finish));
  ss ← map_err CryptoError (decapsulate kem ct);
  secret_32 ss.

(** The server's last message under that secret, with a session id he picks. *)
Definition replaced_finish_ack (key : bytes) (sid : string) (fa : HandshakeFinishAck) :
    res HandshakeFinishAck :=
  mac ← compute_server_mac key (fa_transcript_hash fa);
  mret (mkFinishAck (fa_magic fa) (fa_version fa) sid (fa_transcript_hash fa) mac
          (fa_transcript_signature fa) (fa_timestamp_unix_ms fa)).

(** ** The run *)

Section Run.
Context {L : ExtLaws} {WL : WireLaws} {WT : WireTotal}.
Context {TP : BincodeTrailing HandshakeProbe} {TA : BincodeTrailing HandshakeAck}.
Context (ca sa sid : string) (idc ids : NodeIdentity) (mallory : KemKeypair).
Context (osc oss : Os) (t1 t2 t3 t4 t5 : Z).

(** The foreign calls of the run succeed: those of an honest run, but that the
    client encapsulates to Mallory's key, and that the server decapsulates that
    ciphertext, to some secret, with its own (neither X25519 nor ML-KEM rejects a
    well-formed ciphertext). *)
Record splice_ok : Prop := {
  sp_client : ∃ cn osc1 ct ss osc2 key cj ctb,
    getrandom 32 osc = (inr cn, osc1) ∧
    encapsulate_to (kem_public_key mallory) osc1 = (inr (ct, ss), osc2) ∧
    as_32_bytes ss = inr key ∧ ct_to_json ct = inr cj ∧ short (String.length cj) ∧
    serialize ct = inr ctb ∧
    ∃ ss' key', decapsulate (kem_keypair ids) ct = inr ss' ∧ as_32_bytes ss' = inr key';
  sp_server : ∃ sn oss1 kj,
    getrandom 32 oss = (inr sn, oss1) ∧
    kem_pk_to_json (kem_public_key (kem_keypair ids)) = inr kj ∧ short (String.length kj);
  sp_sign : can_sign ids;
  sp_mallory : ∃ mj, kem_pk_to_json (kem_public_key mallory) = inr mj ∧ short (String.length mj);
  sp_sid : short (String.length sid);
}.

Lemma receive_extended {A} `{HandshakeMessage A} `{!Bincode A, !BincodeTrailing A} (m : A) b r now :
  wire_out m = Ok b -> header_ok m now -> receive (b ++ r) now = Ok m.
Proof. intros Hw%wire_out_ok Hh. apply receive_ok. split; [by apply deserialize_trailing|done]. Qed.

(** The concatenation of three messages does not say where they end. *)
Lemma transcript_shift a b c d :
  compute_transcript_hash a (b ++ c) d = compute_transcript_hash (a ++ b) c d.
Proof. unfold compute_transcript_hash. by rewrite <- !(assoc_L (++)). Qed.

(** What Mallory sends in the client's direction, and what the ends hold. *)
Record spliced (pb xb ab fb kb kb' key : bytes) (sc ss : SessionRecord) : Prop := {
  spl_inserted : ∃ probe mj,
    deserialize pb = inr probe ∧ kem_pk_to_json (kem_public_key mallory) = inr mj ∧
    serialize (inserted_ack probe (probe_client_nonce probe) mj (sig_public_key_bytes ids)
      (node_id ids) t2) = inr xb;
  spl_secret : ∃ finish, deserialize fb = inr finish ∧ intercepted_secret mallory finish = Ok key;
  spl_replaced : ∃ fa fa',
    deserialize kb = inr fa ∧ replaced_finish_ack key sid fa = Ok fa' ∧ serialize fa' = inr kb';
  spl_client : sc = mkSession sid sa (node_id ids) (sig_public_key_bytes ids) (transcript_hash ss) t5 true;
  spl_server : ss = mkSession (session_id ss) ca (node_id idc) (sig_public_key_bytes idc)
                      (compute_transcript_hash (pb ++ xb) ab fb) t4 true;
}.

(** The server's turn on the extended probe. *)
Lemma spliced_ack (m : HandshakeManager) cn pb xb sn oss1 kj :
  in_time t1 t2 t3 t4 t5 -> names_short sa idc ids -> on_probe sa idc t1 cn pb ->
  getrandom 32 oss = (inr sn, oss1) ->
  kem_pk_to_json (kem_public_key (kem_keypair ids)) = inr kj -> short (String.length kj) ->
  ∃ ab,
    process_incoming ca (pb ++ xb) ids t2 (m, oss)
    = (Ok ab, (insert_pending ca (Server (AckSent (mkAckSent cn sn (pb ++ xb) ab t2))) m, oss1)).
Proof.
  intros [(F1 & F2 & _) D1 _ _ _] [Nsa Nic Nis] [Hcn Hpb] Hsn Hkj Hkjs.
  assert (is32 sn) as Hl by (by eapply getrandom_length).
  destruct (serialize_ack_total (ack_of (probe_of sa idc cn t1) ids sn kj t2)) as [ab Hab%wire_out_ok].
  { constructor; try done. apply can_sig_pk_short. }
  exists ab. apply incoming_probe_run.
  { by eapply (classify_extended (probe_of sa idc cn t1)). }
  apply process_probe_ok. exists (probe_of sa idc cn t1), sn, kj.
  split_and!; try done. by apply receive_extended, header_fresh.
Qed.

(** The client's turn on the extended acknowledgement. *)
Lemma spliced_finish (m : HandshakeManager) cn pb xb ab mj os os' ct ss key cj ctb :
  in_time t1 t2 t3 t4 t5 -> names_short sa idc ids -> is32 cn ->
  let x := inserted_ack (probe_of sa idc cn t1) cn mj (sig_public_key_bytes ids) (node_id ids) t2 in
  wire_out x = Ok xb -> kem_pk_to_json (kem_public_key mallory) = inr mj ->
  pending m !! sa = Some (Client (ProbeSent (mkProbeSent cn pb t1))) ->
  encapsulate_to (kem_public_key mallory) os = (inr (ct, ss), os') ->
  as_32_bytes ss = inr key -> ct_to_json ct = inr cj -> serialize ct = inr ctb ->
  short (String.length cj) ->
  ∃ fb, wire_out (finish_of idc cj t3) = Ok fb ∧
    process_incoming sa (xb ++ ab) idc t3 (m, os)
    = (Ok fb, (insert_pending sa (Client (FinishSent
                 (finish_sent_of x pb (xb ++ ab) fb ctb key t3))) m, os')).
Proof.
  intros [(F1 & F2 & F3 & _) _ D2 _ _] [Nsa Nic Nis] Hcn x Hxb Hmj Hp Henc Hkey Hcj Hctb Hcjs.
  destruct (serialize_finish_total (finish_of idc cj t3)) as [fb Hfb%wire_out_ok].
  { constructor; try done. apply can_sig_pk_short. }
  exists fb. split; [done|]. apply incoming_ack_run.
  { by eapply (classify_extended x). }
  apply process_ack_ok.
  exists x, pb, t1, (kem_public_key mallory), ct, ss, key, cj, ctb.
  split_and!; try done.
  - by apply receive_extended, header_fresh.
  - apply sig_public_key_bytes_length.
  - by apply kem_pk_json_roundtrip.
Qed.

(** The server's last turn: its secret is not the client's. *)
Lemma spliced_finish_ack (m : HandshakeManager) os cn sn pb' ab ct ss' key' cj ctb fb :
  in_time t1 t2 t3 t4 t5 -> can_sign ids -> wire_out (finish_of idc cj t3) = Ok fb ->
  decapsulate (kem_keypair ids) ct = inr ss' -> as_32_bytes ss' = inr key' ->
  ct_to_json ct = inr cj -> serialize ct = inr ctb ->
  pending m !! ca = Some (Server (AckSent (mkAckSent cn sn pb' ab t2))) ->
  let th := compute_transcript_hash pb' ab fb in
  ∃ fa kb, on_finish_ack ids t4 key' th fa kb ∧
    process_incoming ca fb ids t4 (m, os)
    = (Ok kb, (insert_completed ca (server_session ca (fa_session_id fa) (finish_of idc cj t3) th t4)
                 (delete_pending ca m), os)).
Proof.
  intros Ht Hsign Hfb Hdec Hkey Hcj Hctb Hp th.
  destruct (run_finish_ack ca idc ids t1 t2 t3 t4 t5 m os cn pb' sn ab ct ss' key' cj ctb fb)
    as (fa & kb & Hon & E); [done|done|done|by constructor|done|].
  exists fa, kb. split; [exact Hon|]. apply incoming_finish_run; [by eapply finish_classified|exact E].
Qed.

(** The client's last turn, under the secret Mallory has. *)
Lemma spliced_done (m : HandshakeManager) os d key key' th fa kb :
  in_time t1 t2 t3 t4 t5 -> short (String.length sid) -> is32 th ->
  on_finish_ack ids t4 key' th fa kb ->
  pending m !! sa = Some (Client (FinishSent d)) ->
  fs_shared_secret_32b d = key -> fs_server_sig_pk d = sig_public_key_bytes ids ->
  compute_transcript_hash (fs_probe_bytes d) (fs_ack_bytes d) (fs_finish_bytes d) = th ->
  ∃ fa' kb', replaced_finish_ack key sid fa = Ok fa' ∧ serialize fa' = inr kb' ∧
    process_incoming sa kb' idc t5 (m, os)
    = (Ok [], (insert_completed sa
                 (mkSession sid sa (fs_server_node_id d) (sig_public_key_bytes ids) th t5 true)
                 (delete_pending sa m), os)).
Proof.
  intros [(_ & _ & _ & F4) _ _ _ D4] Hsid Hth [Hw Hshape _ Hsg] Hp Hk Hpk Ht.
  destruct (compute_server_mac_ok key th) as (mac & Hmac & Lmac).
  set (fa' := finish_ack_of sid th mac (fa_transcript_signature fa) t4).
  assert (replaced_finish_ack key sid fa = Ok fa') as Hr.
  { unfold replaced_finish_ack. rewrite Hshape. cbn [fa_transcript_hash finish_ack_of]. by rewrite Hmac. }
  destruct (serialize_finish_ack_total fa') as [kb' Hkb].
  { constructor; try done. cbn. rewrite (sign_length _ _ _ _ Hsg). apply short_small. lia. }
  exists fa', kb'. split; [done|]. split; [done|].
  apply wire_out_ok in Hkb as Hw'. apply incoming_finish_ack_run.
  { by eapply (classify_wire_out fa'). }
  apply process_finish_ack_ok. exists fa', d. split_and!; try done.
  - by apply receive_wire_out, header_fresh.
  - constructor; [by rewrite Ht|by rewrite Hk|]. rewrite Hpk. by apply verify_signed.
  - unfold client_session. by rewrite Hpk.
Qed.

(** C23. A man in the middle can splice the transcript.  Mallory, with a KEM key
    pair of his own and nothing secret of either end, inserts an
    acknowledgement with the server's signing key, its node id and his KEM key
    between the probe and the acknowledgement: the server takes it for the end of
    the probe, the client for the beginning of the acknowledgement, and trailing
    bytes are allowed in both.  Every call succeeds; both ends hash the same
    bytes; the client encapsulates to Mallory, who computes its secret, replaces
    the MAC and picks the session id.  The client then holds a session with the
    server's key and id, and the transcript hash of the server's session, though
    its secret is Mallory's and not the server's. *)
Theorem transcript_spliced (mc ms : HandshakeManager)
    (Hs : splice_ok) (Ht : in_time t1 t2 t3 t4 t5) (Hn : names_short sa idc ids) :
  ∃ pb xb ab fb kb kb' key mc1 ms1 mc2 ms2 mc3 sc ss,
    build_probe sa idc t1 (mc, osc) = (Ok pb, mc1) ∧
    process_incoming ca (pb ++ xb) ids t2 (ms, oss) = (Ok ab, ms1) ∧
    process_incoming sa (xb ++ ab) idc t3 mc1 = (Ok fb, mc2) ∧
    process_incoming ca fb ids t4 ms1 = (Ok kb, ms2) ∧
    process_incoming sa kb' idc t5 mc2 = (Ok [], mc3) ∧
    get_session mc3.1 sa = Some sc ∧ get_session ms2.1 ca = Some ss ∧
    (∃ d, pending mc2.1 !! sa = Some (Client (FinishSent d)) ∧ fs_shared_secret_32b d = key) ∧
    spliced pb xb ab fb kb kb' key sc ss.
Proof.
  destruct Hs as [(cn & osc1 & ct & sec & osc2 & key & cj & ctb & Hcn & Henc & Hkey & Hcj & Hcjs & Hctb
      & sec' & key' & Hdec & Hkey') (sn & oss1 & kj & Hsn & Hkj & Hkjs) Hsign (mj & Hmj & Hmjs) Hsid].
  destruct (run_probe sa idc ids t1 t2 t3 t4 t5 mc osc osc1 cn Ht Hn Hcn) as (pb & Hp & E1).
  set (x := inserted_ack (probe_of sa idc cn t1) cn mj (sig_public_key_bytes ids) (node_id ids) t2).
  destruct (serialize_ack_total x) as [xb Hxb].
  { destruct Hp as [Hl _], Ht as [(? & F2 & _) _ _ _ _], Hn. constructor; try done.
    apply can_sig_pk_short. }
  destruct (spliced_ack ms cn pb xb sn oss1 kj) as (ab & E2); [done..|].
  edestruct (spliced_finish (insert_pending sa (Client (ProbeSent (mkProbeSent cn pb t1))) mc))
    as (fb & Hfb & E3); [done|done|apply Hp|by apply wire_out_ok, Hxb|done|apply lookup_insert_eq
    |exact Henc|done..|].
  edestruct (spliced_finish_ack (insert_pending ca (Server (AckSent (mkAckSent cn sn (pb ++ xb) ab t2))) ms))
    as (fa & kb & Hk & E4); [done|done|exact Hfb|exact Hdec|done..|apply lookup_insert_eq|].
  match type of E3 with _ = (_, (?m, _)) =>
    edestruct (spliced_done m osc2) as (fa' & kb' & Hr & Hkb & E5)
  end; [done|exact Hsid| |exact Hk|apply lookup_insert_eq|reflexivity|done|apply transcript_shift|].
  { apply sha256_length. }
  eexists pb, xb, ab, fb, kb, kb', key, _, _, _, _, _, _, _.
  split; [exact E1|]. split; [exact E2|]. split; [exact E3|]. split; [exact E4|]. split; [exact E5|].
  split; [apply lookup_insert_eq|]. split; [apply lookup_insert_eq|].
  split; [eexists; split; [apply lookup_insert_eq|done]|].
  constructor; try done.
  - exists (probe_of sa idc cn t1), mj. split; [|by split].
    apply deserialize_serialize, wire_out_ok, Hp.
  - exists (finish_of idc cj t3). split; [by apply deserialize_serialize, wire_out_ok|].
    unfold intercepted_secret. cbn. rewrite (ct_json_roundtrip _ _ Hcj). cbn.
    rewrite (kem_correct _ _ _ _ _ Henc). cbn. unfold secret_32. by rewrite Hkey.
  - exists fa, fa'. split; [|by split]. apply deserialize_serialize, wire_out_ok, Hk.
Qed.
End Run.
End Splice.
