(* ===== verification/Engine.v ===== *)
(** * The gossip engine

    [witan/src/gossip.rs]: the engine that owns the identity, the sessions, the
    handshake manager, the duplicate cache, the quorum tracker, the statistics
    and the mesh.  A method is [method es], over the engine and the operating
    system; counters are machine integers and wrap, as the release profile
    leaves them.  The theorems are in [EngineThms]. *)

From S2P Require Import Prelude Errors Types Extern F64 Config Dedup Quorum Session Identity Envelope Rotation Handshake.

(** The JSON text of the values the engine reports. *)
Class JsonOut := {
  json_envelope :: ToJson GossipEnvelope;
  json_stats :: ToJson GossipStats;
  json_peers :: ToJson (list PeerInfo);
  json_identity :: ToJson NodeIdentityPublic;
  json_value :: ToJson JsonValue;
}.

Module Engine.

Section Engine.
Context {X : Ext}.

Record GossipEngine : Type := mkEngine {
  config : ResolvedConfig;
  identity : NodeIdentity;
  sessions : Store.SessionStore;
  handshakes : HandshakeManager;
  dedup : Cache.DedupCache;
  quorum : Tracker.QuorumTracker;
  stats : GossipStats;
  mesh_peers : list string;
}.

Abbreviation es := (GossipEngine * Os)%type.

(** ** Field updates *)

Definition set_identity (x : NodeIdentity) (e : GossipEngine) : GossipEngine :=
  mkEngine (config e) x (sessions e) (handshakes e) (dedup e) (quorum e) (stats e) (mesh_peers e).
Definition set_sessions (x : Store.SessionStore) (e : GossipEngine) : GossipEngine :=
  mkEngine (config e) (identity e) x (handshakes e) (dedup e) (quorum e) (stats e) (mesh_peers e).
Definition set_handshakes (x : HandshakeManager) (e : GossipEngine) : GossipEngine :=
  mkEngine (config e) (identity e) (sessions e) x (dedup e) (quorum e) (stats e) (mesh_peers e).
Definition set_dedup (x : Cache.DedupCache) (e : GossipEngine) : GossipEngine :=
  mkEngine (config e) (identity e) (sessions e) (handshakes e) x (quorum e) (stats e) (mesh_peers e).
Definition set_quorum (x : Tracker.QuorumTracker) (e : GossipEngine) : GossipEngine :=
  mkEngine (config e) (identity e) (sessions e) (handshakes e) (dedup e) x (stats e) (mesh_peers e).
Definition set_mesh (x : list string) (e : GossipEngine) : GossipEngine :=
  mkEngine (config e) (identity e) (sessions e) (handshakes e) (dedup e) (quorum e) (stats e) x.
Definition on_stats (f : GossipStats -> GossipStats) (e : GossipEngine) : GossipEngine :=
  mkEngine (config e) (identity e) (sessions e) (handshakes e) (dedup e) (quorum e) (f (stats e))
    (mesh_peers e).

(** The counters: [+= n] of a [u64] or [u32]. *)
Definition add_published (s : GossipStats) : GossipStats :=
  mkStats (wrap 64 (messages_published s + 1)) (messages_received s) (messages_deduplicated s)
    (messages_dropped s) (active_peers s) (mesh_peers_count s) (dedup_cache_size s)
    (handshakes_completed s) (handshakes_failed s).
Definition add_received (s : GossipStats) : GossipStats :=
  mkStats (messages_published s) (wrap 64 (messages_received s + 1)) (messages_deduplicated s)
    (messages_dropped s) (active_peers s) (mesh_peers_count s) (dedup_cache_size s)
    (handshakes_completed s) (handshakes_failed s).
Definition add_deduplicated (s : GossipStats) : GossipStats :=
  mkStats (messages_published s) (messages_received s) (wrap 64 (messages_deduplicated s + 1))
    (messages_dropped s) (active_peers s) (mesh_peers_count s) (dedup_cache_size s)
    (handshakes_completed s) (handshakes_failed s).
Definition add_dropped (s : GossipStats) : GossipStats :=
  mkStats (messages_published s) (messages_received s) (messages_deduplicated s)
    (wrap 64 (messages_dropped s + 1)) (active_peers s) (mesh_peers_count s) (dedup_cache_size s)
    (handshakes_completed s) (handshakes_failed s).
Definition add_completed (s : GossipStats) : GossipStats :=
  mkStats (messages_published s) (messages_received s) (messages_deduplicated s)
    (messages_dropped s) (active_peers s) (mesh_peers_count s) (dedup_cache_size s)
    (wrap 32 (handshakes_completed s + 1)) (handshakes_failed s).
Definition add_failed (n : nat) (s : GossipStats) : GossipStats :=
  mkStats (messages_published s) (messages_received s) (messages_deduplicated s)
    (messages_dropped s) (active_peers s) (mesh_peers_count s) (dedup_cache_size s)
    (handshakes_completed s) (wrap 32 (handshakes_failed s + wrap 32 (Z.of_nat n))).

(** [self.stats.x = n as u32]. *)
Definition set_active_peers (n : nat) (s : GossipStats) : GossipStats :=
  mkStats (messages_published s) (messages_received s) (messages_deduplicated s)
    (messages_dropped s) (wrap 32 (Z.of_nat n)) (mesh_peers_count s) (dedup_cache_size s)
    (handshakes_completed s) (handshakes_failed s).
Definition set_mesh_peers_count (n : nat) (s : GossipStats) : GossipStats :=
  mkStats (messages_published s) (messages_received s) (messages_deduplicated s)
    (messages_dropped s) (active_peers s) (wrap 32 (Z.of_nat n)) (dedup_cache_size s)
    (handshakes_completed s) (handshakes_failed s).
Definition set_dedup_cache_size (n : nat) (s : GossipStats) : GossipStats :=
  mkStats (messages_published s) (messages_received s) (messages_deduplicated s)
    (messages_dropped s) (active_peers s) (mesh_peers_count s) (wrap 32 (Z.of_nat n))
    (handshakes_completed s) (handshakes_failed s).

Definition sync_active (e : GossipEngine) : GossipEngine :=
  on_stats (set_active_peers (Store.count (sessions e))) e.
Definition sync_mesh (e : GossipEngine) : GossipEngine :=
  on_stats (set_mesh_peers_count (length (mesh_peers e))) e.

(** ** Running a method of the handshake manager, or an update of the engine *)

Definition on_handshakes {A} (m : method (HandshakeManager * Os) A) : method es A :=
  zoom (λ s, (handshakes s.1, s.2)) (λ t s, (set_handshakes t.1 s.1, t.2)) m.

Definition update (f : GossipEngine -> GossipEngine) : method es unit :=
  modify (λ s, (f s.1, s.2)).

Definition engine : method es GossipEngine :=
  s ← get; mret s.1.

(** ** Construction *)

Definition new (c : ResolvedConfig) (i : NodeIdentity) : GossipEngine :=
  mkEngine c i Store.new Handshakes.new (Cache.new (dedup_cache_secs c))
    (Tracker.new (quorum_fraction c)) GossipStats_default [].

(** ** Mesh management *)

Definition add_to_mesh (addr : string) (e : GossipEngine) : GossipEngine :=
  if bool_decide (addr ∉ mesh_peers e)
     && (Z.of_nat (length (mesh_peers e)) <? mesh_n_high (config e))%Z
  then set_mesh (mesh_peers e ++ [addr]) e
  else e.

Definition remove_from_mesh (addr : string) (e : GossipEngine) : GossipEngine :=
  set_mesh (filter (λ p, p ≠ addr) (mesh_peers e)) e.

Definition mesh_is_full (e : GossipEngine) : bool :=
  (mesh_n_high (config e) <=? Z.of_nat (length (mesh_peers e)))%Z.

Definition mesh_needs_peers (e : GossipEngine) : bool :=
  (Z.of_nat (length (mesh_peers e)) <? mesh_n_low (config e))%Z.

(** ** Peers *)

Definition connect_peer {W : WireCodecs} (addr : string) (now_ms : Z) : method es bytes :=
  e ← engine;
  match Store.get (sessions e) addr with
  | Some _ => throw (HandshakeError ("already connected to " +:+ addr))
  | None => on_handshakes (Handshakes.build_probe addr (identity e) now_ms)
  end.

Definition complete_handshake (addr : string) (s : SessionRecord) (e : GossipEngine) :
    GossipEngine :=
  let e := set_sessions (Store.insert s (sessions e)) e in
  let e := add_to_mesh addr e in
  let e := on_stats add_completed e in
  let e := sync_active e in
  sync_mesh e.

Definition process_handshake_bytes {W : WireCodecs} (addr : string) (b : bytes) (now_ms : Z) :
    method es (option bytes) :=
  e ← engine;
  match classify_incoming b with
  | KHandshakeProbe =>
      ack_bytes ← on_handshakes (Handshakes.process_probe_build_ack addr b (identity e) now_ms);
      mret (Some ack_bytes)
  | KHandshakeAck =>
      finish_bytes ←
        on_handshakes (Handshakes.process_ack_build_finish addr b (identity e) now_ms);
      mret (Some finish_bytes)
  | KHandshakeFinish =>
      '(finish_ack_bytes, session) ←
        on_handshakes (Handshakes.process_finish_build_finish_ack addr b (identity e) now_ms);
      _ ← update (complete_handshake addr session);
      mret (Some finish_ack_bytes)
  | KHandshakeFinishAck =>
      session ← on_handshakes (Handshakes.process_finish_ack addr b now_ms);
      _ ← update (complete_handshake addr session);
      mret None
  | KGossipEnvelope => throw Handshakes.not_a_handshake
  end.

Definition is_handshake_complete (e : GossipEngine) (addr : string) : bool :=
  bool_decide (is_Some (Store.get (sessions e) addr)).

Definition disconnect_peer (addr : string) : method es unit :=
  e ← engine;
  let '(old, store) := Store.remove addr (sessions e) in
  _ ← update (set_sessions store);
  _ ← lift (ok_or old (PeerNotFound addr));
  _ ← update (remove_from_mesh addr);
  _ ← update (λ e, set_handshakes (Handshakes.remove addr (handshakes e)) e);
  _ ← update sync_active;
  update sync_mesh.

(** ** Messages *)

Definition payload_type_of (v : Z) : res PayloadType :=
  ok_or (from_u8 v) (InvalidInput ("unknown payload_type_id: " +:+ pretty v)).

Definition publish (payload_type : Z) (payload : bytes) (now_ms : Z) : method es bytes :=
  pt ← lift (payload_type_of payload_type);
  e ← engine;
  let size := Z.of_nat (length payload) in
  if (max_message_bytes (config e) <? size)%Z then
    throw (InvalidInput ("payload too large: " +:+ pretty size +:+ " > "
                         +:+ pretty (max_message_bytes (config e))))
  else
    let message_id := compute_message_id pt payload in
    let '(duplicate, cache) := Cache.is_duplicate message_id now_ms (dedup e) in
    _ ← update (set_dedup cache);
    if (duplicate : bool) then
      _ ← update (on_stats add_deduplicated);
      throw (EnvelopeError "duplicate message")
    else
      _ ← update (set_dedup (Cache.insert message_id now_ms cache));
      _ ← lift (build_envelope pt payload (identity e) (default_ttl (config e)) now_ms);
      _ ← update (on_stats add_published);
      mret message_id.

Definition encode_envelope {W : WireCodecs} (payload_type : Z) (payload : bytes) (now_ms : Z) :
    method es bytes :=
  pt ← lift (payload_type_of payload_type);
  e ← engine;
  envelope ← lift (build_envelope pt payload (identity e) (default_ttl (config e)) now_ms);
  lift (Envelope.encode_envelope envelope).

Definition verify_envelope_bytes {W : WireCodecs} (b : bytes) (now_ms : Z) : method es bool :=
  envelope ← lift (decode_envelope b);
  e ← engine;
  match verify_envelope envelope (config e) now_ms with
  | Ok true => _ ← update (on_stats add_received); mret true
  | Ok false => _ ← update (on_stats add_dropped); mret false
  | Err err => _ ← update (on_stats add_dropped); throw err
  | Panic => lift Panic
  end.

(** ** Reports *)

Definition to_json {A} `{!ToJson A} (a : A) : res string :=
  map_err (λ e, SerializationError ("JSON serialize: " +:+ e)) (json_to_string a).

Definition decode_envelope_to_json {W : WireCodecs} {J : JsonOut} (b : bytes) : res string :=
  envelope ← decode_envelope b;
  to_json envelope.

Definition get_stats_json {J : JsonOut} (e : GossipEngine) (now_ms : Z) : res string :=
  to_json (stats e).

Definition get_peers_json {J : JsonOut} (e : GossipEngine) : res string :=
  to_json (Store.active_peers (sessions e)).

Definition get_node_identity_json {J : JsonOut} (e : GossipEngine) : res string :=
  v ← public_view (identity e);
  to_json v.

Definition session_json (s : SessionRecord) : JsonValue :=
  JObject [("session_id", JString (session_id s)); ("peer_addr", JString (peer_addr s));
           ("peer_node_id", JString (peer_node_id s));
           ("established_at_ms", JNumber (established_at_ms s));
           ("is_active", JBool (is_active s))]%string.

Definition get_session_json {J : JsonOut} (e : GossipEngine) (addr : string) : res string :=
  s ← ok_or (Store.get (sessions e) addr) (SessionNotFound addr);
  to_json (session_json s).

(** ** Maintenance *)

(** The peers to graft: connected, not in the mesh, up to [mesh_n]. *)
Definition graft_candidates (e : GossipEngine) : list string :=
  take (Z.to_nat (saturating_sub (mesh_n (config e)) (Z.of_nat (length (mesh_peers e)))))
    (filter (λ a, a ∉ mesh_peers e) (peer_info_addr <$> Store.active_peers (sessions e))).

(** The body of the grafting loop. *)
Definition graft (e : GossipEngine) (addr : string) : GossipEngine :=
  if negb (mesh_is_full e) then set_mesh (mesh_peers e ++ [addr]) e else e.

Definition maintain_mesh (e : GossipEngine) : GossipEngine :=
  if mesh_needs_peers e then fold_left graft (graft_candidates e) e else e.

Definition heartbeat (now_ms : Z) (e : GossipEngine) : GossipEngine :=
  let e := set_dedup (Cache.evict_expired now_ms (dedup e)) e in
  let '(evicted, m) := Handshakes.evict_timed_out now_ms (handshakes e) in
  let e := on_stats (add_failed (length evicted)) (set_handshakes m e) in
  let e := set_quorum (Tracker.prune (Cache.active_ids (dedup e)) (quorum e)) e in
  let e := maintain_mesh e in
  let e := sync_mesh (sync_active e) in
  on_stats (set_dedup_cache_size (Cache.len (dedup e))) e.

(** ** Key rotation *)

Definition rotate_keys (key_epoch : string) : method es string :=
  new_identity ← generate key_epoch;
  _ ← update (set_identity new_identity);
  mret (node_id new_identity).

(** [next.node_id = id]. *)
Definition with_node_id (id : string) (i : NodeIdentity) : NodeIdentity :=
  mkIdentity id (kem_keypair i) (sig_keypair i) (id_key_epoch i).

(** The lineage is borrowed mutably next to the engine. *)
Definition rotate_keys_under_id (next : NodeIdentity) (commitment : option bytes) (now_ms : Z) :
    method (GossipEngine * KeyLineage) KeyRotation :=
  s ← get;
  let '(e, lineage) := s in
  if bool_decide (lin_node_id lineage ≠ node_id (identity e)) then
    throw (IdentityError "lineage does not belong to this node")
  else
    rotation ← zoom snd (λ l s, (s.1, l)) (rotate (identity e) next commitment now_ms);
    _ ← modify (λ s, (set_identity (with_node_id (lin_node_id s.2) next) s.1, s.2));
    mret rotation.

Definition verify_signature (public_key message signature context : bytes) : res bool :=
  verify_external public_key message signature context.
End Engine.

End Engine.
