(* ===== verification/EngineThms.v ===== *)
(** * The engine: its invariant and what its methods promise

    [engine_wf] ties the mesh to the sessions, the sessions to the handshakes
    that produced them and the reported counts to the collections; every method
    keeps it.  Then the outcomes of publishing, receiving, maintenance and
    disconnecting, and the handshake between two engines. *)

From S2P Require Import Prelude Errors Types Extern F64 Config Dedup Quorum Session Identity Envelope Rotation Lineage LineageThms Handshake HandshakeThms Engine.
Import Engine.

Section Runs.
Context {X : Ext} {A : Type}.

Lemma engine_bind (k : GossipEngine -> method (GossipEngine * Os) A) s :
  (engine ≫= k) s = k s.1 s.
Proof. done. Qed.

Lemma update_bind f (k : unit -> method (GossipEngine * Os) A) s :
  (update f ≫= k) s = k tt (f s.1, s.2).
Proof. done. Qed.
End Runs.

Section Invariant.
Context {X : Ext} {W : WireCodecs}.

Abbreviation es := (GossipEngine * Os)%type.

(** The part of the invariant that does not look at the statistics. *)
Record engine_core (e : GossipEngine) : Prop := {
  ec_config : config_wf (config e);
  ec_sessions addr s : Store.sessions (sessions e) !! addr = Some s -> session_wf addr s;
  ec_handshakes : manager_wf (handshakes e);
  ec_mesh_nodup : NoDup (mesh_peers e);
  ec_mesh_connected addr :
    addr ∈ mesh_peers e -> is_Some (Store.sessions (sessions e) !! addr);
  ec_mesh_bound : (Z.of_nat (length (mesh_peers e)) <= mesh_n_high (config e))%Z;
  ec_ttl : (0 <= Cache.ttl_ms (dedup e))%Z;
}.

(** The reported peer counts are those of the collections. *)
Record engine_synced (e : GossipEngine) : Prop := {
  es_active : active_peers (stats e) = wrap 32 (Z.of_nat (Store.count (sessions e)));
  es_mesh : mesh_peers_count (stats e) = wrap 32 (Z.of_nat (length (mesh_peers e)));
}.

Definition engine_wf (e : GossipEngine) : Prop := engine_core e ∧ engine_synced e.

Lemma core_store_wf e : engine_core e -> Store.wf (sessions e).
Proof. intros He addr s Hs. apply (ec_sessions _ He) in Hs as (? & ? & _). done. Qed.

Lemma new_wf c i : config_wf c -> (0 <= mesh_n_high c)%Z -> engine_wf (new c i).
Proof.
  intros Hc Hh. split; [|done]. apply Build_engine_core; cbn; try done.
  - constructor.
  - intros addr Hin. by apply elem_of_nil in Hin.
  - by apply wrap_fits.
Qed.

(** ** Updates *)

Lemma core_on_stats f e : engine_core e -> engine_core (on_stats f e).
Proof. by intros []. Qed.

Lemma wf_on_stats f e :
  (∀ s, active_peers (f s) = active_peers s) ->
  (∀ s, mesh_peers_count (f s) = mesh_peers_count s) ->
  engine_wf e -> engine_wf (on_stats f e).
Proof.
  intros Ha Hm [Hc [H1 H2]]. split; [by apply core_on_stats|].
  split; cbn; [by rewrite Ha|by rewrite Hm].
Qed.

Lemma wf_set_handshakes m e : manager_wf m -> engine_wf e -> engine_wf (set_handshakes m e).
Proof. intros Hm [[] []]. by split. Qed.

Lemma wf_set_identity i e : engine_wf e -> engine_wf (set_identity i e).
Proof. intros [[] []]. by split. Qed.

Lemma wf_set_quorum q e : engine_wf e -> engine_wf (set_quorum q e).
Proof. intros [[] []]. by split. Qed.

Lemma wf_set_dedup d e :
  Cache.ttl_ms d = Cache.ttl_ms (dedup e) -> engine_wf e -> engine_wf (set_dedup d e).
Proof. intros Hd [[] []]. split; [|done]. constructor; try done. cbn. by rewrite Hd. Qed.

(** Synchronizing both counts restores the statistics part. *)
Lemma sync_wf e : engine_core e -> engine_wf (sync_mesh (sync_active e)).
Proof. intros He. split; [by do 2 apply core_on_stats|done]. Qed.

Lemma core_insert_session addr s e :
  session_wf addr s -> engine_core e -> engine_core (set_sessions (Store.insert s (sessions e)) e).
Proof.
  intros Hs []. constructor; try done; cbn.
  - intros a s'. destruct Hs as (Ha & Hs). rewrite Ha, lookup_insert_Some.
    intros [[<- <-]|[_ H]]; [by split|by apply ec_sessions0].
  - intros a Hin. rewrite lookup_insert_is_Some'. right. by apply ec_mesh_connected0.
Qed.

Lemma core_add_to_mesh addr e :
  is_Some (Store.sessions (sessions e) !! addr) -> engine_core e ->
  engine_core (add_to_mesh addr e).
Proof.
  intros Ha He. unfold add_to_mesh. case_bool_decide as Hn; [|done]. cbn [andb].
  destruct (Z.ltb_spec (Z.of_nat (length (mesh_peers e))) (mesh_n_high (config e))); [|done].
  destruct He. constructor; try done; cbn.
  - apply NoDup_app. split_and!; [done| |apply NoDup_singleton].
    intros a Hin ->%list_elem_of_singleton. done.
  - intros a [Hin| ->%list_elem_of_singleton]%elem_of_app; [by apply ec_mesh_connected0|done].
  - rewrite length_app. cbn. lia.
Qed.

Lemma complete_wf addr s e :
  session_wf addr s -> engine_wf e -> engine_wf (complete_handshake addr s e).
Proof.
  intros Hs [He _]. apply sync_wf, core_on_stats, core_add_to_mesh.
  - cbn. destruct Hs as (-> & _). rewrite lookup_insert_eq. eauto.
  - by apply (core_insert_session addr).
Qed.

Lemma sessions_complete addr s e :
  sessions (complete_handshake addr s e) = Store.insert s (sessions e).
Proof. unfold complete_handshake, add_to_mesh. cbn. by destruct (_ && _). Qed.

Lemma handshakes_complete addr s e : handshakes (complete_handshake addr s e) = handshakes e.
Proof. unfold complete_handshake, add_to_mesh. cbn. by destruct (_ && _). Qed.

Lemma core_disconnect addr e :
  engine_core e ->
  engine_core (remove_from_mesh addr (set_sessions (Store.remove addr (sessions e)).2 e)).
Proof.
  intros []. constructor; try done; cbn.
  - intros a s. rewrite lookup_delete_Some. intros [_ H]. by apply ec_sessions0.
  - by apply NoDup_filter.
  - intros a [Hne Hin]%list_elem_of_filter. rewrite lookup_delete_ne by done.
    by apply ec_mesh_connected0.
  - pose proof (length_filter (λ p, p ≠ addr) (mesh_peers e)). lia.
Qed.

(** ** Methods of the handshake manager inside the engine *)

Lemma on_handshakes_run {A} (m : method (HandshakeManager * Os) A) (e : GossipEngine) os r m' os' :
  m (handshakes e, os) = (r, (m', os')) ->
  on_handshakes m (e, os) = (r, (set_handshakes m' e, os')).
Proof. unfold on_handshakes, zoom. cbn. by intros ->. Qed.

Lemma on_handshakes_wf {A} (m : method (HandshakeManager * Os) A) (s : es) :
  (∀ t : HandshakeManager * Os, manager_wf t.1 -> manager_wf (m t).2.1) ->
  engine_wf s.1 -> engine_wf (on_handshakes m s).2.1.
Proof.
  intros Hm He. unfold on_handshakes, zoom.
  pose proof (Hm (handshakes s.1, s.2) (ec_handshakes _ (proj1 He))) as Hw.
  destruct (m (handshakes s.1, s.2)) as [r t]. cbn in *. by apply wf_set_handshakes.
Qed.

(** Running [m] and then updating the engine with its result. *)
Lemma on_handshakes_complete {A B} (m : method (HandshakeManager * Os) A)
    (f : A -> GossipEngine -> GossipEngine) (b : A -> B) (s : es) :
  (∀ t : HandshakeManager * Os, manager_wf t.1 -> manager_wf (m t).2.1) ->
  (∀ t a t' e, manager_wf t.1 -> m t = (Ok a, t') -> engine_wf e -> engine_wf (f a e)) ->
  engine_wf s.1 ->
  engine_wf ((on_handshakes m ≫= λ a, update (f a) ≫= λ _, mret (b a)) s).2.1.
Proof.
  intros Hm Hf He. pose proof (on_handshakes_wf m s Hm He) as Hw.
  pose proof (ec_handshakes _ (proj1 He)) as Hh.
  unfold on_handshakes, zoom, mbind, st_bind in *.
  destruct (m (handshakes s.1, s.2)) as [[a|e|] t] eqn:E; cbn in *; [|done..].
  by apply (Hf (handshakes s.1, s.2) a t).
Qed.

Context {L : ExtLaws} {WL : WireLaws}.

Lemma connect_peer_wf addr now (s : es) :
  engine_wf s.1 -> engine_wf (connect_peer addr now s).2.1.
Proof.
  intros He. unfold connect_peer, engine. unfold_bind. case_match; [done|].
  apply on_handshakes_wf; [|done]. intros t. apply build_probe_wf.
Qed.

Lemma process_handshake_bytes_wf addr b now (s : es) :
  engine_wf s.1 -> engine_wf (process_handshake_bytes addr b now s).2.1.
Proof.
  intros He. unfold process_handshake_bytes. rewrite engine_bind.
  destruct (classify_incoming b); [| | | |done].
  - pose proof (on_handshakes_wf (Handshakes.process_probe_build_ack addr b (identity s.1) now) s
      (λ t, process_probe_wf _ _ _ _ t) He) as Hw.
    unfold mbind, st_bind. by case_match; case_match.
  - pose proof (on_handshakes_wf (Handshakes.process_ack_build_finish addr b (identity s.1) now) s
      (λ t, process_ack_wf _ _ _ _ t) He) as Hw.
    unfold mbind, st_bind. by case_match; case_match.
  - pose proof (on_handshakes_complete
      (Handshakes.process_finish_build_finish_ack addr b (identity s.1) now)
      (λ a, complete_handshake addr a.2) (λ a, Some a.1) s
      (λ t, process_finish_wf _ _ _ _ t)) as Hw.
    unfold mbind, st_bind in *.
    destruct (on_handshakes _ s) as [[[fb se]|e|] s'] eqn:E; cbn in *; apply Hw; try done.
    all: intros t [fb' se'] t' e' Ht Hr He'; cbn; apply complete_wf; [|done].
    all: by eapply finish_session_wf.
  - apply (on_handshakes_complete (Handshakes.process_finish_ack addr b now)
      (complete_handshake addr) (λ _, None)); [apply process_finish_ack_wf| |done].
    intros t se t' e Ht Hr He'. apply complete_wf; [|done]. by eapply finish_ack_session_wf.
Qed.

Lemma disconnect_peer_wf addr (s : es) :
  engine_wf s.1 -> engine_wf (disconnect_peer addr s).2.1.
Proof.
  intros He. unfold disconnect_peer, engine, update. unfold_bind. cbn.
  destruct (Store.sessions (sessions s.1) !! addr) as [old|] eqn:E; cbn.
  - pose proof (core_disconnect addr s.1 (proj1 He)) as Hc.
    apply sync_wf. destruct Hc. constructor; try done. cbn. by apply manager_wf_remove.
  - destruct He as [[] []]. unfold set_sessions. rewrite delete_id by done.
    by destruct s as [[? ? [] ? ? ? ? ?] ?].
Qed.
End Invariant.

(** ** Maintenance *)

Section Maintenance.
Context {X : Ext} {W : WireCodecs} {L : ExtLaws}.

Lemma fold_graft l e :
  (Z.of_nat (length (mesh_peers e) + length l) <= mesh_n_high (config e))%Z ->
  fold_left graft l e = set_mesh (mesh_peers e ++ l) e.
Proof.
  revert e. induction l as [|a l IH]; intros e Hl; cbn [fold_left].
  - rewrite app_nil_r. by destruct e.
  - cbn [length] in Hl.
    assert (graft e a = set_mesh (mesh_peers e ++ [a]) e) as ->.
    { unfold graft, mesh_is_full. by rewrite (proj2 (Z.leb_gt _ _)) by lia. }
    rewrite IH by (cbn; rewrite length_app; cbn; lia). cbn. by rewrite <- (assoc_L (++)).
Qed.

(** Removing a duplicate-free part leaves the rest. *)
Lemma length_filter_out (l m : list string) :
  NoDup l -> NoDup m -> m ⊆ l -> (length (filter (λ a, a ∉ m) l) + length m = length l)%nat.
Proof.
  intros Hl Hm Hs. rewrite <- length_app. apply Permutation_length.
  apply NoDup_Permutation; [|done|].
  - apply NoDup_app. split_and!; [by apply NoDup_filter| |done].
    intros a [Hn _]%list_elem_of_filter. done.
  - intros a. rewrite elem_of_app, list_elem_of_filter.
    destruct (decide (a ∈ m)); [|tauto]. split; [intros _; by apply Hs|tauto].
Qed.

Section Core.
Context (e : GossipEngine) (He : engine_core e).
Let active := peer_info_addr <$> Store.active_peers (sessions e).

Lemma active_NoDup : NoDup active.
Proof. by apply Store.active_addrs_NoDup, core_store_wf. Qed.

Lemma elem_of_active a : a ∈ active <-> is_Some (Store.sessions (sessions e) !! a).
Proof. by apply Store.elem_of_active_addrs, core_store_wf. Qed.

Lemma mesh_sub_active : mesh_peers e ⊆ active.
Proof. intros a Ha. by apply elem_of_active, (ec_mesh_connected _ He). Qed.

Lemma length_candidates :
  Z.of_nat (length (graft_candidates e)) =
  Z.min (Z.max 0 (mesh_n (config e) - Z.of_nat (length (mesh_peers e))))
        (Z.of_nat (Store.count (sessions e)) - Z.of_nat (length (mesh_peers e))).
Proof.
  unfold graft_candidates. rewrite length_take. fold active.
  pose proof (length_filter_out active (mesh_peers e) active_NoDup (ec_mesh_nodup _ He)
    mesh_sub_active) as Hl.
  pose proof (Store.length_active_addrs (sessions e) (core_store_wf _ He)) as Hc.
  fold active in Hc. unfold saturating_sub. lia.
Qed.

Lemma maintain_mesh_run :
  maintain_mesh e =
    if mesh_needs_peers e then set_mesh (mesh_peers e ++ graft_candidates e) e else e.
Proof.
  unfold maintain_mesh. destruct (mesh_needs_peers e) eqn:En; [|done].
  apply fold_graft. unfold mesh_needs_peers in En. apply Z.ltb_lt in En.
  pose proof length_candidates. destruct (ec_config _ He). lia.
Qed.

Lemma candidates_elem a :
  a ∈ graft_candidates e -> (a ∉ mesh_peers e) ∧ is_Some (Store.sessions (sessions e) !! a).
Proof.
  intros (i & Hi%list_elem_of_lookup_2 & _)%elem_of_take.
  apply list_elem_of_filter in Hi as [Hn Ha].
  by rewrite <- elem_of_active.
Qed.

Lemma candidates_NoDup : NoDup (graft_candidates e).
Proof.
  unfold graft_candidates. fold active. set (n := Z.to_nat _).
  pose proof (NoDup_filter (λ a, a ∉ mesh_peers e) _ active_NoDup) as Hd.
  rewrite <- (take_drop n) in Hd. by apply NoDup_app in Hd as [? _].
Qed.

Lemma maintain_core : engine_core (maintain_mesh e).
Proof.
  rewrite maintain_mesh_run. destruct (mesh_needs_peers e) eqn:En; [|done].
  pose proof length_candidates as Hl. pose proof candidates_elem as Hc.
  pose proof candidates_NoDup as Hd.
  unfold mesh_needs_peers in En. apply Z.ltb_lt in En.
  destruct He as [Hconf]. constructor; try done; cbn.
  - apply NoDup_app. split_and!; [done| |done].
    intros a Ha Hin. by apply Hc in Hin as [? _].
  - intros a [Hin|Hin]%elem_of_app; [by auto|by apply Hc in Hin as [_ ?]].
  - rewrite length_app. destruct Hconf. lia.
Qed.
End Core.

(** The engine just before step 4 of the heartbeat. *)
Definition swept (now : Z) (e : GossipEngine) : GossipEngine :=
  let e := set_dedup (Cache.evict_expired now (dedup e)) e in
  let '(evicted, m) := Handshakes.evict_timed_out now (handshakes e) in
  let e := on_stats (add_failed (length evicted)) (set_handshakes m e) in
  set_quorum (Tracker.prune (Cache.active_ids (dedup e)) (quorum e)) e.

Lemma heartbeat_swept now e :
  heartbeat now e =
  (let e := maintain_mesh (swept now e) in
   on_stats (set_dedup_cache_size (Cache.len (dedup e))) (sync_mesh (sync_active e))).
Proof. done. Qed.

Lemma swept_core now e : engine_core e -> engine_core (swept now e).
Proof.
  intros []. constructor; try done. cbn. by apply (wf_evict now).
Qed.

Lemma heartbeat_wf now e : engine_wf e -> engine_wf (heartbeat now e).
Proof.
  intros [He _]. rewrite heartbeat_swept. apply wf_on_stats; [done..|].
  apply sync_wf, maintain_core. by apply swept_core.
Qed.
End Maintenance.

(** ** Messages *)

Section Messages.
Context {X : Ext}.

(** The engine after the lazy eviction a publish begins with. *)
Definition evicted (now : Z) (e : GossipEngine) : GossipEngine :=
  set_dedup (Cache.evict_expired now (dedup e)) e.

Definition seen (id : bytes) (now : Z) (e : GossipEngine) : Prop :=
  ∃ ts, Cache.entries (dedup e) !! id = Some ts ∧ Cache.alive (Cache.ttl_ms (dedup e)) now ts.

(** The engine that remembers [id]. *)
Definition remembering (id : bytes) (now : Z) (e : GossipEngine) : GossipEngine :=
  set_dedup (Cache.insert id now (Cache.evict_expired now (dedup e))) e.

Lemma payload_type_ok v t : payload_type_of v = Ok t <-> from_u8 v = Some t.
Proof. unfold payload_type_of. destruct (from_u8 v); cbn; naive_solver. Qed.

(** The four outcomes of [publish], the first refusal that applies deciding. *)
Inductive publish_outcome (v : Z) (payload : bytes) (now : Z) (s : GossipEngine * Os) :
    res bytes * (GossipEngine * Os) -> Prop :=
  | pub_type : from_u8 v = None ->
      publish_outcome v payload now s
        (Err (InvalidInput ("unknown payload_type_id: " +:+ pretty v)), s)
  | pub_size t msg : from_u8 v = Some t ->
      (max_message_bytes (config s.1) < Z.of_nat (length payload))%Z ->
      publish_outcome v payload now s (Err (InvalidInput msg), s)
  | pub_duplicate t : from_u8 v = Some t ->
      (Z.of_nat (length payload) <= max_message_bytes (config s.1))%Z ->
      seen (compute_message_id t payload) now s.1 ->
      publish_outcome v payload now s
        (Err (EnvelopeError "duplicate message"),
         (on_stats add_deduplicated (evicted now s.1), s.2))
  | pub_unsigned t err : from_u8 v = Some t ->
      (Z.of_nat (length payload) <= max_message_bytes (config s.1))%Z ->
      ¬ seen (compute_message_id t payload) now s.1 ->
      build_envelope t payload (identity s.1) (default_ttl (config s.1)) now = Err err ->
      publish_outcome v payload now s
        (Err err, (remembering (compute_message_id t payload) now s.1, s.2))
  | pub_ok t env : from_u8 v = Some t ->
      (Z.of_nat (length payload) <= max_message_bytes (config s.1))%Z ->
      ¬ seen (compute_message_id t payload) now s.1 ->
      build_envelope t payload (identity s.1) (default_ttl (config s.1)) now = Ok env ->
      publish_outcome v payload now s
        (Ok (compute_message_id t payload),
         (on_stats add_published (remembering (compute_message_id t payload) now s.1), s.2)).

Lemma build_envelope_no_panic t p i ttl now : build_envelope t p i ttl now ≠ Panic.
Proof. unfold build_envelope. apply bind_no_panic; [apply sign_no_panic|done]. Qed.

Lemma publish_cases v payload now (s : GossipEngine * Os) :
  publish_outcome v payload now s (publish v payload now s).
Proof.
  unfold publish, payload_type_of. rewrite lift_bind.
  destruct (from_u8 v) as [t|] eqn:Et; [|by constructor]. cbn [ok_or].
  rewrite engine_bind. cbv zeta. destruct (Z.ltb_spec (max_message_bytes (config s.1))
    (Z.of_nat (length payload))); [by eapply pub_size|].
  destruct (Cache.is_duplicate _ now (dedup s.1)) as [dup cache] eqn:Ed.
  pose proof (Cache.is_duplicate_true (compute_message_id t payload) now (dedup s.1)) as Hdup.
  fold (seen (compute_message_id t payload) now s.1) in Hdup. rewrite Ed in Hdup. cbn in Hdup.
  injection Ed as _ <-. rewrite update_bind. destruct dup.
  - refine (pub_duplicate v payload now s t Et _ _); [done|by apply Hdup].
  - assert (¬ seen (compute_message_id t payload) now s.1) as Hs by (intros ?%Hdup; done).
    rewrite update_bind, lift_bind. cbn [fst snd].
    destruct (build_envelope t payload _ _ now) as [env|err|] eqn:Eb.
    + exact (pub_ok v payload now s t env Et ltac:(done) Hs Eb).
    + exact (pub_unsigned v payload now s t err Et ltac:(done) Hs Eb).
    + by apply build_envelope_no_panic in Eb.
Qed.

Lemma seen_remembering id t1 t2 e :
  (saturating_sub t2 t1 <= Cache.ttl_ms (dedup e))%Z -> seen id t2 (remembering id t1 e).
Proof. intros Ht. exists t1. cbn. by rewrite lookup_insert_eq. Qed.

(** One run of [verify_envelope_bytes]. *)
Lemma verify_run {W : WireCodecs} b now (s : GossipEngine * Os) :
  verify_envelope_bytes b now s =
  match decode_envelope b with
  | Ok env =>
      match verify_envelope env (config s.1) now with
      | Ok v => (Ok v, (on_stats (if v then add_received else add_dropped) s.1, s.2))
      | Err err => (Err err, (on_stats add_dropped s.1, s.2))
      | Panic => (Panic, s)
      end
  | Err err => (Err err, s)
  | Panic => (Panic, s)
  end.
Proof.
  unfold verify_envelope_bytes. rewrite lift_bind.
  destruct (decode_envelope b) as [env|e|]; try done. rewrite engine_bind.
  by destruct (verify_envelope env (config s.1) now) as [[]|e|].
Qed.
End Messages.

Section MessagesWf.
Context {X : Ext} {W : WireCodecs}.

Lemma publish_wf v payload now (s : GossipEngine * Os) :
  engine_wf s.1 -> engine_wf (publish v payload now s).2.1.
Proof.
  intros He. destruct (publish_cases v payload now s); cbn; try done.
  - apply wf_on_stats; [done..|]. by apply wf_set_dedup.
  - by apply wf_set_dedup.
  - apply wf_on_stats; [done..|]. by apply wf_set_dedup.
Qed.

Lemma verify_envelope_bytes_wf b now (s : GossipEngine * Os) :
  engine_wf s.1 -> engine_wf (verify_envelope_bytes b now s).2.1.
Proof.
  intros He. rewrite verify_run. repeat case_match; try done; apply wf_on_stats;
    try done; by destruct b.
Qed.

Lemma rotate_keys_run epoch (s : GossipEngine * Os) :
  rotate_keys epoch s =
  match generate epoch s with
  | (Ok i, s') => (Ok (node_id i), (set_identity i s'.1, s'.2))
  | (Err e, s') => (Err e, s')
  | (Panic, s') => (Panic, s')
  end.
Proof. unfold rotate_keys. unfold_bind. by destruct (generate epoch s) as [[] ?]. Qed.
End MessagesWf.

(** ** Disconnecting, and rotating under the id *)

Section Peers.
Context {X : Ext} {W : WireCodecs}.

Lemma disconnect_run addr (s : GossipEngine * Os) :
  disconnect_peer addr s =
  match Store.sessions (sessions s.1) !! addr with
  | Some _ =>
      (Ok tt, (sync_mesh (sync_active
        (set_handshakes (Handshakes.remove addr (handshakes s.1))
          (remove_from_mesh addr (set_sessions (Store.remove addr (sessions s.1)).2 s.1)))), s.2))
  | None => (Err (PeerNotFound addr), s)
  end.
Proof.
  unfold disconnect_peer. rewrite engine_bind. unfold Store.remove at 1. cbv beta iota zeta.
  rewrite update_bind, lift_bind.
  destruct (Store.sessions (sessions s.1) !! addr) as [old|] eqn:E; cbn [ok_or].
  - done.
  - cbn. unfold set_sessions. rewrite delete_id by done. by destruct s as [[? ? [] ? ? ? ? ?] ?].
Qed.

Lemma rotate_under_id_run next c now e l :
  valid l -> has_room l ->
  (∃ r l', rotate_keys_under_id next c now (e, l) =
     (Ok r, (set_identity (with_node_id (lin_node_id l) next) e, l')) ∧
     lin_node_id l = node_id (identity e) ∧
     sig_public_key_bytes (identity e) = current_sig_public_key l ∧ moved l next c r l') ∨
  (∃ err, rotate_keys_under_id next c now (e, l) = (Err err, (e, l))).
Proof.
  intros Hv Hr. unfold rotate_keys_under_id. rewrite !get_bind.
  case_bool_decide as Hn; [by eauto|].
  unfold mbind, st_bind, zoom. cbn [fst snd].
  destruct (rotate_cases (identity e) next c now l Hv Hr) as [(r & l' & E & Hm & Hk)|(err & E)];
    rewrite E.
  - left. exists r, l'. split_and!; try done. unfold modify. cbn. by rewrite (mv_node_id _ _ _ _ _ Hm).
  - right. by exists err.
Qed.
End Peers.

(** ** The properties *)

(** ** The dispatched messages of a handshake

    A handler of the manager that succeeds, as the engine runs it. *)

Section Dispatched.
Context {X : Ext} {W : WireCodecs}.
Context (addr : string) (e : GossipEngine) (os os' : Os) (b out : bytes) (now : Z).
Context (m : HandshakeManager).

Lemma connect_run :
  Store.get (sessions e) addr = None ->
  Handshakes.build_probe addr (identity e) now (handshakes e, os) = (Ok out, (m, os')) ->
  connect_peer addr now (e, os) = (Ok out, (set_handshakes m e, os')).
Proof.
  intros Hn H. unfold connect_peer. rewrite engine_bind. cbn [fst]. rewrite Hn.
  by apply on_handshakes_run.
Qed.

Lemma probe_run :
  classify_incoming b = KHandshakeProbe ->
  Handshakes.process_probe_build_ack addr b (identity e) now (handshakes e, os)
    = (Ok out, (m, os')) ->
  process_handshake_bytes addr b now (e, os) = (Ok (Some out), (set_handshakes m e, os')).
Proof.
  intros Hc H. unfold process_handshake_bytes. rewrite engine_bind, Hc.
  by rewrite (st_bind_run _ _ _ _ _ (on_handshakes_run _ _ _ _ _ _ H)).
Qed.

Lemma ack_run :
  classify_incoming b = KHandshakeAck ->
  Handshakes.process_ack_build_finish addr b (identity e) now (handshakes e, os)
    = (Ok out, (m, os')) ->
  process_handshake_bytes addr b now (e, os) = (Ok (Some out), (set_handshakes m e, os')).
Proof.
  intros Hc H. unfold process_handshake_bytes. rewrite engine_bind, Hc.
  by rewrite (st_bind_run _ _ _ _ _ (on_handshakes_run _ _ _ _ _ _ H)).
Qed.

Lemma finish_run se :
  classify_incoming b = KHandshakeFinish ->
  Handshakes.process_finish_build_finish_ack addr b (identity e) now (handshakes e, os)
    = (Ok (out, se), (m, os')) ->
  process_handshake_bytes addr b now (e, os)
    = (Ok (Some out), (complete_handshake addr se (set_handshakes m e), os')).
Proof.
  intros Hc H. unfold process_handshake_bytes. rewrite engine_bind, Hc.
  by rewrite (st_bind_run _ _ _ _ _ (on_handshakes_run _ _ _ _ _ _ H)).
Qed.

Lemma finish_ack_run se :
  classify_incoming b = KHandshakeFinishAck ->
  Handshakes.process_finish_ack addr b now (handshakes e, os) = (Ok se, (m, os')) ->
  process_handshake_bytes addr b now (e, os)
    = (Ok None, (complete_handshake addr se (set_handshakes m e), os')).
Proof.
  intros Hc H. unfold process_handshake_bytes. rewrite engine_bind, Hc.
  by rewrite (st_bind_run _ _ _ _ _ (on_handshakes_run _ _ _ _ _ _ H)).
Qed.
End Dispatched.

Section Theorems.
Context {X : Ext} {W : WireCodecs}.

Abbreviation es := (GossipEngine * Os)%type.

(** [publish] has exactly five outcomes, and the first refusal that applies
    decides: unknown payload type or oversized payload (nothing changes), a
    message id seen at most the TTL ago (counted), a failure to sign (the id
    is remembered although nothing was published), or success, which returns
    the SHA-256 id, remembers it and counts the message. *)
Theorem publish_outcomes (v : Z) (payload : bytes) (now_ms : Z) (s : es) :
  publish_outcome v payload now_ms s (publish v payload now_ms s).
Proof. apply publish_cases. Qed.

(** A publish that got as far as signing remembers the id. *)
Lemma publish_remembers v t payload now (s : es) :
  from_u8 v = Some t ->
  (∃ id, (publish v payload now s).1 = Ok id) ∨
  (∃ err, build_envelope t payload (identity s.1) (default_ttl (config s.1)) now = Err err ∧
     (Z.of_nat (length payload) <= max_message_bytes (config s.1))%Z ∧
     ¬ seen (compute_message_id t payload) now s.1) ->
  ∃ f, (publish v payload now s).2
       = (on_stats f (remembering (compute_message_id t payload) now s.1), s.2) ∧
    (Z.of_nat (length payload) <= max_message_bytes (config s.1))%Z.
Proof.
  intros Ht Hr. destruct Hr as [[id Hid]|(err & Hb & Hsz & Hns)];
    destruct (publish_cases v payload now s); simplify_eq/=; try (by exists add_published);
    try lia; try done.
  exists (λ x, x). split; [|done]. by destruct s as [[] ?].
Qed.

(** A publish of a message whose id is alive. *)
Lemma publish_seen v t payload now (s : es) :
  from_u8 v = Some t -> (Z.of_nat (length payload) <= max_message_bytes (config s.1))%Z ->
  seen (compute_message_id t payload) now s.1 ->
  publish v payload now s
  = (Err (EnvelopeError "duplicate message"), (on_stats add_deduplicated (evicted now s.1), s.2)).
Proof.
  intros Ht Hsz Hs. by destruct (publish_cases v payload now s); simplify_eq/=; try lia.
Qed.

(** C33. Receiving does not deduplicate: the verdict on an envelope depends on
    its bytes, the configuration and the clock alone, so an envelope that was
    accepted is accepted again; the duplicate cache is never consulted or
    updated, and a verdict changes one counter and nothing else.  Bytes that
    do not decode are not counted at all. *)
Theorem receive_keeps_no_memory (b : bytes) (now_ms : Z) (s s' : es)
    (Hc : config s'.1 = config s.1) :
  (verify_envelope_bytes b now_ms s').1 = (verify_envelope_bytes b now_ms s).1 ∧
  ((∃ env, decode_envelope b = Ok env ∧
      verify_envelope_bytes b now_ms s =
        (verify_envelope env (config s.1) now_ms,
         (on_stats (if is_ok (verify_envelope env (config s.1) now_ms)
                    then add_received else add_dropped) s.1, s.2))) ∨
   ∃ e, decode_envelope b = Err e ∧ verify_envelope_bytes b now_ms s = (Err e, s)).
Proof.
  rewrite !verify_run, Hc. split.
  - by destruct (decode_envelope b) as [env|e|]; [destruct (verify_envelope _ _ _)|..].
  - destruct (decode_envelope b) as [env|e|] eqn:Ed.
    + left. exists env. split; [done|].
      pose proof (verify_envelope_no_panic env (config s.1) now_ms) as Hnp.
      pose proof (verify_envelope_not_false env (config s.1) now_ms) as Hnf.
      by destruct (verify_envelope env (config s.1) now_ms) as [[]|e|].
    + right. by exists e.
    + by apply map_err_no_panic in Ed.
Qed.

(** Disconnecting succeeds exactly for a peer with a session; it then
    removes the session, the mesh membership and any handshake state of that
    peer, touches no other peer, and reports the new counts.  For an unknown
    peer it is an error that changes nothing. *)
Theorem disconnect_exact (addr : string) (s : es) :
  match Store.get (sessions s.1) addr with
  | None => disconnect_peer addr s = (Err (PeerNotFound addr), s)
  | Some _ => ∃ e', disconnect_peer addr s = (Ok tt, (e', s.2)) ∧
      (∀ a, Store.get (sessions e') a =
         if decide (a = addr) then None else Store.get (sessions s.1) a) ∧
      (∀ a, a ∈ mesh_peers e' <-> a ≠ addr ∧ a ∈ mesh_peers s.1) ∧
      pending (handshakes e') = delete addr (pending (handshakes s.1)) ∧
      completed (handshakes e') = delete addr (completed (handshakes s.1)) ∧
      engine_synced e'
  end.
Proof.
  rewrite disconnect_run. unfold Store.get.
  destruct (Store.sessions (sessions s.1) !! addr) as [old|]; [|done].
  eexists. split_and!; [done| | |done|done|done].
  - intros a. cbn. case_decide as Ha; [subst; apply lookup_delete_eq|by apply lookup_delete_ne].
  - intros a. cbn. by rewrite list_elem_of_filter.
Qed.

Context {L : ExtLaws}.

(** C13. The heartbeat repairs the mesh.  On a well-formed engine it keeps every
    mesh peer; a mesh at or above its low watermark is left alone, and one
    below is filled with distinct connected peers up to [mesh_n] or until no
    connected peer is left out, never past the high watermark.  It also drops
    the expired message ids, their acknowledgements and the timed-out
    handshakes, and no session. *)
Theorem heartbeat_repairs (now_ms : Z) (e : GossipEngine) (He : engine_wf e) :
  let e' := heartbeat now_ms e in
  engine_wf e' ∧ sessions e' = sessions e ∧
  (∃ grafted, mesh_peers e' = mesh_peers e ++ grafted ∧
     ((mesh_n_low (config e) <= Z.of_nat (length (mesh_peers e)))%Z -> grafted = []) ∧
     ((Z.of_nat (length (mesh_peers e)) < mesh_n_low (config e))%Z ->
      Z.of_nat (length (mesh_peers e')) =
        Z.min (mesh_n (config e)) (Z.of_nat (Store.count (sessions e))))) ∧
  (∀ id, is_Some (Tracker.acks (quorum e') !! id) ->
     is_Some (Cache.entries (dedup e') !! id)) ∧
  dedup e' = Cache.evict_expired now_ms (dedup e) ∧
  handshakes e' = (Handshakes.evict_timed_out now_ms (handshakes e)).2.
Proof.
  intros e'. split; [by apply heartbeat_wf|]. unfold e'. clear e'.
  pose proof (swept_core now_ms e (proj1 He)) as Hs. rewrite heartbeat_swept.
  pose proof (maintain_mesh_run _ Hs) as Hrun. pose proof (length_candidates _ Hs) as Hlen.
  assert (config (swept now_ms e) = config e ∧ sessions (swept now_ms e) = sessions e ∧
    mesh_peers (swept now_ms e) = mesh_peers e) as (Ec & Es & Em) by done.
  pose proof (mesh_sub_active _ Hs) as Hsub. pose proof (active_NoDup _ Hs) as Hnd.
  assert (length (mesh_peers e) <= Store.count (sessions e))%nat as Hcount.
  { rewrite <- Es, <- (Store.length_active_addrs _ (core_store_wf _ Hs)).
    apply submseteq_length, NoDup_submseteq; [apply (ec_mesh_nodup _ (proj1 He))|done]. }
  unfold mesh_needs_peers in Hrun. rewrite Ec, Es, Em in *.
  destruct (ec_config _ (proj1 He)) as [Hlow _ _ _ _].
  rewrite Hrun. destruct (Z.ltb_spec (Z.of_nat (length (mesh_peers e))) (mesh_n_low (config e))).
  - split_and!; try done.
    + exists (graft_candidates (swept now_ms e)). split_and!; [done|intros; exfalso; lia|].
      intros _. change (Z.of_nat (length (mesh_peers e ++ graft_candidates (swept now_ms e))) =
        Z.min (mesh_n (config e)) (Z.of_nat (Store.count (sessions e)))).
      rewrite length_app. lia.
    + intros id. cbn. intros [x [_ Hin]%map_lookup_filter_Some].
      by apply Cache.elem_of_active_ids in Hin.
  - split_and!; try done.
    + exists []. split_and!; [|done|intros; exfalso; lia]. cbn. by rewrite app_nil_r.
    + intros id. cbn. intros [x [_ Hin]%map_lookup_filter_Some].
      by apply Cache.elem_of_active_ids in Hin.
Qed.

Context {WL : WireLaws} {WT : WireTotal}.

(** Two engines connect.  From any two engines of which the client has no
    session with the server, when the foreign calls succeed and the messages
    arrive in time, the probe and the four dispatched messages succeed, the
    last one needs no answer, both ends hold mirrored sessions, both count
    the handshake, and each takes the other into its mesh if there is room. *)
Theorem engines_connect (ca sa : string) (osc oss : Os) (t1 t2 t3 t4 t5 : Z)
    (ec es : GossipEngine)
    (Hnew : Store.get (sessions ec) sa = None)
    (Hf : foreign_ok (identity es) osc oss) (Ht : in_time t1 t2 t3 t4 t5)
    (Hn : names_short sa (identity ec) (identity es)) :
  ∃ pb ab fb kb c1 s1 c2 s2 c3 sc ss,
    connect_peer sa t1 (ec, osc) = (Ok pb, c1) ∧
    process_handshake_bytes ca pb t2 (es, oss) = (Ok (Some ab), s1) ∧
    process_handshake_bytes sa ab t3 c1 = (Ok (Some fb), c2) ∧
    process_handshake_bytes ca fb t4 s1 = (Ok (Some kb), s2) ∧
    process_handshake_bytes sa kb t5 c2 = (Ok None, c3) ∧
    c3.1 = complete_handshake sa sc
             (set_handshakes (Handshakes.delete_pending sa (handshakes ec)) ec) ∧
    s2.1 = complete_handshake ca ss
             (set_handshakes (Handshakes.delete_pending ca (handshakes es)) es) ∧
    Store.get (sessions c3.1) sa = Some sc ∧ Store.get (sessions s2.1) ca = Some ss ∧
    mirror ca sa (identity ec) (identity es) t4 t5 sc ss.
Proof.
  destruct (handshake_run ca sa (identity ec) (identity es) osc oss t1 t2 t3 t4 t5
    (handshakes ec) (handshakes es) Hf Ht Hn)
    as (pb & ab & fb & kb & mc1 & osc1 & mc2 & osc2 & ms1 & oss1 & sc & ss & H1 & H2 & H3 & H4 & H5
        & Hm & C1 & C2 & C3 & C4).
  exists pb, ab, fb, kb, (set_handshakes mc1 ec, osc1), (set_handshakes ms1 es, oss1).
  exists (set_handshakes mc2 ec, osc2).
  eexists (complete_handshake ca ss _, oss1), (complete_handshake sa sc _, osc2), sc, ss.
  assert (peer_addr sc = sa) as Hsa by (rewrite (mir_client _ _ _ _ _ _ _ _ Hm); done).
  assert (peer_addr ss = ca) as Hca by (rewrite (mir_server _ _ _ _ _ _ _ _ Hm); done).
  split_and!.
  - by apply connect_run.
  - by apply probe_run.
  - by apply (ack_run sa (set_handshakes mc1 ec)).
  - by apply (finish_run ca (set_handshakes ms1 es)).
  - by apply (finish_ack_run sa (set_handshakes mc2 ec)).
  - done.
  - done.
  - cbn [fst]. rewrite sessions_complete. unfold Store.get. cbn. by rewrite Hsa, lookup_insert_eq.
  - cbn [fst]. rewrite sessions_complete. unfold Store.get. cbn. by rewrite Hca, lookup_insert_eq.
  - done.
Qed.
End Theorems.
