(* ===== verification/Api.v ===== *)
(** * The public API

    [witan/src/api.rs]: the process-global engine and lineage, and the public
    functions over them.  The two statics are the record [Global]; a function
    is [method gs], over the statics and the operating system.  The mutexes are
    never contended and, with [panic = "abort"], never poisoned, so locking
    does not fail.  The theorems are in [ApiThms]. *)

From S2P Require Import Prelude Errors Types Extern F64 Config Dedup Session Identity Envelope Rotation Handshake Engine.
Import Engine.

Module Api.

Section Api.
Context {X : Ext}.

Record Global : Type := mkGlobal {
  GOSSIP_STATE : option GossipEngine;   (* OnceLock<Mutex<GossipEngine>> *)
  LINEAGE : option KeyLineage;          (* Mutex<Option<KeyLineage>> *)
}.

Definition uninitialized : Global := mkGlobal None None.

Abbreviation gs := (Global * Os)%type.
(** What a closure run by [with_engine] can reach: the engine it was given, the
    lineage static, the operating system. *)
Abbreviation cs := ((GossipEngine * option KeyLineage) * Os)%type.

Definition with_engine {A} (f : method cs A) : method gs A :=
  λ s, match GOSSIP_STATE s.1 with
       | None => (Err NotInitialized, s)
       | Some e =>
           let '(r, (e', l', os')) := f (e, LINEAGE s.1, s.2) in
           (r, (mkGlobal (Some e') l', os'))
       end.

(** A closure that touches only the engine. *)
Definition on_engine {A} (m : method (GossipEngine * Os) A) : method cs A :=
  zoom (λ s, (s.1.1, s.2)) (λ t s, (t.1, s.1.2, t.2)) m.

Definition with_lineage {A} (f : method (option KeyLineage) A) : method gs A :=
  zoom (λ s, LINEAGE s.1) (λ l s, (mkGlobal (GOSSIP_STATE s.1) l, s.2)) f.

(** [with_lineage] inside a closure of [with_engine]. *)
Definition closure_lineage {A} (f : method (option KeyLineage) A) : method cs A :=
  zoom (λ s, s.1.2) (λ l s, (s.1.1, l, s.2)) f.

Definition current_time_unix_ms : method gs Z := Handshakes.current_time_unix_ms.
Definition gossip_now_ms : method gs Z := current_time_unix_ms.

(** [*l = Some(lineage)]. *)
Definition store_lineage (l : KeyLineage) : method (option KeyLineage) unit :=
  modify (λ _, Some l).

(** ** Initialization *)

Definition fail_if_initialized : method gs unit :=
  s ← get;
  match GOSSIP_STATE s.1 with
  | Some _ => throw AlreadyInitialized
  | None => mret tt
  end.

Definition install (resolved : ResolvedConfig) (i : NodeIdentity) (l : KeyLineage) :
    method gs unit :=
  _ ← fail_if_initialized;
  _ ← modify (λ s, (mkGlobal (Some (Engine.new resolved i)) (LINEAGE s.1), s.2));
  with_lineage (store_lineage l).

Definition identity_from_config_seeds (resolved : ResolvedConfig) (kem sig : bytes) :
    res NodeIdentity :=
  x25519_seed ← slice kem 0 32;
  mlkem_seed ← slice kem 32 96;
  from_seeds x25519_seed mlkem_seed sig (key_epoch resolved).

Definition gossip_init `{!FromJson GossipConfig} (config_json : string) : method gs unit :=
  _ ← fail_if_initialized;
  config ← lift (from_json config_json);
  resolved ← lift (resolve config);
  identity ← match kem_seed resolved, sig_seed resolved with
             | Some kem, Some sig => lift (identity_from_config_seeds resolved kem sig)
             | _, _ => generate (key_epoch resolved)
             end;
  lineage ← lift (from_identity identity);
  install resolved identity lineage.

Definition lineage_keys_match (i : NodeIdentity) (l : KeyLineage) : res bool :=
  if bool_decide (sig_public_key_bytes i ≠ current_sig_public_key l) then Ok false
  else
    kem ← kem_public_key_canonical_bytes i;
    mret (bool_decide (kem = current_kem_public_key l)).

Definition gossip_init_with_lineage `{!FromJson GossipConfig, !Bincode LineageWire}
    (config_json : string) (lineage_bytes : bytes) : method gs unit :=
  _ ← fail_if_initialized;
  config ← lift (from_json config_json);
  resolved ← lift (resolve config);
  match kem_seed resolved, sig_seed resolved with
  | Some kem, Some sig =>
      identity ← lift (identity_from_config_seeds resolved kem sig);
      lineage ← lift (decode lineage_bytes);
      same ← lift (lineage_keys_match identity lineage);
      if negb same then
        throw (IdentityError ("seeds are not the current keys of lineage "
          +:+ lin_node_id lineage +:+ " (sequence " +:+ pretty (sequence lineage) +:+ ")"))
      else install resolved (with_node_id (lin_node_id lineage) identity) lineage
  | _, _ => throw (ConfigError
      "gossip_init_with_lineage needs kem_seed_hex and sig_seed_hex for the current keys")
  end.

(** ** Messages and peers *)

Definition gossip_publish (payload_type : Z) (payload : bytes) : method gs bytes :=
  now_ms ← current_time_unix_ms;
  with_engine (on_engine (publish payload_type payload now_ms)).

Section Wire.
Context {W : WireCodecs}.

Definition gossip_connect_peer (addr : string) : method gs bytes :=
  now_ms ← current_time_unix_ms;
  with_engine (on_engine (connect_peer addr now_ms)).

Definition gossip_verify_envelope (b : bytes) : method gs bool :=
  now_ms ← current_time_unix_ms;
  with_engine (on_engine (verify_envelope_bytes b now_ms)).

Definition gossip_encode_envelope (payload_type : Z) (payload : bytes) : method gs bytes :=
  now_ms ← current_time_unix_ms;
  with_engine (on_engine (encode_envelope payload_type payload now_ms)).

Definition gossip_process_handshake_bytes (addr : string) (b : bytes) :
    method gs (option bytes) :=
  now_ms ← current_time_unix_ms;
  with_engine (on_engine (process_handshake_bytes addr b now_ms)).

Definition gossip_build_handshake_ack (addr : string) (probe_bytes : bytes) :
    method gs bytes :=
  now_ms ← current_time_unix_ms;
  with_engine (on_engine (
    e ← engine;
    on_handshakes (Handshakes.process_probe_build_ack addr probe_bytes (identity e) now_ms))).

(** The session is stored and counted, but the peer does not join the mesh. *)
Definition record_session (s : SessionRecord) (e : GossipEngine) : GossipEngine :=
  sync_active (on_stats add_completed (set_sessions (Store.insert s (sessions e)) e)).

Definition build_finish_ack (addr : string) (finish_bytes : bytes) (now_ms : Z) :
    method (GossipEngine * Os) bytes :=
  e ← engine;
  '(finish_ack_bytes, session) ←
    on_handshakes (Handshakes.process_finish_build_finish_ack addr finish_bytes (identity e) now_ms);
  _ ← update (record_session session);
  mret finish_ack_bytes.

Definition gossip_build_finish_ack (addr : string) (finish_bytes : bytes) : method gs bytes :=
  now_ms ← current_time_unix_ms;
  with_engine (on_engine (build_finish_ack addr finish_bytes now_ms)).

Definition gossip_decode_envelope {J : JsonOut} (b : bytes) : method gs string :=
  with_engine (lift (decode_envelope_to_json b)).
End Wire.

Definition gossip_disconnect_peer (addr : string) : method gs unit :=
  with_engine (on_engine (disconnect_peer addr)).

(** ** Reports *)

(** A closure that only reads the engine. *)
Definition report {A} (f : GossipEngine -> res A) : method gs A :=
  with_engine (s ← get; lift (f s.1.1)).

Definition gossip_get_peers {J : JsonOut} : method gs string := report get_peers_json.
Definition gossip_get_node_identity {J : JsonOut} : method gs string :=
  report get_node_identity_json.
Definition gossip_get_session {J : JsonOut} (addr : string) : method gs string :=
  report (λ e, get_session_json e addr).

Definition gossip_get_stats {J : JsonOut} : method gs string :=
  now_ms ← current_time_unix_ms;
  with_engine (on_engine (
    _ ← update (heartbeat now_ms);
    e ← engine;
    lift (get_stats_json e now_ms))).

(** ** Key rotation *)

Definition gossip_rotate_keys : method gs string :=
  with_engine (
    s ← get;
    node_id ← on_engine (rotate_keys (key_epoch (config s.1.1)));
    s ← get;
    lineage ← lift (from_identity (identity s.1.1));
    _ ← closure_lineage (store_lineage lineage);
    mret node_id).

Definition identity_from_seed_bytes (kem_seed sig_seed : bytes) (key_epoch : string) :
    res NodeIdentity :=
  if bool_decide (length kem_seed ≠ 96%nat) then
    Err (InvalidInput ("kem_seed must be 96 bytes, got " +:+ pretty (length kem_seed)))
  else if bool_decide (length sig_seed ≠ 32%nat) then
    Err (InvalidInput ("sig_seed must be 32 bytes, got " +:+ pretty (length sig_seed)))
  else
    x25519_seed ← slice kem_seed 0 32;
    mlkem_seed ← slice kem_seed 32 (length kem_seed);
    from_seeds x25519_seed mlkem_seed sig_seed key_epoch.

Definition parse_commitment (c : option bytes) : res (option bytes) :=
  match c with
  | None => Ok None
  | Some b =>
      if bool_decide (length b = 32%nat) then Ok (Some b)
      else Err (InvalidInput ("next_key_commitment must be 32 bytes, got " +:+ pretty (length b)))
  end.

Section Lineage.
Context `{!Bincode LineageWire}.

(** The closure of [gossip_rotate_keys_under_id]: the rotation works on a copy
    of the stored lineage, which replaces it once it has been encoded. *)
Definition rotate_stored_lineage (next : NodeIdentity) (commitment : option bytes)
    (now_ms : Z) : method cs bytes :=
  s ← get;
  lineage ← lift (ok_or s.1.2 NotInitialized);
  let '(r, (e', updated)) := rotate_keys_under_id next commitment now_ms (s.1.1, lineage) in
  _ ← modify (λ s : cs, (e', s.1.2, s.2));
  _ ← lift r;
  b ← lift (encode updated);
  _ ← modify (λ s : cs, (s.1.1, Some updated, s.2));
  mret b.

Definition gossip_rotate_keys_under_id (kem_seed sig_seed : bytes) (key_epoch : string)
    (next_key_commitment : option bytes) : method gs bytes :=
  next ← lift (identity_from_seed_bytes kem_seed sig_seed key_epoch);
  commitment ← lift (parse_commitment next_key_commitment);
  now_ms ← current_time_unix_ms;
  with_engine (rotate_stored_lineage next commitment now_ms).

Definition gossip_recover_lineage (lineage_bytes kem_seed sig_seed : bytes)
    (key_epoch : string) (next_key_commitment : option bytes) : method gs bytes :=
  lineage ← lift (decode lineage_bytes);
  next ← lift (identity_from_seed_bytes kem_seed sig_seed key_epoch);
  commitment ← lift (parse_commitment next_key_commitment);
  now_ms ← current_time_unix_ms;
  let '(r, lineage') := recover next commitment now_ms lineage in
  _ ← lift r;
  lift (encode lineage').

Definition gossip_get_key_lineage : method gs bytes :=
  with_lineage (
    l ← get;
    lineage ← lift (ok_or l NotInitialized);
    lift (encode lineage)).

Definition lineage_summary (l : KeyLineage) : JsonValue :=
  JObject [("node_id", JString (lin_node_id l)); ("sequence", JNumber (sequence l));
           ("sig_public_key_hex", JString (hex_encode (current_sig_public_key l)));
           ("kem_public_key_hex", JString (hex_encode (current_kem_public_key l)));
           ("key_epoch", JString (current_key_epoch l));
           ("next_key_commitment_hex",
            match next_key_commitment l with
            | Some c => JString (hex_encode c)
            | None => JNull
            end)]%string.

Definition gossip_verify_key_lineage {J : JsonOut} (lineage_bytes : bytes) : res string :=
  lineage ← decode lineage_bytes;
  to_json (lineage_summary lineage).

Definition gossip_verify_envelope_from_lineage {W : WireCodecs}
    (envelope_bytes lineage_bytes : bytes) : method gs bool :=
  lineage ← lift (decode lineage_bytes);
  now_ms ← current_time_unix_ms;
  with_engine (on_engine (
    envelope ← lift (decode_envelope envelope_bytes);
    match check_envelope_sender lineage envelope with
    | Ok _ => verify_envelope_bytes envelope_bytes now_ms
    | Err e => _ ← update (on_stats add_dropped); throw e
    | Panic => lift Panic
    end)).
End Lineage.

Definition gossip_key_commitment (sig_seed : bytes) : res bytes := key_commitment_for_seed sig_seed.

Definition gossip_verify_signature (public_key message signature context : bytes) : res bool :=
  verify_signature public_key message signature context.

(** [CARGO_PKG_VERSION] of [witan/Cargo.toml]. *)
Definition gossip_get_version : string := "0.2.2".
End Api.

End Api.
