(* ===== verification/ApiThms.v ===== *)
(** * The public API: initialization, consistency, rotation

    The invariant [global_wf] of the two statics over every sequence of API
    calls, the initialization protocol, and the outcomes of a rotation under the
    stable id. *)

From S2P Require Import Prelude Errors Types Extern F64 Config Dedup Session Identity Envelope Rotation Lineage LineageThms Handshake HandshakeThms Engine EngineThms Api.
Import Engine Api.

(** ** Methods that leave the identity alone *)

Section Keeps.
Context {X : Ext} {W : WireCodecs}.

Abbreviation es := (GossipEngine * Os)%type.

Definition keeps_identity {A} (m : method es A) : Prop :=
  ∀ i, preserves (λ s : es, identity s.1 = i) m.

Lemma keeps_bind {A B} (m : method es A) (k : A -> method es B) :
  keeps_identity m -> (∀ a, keeps_identity (k a)) -> keeps_identity (m ≫= k).
Proof. intros Hm Hk i. apply preserves_bind; [apply Hm|intros a; apply Hk]. Qed.

Lemma keeps_ret {A} (a : A) : keeps_identity (mret a).
Proof. intros i. apply preserves_ret. Qed.

Lemma keeps_lift {A} (r : res A) : keeps_identity (lift r).
Proof. intros i. apply preserves_lift. Qed.

Lemma keeps_throw {A} e : keeps_identity (throw e : method es A).
Proof. intros i. apply preserves_throw. Qed.

Lemma keeps_engine : keeps_identity engine.
Proof. intros i s r s' [= _ <-] Hs. done. Qed.

Lemma keeps_update f : (∀ e, identity (f e) = identity e) -> keeps_identity (update f).
Proof. intros Hf i. apply preserves_modify. intros s Hs. cbn. by rewrite Hf. Qed.

Lemma keeps_on_handshakes {A} (m : method (HandshakeManager * Os) A) :
  keeps_identity (on_handshakes m).
Proof.
  intros i s r s'. unfold on_handshakes, zoom. destruct (m _) as [r' t]. by intros [= _ <-].
Qed.

Lemma complete_identity addr s e : identity (complete_handshake addr s e) = identity e.
Proof. unfold complete_handshake, add_to_mesh. cbn. by destruct (_ && _). Qed.

Lemma maintain_only_mesh e : ∃ l, maintain_mesh e = set_mesh l e.
Proof.
  unfold maintain_mesh. destruct (mesh_needs_peers e); [|exists (mesh_peers e); by destruct e].
  generalize (graft_candidates e). intros l. revert e.
  induction l as [|a l IH]; intros e; cbn; [exists (mesh_peers e); by destruct e|].
  destruct (IH (graft e a)) as [l' ->]. exists l'. unfold graft. by case_match.
Qed.

Lemma maintain_identity e : identity (maintain_mesh e) = identity e.
Proof. by destruct (maintain_only_mesh e) as [l ->]. Qed.

Lemma maintain_frame e :
  config (maintain_mesh e) = config e ∧ sessions (maintain_mesh e) = sessions e.
Proof. by destruct (maintain_only_mesh e) as [l ->]. Qed.

Lemma heartbeat_frame now e :
  config (heartbeat now e) = config e ∧ sessions (heartbeat now e) = sessions e.
Proof. rewrite heartbeat_swept. apply (maintain_frame (swept now e)). Qed.

Lemma heartbeat_handshakes now e :
  handshakes (heartbeat now e) = (Handshakes.evict_timed_out now (handshakes e)).2.
Proof.
  rewrite heartbeat_swept. by destruct (maintain_only_mesh (swept now e)) as [l ->].
Qed.

Lemma heartbeat_identity now e : identity (heartbeat now e) = identity e.
Proof. rewrite heartbeat_swept. cbn. by rewrite maintain_identity. Qed.

#[local] Hint Resolve keeps_bind keeps_ret keeps_lift keeps_throw keeps_engine keeps_update
  keeps_on_handshakes complete_identity heartbeat_identity : witan.

Lemma publish_keeps v p now : keeps_identity (publish v p now).
Proof.
  intros i s r s' E Hs. pose proof (publish_cases v p now s) as H. rewrite E in H.
  by inversion H; subst.
Qed.

Lemma verify_keeps b now : keeps_identity (verify_envelope_bytes b now).
Proof.
  intros i s r s' E Hs. rewrite verify_run in E. repeat case_match; by simplify_eq.
Qed.

Lemma encode_keeps v p now : keeps_identity (encode_envelope v p now).
Proof. unfold encode_envelope. auto with witan. Qed.

Lemma connect_keeps addr now : keeps_identity (connect_peer addr now).
Proof. apply keeps_bind; [apply keeps_engine|intros e]. case_match; auto with witan. Qed.

Lemma process_keeps addr b now : keeps_identity (process_handshake_bytes addr b now).
Proof.
  apply keeps_bind; [apply keeps_engine|intros e].
  case_match; [| |apply keeps_bind; [apply keeps_on_handshakes|intros [fb se]]| |]; auto with witan.
Qed.

Lemma disconnect_keeps addr : keeps_identity (disconnect_peer addr).
Proof.
  intros i s r s' E Hs. rewrite disconnect_run in E. case_match; by simplify_eq.
Qed.

Lemma build_finish_ack_keeps addr b now : keeps_identity (build_finish_ack addr b now).
Proof.
  apply keeps_bind; [apply keeps_engine|intros e].
  apply keeps_bind; [apply keeps_on_handshakes|intros [fb se]]. auto with witan.
Qed.
End Keeps.

(** ** The invariant of the statics *)

Section Invariant.
Context {X : Ext} {W : WireCodecs}.

(** The engine and the lineage are of the same node and hold the same keys. *)
Record node_wf (e : GossipEngine) (l : KeyLineage) : Prop := {
  nw_engine : engine_wf e;
  nw_lineage : valid l;
  nw_id : lin_node_id l = node_id (identity e);
  nw_sig : current_sig_public_key l = sig_public_key_bytes (identity e);
  nw_kem : kem_public_key_canonical_bytes (identity e) = Ok (current_kem_public_key l);
}.

Definition global_wf (g : Global) : Prop :=
  match GOSSIP_STATE g, LINEAGE g with
  | None, None => True
  | Some e, Some l => node_wf e l
  | _, _ => False
  end.

Lemma node_wf_engine e e' l :
  engine_wf e' -> identity e' = identity e -> node_wf e l -> node_wf e' l.
Proof. intros He Hi []. constructor; rewrite ?Hi; done. Qed.

(** A call that only works on the engine. *)
Lemma with_engine_wf {A} (m : method (GossipEngine * Os) A) (s : Global * Os) :
  keeps_identity m -> (∀ t : GossipEngine * Os, engine_wf t.1 -> engine_wf (m t).2.1) ->
  global_wf s.1 -> global_wf (with_engine (on_engine m) s).2.1.
Proof.
  intros Hk Hm Hs. destruct s as [[[e|] l] os]; [|done]. unfold with_engine, on_engine, zoom.
  cbn [GOSSIP_STATE LINEAGE fst snd]. specialize (Hk (identity e) (e, os)).
  specialize (Hm (e, os)). destruct (m (e, os)) as [r [e' os']] eqn:E. cbn in *.
  destruct l as [l|]; [|done]. cbn in *. apply (node_wf_engine e); [|exact (Hk _ _ eq_refl eq_refl)|done].
  apply Hm, Hs.
Qed.

(** Reading the clock hands a time to the rest and leaves the statics alone. *)
Lemma time_bind (s : Global * Os) :
  ∃ now os', ∀ A (k : Z -> method (Global * Os) A),
    (current_time_unix_ms ≫= k) s = k now (s.1, os').
Proof.
  unfold current_time_unix_ms, Handshakes.current_time_unix_ms.
  destruct (system_time_ms s.2) as [o os'] eqn:E. eexists _, os'. intros A k.
  unfold mbind, st_bind. by rewrite E.
Qed.

Lemma time_bind_wf {A} (k : Z -> method (Global * Os) A) (s : Global * Os) :
  (∀ now (t : Global * Os), global_wf t.1 -> global_wf (k now t).2.1) ->
  global_wf s.1 -> global_wf ((current_time_unix_ms ≫= k) s).2.1.
Proof.
  intros Hk Hs. destruct (time_bind s) as (now & os' & ->). by apply Hk.
Qed.

Lemma from_identity_ok i l :
  from_identity i = Ok l ->
  valid l ∧ lin_node_id l = node_id i ∧ current_sig_public_key l = sig_public_key_bytes i ∧
  kem_public_key_canonical_bytes i = Ok (current_kem_public_key l).
Proof.
  intros H. destruct (from_identity_valid _ _ H) as [Hv Hid]. revert H. unfold from_identity.
  intros (k & Hk & (l' & (_ & _ & Hl)%inception_ok & Hb)%bind_ok)%bind_ok.
  case_bool_decide; [|done]. injection Hb as <-. by subst l'.
Qed.

Lemma from_identity_self_derived `{!ExtLaws} i :
  self_derived i -> ∃ l, from_identity i = Ok l.
Proof.
  intros (k & Hk & Hid). unfold from_identity.
  destruct (inception k (sig_public_key_bytes i) (id_key_epoch i)) as [l|err|] eqn:El.
  - exists l. apply bind_ok. exists k. split; [done|]. apply bind_ok. exists l. split; [done|].
    apply inception_ok in El as (_ & _ & ->). cbn. by rewrite bool_decide_true.
  - exfalso.
    assert (∃ l, inception k (sig_public_key_bytes i) (id_key_epoch i) = Ok l) as [l El'];
      [|congruence].
    eexists. apply inception_ok. split_and!; [|apply sig_public_key_bytes_length|done].
    by apply (kem_bytes_length _ _ Hk).
  - by apply inception_no_panic in El.
Qed.
End Invariant.

(** ** Initialization *)

Section Init.
Context {X : Ext}.

Lemma fail_if_initialized_ok (s : Global * Os) u s' :
  fail_if_initialized s = (Ok u, s') <-> GOSSIP_STATE s.1 = None ∧ s' = s.
Proof.
  unfold fail_if_initialized. rewrite get_bind. destruct u.
  destruct (GOSSIP_STATE s.1); split; [done|by intros []|by intros [= <-]|by intros [_ ->]].
Qed.

Lemma readonly_fail_if_initialized : readonly fail_if_initialized.
Proof. intros s. unfold fail_if_initialized. rewrite get_bind. by case_match. Qed.

Lemma install_ok r i l (s : Global * Os) u s' :
  install r i l s = (Ok u, s') <->
  GOSSIP_STATE s.1 = None ∧ s' = (mkGlobal (Some (Engine.new r i)) (Some l), s.2).
Proof.
  unfold install. rewrite st_bind_ok. split.
  - intros (u' & s1 & [Hn ->]%fail_if_initialized_ok & H).
    apply st_bind_ok in H as (u2 & s2 & ->%modify_ok & H).
    unfold with_lineage, zoom in H. cbn in H. by injection H as <- <-.
  - intros [Hn ->]. exists tt, s. split; [by apply fail_if_initialized_ok|]. by destruct u.
Qed.

Lemma atomic_install r i l : atomic (install r i l).
Proof.
  apply atomic_bind; [apply readonly_fail_if_initialized|intros []].
  apply atomic_total, total_bind; [apply total_modify|done].
Qed.

Lemma readonly_generate epoch : readonly (generate (S:=Global) epoch).
Proof. intros s. apply generate_state. Qed.

Context `{!FromJson GossipConfig}.

Lemma atomic_gossip_init cfg : atomic (gossip_init cfg).
Proof.
  apply atomic_bind; [apply readonly_fail_if_initialized|intros []].
  do 2 (apply atomic_bind; [done|intros ?]).
  apply atomic_bind; [|intros i].
  { repeat case_match; first [apply readonly_generate|done]. }
  apply atomic_bind; [done|intros l]. apply atomic_install.
Qed.

(** The identity of an initialized node comes from its configuration. *)
Lemma gossip_init_ok cfg (s : Global * Os) u s' :
  gossip_init cfg s = (Ok u, s') ->
  GOSSIP_STATE s.1 = None ∧
  ∃ c r i l, json_from_str cfg = inr c ∧ resolve c = Ok r ∧ from_identity i = Ok l ∧
    self_derived i ∧ s'.1 = mkGlobal (Some (Engine.new r i)) (Some l).
Proof.
  intros H. apply st_bind_ok in H as (u1 & s1 & [Hn ->]%fail_if_initialized_ok & H).
  apply st_bind_ok in H as (c & s1 & [Hc%map_err_ok ->]%lift_ok & H).
  apply st_bind_ok in H as (r & s1 & [Hr ->]%lift_ok & H).
  apply st_bind_ok in H as (i & s1 & Hi & H).
  apply st_bind_ok in H as (l & s2 & [Hl ->]%lift_ok & H).
  apply install_ok in H as [_ ->]. split; [done|]. exists c, r, i, l. split_and!; try done.
  assert (∀ (t t' : Global * Os), generate (key_epoch r) t = (Ok i, t') -> self_derived i) as Hg.
  { intros t t' E. by apply generate_inv in E as (_ & ? & _). }
  repeat case_match; [|by eapply Hg..].
  apply lift_ok in Hi as [Hi _]. unfold identity_from_config_seeds in Hi.
  apply bind_ok in Hi as (x & _ & (m & _ & Hi)%bind_ok). by apply from_seeds_inv in Hi as [? _].
Qed.

(** The seeds of a call, and the seeds of a configuration. *)
Lemma seed_bytes_inv kem sig epoch i :
  identity_from_seed_bytes kem sig epoch = Ok i ->
  length kem = 96%nat ∧ length sig = 32%nat ∧
  from_seeds (take 32 kem) (drop 32 kem) sig epoch = Ok i.
Proof.
  unfold identity_from_seed_bytes. case_bool_decide as Hk; [done|]. case_bool_decide as Hs; [done|].
  unfold slice. rewrite !bool_decide_true by lia. unfold_bind.
  rewrite Hk. intros H. split_and!; [done..|]. revert H.
  by rewrite drop_0, (take_ge (drop 32 kem)) by (rewrite length_drop; lia).
Qed.

Lemma config_seeds r kem sig epoch i :
  identity_from_seed_bytes kem sig epoch = Ok i -> key_epoch r = epoch ->
  identity_from_config_seeds r kem sig = Ok i.
Proof.
  intros (Hk & _ & Hs)%seed_bytes_inv He. unfold identity_from_config_seeds, slice.
  rewrite !bool_decide_true by lia. unfold_bind. rewrite He, <- Hs, drop_0.
  by rewrite (take_ge (drop 32 kem)) by (rewrite length_drop; lia).
Qed.

Lemma slice_ok {E} (b : bytes) lo hi :
  (lo <= hi)%nat -> (hi <= length b)%nat ->
  slice (E:=E) b lo hi = Ok (take (hi - lo) (drop lo b)).
Proof. intros H1 H2. unfold slice. by rewrite bool_decide_true. Qed.

Lemma identity_of_keys_no_panic kem sig epoch : identity_of_keys kem sig epoch ≠ Panic.
Proof. apply bind_no_panic; [apply kem_bytes_no_panic|done]. Qed.

Lemma from_seeds_no_panic x m s e : from_seeds x m s e ≠ Panic.
Proof.
  unfold from_seeds. apply bind_no_panic; [apply map_err_no_panic|intros kem _].
  apply bind_no_panic; [apply map_err_no_panic|intros sig _]. apply identity_of_keys_no_panic.
Qed.

Lemma seed_bytes_no_panic k sg epoch : identity_from_seed_bytes k sg epoch ≠ Panic.
Proof.
  unfold identity_from_seed_bytes. case_bool_decide as Hk; [done|]. case_match; [done|].
  rewrite !slice_ok by lia. apply from_seeds_no_panic.
Qed.

Lemma parse_commitment_no_panic c : parse_commitment c ≠ Panic.
Proof. unfold parse_commitment. by repeat case_match. Qed.

Context `{!Bincode LineageWire}.

Lemma lineage_keys_match_ok i l :
  lineage_keys_match i l = Ok true <->
  sig_public_key_bytes i = current_sig_public_key l ∧
  kem_public_key_canonical_bytes i = Ok (current_kem_public_key l).
Proof.
  unfold lineage_keys_match. case_bool_decide as Hs.
  - split; [done|]. by intros [].
  - rewrite bind_ok. split.
    + intros (k & -> & [= Hk%bool_decide_eq_true]). by subst k.
    + intros [_ ->]. eexists. split; [done|]. unfold mret, result_ret. by rewrite bool_decide_true.
Qed.

Lemma atomic_init_with_lineage cfg lb : atomic (gossip_init_with_lineage cfg lb).
Proof.
  apply atomic_bind; [apply readonly_fail_if_initialized|intros []].
  do 2 (apply atomic_bind; [done|intros ?]).
  repeat case_match; try (by apply atomic_readonly).
  do 3 (apply atomic_bind; [done|intros ?]).
  case_match; [by apply atomic_readonly|apply atomic_install].
Qed.

Lemma init_with_lineage_ok cfg lb (s : Global * Os) u s' :
  gossip_init_with_lineage cfg lb s = (Ok u, s') ->
  GOSSIP_STATE s.1 = None ∧
  ∃ c r i l, json_from_str cfg = inr c ∧ resolve c = Ok r ∧ decode lb = Ok l ∧
    lineage_keys_match i l = Ok true ∧
    s'.1 = mkGlobal (Some (Engine.new r (with_node_id (lin_node_id l) i))) (Some l).
Proof.
  intros H. apply st_bind_ok in H as (u1 & s1 & [Hn ->]%fail_if_initialized_ok & H).
  apply st_bind_ok in H as (c & s1 & [Hc%map_err_ok ->]%lift_ok & H).
  apply st_bind_ok in H as (r & s1 & [Hr ->]%lift_ok & H).
  destruct (kem_seed r) as [k|]; [|done]. destruct (sig_seed r) as [sg|]; [|done].
  apply st_bind_ok in H as (i & s1 & [_ ->]%lift_ok & H).
  apply st_bind_ok in H as (l & s1 & [Hl ->]%lift_ok & H).
  apply st_bind_ok in H as ([] & s1 & [Hm ->]%lift_ok & H); [|done]. cbn [negb] in H.
  apply install_ok in H as [_ ->]. split; [done|]. by exists c, r, i, l.
Qed.
End Init.

(** ** Rotation *)

Section Rotate.
Context {X : Ext} {W : WireCodecs} `{!Bincode LineageWire}.

Abbreviation cs := ((GossipEngine * option KeyLineage) * Os)%type.

(** The engine that speaks with [next]'s keys under the id of [l]. *)
Definition under_id (l : KeyLineage) (next : NodeIdentity) (e : GossipEngine) : GossipEngine :=
  set_identity (with_node_id (lin_node_id l) next) e.

(** The three outcomes of the closure on an initialized node. *)
Inductive rotation_outcome (next : NodeIdentity) (c : option bytes) (e : GossipEngine)
    (l : KeyLineage) : res bytes -> GossipEngine -> KeyLineage -> Prop :=
  | rot_done r l' b : moved l next c r l' -> encode l' = Ok b ->
      rotation_outcome next c e l (Ok b) (under_id l next e) l'
  | rot_refused err : rotation_outcome next c e l (Err err) e l
  | rot_unsaved r l' msg : moved l next c r l' -> encode l' = Err (SerializationError msg) ->
      rotation_outcome next c e l (Err (SerializationError msg)) (under_id l next e) l.

Lemma rotate_stored_cases next c now e l os :
  valid l -> has_room l ->
  ∃ r e' l', rotate_stored_lineage next c now (e, Some l, os) = (r, (e', Some l', os)) ∧
    rotation_outcome next c e l r e' l'.
Proof.
  intros Hv Hr. unfold rotate_stored_lineage. rewrite get_bind, lift_bind. cbn [fst snd ok_or].
  destruct (rotate_under_id_run next c now e l Hv Hr) as [(r & l' & E & _ & _ & Hm)|(err & E)];
    rewrite E.
  - assert ((∃ b, encode l' = Ok b) ∨ ∃ msg, encode l' = Err (SerializationError msg)) as Henc.
    { unfold encode. destruct (serialize (to_wire l')); cbn; eauto. }
    destruct Henc as [[b Hb]|[msg Hmsg]].
    + exists (Ok b), (under_id l next e), l'. split; [|by eapply rot_done].
      unfold mbind, st_bind, modify, lift, mret, st_ret. cbn. by rewrite Hb.
    + exists (Err (SerializationError msg)), (under_id l next e), l. split; [|by eapply rot_unsaved].
      unfold mbind, st_bind, modify, lift. cbn. by rewrite Hmsg.
  - exists (Err err), e, l. split; [done|constructor].
Qed.

Context {L : ExtLaws}.

Lemma rotate_keys_wf (s : Global * Os) : global_wf s.1 -> global_wf (gossip_rotate_keys s).2.1.
Proof.
  intros Hs. destruct s as [[[e|] [l|]] os]; try done. unfold gossip_rotate_keys, with_engine.
  cbn [GOSSIP_STATE LINEAGE fst snd]. rewrite get_bind. unfold mbind at 1, st_bind at 1.
  unfold on_engine, zoom. cbn [fst snd]. rewrite rotate_keys_run.
  destruct (generate (key_epoch (config e)) (e, os)) as [[i|err|] [e1 os1]] eqn:Eg;
    pose proof (generate_state (key_epoch (config e)) (e, os)) as He1; rewrite Eg in He1;
    cbn in He1; subst e1; [|done..].
  apply generate_inv in Eg as (_ & Hd & _). cbn. rewrite get_bind, lift_bind. cbn.
  destruct (from_identity_self_derived i Hd) as [l' Hl']. rewrite Hl'. cbn.
  apply from_identity_ok in Hl' as (Hv & Hid & Hsig & Hkem).
  constructor; try done. apply wf_set_identity, (nw_engine _ _ Hs).
Qed.
End Rotate.

(** ** Every sequence of calls *)

Section Reachable.
Context {X : Ext} {W : WireCodecs} {J : JsonOut} `{!FromJson GossipConfig}.
Context `{!Bincode LineageWire}.

(** One call of a public function, with any arguments and any answer of the
    operating system.  A rotation under the id needs room in the record
    vector, and the encoding of the extended lineage must not fail: what
    happens when it does is stated on its own below. *)
Inductive api_step (g : Global) : Global -> Prop :=
  | step_init cfg os : api_step g (gossip_init cfg (g, os)).2.1
  | step_init_lineage cfg lb os : api_step g (gossip_init_with_lineage cfg lb (g, os)).2.1
  | step_publish v p os : api_step g (gossip_publish v p (g, os)).2.1
  | step_connect addr os : api_step g (gossip_connect_peer addr (g, os)).2.1
  | step_disconnect addr os : api_step g (gossip_disconnect_peer addr (g, os)).2.1
  | step_verify b os : api_step g (gossip_verify_envelope b (g, os)).2.1
  | step_encode v p os : api_step g (gossip_encode_envelope v p (g, os)).2.1
  | step_process addr b os : api_step g (gossip_process_handshake_bytes addr b (g, os)).2.1
  | step_build_ack addr b os : api_step g (gossip_build_handshake_ack addr b (g, os)).2.1
  | step_build_finish_ack addr b os : api_step g (gossip_build_finish_ack addr b (g, os)).2.1
  | step_stats os : api_step g (gossip_get_stats (g, os)).2.1
  | step_peers os : api_step g (gossip_get_peers (g, os)).2.1
  | step_identity os : api_step g (gossip_get_node_identity (g, os)).2.1
  | step_session addr os : api_step g (gossip_get_session addr (g, os)).2.1
  | step_decode b os : api_step g (gossip_decode_envelope b (g, os)).2.1
  | step_lineage os : api_step g (gossip_get_key_lineage (g, os)).2.1
  | step_verify_lineage b lb os :
      api_step g (gossip_verify_envelope_from_lineage b lb (g, os)).2.1
  | step_recover lb k sg epoch c os :
      api_step g (gossip_recover_lineage lb k sg epoch c (g, os)).2.1
  | step_rotate os : api_step g (gossip_rotate_keys (g, os)).2.1
  | step_rotate_under_id k sg epoch c os :
      (∀ l, LINEAGE g = Some l -> has_room l) ->
      (∀ msg, (gossip_rotate_keys_under_id k sg epoch c (g, os)).1 ≠
                Err (SerializationError msg)) ->
      api_step g (gossip_rotate_keys_under_id k sg epoch c (g, os)).2.1.

Definition api_reachable (g : Global) : Prop := rtc api_step uninitialized g.

Context {L : ExtLaws} {WL : WireLaws} {LC : LineageCodec} {CJ : ConfigJsonLaws}.

Lemma wf_of_atomic_init (f : method (Global * Os) unit) (s : Global * Os) :
  atomic f -> global_wf s.1 ->
  (∀ u s', f s = (Ok u, s') -> global_wf s'.1) -> global_wf (f s).2.1.
Proof.
  intros Ha Hs Hok. specialize (Ha s). destruct (f s) as [[a|e|] s'] eqn:E; cbn in *.
  - by eapply Hok.
  - by rewrite Ha.
  - by rewrite Ha.
Qed.

Lemma init_wf cfg (s : Global * Os) : global_wf s.1 -> global_wf (gossip_init cfg s).2.1.
Proof.
  intros Hs. apply wf_of_atomic_init; [apply atomic_gossip_init|done|].
  intros u s' (_ & c & r & i & l & Hc & Hr & Hl & _ & ->)%gossip_init_ok.
  apply from_identity_ok in Hl as (Hv & Hid & Hsig & Hkem). constructor; try done.
  pose proof (resolve_inv _ _ Hr) as [_ Hwf].
  apply new_wf; [done|]. by apply (resolve_high_nonneg _ _ (json_config_fits _ _ Hc)).
Qed.

Lemma decode_valid lb l : decode lb = Ok l -> valid l.
Proof.
  intros (_ & w & Hw%decoded_wire_fits & Hf)%decode_inv. by apply from_wire_ok in Hf as [? _].
Qed.

Lemma init_with_lineage_wf cfg lb (s : Global * Os) :
  global_wf s.1 -> global_wf (gossip_init_with_lineage cfg lb s).2.1.
Proof.
  intros Hs. apply wf_of_atomic_init; [apply atomic_init_with_lineage|done|].
  intros u s' (_ & c & r & i & l & Hc & Hr & Hl & [Hsig Hkem]%lineage_keys_match_ok & ->)
    %init_with_lineage_ok.
  pose proof (resolve_inv _ _ Hr) as [_ Hwf]. constructor; try done.
  - apply new_wf; [done|]. by apply (resolve_high_nonneg _ _ (json_config_fits _ _ Hc)).
  - by eapply decode_valid.
Qed.

Lemma record_session_wf addr s e :
  session_wf addr s -> engine_wf e -> engine_wf (record_session s e).
Proof.
  intros Hs [Hc [_ Hm]]. split; [|by split].
  do 2 apply core_on_stats. by apply (core_insert_session addr).
Qed.

Lemma build_finish_ack_wf addr b now (s : GossipEngine * Os) :
  engine_wf s.1 -> engine_wf (build_finish_ack addr b now s).2.1.
Proof.
  intros He. unfold build_finish_ack. rewrite engine_bind.
  pose proof (on_handshakes_complete
    (Handshakes.process_finish_build_finish_ack addr b (identity s.1) now)
    (λ a, record_session a.2) (λ a, a.1) s (λ t, process_finish_wf _ _ _ _ t)) as Hw.
  unfold mbind, st_bind in *.
  destruct (on_handshakes _ s) as [[[fb se]|e|] s'] eqn:E; cbn in *; apply Hw; try done.
  all: intros t [fb' se'] t' e' Ht Hr He'; cbn.
  all: apply (record_session_wf addr); [|done]; by eapply finish_session_wf.
Qed.

Lemma report_wf {A} (f : GossipEngine -> res A) (s : Global * Os) :
  global_wf s.1 -> global_wf (report f s).2.1.
Proof. intros Hs. by destruct s as [[[e|] [l|]] os]. Qed.

Lemma stats_wf (s : Global * Os) : global_wf s.1 -> global_wf (gossip_get_stats s).2.1.
Proof.
  apply time_bind_wf. intros now t Ht. apply with_engine_wf; [| |done].
  - apply keeps_bind; [apply keeps_update, heartbeat_identity|intros _].
    apply keeps_bind; [apply keeps_engine|intros e]. apply keeps_lift.
  - intros t' He. rewrite update_bind, engine_bind. by apply heartbeat_wf.
Qed.

Lemma build_ack_wf addr b (s : Global * Os) :
  global_wf s.1 -> global_wf (gossip_build_handshake_ack addr b s).2.1.
Proof.
  apply time_bind_wf. intros now t Ht. apply with_engine_wf; [| |done].
  - apply keeps_bind; [apply keeps_engine|intros e]. apply keeps_on_handshakes.
  - intros t' He. rewrite engine_bind. apply on_handshakes_wf; [|done]. intros ?. apply process_probe_wf.
Qed.

Lemma lift_bind_wf {A B} (r : res A) (k : A -> method (Global * Os) B) (s : Global * Os) :
  (∀ a, r = Ok a -> global_wf (k a s).2.1) -> global_wf s.1 -> global_wf ((lift r ≫= k) s).2.1.
Proof. intros Hk Hs. rewrite lift_bind. destruct r; auto. Qed.

Lemma verify_from_lineage_wf b lb (s : Global * Os) :
  global_wf s.1 -> global_wf (gossip_verify_envelope_from_lineage b lb s).2.1.
Proof.
  intros Hs. apply lift_bind_wf; [|done]. intros l _. revert Hs. apply time_bind_wf.
  intros now t Ht. apply with_engine_wf; [| |done].
  - apply keeps_bind; [apply keeps_lift|intros env].
    case_match; [apply verify_keeps| |apply keeps_lift].
    apply keeps_bind; [by apply keeps_update|intros _]. apply keeps_throw.
  - intros t' He. rewrite lift_bind. destruct (decode_envelope b) as [env|e|]; try done.
    destruct (check_envelope_sender l env); [by apply verify_envelope_bytes_wf| |done].
    by apply wf_on_stats.
Qed.

Lemma encode_wf v p now (s : GossipEngine * Os) :
  engine_wf s.1 -> engine_wf (encode_envelope v p now s).2.1.
Proof.
  intros He. unfold encode_envelope. rewrite lift_bind. destruct (payload_type_of v); try done.
  rewrite engine_bind, lift_bind. by case_match.
Qed.

Lemma moved_node_wf next c r l l' e :
  engine_wf e -> moved l next c r l' -> node_wf (under_id l next e) l'.
Proof.
  intros He []. constructor; try done. by apply wf_set_identity.
Qed.

Lemma rotate_under_id_wf k sg epoch c (s : Global * Os) :
  (∀ l, LINEAGE s.1 = Some l -> has_room l) ->
  (∀ msg, (gossip_rotate_keys_under_id k sg epoch c s).1 ≠ Err (SerializationError msg)) ->
  global_wf s.1 -> global_wf (gossip_rotate_keys_under_id k sg epoch c s).2.1.
Proof.
  unfold gossip_rotate_keys_under_id. rewrite !lift_bind.
  destruct (identity_from_seed_bytes k sg epoch) as [next|e|]; try done.
  rewrite !lift_bind. destruct (parse_commitment c) as [cm|e|]; try done.
  destruct (time_bind s) as (now & os' & Ht). rewrite !Ht. intros Hroom.
  destruct s as [[[e|] [l|]] os]; try done. cbn [fst snd].
  unfold with_engine. cbn [GOSSIP_STATE LINEAGE fst snd]. intros Hne Hs.
  destruct (rotate_stored_cases next cm now e l os' (nw_lineage _ _ Hs) (Hroom l eq_refl))
    as (r & e' & l' & E & Ho). rewrite E in *. cbn in *.
  inversion Ho; subst; [|done|by edestruct Hne].
  eapply moved_node_wf; [apply (nw_engine _ _ Hs)|done].
Qed.

Lemma recover_state lb k sg epoch c (s : Global * Os) :
  (gossip_recover_lineage lb k sg epoch c s).2.1 = s.1.
Proof.
  unfold gossip_recover_lineage. rewrite lift_bind. destruct (decode lb) as [l| |]; try done.
  rewrite lift_bind. case_match; try done. rewrite lift_bind. case_match; try done.
  destruct (time_bind s) as (now & os' & ->). destruct (recover _ _ _ l) as [r l']. rewrite lift_bind.
  by destruct r.
Qed.

Lemma api_step_wf g g' : api_step g g' -> global_wf g -> global_wf g'.
Proof.
  intros Hst Hg. destruct Hst.
  - by apply init_wf.
  - by apply init_with_lineage_wf.
  - apply time_bind_wf; [|done]. intros now t. apply with_engine_wf; [apply publish_keeps|].
    intros ?. apply publish_wf.
  - apply time_bind_wf; [|done]. intros now t. apply with_engine_wf; [apply connect_keeps|].
    intros ?. apply connect_peer_wf.
  - apply with_engine_wf; [apply disconnect_keeps| |done]. intros ?. apply disconnect_peer_wf.
  - apply time_bind_wf; [|done]. intros now t. apply with_engine_wf; [apply verify_keeps|].
    intros ?. apply verify_envelope_bytes_wf.
  - apply time_bind_wf; [|done]. intros now t. apply with_engine_wf; [apply encode_keeps|].
    intros ?. apply encode_wf.
  - apply time_bind_wf; [|done]. intros now t. apply with_engine_wf; [apply process_keeps|].
    intros ?. apply process_handshake_bytes_wf.
  - by apply build_ack_wf.
  - apply time_bind_wf; [|done]. intros now t. apply with_engine_wf; [apply build_finish_ack_keeps|].
    intros ?. apply build_finish_ack_wf.
  - by apply stats_wf.
  - by apply report_wf.
  - by apply report_wf.
  - by apply report_wf.
  - by destruct g as [[e|] [l|]].
  - by destruct g as [[e|] [l|]].
  - by apply verify_from_lineage_wf.
  - by rewrite recover_state.
  - by apply rotate_keys_wf.
  - by apply rotate_under_id_wf.
Qed.

Lemma api_reachable_wf g : api_reachable g -> global_wf g.
Proof.
  unfold api_reachable. intros Hr. cut (global_wf uninitialized); [|done].
  induction Hr as [g|g1 g2 g3 Hst Hr IH]; [done|]. intros Hg. by apply IH, (api_step_wf g1).
Qed.

(** C10. After any sequence of API calls, with any arguments and any answers of the
    entropy source and the clock, in which no rotation under the id fails while
    encoding its result, the two statics agree.  Either neither is set, or both
    are: the engine is well formed (mesh within sessions and
    watermark, sessions and handshakes well formed, counts in step), the
    lineage is a valid chain, and its id and current keys are those of the
    engine's identity. *)
Theorem api_consistent (g : Global) (Hr : api_reachable g) : global_wf g.
Proof.
  by apply api_reachable_wf.
Qed.
End Reachable.

(** ** The properties of initialization and rotation *)

Section Theorems.
Context {X : Ext} {W : WireCodecs} `{!FromJson GossipConfig, !Bincode LineageWire}.

Abbreviation gs := (Global * Os)%type.

(** The call answers [NotInitialized] and leaves the statics as they were. *)
Definition not_initialized {A} (f : method gs A) (s : gs) : Prop :=
  ∃ os', f s = (Err NotInitialized, (s.1, os')).

Lemma with_engine_none {A} (f : method ((GossipEngine * option KeyLineage) * Os) A) (s : gs) :
  GOSSIP_STATE s.1 = None -> not_initialized (with_engine f) s.
Proof. intros Hn. exists s.2. unfold with_engine. rewrite Hn. by destruct s. Qed.

Lemma timed_none {A} (k : Z -> method ((GossipEngine * option KeyLineage) * Os) A) (s : gs) :
  GOSSIP_STATE s.1 = None -> not_initialized (current_time_unix_ms ≫= λ now, with_engine (k now)) s.
Proof.
  intros Hn. destruct (time_bind s) as (now & os' & Ht). exists os'. rewrite Ht.
  unfold with_engine. cbn. by rewrite Hn.
Qed.

(** A call that is refused and changes nothing. *)
Definition refused {A} (f : method gs A) (s : gs) : Prop :=
  ∃ e os', f s = (Err e, (s.1, os')).

Lemma get_lineage_none (s : gs) :
  LINEAGE s.1 = None -> not_initialized gossip_get_key_lineage s.
Proof.
  intros Hn. exists s.2. unfold gossip_get_key_lineage, with_lineage, zoom. unfold_bind. cbn.
  rewrite Hn. cbn. destruct s as [[ge l] os]. cbn in *. by rewrite Hn.
Qed.

Lemma rotate_under_id_none k sg epoch c (s : gs) :
  GOSSIP_STATE s.1 = None ->
  match identity_from_seed_bytes k sg epoch, parse_commitment c with
  | Ok _, Ok _ => not_initialized (gossip_rotate_keys_under_id k sg epoch c) s
  | _, _ => refused (gossip_rotate_keys_under_id k sg epoch c) s
  end.
Proof.
  intros Hn. unfold not_initialized, refused, gossip_rotate_keys_under_id. rewrite lift_bind.
  pose proof (seed_bytes_no_panic k sg epoch) as Hp.
  pose proof (parse_commitment_no_panic c) as Hq.
  destruct (identity_from_seed_bytes k sg epoch) as [next|err|]; [|by exists err, s.2; destruct s|done].
  rewrite lift_bind. destruct (parse_commitment c) as [cm|err|]; [|by exists err, s.2; destruct s|done].
  by apply timed_none.
Qed.

Lemma from_lineage_none `{!LineageCodec} b lb (s : gs) :
  GOSSIP_STATE s.1 = None ->
  if is_ok (decode lb) then not_initialized (gossip_verify_envelope_from_lineage b lb) s
  else refused (gossip_verify_envelope_from_lineage b lb) s.
Proof.
  intros Hn. unfold not_initialized, refused, gossip_verify_envelope_from_lineage.
  rewrite lift_bind. pose proof (decode_no_panic lb) as Hp.
  destruct (decode lb) as [l|err|]; [|by exists err, s.2; destruct s|done].
  cbn [is_ok]. by apply timed_none.
Qed.

(** C32. Initialization happens once.  Until it succeeds each of the fourteen calls
    of the engine answers [NotInitialized] and changes nothing, and so does the one
    for the stored lineage when none is stored; the two calls that look at their arguments first, the
    rotation under the id and the check against a lineage, do so when these are
    well formed and are refused otherwise.  A failed initialization of either
    kind leaves the statics as they were, so it can be retried; a successful one
    sets both, to a fresh engine and a lineage that is the engine's; and once
    the engine is set, initializing again in either way answers
    [AlreadyInitialized] and changes nothing. *)
Theorem init_once {J : JsonOut} `{!LineageCodec} (cfg addr epoch : string) (lb b k sg : bytes) (c : option bytes)
    (v : Z) (s : gs) :
  (GOSSIP_STATE s.1 = None ->
     not_initialized (gossip_publish v b) s ∧
     not_initialized (gossip_connect_peer addr) s ∧
     not_initialized (gossip_disconnect_peer addr) s ∧
     not_initialized gossip_get_peers s ∧
     not_initialized (gossip_get_session addr) s ∧
     not_initialized gossip_get_node_identity s ∧
     not_initialized gossip_rotate_keys s ∧
     not_initialized (gossip_verify_envelope b) s ∧
     not_initialized (gossip_encode_envelope v b) s ∧
     not_initialized (gossip_decode_envelope b) s ∧
     not_initialized gossip_get_stats s ∧
     not_initialized (gossip_process_handshake_bytes addr b) s ∧
     not_initialized (gossip_build_handshake_ack addr b) s ∧
     not_initialized (gossip_build_finish_ack addr b) s ∧
     (LINEAGE s.1 = None -> not_initialized gossip_get_key_lineage s) ∧
     match identity_from_seed_bytes k sg epoch, parse_commitment c with
     | Ok _, Ok _ => not_initialized (gossip_rotate_keys_under_id k sg epoch c) s
     | _, _ => refused (gossip_rotate_keys_under_id k sg epoch c) s
     end ∧
     if is_ok (decode lb) then not_initialized (gossip_verify_envelope_from_lineage b lb) s
     else refused (gossip_verify_envelope_from_lineage b lb) s) ∧
  (is_ok (gossip_init cfg s).1 = false -> (gossip_init cfg s).2.1 = s.1) ∧
  (is_ok (gossip_init_with_lineage cfg lb s).1 = false ->
     (gossip_init_with_lineage cfg lb s).2.1 = s.1) ∧
  (is_ok (gossip_init cfg s).1 = true ->
     ∃ r i l, from_identity i = Ok l ∧ self_derived i ∧
       (gossip_init cfg s).2.1 = mkGlobal (Some (Engine.new r i)) (Some l)) ∧
  (is_ok (gossip_init_with_lineage cfg lb s).1 = true ->
     ∃ r i l, decode lb = Ok l ∧ lineage_keys_match i l = Ok true ∧ node_id i = lin_node_id l ∧
       (gossip_init_with_lineage cfg lb s).2.1 = mkGlobal (Some (Engine.new r i)) (Some l)) ∧
  (∀ e, GOSSIP_STATE s.1 = Some e ->
     gossip_init cfg s = (Err AlreadyInitialized, s) ∧
     gossip_init_with_lineage cfg lb s = (Err AlreadyInitialized, s)).
Proof.
  split_and!.
  - intros Hn. do 14 (split; [first [by apply timed_none|by apply with_engine_none]|]).
    split; [apply get_lineage_none|]. split; [by apply rotate_under_id_none|].
    by apply from_lineage_none.
  - apply atomic_gossip_init.
  - apply atomic_init_with_lineage.
  - destruct (gossip_init cfg s) as [[u|e|] s'] eqn:E; try done. intros _. cbn.
    apply gossip_init_ok in E as (_ & c' & r & i & l & _ & _ & Hl & Hd & ->). by exists r, i, l.
  - destruct (gossip_init_with_lineage cfg lb s) as [[u|e|] s'] eqn:E; try done. intros _. cbn.
    apply init_with_lineage_ok in E as (_ & c' & r & i & l & _ & _ & Hl & Hm & ->).
    by exists r, (with_node_id (lin_node_id l) i), l.
  - intros e He. unfold gossip_init, gossip_init_with_lineage, fail_if_initialized.
    unfold mbind, st_bind. cbn. by rewrite He.
Qed.

Lemma rotate_under_id_api k sg epoch c (e : GossipEngine) l os :
  valid l -> has_room l ->
  match identity_from_seed_bytes k sg epoch, parse_commitment c with
  | Ok next, Ok cm =>
      ∃ r e' l' os', gossip_rotate_keys_under_id k sg epoch c (mkGlobal (Some e) (Some l), os) =
          (r, (mkGlobal (Some e') (Some l'), os')) ∧ rotation_outcome next cm e l r e' l'
  | _, _ => is_ok (gossip_rotate_keys_under_id k sg epoch c
                     (mkGlobal (Some e) (Some l), os)).1 = false ∧
      (gossip_rotate_keys_under_id k sg epoch c (mkGlobal (Some e) (Some l), os)).2 =
        (mkGlobal (Some e) (Some l), os)
  end.
Proof.
  intros Hv Hr. unfold gossip_rotate_keys_under_id. rewrite lift_bind.
  destruct (identity_from_seed_bytes k sg epoch) as [next|err|]; [|done..]. rewrite lift_bind.
  destruct (parse_commitment c) as [cm|err|]; [|done..].
  destruct (time_bind (mkGlobal (Some e) (Some l), os)) as (now & os' & ->).
  destruct (rotate_stored_cases next cm now e l os' Hv Hr) as (r & e' & l' & E & Ho).
  exists r, e', l', os'. unfold with_engine. cbn. by rewrite E.
Qed.

(** C31. Rotating under the stable id, on a node whose statics agree: with
    malformed seeds or commitment nothing happens; otherwise one of three
    outcomes.  Done: the returned bytes encode the stored lineage, which has
    moved to the new keys under the same id, and the engine speaks with those
    keys under that id.  Refused: nothing changed.  Or the extended lineage
    could not be encoded: the engine has moved and the stored lineage has not. *)
Theorem rotation_under_id (k sg : bytes) (epoch : string) (c : option bytes) (e : GossipEngine)
    (l : KeyLineage) (os : Os) (Hw : node_wf e l) (Hr : has_room l) :
  match identity_from_seed_bytes k sg epoch, parse_commitment c with
  | Ok next, Ok cm =>
      ∃ r e' l' os', gossip_rotate_keys_under_id k sg epoch c (mkGlobal (Some e) (Some l), os) =
          (r, (mkGlobal (Some e') (Some l'), os')) ∧
        rotation_outcome next cm e l r e' l' ∧
        node_id (identity e') = node_id (identity e)
  | _, _ => is_ok (gossip_rotate_keys_under_id k sg epoch c
                     (mkGlobal (Some e) (Some l), os)).1 = false ∧
      (gossip_rotate_keys_under_id k sg epoch c (mkGlobal (Some e) (Some l), os)).2 =
        (mkGlobal (Some e) (Some l), os)
  end.
Proof.
  pose proof (rotate_under_id_api k sg epoch c e l os (nw_lineage _ _ Hw) Hr) as H.
  destruct (identity_from_seed_bytes k sg epoch) as [next|err|]; [|done..].
  destruct (parse_commitment c) as [cm|err|]; [|done..].
  destruct H as (r & e' & l' & os' & E & Ho). exists r, e', l', os'. split_and!; try done.
  pose proof (nw_id _ _ Hw) as Hid. by inversion Ho; subst.
Qed.

(** A node whose engine has moved and whose stored lineage has not. *)
Lemma stranded_refused k sg epoch c e l os next :
  node_wf e l -> has_room l -> sig_public_key_bytes next ≠ current_sig_public_key l ->
  is_ok (gossip_rotate_keys_under_id k sg epoch c
           (mkGlobal (Some (under_id l next e)) (Some l), os)).1 = false ∧
  (gossip_rotate_keys_under_id k sg epoch c
     (mkGlobal (Some (under_id l next e)) (Some l), os)).2.1
  = mkGlobal (Some (under_id l next e)) (Some l).
Proof.
  intros Hw Hr Hkey. unfold gossip_rotate_keys_under_id. rewrite lift_bind.
  destruct (identity_from_seed_bytes k sg epoch) as [n2|err|]; [|done..]. rewrite lift_bind.
  destruct (parse_commitment c) as [cm|err|]; [|done..].
  destruct (time_bind (mkGlobal (Some (under_id l next e)) (Some l), os)) as (now & os' & ->).
  unfold with_engine; cbn [GOSSIP_STATE LINEAGE fst snd].
  unfold rotate_stored_lineage; rewrite get_bind, lift_bind; cbn [fst snd ok_or].
  destruct (rotate_under_id_run n2 cm now (under_id l next e) l (nw_lineage _ _ Hw) Hr)
    as [(r2 & l2 & _ & _ & Hk & _)|(err & E)]; [by destruct Hkey|by rewrite E].
Qed.

(** C40. A rotation whose lineage cannot be encoded strands the node.  When the
    rotation to other keys would itself be made and the lineage it leaves cannot
    be written, the call answers that error; but the engine it leaves already signs with the
    new key, under the old id, while the stored lineage is the old one, and from
    then on every rotation under the id, whatever seeds and commitment, is
    refused and changes nothing. *)
Theorem unsaved_rotation_strands (k sg : bytes) (epoch : string) (c cm : option bytes)
    (e : GossipEngine) (l : KeyLineage) (os : Os) (next : NodeIdentity) (msg : string)
    (Hw : node_wf e l) (Hr : has_room l)
    (Hseeds : identity_from_seed_bytes k sg epoch = Ok next) (Hc : parse_commitment c = Ok cm)
    (Hrot : ∀ now, ∃ r l', rotate (identity e) next cm now l = (Ok r, l') ∧
                           encode l' = Err (SerializationError msg))
    (Hkey : sig_public_key_bytes next ≠ current_sig_public_key l) :
  ∃ e1 os1,
    gossip_rotate_keys_under_id k sg epoch c (mkGlobal (Some e) (Some l), os)
    = (Err (SerializationError msg), (mkGlobal (Some e1) (Some l), os1)) ∧
    node_id (identity e1) = node_id (identity e) ∧
    sig_public_key_bytes (identity e1) = sig_public_key_bytes next ∧
    sig_public_key_bytes (identity e1) ≠ current_sig_public_key l ∧
    ∀ k2 sg2 epoch2 c2 os2,
      is_ok (gossip_rotate_keys_under_id k2 sg2 epoch2 c2
               (mkGlobal (Some e1) (Some l), os2)).1 = false ∧
      (gossip_rotate_keys_under_id k2 sg2 epoch2 c2 (mkGlobal (Some e1) (Some l), os2)).2.1
      = mkGlobal (Some e1) (Some l).
Proof.
  destruct (time_bind (mkGlobal (Some e) (Some l), os)) as (now & os1 & Ht).
  exists (under_id l next e), os1. split_and!; [|apply (nw_id _ _ Hw)|done|done|].
  - unfold gossip_rotate_keys_under_id. rewrite Hseeds, lift_bind, Hc, lift_bind, Ht.
    unfold with_engine. cbn [GOSSIP_STATE LINEAGE fst snd].
    unfold rotate_stored_lineage. rewrite get_bind, lift_bind. cbn [fst snd ok_or].
    destruct (Hrot now) as (r & l' & E & He). unfold rotate_keys_under_id. rewrite get_bind.
    rewrite bool_decide_false by (intros []; by rewrite (nw_id _ _ Hw)).
    assert (lin_node_id l' = lin_node_id l) as Hid.
    { destruct (rotate_cases (identity e) next cm now l (nw_lineage _ _ Hw) Hr)
        as [(r2 & l2 & E2 & Hm & _)|(err & E2)]; rewrite E2 in E; [|done].
      injection E as _ <-. apply Hm. }
    unfold mbind, st_bind, zoom, modify, lift. cbn [fst snd]. rewrite E. cbn. rewrite He.
    unfold under_id. by rewrite Hid.
  - intros. by apply stranded_refused.
Qed.
End Theorems.

(** ** The two ways to answer a handshake *)

Section ServerPaths.
Context {X : Ext} {W : WireCodecs}.

(** Everything but who is in the mesh. *)
Record same_but_mesh (e1 e2 : GossipEngine) : Prop := {
  sbm_config : config e1 = config e2;
  sbm_identity : identity e1 = identity e2;
  sbm_sessions : sessions e1 = sessions e2;
  sbm_handshakes : handshakes e1 = handshakes e2;
  sbm_dedup : dedup e1 = dedup e2;
  sbm_quorum : quorum e1 = quorum e2;
  sbm_stats : set_mesh_peers_count 0 (stats e1) = set_mesh_peers_count 0 (stats e2);
}.

Lemma complete_record addr se e :
  same_but_mesh (complete_handshake addr se e) (record_session se e) ∧
  mesh_peers (record_session se e) = mesh_peers e.
Proof.
  split; [|done]. unfold complete_handshake, record_session, add_to_mesh.
  cbn. by destruct (_ && _).
Qed.

(** A finish handled either way: the same answer, and the same engine but for the
    mesh, which only the dispatcher joins. *)
(** The mesh with a peer that joins it if there is room. *)
Definition joined (addr : string) (e : GossipEngine) : list string :=
  if bool_decide (addr ∉ mesh_peers e)
     && (Z.of_nat (length (mesh_peers e)) <? mesh_n_high (config e))%Z
  then mesh_peers e ++ [addr] else mesh_peers e.

Lemma complete_mesh addr se e : mesh_peers (complete_handshake addr se e) = joined addr e.
Proof. unfold complete_handshake, add_to_mesh, joined. cbn. by case_match. Qed.

Lemma finish_both_ways addr b now (s : GossipEngine * Os) :
  classify_incoming b = KHandshakeFinish ->
  let '(r, (e, os)) := build_finish_ack addr b now s in
  ∃ e', process_handshake_bytes addr b now s = (r ≫= λ out, mret (Some out), (e', os)) ∧
    same_but_mesh e' e ∧ mesh_peers e = mesh_peers s.1 ∧
    mesh_peers e' = (if is_ok r then joined addr s.1 else mesh_peers s.1) ∧
    (is_ok r = false -> e' = e).
Proof.
  intros Hc. unfold build_finish_ack, process_handshake_bytes. rewrite !engine_bind, Hc.
  unfold mbind, st_bind, on_handshakes, zoom.
  destruct (Handshakes.process_finish_build_finish_ack addr b (identity s.1) now
    (handshakes s.1, s.2)) as [[[out se]|e|] [m os]]; cbn [fst snd].
  - exists (complete_handshake addr se (set_handshakes m s.1)). split; [reflexivity|].
    split_and!; [apply complete_record|reflexivity|by rewrite complete_mesh|done].
  - by exists (set_handshakes m s.1).
  - by exists (set_handshakes m s.1).
Qed.

(** C26. The host may hand a server's messages to the dispatcher or to the two
    dedicated functions.  A probe gets the same answer and leaves the same state
    either way.  So does a finish, with one difference: the session, the counters
    and the statics are the same; but the dispatcher takes the new peer into the
    mesh, when it is not there and there is room, and the dedicated function
    leaves the mesh as it was.  A finish that is refused leaves the same state. *)
Theorem server_paths_agree (addr : string) (b : bytes) (g : Global) (os : Os) :
  (classify_incoming b = KHandshakeProbe ->
   gossip_process_handshake_bytes addr b (g, os) =
     let '(r, s) := gossip_build_handshake_ack addr b (g, os) in
     (r ≫= λ out, mret (Some out), s)) ∧
  (classify_incoming b = KHandshakeFinish ->
   let '(r, (g1, os1)) := gossip_build_finish_ack addr b (g, os) in
   ∃ g2, gossip_process_handshake_bytes addr b (g, os) = (r ≫= λ out, mret (Some out), (g2, os1)) ∧
     LINEAGE g2 = LINEAGE g1 ∧
     match GOSSIP_STATE g, GOSSIP_STATE g1, GOSSIP_STATE g2 with
     | Some e, Some e1, Some e2 =>
         same_but_mesh e2 e1 ∧ mesh_peers e1 = mesh_peers e ∧
         mesh_peers e2 = (if is_ok r then joined addr e else mesh_peers e) ∧
         (is_ok r = false -> e2 = e1)
     | None, None, None => True
     | _, _, _ => False
     end).
Proof.
  destruct (time_bind (g, os)) as (now & os' & Ht).
  unfold gossip_process_handshake_bytes, gossip_build_handshake_ack, gossip_build_finish_ack.
  rewrite !Ht. unfold with_engine. cbn [fst]. destruct (GOSSIP_STATE g) as [e|] eqn:Eg.
  2: { split; [done|]. intros _. by exists g; rewrite ?Eg. }
  unfold on_engine, zoom. cbn [fst snd]. split; intros Hc.
  - unfold process_handshake_bytes. rewrite !engine_bind, Hc. unfold mbind, st_bind.
    by destruct (on_handshakes _ (e, os')) as [[out|err|] [e' os'']].
  - pose proof (finish_both_ways addr b now (e, os') Hc) as Hf.
    destruct (build_finish_ack addr b now (e, os')) as [r [e1 os1]].
    destruct Hf as (e2 & E & Hf). rewrite E.
    by exists (mkGlobal (Some e2) (LINEAGE g)).
Qed.
End ServerPaths.
