(* ===== verification/Restart.v ===== *)
(** * Restarting a rotated node

    The bytes a rotation under the id returns are all a host has to keep.  A
    fresh component that is given them, and a configuration with the new seeds,
    is the node that was running: its identity, its id, its lineage. *)

From S2P Require Import Prelude Errors Types Extern F64 Config Identity Rotation Lineage LineageThms Engine EngineThms Api ApiThms.
Import Engine Api.

Section Restart.
Context {X : Ext} {W : WireCodecs} `{!FromJson GossipConfig, !Bincode LineageWire}.

(** A configuration text with these seeds and this epoch. *)
Record seeded (cfg : string) (r : ResolvedConfig) (k sg : bytes) (epoch : string) : Prop := {
  sd_read : ∃ c, json_from_str cfg = inr c ∧ resolve c = Ok r;
  sd_kem : kem_seed r = Some k;
  sd_sig : sig_seed r = Some sg;
  sd_epoch : key_epoch r = epoch;
}.

(** The call up to the comparison of the keys. *)
Lemma init_with_lineage_run cfg r k sg epoch i lb l os :
  seeded cfg r k sg epoch -> identity_from_seed_bytes k sg epoch = Ok i -> decode lb = Ok l ->
  gossip_init_with_lineage cfg lb (uninitialized, os) =
  (same ← lift (lineage_keys_match i l);
   if negb same then
     throw (IdentityError ("seeds are not the current keys of lineage "
       +:+ lin_node_id l +:+ " (sequence " +:+ pretty (sequence l) +:+ ")"))
   else install r (with_node_id (lin_node_id l) i) l) (uninitialized, os).
Proof.
  intros [(c & Hc & Hr) Hk Hs He] Hi Hd. unfold gossip_init_with_lineage.
  rewrite (st_bind_run _ _ _ tt (uninitialized, os)) by done.
  unfold from_json. rewrite Hc, lift_bind. cbn [map_err]. rewrite Hr, lift_bind, Hk, Hs.
  by rewrite (config_seeds r k sg epoch i Hi He), lift_bind, Hd, lift_bind.
Qed.

(** Seeds of which one of the two keys is not the lineage's. *)
Lemma other_keys_refused cfg r k sg epoch i lb l os :
  seeded cfg r k sg epoch -> identity_from_seed_bytes k sg epoch = Ok i -> decode lb = Ok l ->
  sig_public_key_bytes i ≠ current_sig_public_key l ∨
  kem_public_key_canonical_bytes i ≠ Ok (current_kem_public_key l) ->
  ∃ msg, gossip_init_with_lineage cfg lb (uninitialized, os)
         = (Err (IdentityError msg), (uninitialized, os)).
Proof.
  intros Hcfg Hi Hd Hk. rewrite (init_with_lineage_run _ _ _ _ _ _ _ _ _ Hcfg Hi Hd).
  assert (lineage_keys_match i l = Ok false) as ->; [|rewrite lift_bind; by eexists].
  apply seed_bytes_inv in Hi as (_ & _ & [(kem & Hkem & _) _]%from_seeds_inv).
  unfold lineage_keys_match. case_bool_decide as Hs; [done|]. rewrite Hkem. unfold_bind.
  rewrite bool_decide_false; [done|]. intros ->. by destruct Hk.
Qed.

Lemma current_seeds_restart cfg r k sg epoch i lb l os :
  seeded cfg r k sg epoch -> identity_from_seed_bytes k sg epoch = Ok i -> decode lb = Ok l ->
  sig_public_key_bytes i = current_sig_public_key l ->
  kem_public_key_canonical_bytes i = Ok (current_kem_public_key l) ->
  gossip_init_with_lineage cfg lb (uninitialized, os)
  = (Ok tt, (mkGlobal (Some (Engine.new r (with_node_id (lin_node_id l) i))) (Some l), os)).
Proof.
  intros Hcfg Hi Hd Hs Hk. rewrite (init_with_lineage_run _ _ _ _ _ _ _ _ _ Hcfg Hi Hd).
  by rewrite (proj2 (lineage_keys_match_ok i l)), lift_bind by done.
Qed.

(** ** The epoch is a label *)

(** The same keys under another epoch. *)
Definition at_epoch (epoch : string) (i : NodeIdentity) : NodeIdentity :=
  mkIdentity (node_id i) (kem_keypair i) (sig_keypair i) epoch.

Lemma seeds_at_epoch k sg epoch epoch' i :
  identity_from_seed_bytes k sg epoch = Ok i ->
  identity_from_seed_bytes k sg epoch' = Ok (at_epoch epoch' i).
Proof.
  unfold identity_from_seed_bytes. do 2 (case_bool_decide; [done|]).
  intros (x & Hx & (m & Hm & Hi)%bind_ok)%bind_ok. unfold_bind. rewrite Hx, Hm. revert Hi.
  unfold from_seeds, identity_of_keys.
  intros (kem & Hk & (sig & Hs & (pk & Hpk & [= <-])%bind_ok)%bind_ok)%bind_ok.
  unfold_bind. by rewrite Hk, Hs, Hpk.
Qed.

Context {L : ExtLaws} {WL : WireLaws} {LC : LineageCodec} {CJ : ConfigJsonLaws}.

(** C19. A rotated node restarts as itself.  When a rotation under the id returned
    bytes within the size limit, a fresh component initialized with these bytes
    and any configuration that has the new seeds, under whatever key epoch, has
    the keys the running node has after the rotation, under the id it always
    had, labelled with the configuration's epoch (the identity itself, if that is
    the rotation's); its lineage; and nothing else: statics that agree, so it can
    rotate on.  A configuration with seeds of which either key is another, such
    as the retired ones, is refused, and the component stays uninitialized. *)
Theorem rotated_node_restarts (k sg : bytes) (epoch : string) (c : option bytes)
    (e : GossipEngine) (l : KeyLineage) (os os1 os2 : Os) (b : bytes) (g1 : Global)
    (Hw : node_wf e l) (Hroom : has_room l)
    (Hrot : gossip_rotate_keys_under_id k sg epoch c (mkGlobal (Some e) (Some l), os)
            = (Ok b, (g1, os1)))
    (Hsize : (Z.of_nat (length b) <= MAX_LINEAGE_BYTES)%Z) :
  ∃ e1 l1, g1 = mkGlobal (Some e1) (Some l1) ∧
    node_id (identity e1) = node_id (identity e) ∧ sequence l1 = (sequence l + 1)%Z ∧
    at_epoch epoch (identity e1) = identity e1 ∧
    (∀ cfg r epoch', seeded cfg r k sg epoch' ->
       gossip_init_with_lineage cfg b (uninitialized, os2)
       = (Ok tt,
          (mkGlobal (Some (Engine.new r (at_epoch epoch' (identity e1)))) (Some l1), os2)) ∧
       node_wf (Engine.new r (at_epoch epoch' (identity e1))) l1) ∧
    (∀ cfg r k0 sg0 epoch0 i0,
       seeded cfg r k0 sg0 epoch0 -> identity_from_seed_bytes k0 sg0 epoch0 = Ok i0 ->
       sig_public_key_bytes i0 ≠ sig_public_key_bytes (identity e1) ∨
       kem_public_key_canonical_bytes i0 ≠ kem_public_key_canonical_bytes (identity e1) ->
       ∃ msg, gossip_init_with_lineage cfg b (uninitialized, os2)
              = (Err (IdentityError msg), (uninitialized, os2))).
Proof.
  pose proof (rotate_under_id_api k sg epoch c e l os (nw_lineage _ _ Hw) Hroom) as H.
  destruct (identity_from_seed_bytes k sg epoch) as [next|err|] eqn:Hi;
    [|destruct H as [H _]; by rewrite Hrot in H..].
  destruct (parse_commitment c) as [cm|err|]; [|destruct H as [H _]; by rewrite Hrot in H..].
  destruct H as (r0 & e1 & l1 & os' & E & Ho). rewrite Hrot in E. injection E as <- -> _.
  inversion Ho as [rec l' b' Hm He| |]; subst l' b' e1.
  assert (decode b = Ok l1) as Hd by (apply decode_encoded; [apply Hm|done..]).
  assert (id_key_epoch next = epoch) as Hepoch.
  { by apply seed_bytes_inv in Hi as (_ & _ & [_ He']%from_seeds_inv). }
  exists (under_id l next e), l1. split; [done|]. split; [apply (nw_id _ _ Hw)|].
  split; [apply Hm|]. split; [by rewrite <- Hepoch|]. split.
  - intros cfg r epoch' Hcfg.
    pose proof (current_seeds_restart cfg r k sg epoch' (at_epoch epoch' next) b l1 os2 Hcfg
      (seeds_at_epoch _ _ _ _ _ Hi) Hd (eq_sym (mv_sig_key _ _ _ _ _ Hm))
      (mv_kem_key _ _ _ _ _ Hm)) as E.
    rewrite (mv_node_id _ _ _ _ _ Hm) in E. split; [exact E|].
    pose proof (init_with_lineage_wf cfg b (uninitialized, os2) I) as Hg. by rewrite E in Hg.
  - intros cfg r k0 sg0 epoch0 i0 Hcfg Hi0 Hne. eapply other_keys_refused; [done..|].
    rewrite (mv_sig_key _ _ _ _ _ Hm), <- (mv_kem_key _ _ _ _ _ Hm). exact Hne.
Qed.
End Restart.
