(* ===== verification/Crossing.v ===== *)
(** * Two nodes that connect to each other

    [witan/src/gossip.rs] and [handshake.rs] when the probes of two nodes cross:
    the manager keeps one context per peer, so answering the peer's probe
    replaces the own one, and no handshake comes of either. *)

From S2P Require Import Prelude Errors Types Extern Config Identity Session Handshake HandshakeThms Engine EngineThms ApiThms.
Import Engine.

Section Crossing.
Context {X : Ext} {W : WireCodecs}.

Definition no_pending_client (addr : string) : GossipError :=
  HandshakeError ("no pending client handshake for " +:+ addr).

(** An acknowledgement for which no probe is pending. *)
Lemma ack_unexpected addr ab i now (s : HandshakeManager * Os) ack :
  receive (A:=HandshakeAck) ab now = Ok ack ->
  length (ack_ml_dsa_65_public_key ack) = 1952%nat ->
  (∀ d, pending s.1 !! addr ≠ Some (Client (ProbeSent d))) ->
  Handshakes.process_ack_build_finish addr ab i now s = (Err (no_pending_client addr), s).
Proof.
  intros Hr Hl Hp. unfold Handshakes.process_ack_build_finish.
  rewrite (st_bind_run _ _ _ ack s) by (by apply lift_ok).
  rewrite bool_decide_false by auto. rewrite get_bind, lift_bind. unfold Handshakes.pending_probe.
  destruct (pending s.1 !! addr) as [[[]|]|] eqn:E; try done. by destruct (Hp d).
Qed.

Lemma ack_refused addr e b err now os :
  classify_incoming b = KHandshakeAck ->
  Handshakes.process_ack_build_finish addr b (identity e) now (handshakes e, os)
  = (Err err, (handshakes e, os)) ->
  process_handshake_bytes addr b now (e, os) = (Err err, (e, os)).
Proof.
  intros Hc H. unfold process_handshake_bytes. rewrite engine_bind, Hc. apply st_bind_stop.
  unfold on_handshakes, zoom. cbn [fst snd]. rewrite H. by destruct e.
Qed.

(** What a heartbeat does to a pending answer to a probe: it stays for ten
    seconds. *)
Lemma heartbeat_pending now e addr d :
  pending (handshakes e) !! addr = Some (Server (AckSent d)) ->
  pending (handshakes (heartbeat now e)) !! addr =
  if bool_decide (10000 < now - as_sent_at_ms d)%Z then None else Some (Server (AckSent d)).
Proof.
  intros Hp. rewrite heartbeat_handshakes. cbn. case_bool_decide as Ht.
  - apply map_lookup_filter_None_2. right. intros c Hc. rewrite Hp in Hc. injection Hc as <-. cbn.
    apply not_false_iff_true, Z.ltb_lt. unfold saturating_sub, HANDSHAKE_TIMEOUT_MS in *. lia.
  - apply map_lookup_filter_Some_2; [done|]. cbn. apply Z.ltb_ge.
    unfold saturating_sub, HANDSHAKE_TIMEOUT_MS in *. lia.
Qed.

(** ** One of the two nodes *)

Section Sides.
Context {L : ExtLaws} {WL : WireLaws} {WT : WireTotal}.

(** Two nonces, and a KEM key to show. *)
Definition side_ok (i : NodeIdentity) (os : Os) : Prop :=
  ∃ n1 os1 n2 os2 kj,
    getrandom 32 os = (inr n1, os1) ∧ getrandom 32 os1 = (inr n2, os2) ∧
    kem_pk_to_json (kem_public_key (kem_keypair i)) = inr kj ∧ short (String.length kj).

(** The times of a node: its probe, its answer to the other's, the other's
    answer to its own. *)
Record times : Type := mkTimes { probe_at : Z; ack_at : Z; got_ack_at : Z }.

Definition timely (t u : times) : Prop :=
  in_time (probe_at t) (ack_at u) (got_ack_at t) (got_ack_at t) (got_ack_at t).

(** What a node has after it answered the other's probe. *)
Definition answering (addr : string) (e e2 : GossipEngine) (cn pb ab : bytes) (t : Z) : Prop :=
  identity e2 = identity e ∧ sessions e2 = sessions e ∧
  ∃ sn, pending (handshakes e2) !! addr = Some (Server (AckSent (mkAckSent cn sn pb ab t))).

Lemma sends_probe addr e i' os n1 os1 t u :
  timely t u -> names_short addr (identity e) i' -> Store.get (sessions e) addr = None ->
  getrandom 32 os = (inr n1, os1) ->
  ∃ p m, on_probe addr (identity e) (probe_at t) n1 p ∧
    connect_peer addr (probe_at t) (e, os) = (Ok p, (set_handshakes m e, os1)).
Proof.
  intros Ht Hn Hs Hr.
  destruct (run_probe addr (identity e) i' _ _ _ _ _ (handshakes e) os os1 n1 Ht Hn Hr) as (p & Hp & E).
  eexists p, _. split; [done|]. by apply connect_run.
Qed.

(** [self] is the address the other node has for this one. *)
Lemma answers_probe self addr e m i' os n2 os2 kj cn p' t u :
  timely u t -> names_short self i' (identity e) ->
  on_probe self i' (probe_at u) cn p' ->
  getrandom 32 os = (inr n2, os2) ->
  kem_pk_to_json (kem_public_key (kem_keypair (identity e))) = inr kj -> short (String.length kj) ->
  ∃ a e2, on_ack self i' (identity e) (probe_at u) (ack_at t) cn p' n2 kj a ∧
    answering addr e e2 cn p' a (ack_at t) ∧
    process_handshake_bytes addr p' (ack_at t) (set_handshakes m e, os) = (Ok (Some a), (e2, os2)).
Proof.
  intros Ht Hn Hp Hr Hkj Hkjs.
  destruct (run_ack addr self i' (identity e) _ _ _ _ _ m os os2 cn p' n2 kj Ht Hn Hp Hr Hkj Hkjs)
    as (a & Ha & E).
  eexists a, _. split; [exact Ha|]. split; [|apply probe_run; [by eapply probe_classified|exact E]].
  split; [done|]. split; [done|]. eexists. apply lookup_insert_eq.
Qed.

Lemma refuses_ack self addr e e2 i' cn p' a t u cn1 p1 sn kj b os :
  timely t u -> answering addr e e2 cn p' a (ack_at t) ->
  on_ack self (identity e) i' (probe_at t) (ack_at u) cn1 p1 sn kj b ->
  process_handshake_bytes addr b (got_ack_at t) (e2, os)
  = (Err (no_pending_client addr), (e2, os)).
Proof.
  intros Ht (Hi & _ & sn' & Hpend) Hb.
  apply ack_refused; [by eapply ack_classified|].
  destruct Hb as [_ _ _ Hw], Ht as [_ _ D2 _ _].
  eapply ack_unexpected; [by apply receive_wire_out, header_fresh| |].
  - apply sig_public_key_bytes_length.
  - intros d. cbn [fst]. by rewrite Hpend.
Qed.

(** C25. Crossing probes lose both handshakes.  Let two nodes without a session
    connect to each other, and both probes arrive before either answer, every
    message within the time its receiver allows, and nothing fail that the
    operating system and the foreign code do for them.  Then both probes are
    answered, and both answers are refused and change nothing: each node has
    replaced its own handshake by the other's.  Those are all the messages there
    are, and neither node has a session.  What each has pending is the answer to a
    probe whose sender no longer waits for it: a heartbeat at most ten seconds
    after that answer keeps it, a later one drops it. *)
Theorem crossing_probes_lost (a b : string) (ea eb : GossipEngine) (osa osb : Os) (t u : times)
    (Hsa : Store.get (sessions ea) b = None) (Hsb : Store.get (sessions eb) a = None)
    (Hoa : side_ok (identity ea) osa) (Hob : side_ok (identity eb) osb)
    (Hna : names_short b (identity ea) (identity eb))
    (Hnb : names_short a (identity eb) (identity ea))
    (Ht : timely t u) (Hu : timely u t) :
  ∃ pa pb aa ab sa1 sb1 sa2 sb2,
    connect_peer b (probe_at t) (ea, osa) = (Ok pa, sa1) ∧
    connect_peer a (probe_at u) (eb, osb) = (Ok pb, sb1) ∧
    process_handshake_bytes b pb (ack_at t) sa1 = (Ok (Some aa), sa2) ∧
    process_handshake_bytes a pa (ack_at u) sb1 = (Ok (Some ab), sb2) ∧
    process_handshake_bytes b ab (got_ack_at t) sa2 = (Err (no_pending_client b), sa2) ∧
    process_handshake_bytes a aa (got_ack_at u) sb2 = (Err (no_pending_client a), sb2) ∧
    Store.get (sessions sa2.1) b = None ∧ Store.get (sessions sb2.1) a = None ∧
    ∃ da db,
      pending (handshakes sa2.1) !! b = Some (Server (AckSent da)) ∧
      pending (handshakes sb2.1) !! a = Some (Server (AckSent db)) ∧
      (∀ now, pending (handshakes (heartbeat now sa2.1)) !! b =
              if bool_decide (10000 < now - ack_at t)%Z then None else Some (Server (AckSent da))) ∧
      (∀ now, pending (handshakes (heartbeat now sb2.1)) !! a =
              if bool_decide (10000 < now - ack_at u)%Z then None else Some (Server (AckSent db))).
Proof.
  destruct Hoa as (na1 & osa1 & na2 & osa2 & kja & Ra1 & Ra2 & Hkja & Hkjas).
  destruct Hob as (nb1 & osb1 & nb2 & osb2 & kjb & Rb1 & Rb2 & Hkjb & Hkjbs).
  destruct (sends_probe b ea (identity eb) osa na1 osa1 t u Ht Hna Hsa Ra1) as (pa & ma & Hpa & Ea1).
  destruct (sends_probe a eb (identity ea) osb nb1 osb1 u t Hu Hnb Hsb Rb1) as (pb & mb & Hpb & Eb1).
  destruct (answers_probe a b ea ma (identity eb) osa1 na2 osa2 kja nb1 pb t u)
    as (aa & ea2 & Haa & Hansa & Ea2); [done..|].
  destruct (answers_probe b a eb mb (identity ea) osb1 nb2 osb2 kjb na1 pa u t)
    as (ab & eb2 & Hab & Hansb & Eb2); [done..|].
  pose proof (refuses_ack b b ea ea2 (identity eb) nb1 pb aa t u na1 pa nb2 kjb ab osa2 Ht Hansa Hab) as Ea3.
  pose proof (refuses_ack a a eb eb2 (identity ea) na1 pa ab u t nb1 pb na2 kja aa osb2 Hu Hansb Haa) as Eb3.
  destruct Hansa as (_ & Hssa & sna & Hpa2), Hansb as (_ & Hssb & snb & Hpb2).
  eexists pa, pb, aa, ab, _, _, (ea2, osa2), (eb2, osb2). cbn [fst snd].
  do 6 (split; [eassumption|]). rewrite Hssa, Hssb. do 2 (split; [done|]).
  eexists _, _. split; [exact Hpa2|]. split; [exact Hpb2|].
  split; intros now; [by apply (heartbeat_pending _ _ _ _ Hpa2)|by apply (heartbeat_pending _ _ _ _ Hpb2)].
Qed.
End Sides.
End Crossing.
