(* ===== verification/Component.v ===== *)
(** * The component interface

    [witan/src/component.rs]: the error variants of the exported world
    ([witan/wit/gossip-protocol.wit]), the mapping of the crate's errors to
    them, and the two [Guest] implementations, each function a call of the API
    with its error mapped. *)

From S2P Require Import Prelude Errors Types Extern Config Session Identity Rotation Handshake Engine Api.
Import Api.

(** The variant [gossip-error] of the WIT interface. *)
Inductive WitError : Type :=
  | WitNotInitialized
  | WitAlreadyInitialized
  | WitConfigError (s : string)
  | WitIdentityError (s : string)
  | WitHandshakeError (s : string)
  | WitSessionNotFound (s : string)
  | WitEnvelopeError (s : string)
  | WitSignatureInvalid
  | WitReplayDetected
  | WitTtlExpired
  | WitPeerNotFound (s : string)
  | WitQuorumNotReached
  | WitSerializationError (s : string)
  | WitCryptoError (s : string)
  | WitInvalidInput (s : string).

(** [impl From<GossipError> for WitError]. *)
Definition wit_error (e : GossipError) : WitError :=
  match e with
  | NotInitialized => WitNotInitialized
  | AlreadyInitialized => WitAlreadyInitialized
  | ConfigError s => WitConfigError s
  | IdentityError s => WitIdentityError s
  | HandshakeError s => WitHandshakeError s
  | SessionNotFound s => WitSessionNotFound s
  | EnvelopeError s => WitEnvelopeError s
  | SignatureInvalid => WitSignatureInvalid
  | ReplayDetected => WitReplayDetected
  | TtlExpired => WitTtlExpired
  | PeerNotFound s => WitPeerNotFound s
  | QuorumNotReached => WitQuorumNotReached
  | SerializationError s => WitSerializationError s
  | CryptoError s => WitCryptoError s
  | InvalidInput s => WitInvalidInput s
  end.

#[export] Instance wit_error_inj : Inj (=) (=) wit_error.
Proof. intros [] []; cbn; congruence. Qed.

(** [.map_err(Into::into)]. *)
Definition wit_result {A} (r : res A) : result WitError A :=
  match r with
  | Ok a => Ok a
  | Err e => Err (wit_error e)
  | Panic => Panic
  end.

Definition wit {S A} (m : method S A) : ST S WitError A :=
  λ s, let '(r, s') := m s in (wit_result r, s').

(** The mapping can be undone: no error, success or panic is confused. *)
#[export] Instance wit_result_inj {A} : Inj (=) (=) (@wit_result A).
Proof.
  intros [a1|e1|] [a2|e2|]; cbn; try done; intros [= H]; [by subst|].
  apply (inj wit_error) in H. by subst.
Qed.

Module Guest.

Section Guest.
Context {X : Ext} {W : WireCodecs} {J : JsonOut} `{!FromJson GossipConfig}.
Context `{!Bincode LineageWire}.

Abbreviation exported A := (ST (Global * Os) WitError A).

(** ** The interface [gossip-protocol] *)

Definition gossip_init (config_json : string) : exported unit :=
  wit (Api.gossip_init config_json).
Definition gossip_publish (payload_type_id : Z) (payload : bytes) : exported bytes :=
  wit (Api.gossip_publish payload_type_id payload).
Definition gossip_connect_peer (peer_addr : string) : exported bytes :=
  wit (Api.gossip_connect_peer peer_addr).
Definition gossip_disconnect_peer (peer_addr : string) : exported unit :=
  wit (Api.gossip_disconnect_peer peer_addr).
Definition gossip_get_peers : exported string := wit Api.gossip_get_peers.
Definition gossip_get_session (peer_addr : string) : exported string :=
  wit (Api.gossip_get_session peer_addr).
Definition gossip_get_node_identity : exported string := wit Api.gossip_get_node_identity.
Definition gossip_rotate_keys : exported string := wit Api.gossip_rotate_keys.
Definition gossip_verify_envelope (envelope_bytes : bytes) : exported bool :=
  wit (Api.gossip_verify_envelope envelope_bytes).
Definition gossip_encode_envelope (payload_type_id : Z) (payload : bytes) : exported bytes :=
  wit (Api.gossip_encode_envelope payload_type_id payload).
Definition gossip_decode_envelope (b : bytes) : exported string :=
  wit (Api.gossip_decode_envelope b).
Definition gossip_get_stats : exported string := wit Api.gossip_get_stats.
Definition gossip_process_handshake_bytes (peer_addr : string) (b : bytes) :
    exported (option bytes) :=
  wit (Api.gossip_process_handshake_bytes peer_addr b).
Definition gossip_build_handshake_ack (peer_addr : string) (probe_bytes : bytes) :
    exported bytes :=
  wit (Api.gossip_build_handshake_ack peer_addr probe_bytes).
Definition gossip_build_finish_ack (peer_addr : string) (finish_bytes : bytes) :
    exported bytes :=
  wit (Api.gossip_build_finish_ack peer_addr finish_bytes).
Definition gossip_now_ms : exported Z := wit Api.gossip_now_ms.
Definition gossip_verify_signature (public_key message signature context : bytes) :
    result WitError bool :=
  wit_result (Api.gossip_verify_signature public_key message signature context).
Definition gossip_get_version : string := Api.gossip_get_version.

(** ** The interface [key-lineage] *)

Definition gossip_init_with_lineage (config_json : string) (lineage : bytes) : exported unit :=
  wit (Api.gossip_init_with_lineage config_json lineage).
Definition gossip_rotate_keys_under_id (kem_seed sig_seed : bytes) (key_epoch : string)
    (next_key_commitment : option bytes) : exported bytes :=
  wit (Api.gossip_rotate_keys_under_id kem_seed sig_seed key_epoch next_key_commitment).
Definition gossip_recover_lineage (lineage kem_seed sig_seed : bytes) (key_epoch : string)
    (next_key_commitment : option bytes) : exported bytes :=
  wit (Api.gossip_recover_lineage lineage kem_seed sig_seed key_epoch next_key_commitment).
Definition gossip_get_key_lineage : exported bytes := wit Api.gossip_get_key_lineage.
Definition gossip_verify_key_lineage (lineage : bytes) : result WitError string :=
  wit_result (Api.gossip_verify_key_lineage lineage).
Definition gossip_verify_envelope_from_lineage (envelope_bytes lineage : bytes) : exported bool :=
  wit (Api.gossip_verify_envelope_from_lineage envelope_bytes lineage).
Definition gossip_key_commitment (sig_seed : bytes) : result WitError bytes :=
  wit_result (Api.gossip_key_commitment sig_seed).
End Guest.

End Guest.
