(* ===== verification/ComponentThms.v ===== *)
(** * The component never traps

    A panic of the crate aborts the component ([panic = "abort"]).  The crate
    has panicking operations: two [expect]s on the key derivation and the MAC,
    slices of the seeds, an index into the records of a lineage.  None of them
    is ever reached in a bad state: no exported function panics in any state
    the exported functions can produce. *)

From S2P Require Import Prelude Errors Types Extern F64 Config Session Identity Envelope Rotation Lineage LineageThms Handshake HandshakeThms Engine EngineThms Api ApiThms Component.
Import Engine Api.

Section PanicFree.
Context {X : Ext} {W : WireCodecs} {L : ExtLaws}.

(** Split a method into its statements. *)
Ltac pf_step :=
  first
    [ apply panic_free_bind; [|intros ?]
    | apply panic_free_lift; auto with witan
    | apply panic_free_os_call
    | apply panic_free_zoom
    | done ].

Lemma receive_no_panic {A} `{HandshakeMessage A} `{!Bincode A} b now :
  receive (A:=A) b now ≠ Panic.
Proof.
  unfold receive. apply bind_no_panic; [apply map_err_no_panic|]. intros m _.
  apply bind_no_panic; [|done]. unfold check_header. by repeat case_match.
Qed.

Lemma wire_out_no_panic {A} `{HandshakeMessage A} `{!Bincode A} (m : A) : wire_out m ≠ Panic.
Proof. apply map_err_no_panic. Qed.

Lemma server_mac_no_panic k m : compute_server_mac k m ≠ Panic.
Proof. by destruct (compute_server_mac_ok k m) as (t & -> & _). Qed.

Lemma session_id_no_panic ss cn sn ct id : derive_session_id ss cn sn ct id ≠ Panic.
Proof. by destruct (derive_session_id_ok ss cn sn ct id) as (t & -> & _). Qed.

Lemma pending_probe_no_panic addr m : Handshakes.pending_probe addr m ≠ Panic.
Proof. unfold Handshakes.pending_probe. by repeat case_match. Qed.

Lemma expect_ack_no_panic addr c : Handshakes.expect_ack_sent addr c ≠ Panic.
Proof. unfold Handshakes.expect_ack_sent. by repeat case_match. Qed.

Lemma expect_finish_no_panic addr c : Handshakes.expect_finish_sent addr c ≠ Panic.
Proof. unfold Handshakes.expect_finish_sent. by repeat case_match. Qed.

#[local] Hint Resolve receive_no_panic wire_out_no_panic server_mac_no_panic session_id_no_panic
  pending_probe_no_panic expect_ack_no_panic expect_finish_no_panic sign_no_panic
  verify_external_no_panic map_err_no_panic : witan.

Lemma build_probe_pf addr i now : panic_free (Handshakes.build_probe addr i now).
Proof. unfold Handshakes.build_probe. repeat pf_step. Qed.

Lemma process_probe_pf addr b i now : panic_free (Handshakes.process_probe_build_ack addr b i now).
Proof. unfold Handshakes.process_probe_build_ack. repeat pf_step. Qed.

Lemma process_ack_pf addr b i now : panic_free (Handshakes.process_ack_build_finish addr b i now).
Proof.
  unfold Handshakes.process_ack_build_finish, Handshakes.secret_32, Handshakes.ciphertext_bytes.
  repeat (pf_step || case_match).
Qed.

Lemma process_finish_pf addr b i now :
  panic_free (Handshakes.process_finish_build_finish_ack addr b i now).
Proof.
  unfold Handshakes.process_finish_build_finish_ack, Handshakes.secret_32,
    Handshakes.ciphertext_bytes.
  repeat (pf_step || case_match).
Qed.

Lemma process_finish_ack_pf addr b now : panic_free (Handshakes.process_finish_ack addr b now).
Proof. unfold Handshakes.process_finish_ack. cbv zeta. repeat (pf_step || case_match). Qed.

Lemma connect_pf addr now : panic_free (connect_peer addr now).
Proof.
  unfold connect_peer, engine. repeat (pf_step || case_match).
Qed.

Lemma process_pf addr b now : panic_free (process_handshake_bytes addr b now).
Proof.
  apply panic_free_bind; [done|intros e]. destruct (classify_incoming b); [..|done].
  - apply panic_free_bind; [|done]. apply panic_free_zoom, process_probe_pf.
  - apply panic_free_bind; [|done]. apply panic_free_zoom, process_ack_pf.
  - apply panic_free_bind; [apply panic_free_zoom, process_finish_pf|by intros []].
  - apply panic_free_bind; [apply panic_free_zoom, process_finish_ack_pf|done].
Qed.

Lemma publish_pf v p now : panic_free (publish v p now).
Proof. intros s. by destruct (publish_cases v p now s). Qed.

Lemma payload_type_no_panic v : payload_type_of v ≠ Panic.
Proof. unfold payload_type_of. by destruct (from_u8 v). Qed.

Lemma encode_pf v p now : panic_free (encode_envelope v p now).
Proof.
  apply panic_free_lift_bind; [apply payload_type_no_panic|intros t _].
  apply panic_free_bind; [done|intros e].
  apply panic_free_lift_bind; [apply build_envelope_no_panic|intros env _].
  apply panic_free_lift, map_err_no_panic.
Qed.

Lemma verify_pf b now : panic_free (verify_envelope_bytes b now).
Proof.
  intros s. rewrite verify_run.
  pose proof (map_err_no_panic (E:=GossipError)
    (λ e, SerializationError ("bincode decode failed: " +:+ e)) (deserialize (A:=GossipEnvelope) b)).
  unfold decode_envelope. destruct (map_err _ _) as [env|e|]; try done.
  pose proof (verify_envelope_no_panic env (config s.1) now). by case_match.
Qed.

Lemma disconnect_pf addr : panic_free (disconnect_peer addr).
Proof. intros s. rewrite disconnect_run. by case_match. Qed.

Lemma rotate_keys_pf epoch : panic_free (rotate_keys epoch).
Proof.
  apply panic_free_bind; [|done].
  apply panic_free_bind; [apply panic_free_os_call|intros kem].
  apply panic_free_bind; [apply panic_free_os_call|intros sig].
  apply panic_free_lift. unfold identity_of_keys.
  apply bind_no_panic; [apply kem_bytes_no_panic|done].
Qed.
End PanicFree.

Section Exports.
Context {X : Ext} {W : WireCodecs} {J : JsonOut} `{!FromJson GossipConfig}.
Context `{!Bincode LineageWire}.

Lemma with_engine_pf {A} (f : method ((GossipEngine * option KeyLineage) * Os) A) :
  panic_free f -> panic_free (with_engine f).
Proof.
  intros Hf s. unfold with_engine. destruct (GOSSIP_STATE s.1) as [e|]; [|done].
  specialize (Hf (e, LINEAGE s.1, s.2)). by destruct (f _) as [r [[e' l'] os']].
Qed.

Lemma on_engine_pf {A} (m : method (GossipEngine * Os) A) :
  panic_free m -> panic_free (with_engine (on_engine m)).
Proof. intros Hm. by apply with_engine_pf, panic_free_zoom. Qed.

Lemma time_pf : panic_free current_time_unix_ms.
Proof.
  intros s. unfold current_time_unix_ms, Handshakes.current_time_unix_ms.
  by destruct (system_time_ms s.2).
Qed.

(** Read the clock, then call the engine. *)
Lemma timed_pf {A} (m : Z -> method (GossipEngine * Os) A) :
  (∀ now, panic_free (m now)) ->
  panic_free (current_time_unix_ms ≫= λ now, with_engine (on_engine (m now))).
Proof. intros Hm. apply panic_free_bind; [apply time_pf|intros now]. apply on_engine_pf, Hm. Qed.

Lemma to_json_no_panic {A} `{!ToJson A} (a : A) : to_json a ≠ Panic.
Proof. apply map_err_no_panic. Qed.

Lemma report_pf {A} (f : GossipEngine -> res A) : (∀ e, f e ≠ Panic) -> panic_free (report f).
Proof.
  intros Hf. apply with_engine_pf, panic_free_bind; [done|]. intros s. by apply panic_free_lift.
Qed.

Lemma config_seeds_no_panic r kem sig :
  length kem = 96%nat -> identity_from_config_seeds r kem sig ≠ Panic.
Proof.
  intros Hk. unfold identity_from_config_seeds. rewrite !slice_ok by lia. apply from_seeds_no_panic.
Qed.

Lemma from_identity_no_panic i : from_identity i ≠ Panic.
Proof.
  unfold from_identity. apply bind_no_panic; [apply kem_bytes_no_panic|intros k _].
  apply bind_no_panic; [apply inception_no_panic|intros l _]. by case_match.
Qed.

Lemma fail_if_initialized_pf : panic_free fail_if_initialized.
Proof. intros s. unfold fail_if_initialized. rewrite get_bind. by case_match. Qed.

Lemma install_pf r i l : panic_free (install r i l).
Proof.
  apply panic_free_bind; [apply fail_if_initialized_pf|intros []].
  apply panic_free_bind; [done|intros []]. by apply panic_free_zoom.
Qed.

Context {L : ExtLaws} {LC : LineageCodec}.

Lemma generate_pf {S} epoch : panic_free (generate (S:=S) epoch).
Proof.
  apply panic_free_bind; [apply panic_free_os_call|intros kem].
  apply panic_free_bind; [apply panic_free_os_call|intros sig].
  apply panic_free_lift, identity_of_keys_no_panic.
Qed.

Lemma gossip_init_pf cfg : panic_free (gossip_init cfg).
Proof.
  apply panic_free_bind; [apply fail_if_initialized_pf|intros []].
  apply panic_free_lift_bind; [apply map_err_no_panic|intros c _].
  apply panic_free_lift_bind; [apply resolve_no_panic|intros r Hr].
  apply resolve_inv in Hr as [_ Hr]. apply panic_free_bind.
  - destruct (kem_seed r) as [kem|] eqn:Ek; [|apply generate_pf].
    destruct (sig_seed r) as [sg|]; [|apply generate_pf].
    apply panic_free_lift, config_seeds_no_panic. by apply (wf_kem_seed _ Hr).
  - intros i. apply panic_free_lift_bind; [apply from_identity_no_panic|intros l _].
    apply install_pf.
Qed.

Lemma init_with_lineage_pf cfg lb : panic_free (gossip_init_with_lineage cfg lb).
Proof.
  apply panic_free_bind; [apply fail_if_initialized_pf|intros []].
  apply panic_free_lift_bind; [apply map_err_no_panic|intros c _].
  apply panic_free_lift_bind; [apply resolve_no_panic|intros r Hr].
  apply resolve_inv in Hr as [_ Hr].
  destruct (kem_seed r) as [kem|] eqn:Ek; [|done]. destruct (sig_seed r) as [sg|]; [|done].
  apply panic_free_lift_bind; [apply config_seeds_no_panic; by apply (wf_kem_seed _ Hr)|intros i _].
  apply panic_free_lift_bind; [apply decode_no_panic|intros l _].
  apply panic_free_lift_bind; [|intros b _; destruct b; [apply install_pf|done]].
  unfold lineage_keys_match. case_match; [done|].
  apply bind_no_panic; [apply kem_bytes_no_panic|done].
Qed.

Lemma verify_from_lineage_pf b lb : panic_free (gossip_verify_envelope_from_lineage b lb).
Proof.
  apply panic_free_lift_bind; [apply decode_no_panic|intros l _]. apply timed_pf. intros now.
  apply panic_free_lift_bind; [apply map_err_no_panic|intros env _].
  unfold check_envelope_sender. repeat case_match; simplify_eq; try done. apply verify_pf.
Qed.

Lemma encode_no_panic l : encode l ≠ Panic.
Proof. apply map_err_no_panic. Qed.

Lemma recover_pf lb k sg epoch c : panic_free (gossip_recover_lineage lb k sg epoch c).
Proof.
  apply panic_free_lift_bind; [apply decode_no_panic|intros l Hl%decode_valid].
  apply panic_free_lift_bind; [apply seed_bytes_no_panic|intros next _].
  apply panic_free_lift_bind; [apply parse_commitment_no_panic|intros cm _].
  apply panic_free_bind; [apply time_pf|intros now].
  pose proof (recover_no_panic next cm now l Hl) as Hp.
  destruct (recover next cm now l) as [r l']. cbn in Hp.
  apply panic_free_lift_bind; [done|]. intros _ _. apply panic_free_lift, encode_no_panic.
Qed.

Lemma rotate_under_id_no_panic k sg epoch c (s : Global * Os) :
  global_wf s.1 -> (gossip_rotate_keys_under_id k sg epoch c s).1 ≠ Panic.
Proof.
  intros Hg. unfold gossip_rotate_keys_under_id. rewrite lift_bind.
  pose proof (seed_bytes_no_panic k sg epoch).
  destruct (identity_from_seed_bytes k sg epoch) as [next| |]; try done. rewrite lift_bind.
  pose proof (parse_commitment_no_panic c). destruct (parse_commitment c) as [cm| |]; try done.
  destruct (time_bind s) as (now & os' & ->).
  destruct s as [[[e|] [l|]] os]; try done. unfold with_engine. cbn [GOSSIP_STATE LINEAGE fst snd].
  pose proof (nw_lineage _ _ Hg) as Hv.
  unfold rotate_stored_lineage. rewrite get_bind, lift_bind. cbn [fst snd ok_or].
  assert ((rotate_keys_under_id next cm now (e, l)).1 ≠ Panic) as Hp.
  { unfold rotate_keys_under_id. rewrite get_bind. case_match; [done|].
    pose proof (rotate_no_panic (identity e) next cm now l Hv) as Hb.
    unfold mbind, st_bind, zoom. cbn [fst snd].
    by destruct (rotate (identity e) next cm now l) as [[] ?]. }
  destruct (rotate_keys_under_id next cm now (e, l)) as [r [e' l']].
  unfold mbind, st_bind, modify, lift. cbn. cbn in Hp. destruct r as [rot|err|]; try done. cbn.
  pose proof (encode_no_panic l'). by destruct (encode l').
Qed.
End Exports.

(** ** The exported world as a whole *)

Section World.
Context {X : Ext} {W : WireCodecs} {J : JsonOut} `{!FromJson GossipConfig}.
Context `{!Bincode LineageWire}.

(** A call the host can make. *)
Inductive host_call : Type :=
  | call_init (cfg : string)
  | call_init_with_lineage (cfg : string) (lineage : bytes)
  | call_publish (payload_type_id : Z) (payload : bytes)
  | call_connect_peer (addr : string)
  | call_disconnect_peer (addr : string)
  | call_get_peers
  | call_get_session (addr : string)
  | call_get_node_identity
  | call_rotate_keys
  | call_verify_envelope (b : bytes)
  | call_encode_envelope (payload_type_id : Z) (payload : bytes)
  | call_decode_envelope (b : bytes)
  | call_get_stats
  | call_process_handshake_bytes (addr : string) (b : bytes)
  | call_build_handshake_ack (addr : string) (b : bytes)
  | call_build_finish_ack (addr : string) (b : bytes)
  | call_now_ms
  | call_verify_signature (public_key message signature context : bytes)
  | call_rotate_keys_under_id (kem_seed sig_seed : bytes) (epoch : string) (c : option bytes)
  | call_recover_lineage (lineage kem_seed sig_seed : bytes) (epoch : string) (c : option bytes)
  | call_get_key_lineage
  | call_verify_key_lineage (lineage : bytes)
  | call_verify_envelope_from_lineage (b lineage : bytes)
  | call_key_commitment (sig_seed : bytes).

(** Run a call for its effect and its success. *)
Definition discard {S E A} (m : ST S E A) : ST S E unit := m ≫= λ _, mret tt.

Definition run_call (c : host_call) : ST (Global * Os) WitError unit :=
  match c with
  | call_init cfg => Guest.gossip_init cfg
  | call_init_with_lineage cfg lb => Guest.gossip_init_with_lineage cfg lb
  | call_publish v p => discard (Guest.gossip_publish v p)
  | call_connect_peer addr => discard (Guest.gossip_connect_peer addr)
  | call_disconnect_peer addr => Guest.gossip_disconnect_peer addr
  | call_get_peers => discard Guest.gossip_get_peers
  | call_get_session addr => discard (Guest.gossip_get_session addr)
  | call_get_node_identity => discard Guest.gossip_get_node_identity
  | call_rotate_keys => discard Guest.gossip_rotate_keys
  | call_verify_envelope b => discard (Guest.gossip_verify_envelope b)
  | call_encode_envelope v p => discard (Guest.gossip_encode_envelope v p)
  | call_decode_envelope b => discard (Guest.gossip_decode_envelope b)
  | call_get_stats => discard Guest.gossip_get_stats
  | call_process_handshake_bytes addr b => discard (Guest.gossip_process_handshake_bytes addr b)
  | call_build_handshake_ack addr b => discard (Guest.gossip_build_handshake_ack addr b)
  | call_build_finish_ack addr b => discard (Guest.gossip_build_finish_ack addr b)
  | call_now_ms => discard Guest.gossip_now_ms
  | call_verify_signature pk m s c => discard (lift (Guest.gossip_verify_signature pk m s c))
  | call_rotate_keys_under_id k sg e c => discard (Guest.gossip_rotate_keys_under_id k sg e c)
  | call_recover_lineage lb k sg e c => discard (Guest.gossip_recover_lineage lb k sg e c)
  | call_get_key_lineage => discard Guest.gossip_get_key_lineage
  | call_verify_key_lineage lb => discard (lift (Guest.gossip_verify_key_lineage lb))
  | call_verify_envelope_from_lineage b lb =>
      discard (Guest.gossip_verify_envelope_from_lineage b lb)
  | call_key_commitment sg => discard (lift (Guest.gossip_key_commitment sg))
  end.

Lemma wit_pf {S A} (m : method S A) : panic_free m -> panic_free (wit m).
Proof. intros Hm s. specialize (Hm s). unfold wit. by destruct (m s) as [[] ?]. Qed.

Lemma discard_pf {S E A} (m : ST S E A) : panic_free m -> panic_free (discard m).
Proof. intros Hm. by apply panic_free_bind. Qed.

Lemma wit_result_no_panic {A} (r : res A) : r ≠ Panic -> wit_result r ≠ Panic.
Proof. by destruct r. Qed.

Context {L : ExtLaws} {LC : LineageCodec}.

Lemma build_ack_pf addr b : panic_free (gossip_build_handshake_ack addr b).
Proof.
  apply timed_pf. intros now. apply panic_free_bind; [done|intros e].
  apply panic_free_zoom, process_probe_pf.
Qed.

Lemma build_finish_pf addr b : panic_free (gossip_build_finish_ack addr b).
Proof.
  apply timed_pf. intros now. apply panic_free_bind; [done|intros e].
  apply panic_free_bind; [apply panic_free_zoom, process_finish_pf|by intros []].
Qed.

Lemma stats_pf : panic_free gossip_get_stats.
Proof.
  apply timed_pf. intros now. apply panic_free_bind; [done|intros _].
  apply panic_free_bind; [done|intros e]. apply panic_free_lift, to_json_no_panic.
Qed.

Lemma reports_pf addr :
  panic_free gossip_get_peers ∧ panic_free gossip_get_node_identity ∧
  panic_free (gossip_get_session addr).
Proof.
  split_and!; apply report_pf; intros e.
  - apply to_json_no_panic.
  - apply bind_no_panic; [|intros v _; apply to_json_no_panic].
    apply bind_no_panic; [apply map_err_no_panic|done].
  - apply bind_no_panic; [by destruct (Store.get _ _)|intros v _; apply to_json_no_panic].
Qed.

Lemma rotate_keys_api_pf : panic_free gossip_rotate_keys.
Proof.
  apply with_engine_pf, panic_free_bind; [done|intros s].
  apply panic_free_bind; [apply panic_free_zoom, rotate_keys_pf|intros id].
  apply panic_free_bind; [done|intros s'].
  apply panic_free_lift_bind; [apply from_identity_no_panic|intros l _].
  apply panic_free_bind; [by apply panic_free_zoom|done].
Qed.

Lemma get_lineage_pf : panic_free gossip_get_key_lineage.
Proof.
  apply panic_free_zoom, panic_free_bind; [done|intros l].
  apply panic_free_lift_bind; [by destruct l|intros k _]. apply panic_free_lift, encode_no_panic.
Qed.

Lemma decode_envelope_pf b : panic_free (gossip_decode_envelope b).
Proof.
  apply with_engine_pf, panic_free_lift.
  apply bind_no_panic; [apply map_err_no_panic|intros v _; apply to_json_no_panic].
Qed.

Lemma key_commitment_no_panic sg : gossip_key_commitment sg ≠ Panic.
Proof. apply bind_no_panic; [apply map_err_no_panic|done]. Qed.

Lemma verify_lineage_no_panic lb : gossip_verify_key_lineage lb ≠ Panic.
Proof. apply bind_no_panic; [apply decode_no_panic|intros l _; apply to_json_no_panic]. Qed.

Context {WL : WireLaws} {CJ : ConfigJsonLaws}.

(** C11. The component never traps: in every state the public functions can
    reach (no rotation under the id having failed while encoding its result,
    and the lineage having room for one more record), no call of the host,
    whatever bytes, strings and numbers it passes and whatever the entropy source
    and the clock answer, panics. *)
Theorem exports_never_trap (g : Global) (os : Os) (c : host_call) (Hr : api_reachable g) :
  (run_call c (g, os)).1 ≠ Panic.
Proof.
  pose proof (api_reachable_wf g Hr) as Hg.
  destruct (reports_pf "") as (Hp & Hi & _).
  destruct c; cbn [run_call].
  19: { pose proof (rotate_under_id_no_panic kem_seed sig_seed epoch c (g, os) Hg) as Hn.
        unfold discard, Guest.gossip_rotate_keys_under_id, wit, mbind, st_bind.
        by destruct (gossip_rotate_keys_under_id _ _ _ _ _) as [[] ?]. }
  all: first
    [ apply wit_pf; first [apply gossip_init_pf|apply init_with_lineage_pf
        |apply on_engine_pf, disconnect_pf]
    | apply discard_pf, wit_pf;
      first [apply timed_pf; intros now; first [apply publish_pf|apply connect_pf|apply verify_pf
               |apply encode_pf|apply process_pf]
            |apply Hp|apply Hi|apply reports_pf|apply rotate_keys_api_pf|apply decode_envelope_pf
            |apply stats_pf|apply build_ack_pf|apply build_finish_pf|apply time_pf|apply recover_pf
            |apply get_lineage_pf|apply verify_from_lineage_pf]
    | apply discard_pf, panic_free_lift, wit_result_no_panic;
      first [apply verify_external_no_panic|apply verify_lineage_no_panic
            |apply key_commitment_no_panic] ].
Qed.
End World.
