(* ===== verification/Frames.v ===== *)
(** * What the calls leave alone

    The frames of the methods: for a family of properties of the engine, which
    methods keep every one of them.  Most calls of the component touch neither
    its sessions nor its pending handshakes, and of the six that do only two can
    add a session: the dispatch of a handshake message and the dedicated answer
    to a finish.  [Network], [Peers] and [Republish] choose the families. *)

From S2P Require Import Prelude Errors Types Extern F64 Config Session Identity Envelope Rotation Lineage LineageThms Handshake HandshakeThms Engine EngineThms Api ApiThms Component ComponentThms.
Import Engine Api.

Create HintDb frames.

(** ** Frames of a method *)

Section Framing.
Context {X : Ext} {W : WireCodecs}.

(** A state with an engine in it. *)
Class HasEngine (S : Type) := engine_in : S -> option GossipEngine.
#[export] Instance engine_itself : HasEngine GossipEngine := Some.
#[export] Instance engine_of_closure : HasEngine (GossipEngine * option KeyLineage) :=
  λ s, Some s.1.
#[export] Instance engine_of_statics : HasEngine Global := GOSSIP_STATE.

(** Of an engine that may not be there yet. *)
Definition sessions_of (o : option GossipEngine) : gmap string SessionRecord :=
  from_option (λ e, Store.sessions (sessions e)) ∅ o.
Definition handshakes_of (o : option GossipEngine) : HandshakeManager :=
  from_option handshakes Handshakes.new o.

Definition sessions_in {S} `{HasEngine S} (s : S) : gmap string SessionRecord :=
  sessions_of (engine_in s).
Definition handshakes_in {S} `{HasEngine S} (s : S) : HandshakeManager :=
  handshakes_of (engine_in s).

Lemma readonly_time : readonly current_time_unix_ms.
Proof.
  intros s. unfold current_time_unix_ms, Handshakes.current_time_unix_ms.
  by destruct (system_time_ms s.2).
Qed.

(** A family of properties of the engine, if there is one. *)
Section Framed.
Context {I : Type} (F : I -> option GossipEngine -> Prop).

Definition holds {S} `{HasEngine S} (i : I) (s : S) : Prop := F i (engine_in s).

(** Every property of the family that holds before holds after, on every path. *)
Definition framed {S E A} `{HasEngine S} (m : ST (S * Os) E A) : Prop :=
  ∀ i, preserves (λ s, holds i s.1) m.

Section Combinators.
Context {S E : Type} `{HasEngine S}.

Lemma framed_bind {A B} (m : ST (S * Os) E A) (k : A -> ST (S * Os) E B) :
  framed m -> (∀ a, framed (k a)) -> framed (m ≫= k).
Proof. intros Hm Hk i. apply preserves_bind; [apply Hm|intros a; apply Hk]. Qed.

Lemma framed_readonly {A} (m : ST (S * Os) E A) : readonly m -> framed m.
Proof. intros Hm i s r s' Hr Hs. specialize (Hm s). rewrite Hr in Hm. cbn in Hm. by rewrite Hm. Qed.

(** What a method does to the part of the state that is not the system. *)
Lemma framed_result {A} (m : ST (S * Os) E A) :
  (∀ i s, holds i s.1 -> holds i (m s).2.1) -> framed m.
Proof. intros Hm i s r s' Hr Hs. specialize (Hm i s Hs). by rewrite Hr in Hm. Qed.

Lemma framed_modify (f : S * Os -> S * Os) :
  (∀ i s, holds i s.1 -> holds i (f s).1) -> framed (modify f : ST (S * Os) E unit).
Proof. intros Hf i. apply preserves_modify, Hf. Qed.
End Combinators.

#[local] Hint Resolve framed_bind framed_readonly : witan.

Lemma framed_ret {S E A} `{HasEngine S} (a : A) : framed (mret a : ST (S * Os) E A).
Proof. auto with witan. Qed.
Lemma framed_lift {S E A} `{HasEngine S} (r : result E A) : framed (lift r : ST (S * Os) E A).
Proof. auto with witan. Qed.
Lemma framed_throw {S E A} `{HasEngine S} (e : E) : framed (throw e : ST (S * Os) E A).
Proof. auto with witan. Qed.
Lemma framed_get {S E} `{HasEngine S} : framed (get : ST (S * Os) E (S * Os)).
Proof. auto with witan. Qed.

Abbreviation es := (GossipEngine * Os)%type.
Abbreviation cs := ((GossipEngine * option KeyLineage) * Os)%type.
Abbreviation gs := (Global * Os)%type.

Lemma framed_engine : framed (engine : method es GossipEngine).
Proof. apply framed_bind; [apply framed_get|intros s; apply framed_ret]. Qed.

Lemma framed_update f :
  (∀ i e, holds i e -> holds i (f e)) -> framed (update f : method es unit).
Proof. intros Hf. apply framed_modify. intros i [e os] He. by apply Hf. Qed.

Lemma framed_on_engine {A} (m : method es A) : framed m -> framed (on_engine m : method cs A).
Proof.
  intros Hm. apply framed_result. intros i [[e l] os] He. unfold on_engine, zoom. cbn [fst snd].
  specialize (Hm i (e, os)). destruct (m (e, os)) as [r [e' os']].
  exact (Hm _ _ eq_refl He).
Qed.

Lemma framed_closure_lineage {A} (m : method (option KeyLineage) A) :
  framed (closure_lineage m : method cs A).
Proof.
  apply framed_result. intros i [[e l] os] He. unfold closure_lineage, zoom. cbn [fst snd].
  by destruct (m l).
Qed.

Lemma framed_with_lineage {A} (m : method (option KeyLineage) A) :
  framed (with_lineage m : method gs A).
Proof.
  apply framed_result. intros i [[e l] os] He. unfold with_lineage, zoom. cbn [fst snd LINEAGE].
  by destruct (m l).
Qed.

Lemma framed_with_engine {A} (m : method cs A) : framed m -> framed (with_engine m : method gs A).
Proof.
  intros Hm. apply framed_result. intros i [[[e|] l] os] He; [|done]. unfold with_engine.
  cbn [fst snd GOSSIP_STATE LINEAGE]. specialize (Hm i (e, l, os)).
  destruct (m (e, l, os)) as [r [[e' l'] os']]. exact (Hm _ _ eq_refl He).
Qed.

Lemma framed_timed {A} (k : Z -> method gs A) :
  (∀ now, framed (k now)) -> framed (current_time_unix_ms ≫= k).
Proof. intros Hk. apply framed_bind; [apply framed_readonly, readonly_time|done]. Qed.

(** What a method of the manager does to the engine it is a part of. *)
Lemma framed_on_handshakes {A} (m : method (HandshakeManager * Os) A) :
  (∀ i (e : GossipEngine) os, holds i e -> holds i (set_handshakes (m (handshakes e, os)).2.1 e)) ->
  framed (on_handshakes m : method es A).
Proof.
  intros Hm. apply framed_result. intros i [e os] He. specialize (Hm i e os He).
  unfold on_handshakes, zoom. cbn [fst snd]. by destruct (m (handshakes e, os)) as [r [m' os']].
Qed.

Lemma framed_wit {A} (m : method gs A) : framed m -> framed (wit m).
Proof.
  intros Hm i s r s'. unfold wit. destruct (m s) as [r0 s0] eqn:E. intros [= _ <-].
  by apply (Hm i _ _ _ E).
Qed.

Lemma framed_discard {E A} (m : ST gs E A) : framed m -> framed (discard m).
Proof. intros Hm. apply framed_bind; [done|intros a; apply framed_ret]. Qed.
End Framed.
End Framing.

#[export] Hint Resolve framed_bind framed_ret framed_lift framed_throw framed_get framed_engine
  framed_update framed_on_engine framed_closure_lineage framed_with_lineage framed_with_engine
  framed_timed framed_wit framed_discard : frames.

(** ** Properties of the sessions and the pending handshakes *)

Section Peers.
Context {X : Ext} {W : WireCodecs}.

Definition on_peers {I} (G : I -> gmap string SessionRecord -> HandshakeManager -> Prop)
    (i : I) (o : option GossipEngine) : Prop := G i (sessions_of o) (handshakes_of o).

Definition same_frame (i : gmap string SessionRecord * HandshakeManager)
    (ss : gmap string SessionRecord) (h : HandshakeManager) : Prop := ss = i.1 ∧ h = i.2.

Abbreviation untouched m := (framed (on_peers same_frame) m).

(** A method that touches neither has every frame. *)
Lemma framed_untouched {I} (G : I -> gmap string SessionRecord -> HandshakeManager -> Prop)
    {S E A} `{!HasEngine S} (m : ST (S * Os) E A) : untouched m -> framed (on_peers G) m.
Proof.
  intros Hm. apply framed_result. intros i s Hs.
  destruct (Hm (sessions_in s.1, handshakes_in s.1) s (m s).1 (m s).2) as [H1 H2];
    [by destruct (m s)|done|].
  unfold holds, on_peers. cbn in H1, H2. by rewrite H1, H2.
Qed.

Lemma publish_untouched v p now : untouched (publish v p now).
Proof. apply framed_result. intros i s Hs. by destruct (publish_cases v p now s). Qed.
End Peers.

(** ** The calls about no peer *)

Section Calls.
Context {X : Ext} {W : WireCodecs} {J : JsonOut} `{!FromJson GossipConfig}.
Context `{!Bincode LineageWire}.

(** The calls about one peer, and the heartbeat. *)
Definition peer_call (c : host_call) : bool :=
  match c with
  | call_connect_peer _ | call_disconnect_peer _ | call_process_handshake_bytes _ _
  | call_build_handshake_ack _ _ | call_build_finish_ack _ _ | call_get_stats => true
  | _ => false
  end.

(** The call remembers a message. *)
Definition publishing_call (c : host_call) : bool :=
  match c with call_publish _ _ => true | _ => false end.

(** Properties of what the other calls leave alone, which a new engine has if
    none was needed before. *)
Class Stable {I} (F : I -> option GossipEngine -> Prop) : Prop := {
  stable_same i e e' :
    config e' = config e -> sessions e' = sessions e -> handshakes e' = handshakes e ->
    dedup e' = dedup e -> F i (Some e) -> F i (Some e');
  stable_new i r id : F i None -> F i (Some (new r id));
}.

Section Quiet.
Context {I : Type} (F : I -> option GossipEngine -> Prop) {HF : Stable F}.

Lemma verify_framed b now : framed F (verify_envelope_bytes b now).
Proof.
  apply framed_result. intros i s Hs. rewrite verify_run. repeat case_match; try done.
  all: by apply (stable_same i s.1).
Qed.

Lemma encode_framed v p now : framed F (encode_envelope v p now).
Proof. unfold encode_envelope. auto with frames. Qed.

Lemma rotate_keys_framed epoch : framed F (rotate_keys epoch).
Proof.
  apply framed_result. intros i s Hs. rewrite rotate_keys_run.
  pose proof (generate_state epoch s) as Hg.
  destruct (generate epoch s) as [[] s'] eqn:E; cbn [fst snd] in *; rewrite Hg; [|done..].
  by apply (stable_same i s.1).
Qed.

(** A component that is not initialized has no session and nothing pending, and
    neither has one that has just been. *)
Lemma install_framed r id l : framed F (install r id l).
Proof.
  apply framed_result. intros i [[[e|] ln] os] Hs; [done|]. unfold install.
  by apply (stable_new i r id).
Qed.

Lemma generate_framed epoch : framed F (generate (S:=Global) epoch).
Proof. apply framed_readonly, readonly_generate. Qed.

Lemma fail_if_initialized_framed : framed F fail_if_initialized.
Proof. apply framed_readonly, readonly_fail_if_initialized. Qed.

#[local] Hint Resolve verify_framed encode_framed rotate_keys_framed install_framed generate_framed
  fail_if_initialized_framed : frames.

Lemma init_framed cfg : framed F (gossip_init cfg).
Proof.
  unfold gossip_init. do 3 (apply framed_bind; [auto with frames|intros ?]).
  apply framed_bind; [repeat case_match; auto with frames|auto with frames].
Qed.

Lemma init_with_lineage_framed cfg lb : framed F (gossip_init_with_lineage cfg lb).
Proof.
  unfold gossip_init_with_lineage. do 3 (apply framed_bind; [auto with frames|intros ?]).
  repeat case_match; auto with frames.
  do 3 (apply framed_bind; [auto with frames|intros ?]). case_match; auto with frames.
Qed.

Lemma rotate_stored_framed next c now : framed F (rotate_stored_lineage next c now).
Proof.
  apply framed_result. intros i [[e l] os] He. unfold rotate_stored_lineage.
  rewrite get_bind, lift_bind. destruct l as [l|]; [|done]. cbn [fst snd ok_or].
  assert (holds F i (rotate_keys_under_id next c now (e, l)).2.1) as Hw.
  { unfold rotate_keys_under_id. rewrite get_bind. case_bool_decide; [done|].
    unfold mbind, st_bind, zoom. cbn [fst snd].
    destruct (rotate (identity e) next c now l) as [[] l']; try done.
    by apply (stable_same i e). }
  destruct (rotate_keys_under_id next c now (e, l)) as [r [e' l']].
  unfold mbind, st_bind, modify, lift. cbn in *. destruct r as [rot|err|]; try done. cbn.
  by destruct (encode l').
Qed.

Lemma verify_from_lineage_framed b lb : framed F (gossip_verify_envelope_from_lineage b lb).
Proof.
  apply framed_bind; [apply framed_lift|intros l]. apply framed_timed. intros now.
  apply framed_with_engine, framed_on_engine, framed_bind; [apply framed_lift|intros env].
  case_match; auto with frames. apply framed_bind; [|auto with frames].
  apply framed_update. intros i s Hs. by apply (stable_same i s).
Qed.

Lemma rotate_under_id_framed k sg epoch c : framed F (gossip_rotate_keys_under_id k sg epoch c).
Proof.
  apply framed_bind; [apply framed_lift|intros next].
  apply framed_bind; [apply framed_lift|intros cm].
  apply framed_timed. intros now. apply framed_with_engine, rotate_stored_framed.
Qed.

Lemma recover_framed lb k sg epoch c : framed F (gossip_recover_lineage lb k sg epoch c).
Proof. apply framed_readonly. intros s. apply recover_state. Qed.

Lemma quiet_call_framed c :
  peer_call c = false -> publishing_call c = false -> framed F (run_call c).
Proof.
  destruct c; try done; intros _ _; cbn [run_call]; try apply framed_discard; try apply framed_lift;
    apply framed_wit.
  all: try first [apply init_framed|apply init_with_lineage_framed
    |apply verify_from_lineage_framed|apply rotate_under_id_framed|apply recover_framed
    |apply framed_readonly, readonly_time].
  all: unfold gossip_verify_envelope, gossip_encode_envelope, gossip_get_peers,
    gossip_get_session, gossip_get_node_identity, report, gossip_rotate_keys,
    gossip_decode_envelope, gossip_get_key_lineage.
  all: auto 10 with frames.
Qed.
End Quiet.

#[export] Instance same_frame_stable : Stable (on_peers same_frame).
Proof.
  split; [|done]. intros i e e' _ Hs Hh _. unfold on_peers. cbn.
  by rewrite Hs, Hh.
Qed.

Lemma quiet_call_untouched c : peer_call c = false -> framed (on_peers same_frame) (run_call c).
Proof.
  intros Hc. destruct (publishing_call c) eqn:Hp; [|by apply quiet_call_framed; try apply _].
  destruct c; try done. cbn [run_call]. apply framed_discard, framed_wit.
  apply framed_timed. intros now. apply framed_with_engine, framed_on_engine, publish_untouched.
Qed.

(** ** Any sequence of calls *)

(** The calls with their success, and what they leave. *)
Fixpoint play (script : list (host_call * Os)) (g : Global) : list (host_call * bool) * Global :=
  match script with
  | [] => ([], g)
  | (c, os) :: script' =>
      let '(r, (g', _)) := run_call c (g, os) in
      let '(l, g'') := play script' g' in
      ((c, is_ok r) :: l, g'')
  end.
End Calls.
