(* ===== verification/Peers.v ===== *)
(** * What the component promises about a peer

    An abstract machine per peer, with no message, key or clock in it: a phase
    of the handshake and whether there is a session.  Every call of the
    component is one step of the machine of the peer it is about, and none of
    any other's; so what the machine guarantees holds of the component. *)

From S2P Require Import Prelude Errors Types Extern F64 Config Session Identity Envelope Rotation Lineage LineageThms Handshake HandshakeThms Engine EngineThms Api ApiThms Component ComponentThms Frames.
Import Engine Api.

(** ** The machine *)

(** What this node waits for. *)
Inductive phase : Type :=
  | Idle        (* nothing *)
  | Probing     (* an acknowledgement of its probe *)
  | Answering   (* the finish of the other's handshake *)
  | Finishing.  (* the last message of its own *)

Record peer : Type := mkPeer {
  at_phase : phase;
  connected : bool;
}.

Definition stranger : peer := mkPeer Idle false.

Inductive event : Type :=
  | Connect
  | GotProbe
  | GotAck
  | GotFinish
  | GotFinishAck
  | Disconnect
  | Tick
  | Other.

#[export] Instance event_eq_dec : EqDecision event.
Proof. solve_decision. Defined.

(** A step, and whether the call succeeded.  A message that ends a handshake
    ends it even if it is refused, whatever the phase; a heartbeat may give up
    on what is pending. *)
Inductive peer_step : event -> bool -> peer -> peer -> Prop :=
  | step_connect f :
      peer_step Connect true (mkPeer f false) (mkPeer Probing false)
  | step_answer p :
      peer_step GotProbe true p (mkPeer Answering (connected p))
  | step_finish c :
      peer_step GotAck true (mkPeer Probing c) (mkPeer Finishing c)
  | step_answered c :
      peer_step GotFinish true (mkPeer Answering c) (mkPeer Idle true)
  | step_finished c :
      peer_step GotFinishAck true (mkPeer Finishing c) (mkPeer Idle true)
  | step_disconnect f :
      peer_step Disconnect true (mkPeer f true) (mkPeer Idle false)
  | step_unknown f :
      peer_step Disconnect false (mkPeer f false) (mkPeer f false)
  | step_refused ev p :
      ev ≠ Disconnect -> peer_step ev false p p
  | step_spoiled ev p :
      ev = GotFinish ∨ ev = GotFinishAck -> peer_step ev false p (mkPeer Idle (connected p))
  | step_tick ok p :
      peer_step Tick ok p p
  | step_give_up ok p :
      peer_step Tick ok p (mkPeer Idle (connected p))
  | step_other ok p :
      peer_step Other ok p p.

(** ** What the machine guarantees *)

(** The runs of the machine, from a stranger. *)
Inductive machine : list (event * bool) -> peer -> Prop :=
  | machine_start : machine [] stranger
  | machine_step tr ev ok p p' :
      machine tr p -> peer_step ev ok p p' -> machine (tr ++ [(ev, ok)]) p'.

(** A success that moves the machine. *)
Definition counts (m : event * bool) : bool :=
  m.2 && match m.1 with Tick | Other => false | _ => true end.

(** The last success is of [ev]; [past] holds of what came before it. *)
Definition latest (ev : event) (past : list (event * bool) -> Prop) (tr : list (event * bool)) :
    Prop :=
  ∃ t1 t2, tr = t1 ++ (ev, true) :: t2 ∧ Forall (λ m, counts m = false) t2 ∧ past t1.

(** The successes that led to a phase, uninterrupted. *)
Definition led_to (f : phase) : list (event * bool) -> Prop :=
  match f with
  | Idle => λ _, True
  | Probing => latest Connect (λ _, True)
  | Answering => latest GotProbe (λ _, True)
  | Finishing => latest GotAck (latest Connect (λ _, True))
  end.

(** A whole handshake, and no disconnection since. *)
Definition linked (tr : list (event * bool)) : Prop :=
  ∃ t1 ev t2, tr = t1 ++ (ev, true) :: t2 ∧ ((Disconnect, true) ∉ t2) ∧
    (ev = GotFinish ∧ led_to Answering t1 ∨ ev = GotFinishAck ∧ led_to Finishing t1).

Lemma latest_now ev past tr : past tr -> latest ev past (tr ++ [(ev, true)]).
Proof. intros Hp. by exists tr, []. Qed.

Lemma latest_later ev past tr m : counts m = false -> latest ev past tr -> latest ev past (tr ++ [m]).
Proof.
  intros Hm (t1 & t2 & -> & Hq & Hp). exists t1, (t2 ++ [m]). rewrite <- (assoc_L (++)).
  split; [done|]. split; [|done]. apply Forall_app. by split; [|constructor].
Qed.

Lemma led_to_later f tr m : counts m = false -> led_to f tr -> led_to f (tr ++ [m]).
Proof. destruct f; cbn; intros Hm; [done|by apply latest_later..]. Qed.

Lemma linked_later tr m : m ≠ (Disconnect, true) -> linked tr -> linked (tr ++ [m]).
Proof.
  intros Hm (t1 & ev & t2 & -> & Hd & He). exists t1, ev, (t2 ++ [m]). rewrite <- (assoc_L (++)).
  split; [done|]. split; [|done]. intros [Hin|Hin]%elem_of_app; [done|].
  by apply list_elem_of_singleton in Hin as <-.
Qed.

Lemma linked_now tr ev :
  ev = GotFinish ∧ led_to Answering tr ∨ ev = GotFinishAck ∧ led_to Finishing tr ->
  linked (tr ++ [(ev, true)]).
Proof. intros He. exists tr, ev, []. split; [done|]. split; [apply not_elem_of_nil|done]. Qed.

Lemma machine_history tr p :
  machine tr p -> led_to (at_phase p) tr ∧ (connected p = true -> linked tr).
Proof.
  induction 1 as [|tr ev ok p p' _ [Hl Hc] Hst]; [by split|].
  destruct Hst; cbn [at_phase connected] in *.
  - split; [by apply latest_now|done].
  - split; [by apply latest_now|]. intros Hp. apply linked_later; auto.
  - split; [by apply latest_now|]. intros Hp. apply linked_later; auto.
  - split; [done|]. intros _. apply linked_now. by left.
  - split; [done|]. intros _. apply linked_now. by right.
  - done.
  - split; [by apply led_to_later|done].
  - split; [by apply led_to_later|]. intros Hp. apply linked_later; auto.
  - split; [done|]. intros Hp. apply linked_later; auto.
  - split; [apply led_to_later; [by destruct ok|done]|]. intros Hp. apply linked_later; auto.
  - split; [done|]. intros Hp. apply linked_later; auto.
  - split; [apply led_to_later; [by destruct ok|done]|]. intros Hp. apply linked_later; auto.
Qed.

(** ** A state as the machines see it *)

Section View.
Context {X : Ext} {W : WireCodecs}.

(** The session and the pending handshake of a peer. *)
Definition peer_data {S} `{HasEngine S} (s : S) (a : string) :
    option SessionRecord * option HandshakeContext :=
  (sessions_in s !! a, pending (handshakes_in s) !! a).

Definition phase_of (c : option HandshakeContext) : phase :=
  match c with
  | Some (Client (ProbeSent _)) => Probing
  | Some (Server (AckSent _)) => Answering
  | Some (Client (FinishSent _)) => Finishing
  | _ => Idle
  end.

Definition view {S} `{HasEngine S} (s : S) (a : string) : peer :=
  mkPeer (phase_of (peer_data s a).2) (bool_decide (is_Some (peer_data s a).1)).

Definition event_of_kind (k : MessageKind) : event :=
  match k with
  | KHandshakeProbe => GotProbe
  | KHandshakeAck => GotAck
  | KHandshakeFinish => GotFinish
  | KHandshakeFinishAck => GotFinishAck
  | KGossipEnvelope => Other
  end.

(** The peer a call is about, and its step. *)
Definition about (c : host_call) : option (string * event) :=
  match c with
  | call_connect_peer addr => Some (addr, Connect)
  | call_disconnect_peer addr => Some (addr, Disconnect)
  | call_process_handshake_bytes addr b => Some (addr, event_of_kind (classify_incoming b))
  | call_build_handshake_ack addr _ => Some (addr, GotProbe)
  | call_build_finish_ack addr _ => Some (addr, GotFinish)
  | _ => None
  end.

(** The step of the machine of [a]. *)
Definition event_of (c : host_call) (a : string) : event :=
  match about c with
  | Some (addr, ev) => if decide (addr = a) then ev else Other
  | None => match c with call_get_stats => Tick | _ => Other end
  end.

(** ** The engine's methods *)

(** A step for one peer; the others keep their session and what is pending. *)
Definition moves (ev : event) (addr : string) (ok : bool) (e e' : GossipEngine) : Prop :=
  peer_step ev ok (view e addr) (view e' addr) ∧ ∀ a, a ≠ addr -> peer_data e' a = peer_data e a.

Lemma moves_nothing ev addr ok e e' :
  peer_step ev ok (view e addr) (view e addr) ->
  sessions e' = sessions e -> handshakes e' = handshakes e -> moves ev addr ok e e'.
Proof.
  intros Hp Hs Hh. assert (∀ a, peer_data e' a = peer_data e a) as Hd.
  { intros a. unfold peer_data, sessions_in, handshakes_in. cbn. by rewrite Hs, Hh. }
  split; [|done]. unfold view at 2. rewrite Hd. exact Hp.
Qed.

Lemma moves_refused ev addr e e' :
  ev ≠ Disconnect -> sessions e' = sessions e -> handshakes e' = handshakes e ->
  moves ev addr false e e'.
Proof. intros Hev. apply moves_nothing. by apply step_refused. Qed.

Lemma moves_pending ev addr ok c e e' :
  peer_step ev ok (view e addr) (mkPeer (phase_of (Some c)) (connected (view e addr))) ->
  sessions e' = sessions e ->
  handshakes e' = Handshakes.insert_pending addr c (handshakes e) -> moves ev addr ok e e'.
Proof.
  intros Hp Hs Hh. unfold moves, view, peer_data, sessions_in, handshakes_in in *. cbn in *.
  rewrite Hs, Hh. cbn. rewrite lookup_insert_eq. split; [exact Hp|].
  intros a Ha. by rewrite lookup_insert_ne.
Qed.

Lemma moves_taken ev addr ok e e' :
  peer_step ev ok (view e addr) (mkPeer Idle (connected (view e addr))) ->
  sessions e' = sessions e ->
  handshakes e' = Handshakes.delete_pending addr (handshakes e) -> moves ev addr ok e e'.
Proof.
  intros Hp Hs Hh. unfold moves, view, peer_data, sessions_in, handshakes_in in *. cbn in *.
  rewrite Hs, Hh. cbn. rewrite lookup_delete_eq. split; [exact Hp|].
  intros a Ha. by rewrite lookup_delete_ne.
Qed.

Lemma moves_gained ev addr ok se e e' :
  peer_step ev ok (view e addr) (mkPeer Idle true) -> peer_addr se = addr ->
  sessions e' = Store.insert se (sessions e) ->
  handshakes e' = Handshakes.delete_pending addr (handshakes e) -> moves ev addr ok e e'.
Proof.
  intros Hp <- Hs Hh. unfold moves, view, peer_data, sessions_in, handshakes_in in *. cbn in *.
  rewrite Hs, Hh. cbn. rewrite lookup_delete_eq, lookup_insert_eq. split; [exact Hp|].
  intros a Ha. by rewrite lookup_delete_ne, lookup_insert_ne.
Qed.

(** A handler that fails changes nothing, and one that succeeds stores [c]. *)
Lemma handler_moves {A} (m : method (HandshakeManager * Os) A) ev addr (e : GossipEngine) os :
  atomic m -> ev ≠ Disconnect ->
  (∀ a s', m (handshakes e, os) = (Ok a, s') ->
     ∃ c, s'.1 = Handshakes.insert_pending addr c (handshakes e) ∧
       peer_step ev true (view e addr) (mkPeer (phase_of (Some c)) (connected (view e addr)))) ->
  moves ev addr (is_ok (on_handshakes m (e, os)).1) e (on_handshakes m (e, os)).2.1.
Proof.
  intros Ha Hev Hok. specialize (Ha (handshakes e, os)). unfold on_handshakes, zoom. cbn [fst snd].
  destruct (m (handshakes e, os)) as [[a|err|] s'] eqn:E; cbn [is_ok fst snd] in *.
  - destruct (Hok a s' eq_refl) as (c & Hs & Hp). by eapply moves_pending.
  - rewrite Ha by done. by apply moves_refused.
  - rewrite Ha by done. by apply moves_refused.
Qed.

Lemma bind_ret_run {S E A B} (m : ST S E A) (f : A -> B) s :
  is_ok ((m ≫= λ a, mret (f a)) s).1 = is_ok (m s).1 ∧ ((m ≫= λ a, mret (f a)) s).2 = (m s).2.
Proof. unfold mbind, st_bind. by destruct (m s) as [[] ?]. Qed.

Lemma pending_view e addr c :
  pending (handshakes e) !! addr = c -> at_phase (view e addr) = phase_of c.
Proof. unfold view, peer_data, handshakes_in. cbn. by intros ->. Qed.

(** The view, with its phase known. *)
Lemma view_eq (e : GossipEngine) addr f :
  at_phase (view e addr) = f -> view e addr = mkPeer f (connected (view e addr)).
Proof. by intros <-. Qed.

Lemma connect_moves addr now e os :
  moves Connect addr (is_ok (connect_peer addr now (e, os)).1) e (connect_peer addr now (e, os)).2.1.
Proof.
  unfold connect_peer. rewrite engine_bind. cbn [fst].
  destruct (Store.get (sessions e) addr) as [se|] eqn:Hg; [by apply moves_refused|].
  apply handler_moves; [apply build_probe_atomic|done|].
  intros b s' (n & _ & _ & ->)%build_probe_ok. eexists. split; [done|].
  assert (view e addr = mkPeer (at_phase (view e addr)) false) as ->; [|apply step_connect].
  unfold view, peer_data, sessions_in. cbn. unfold Store.get in Hg. by rewrite Hg.
Qed.

Lemma probe_moves addr b now e os :
  let m := on_handshakes (Handshakes.process_probe_build_ack addr b (identity e) now) in
  moves GotProbe addr (is_ok (m (e, os)).1) e (m (e, os)).2.1.
Proof.
  apply handler_moves; [apply process_probe_atomic|done|].
  intros ab s' (p & n & kj & _ & _ & _ & _ & ->)%process_probe_ok. eexists. split; [done|].
  apply step_answer.
Qed.

Lemma ack_moves addr b now e os :
  let m := on_handshakes (Handshakes.process_ack_build_finish addr b (identity e) now) in
  moves GotAck addr (is_ok (m (e, os)).1) e (m (e, os)).2.1.
Proof.
  apply handler_moves; [apply process_ack_atomic|done|].
  intros fb s' (ack & pb & t & pk & ct & ss & key & cj & ctb & _ & _ & Hp & _ & _ & _ & _ & _ & _
    & ->)%process_ack_ok.
  eexists. split; [done|]. rewrite (view_eq e addr Probing) by by apply pending_view in Hp.
  apply step_finish.
Qed.

(** The two messages that end a handshake: refused, they leave it or end it. *)
Ltac spoiled :=
  first [by apply moves_refused|apply moves_taken; [apply step_spoiled; by auto|done|done]].

Lemma finish_moves {A} addr b now e os (f : SessionRecord -> GossipEngine -> GossipEngine)
    (h : bytes -> A) :
  (∀ se e, sessions (f se e) = Store.insert se (sessions e)) ->
  (∀ se e, handshakes (f se e) = handshakes e) ->
  let m := '(fb, se) ← on_handshakes
             (Handshakes.process_finish_build_finish_ack addr b (identity e) now);
           _ ← update (f se); mret (h fb) in
  moves GotFinish addr (is_ok (m (e, os)).1) e (m (e, os)).2.1.
Proof.
  intros Hs Hh. cbv zeta. unfold on_handshakes, zoom, mbind, st_bind. cbn [fst snd].
  pose proof (process_finish_state addr b (identity e) now (handshakes e, os)) as Hst.
  destruct (Handshakes.process_finish_build_finish_ack _ _ _ _ _) as [[[fb se]|err|] [m' o']] eqn:Ep;
    cbn in Hst |- *.
  - apply process_finish_ok in Ep as (fin & d & ct & ss & key & ctb & mac & sg & sid & _ & _ & Hp & _
      & _ & _ & _ & _ & _ & _ & _ & -> & [= -> _]).
    apply (moves_gained _ _ _ (server_session addr sid fin (transcript_of d b) now));
      [|done|by rewrite Hs|by rewrite Hh].
    rewrite (view_eq e addr Answering) by by apply pending_view in Hp. apply step_answered.
  - repeat case_match; subst; spoiled.
  - repeat case_match; subst; spoiled.
Qed.

Lemma finish_ack_moves {A} addr b now e os (a : A) :
  let m := se ← on_handshakes (Handshakes.process_finish_ack addr b now);
           _ ← update (complete_handshake addr se); mret a in
  moves GotFinishAck addr (is_ok (m (e, os)).1) e (m (e, os)).2.1.
Proof.
  cbv zeta. unfold on_handshakes, zoom, mbind, st_bind. cbn [fst snd].
  pose proof (process_finish_ack_state addr b now (handshakes e, os)) as Hst.
  destruct (Handshakes.process_finish_ack _ _ _ _) as [[se|err|] [m' o']] eqn:Ep;
    cbn -[complete_handshake] in Hst |- *.
  - apply process_finish_ack_ok in Ep as (fa & d & _ & Hp & _ & -> & [= -> _]).
    apply (moves_gained _ _ _ (client_session addr fa d now));
      [|done|by rewrite sessions_complete|by rewrite handshakes_complete].
    rewrite (view_eq e addr Finishing) by by apply pending_view in Hp. apply step_finished.
  - case_match; subst; spoiled.
  - case_match; subst; spoiled.
Qed.

Lemma process_moves addr b now e os :
  moves (event_of_kind (classify_incoming b)) addr
    (is_ok (process_handshake_bytes addr b now (e, os)).1) e
    (process_handshake_bytes addr b now (e, os)).2.1.
Proof.
  unfold process_handshake_bytes. rewrite engine_bind. cbn [fst].
  destruct (classify_incoming b); cbn [event_of_kind].
  - match goal with |- context [(?m ≫= _) (e, os)] =>
      destruct (bind_ret_run m Some (e, os)) as [-> ->] end. apply probe_moves.
  - match goal with |- context [(?m ≫= _) (e, os)] =>
      destruct (bind_ret_run m Some (e, os)) as [-> ->] end. apply ack_moves.
  - apply finish_moves; intros se e0; [apply sessions_complete|apply handshakes_complete].
  - apply finish_ack_moves.
  - apply moves_nothing; [apply step_other|done|done].
Qed.

Lemma build_finish_moves addr b now e os :
  moves GotFinish addr (is_ok (build_finish_ack addr b now (e, os)).1) e
    (build_finish_ack addr b now (e, os)).2.1.
Proof.
  unfold build_finish_ack. rewrite engine_bind. cbn [fst].
  by apply (finish_moves addr b now e os record_session id).
Qed.

Lemma disconnect_moves addr e os :
  moves Disconnect addr (is_ok (disconnect_peer addr (e, os)).1) e
    (disconnect_peer addr (e, os)).2.1.
Proof.
  rewrite disconnect_run. cbn [fst].
  assert (∀ se, Store.sessions (sessions e) !! addr = se ->
    view e addr = mkPeer (at_phase (view e addr)) (bool_decide (is_Some se))) as Hv by by intros se <-.
  destruct (Store.sessions (sessions e) !! addr) as [se|] eqn:Hg; specialize (Hv _ eq_refl).
  - split; [|intros a Ha].
    + rewrite Hv. unfold view, peer_data, sessions_in, handshakes_in. cbn.
      rewrite !lookup_delete_eq. apply step_disconnect.
    + unfold peer_data, sessions_in, handshakes_in. cbn. by rewrite !lookup_delete_ne.
  - apply moves_nothing; [|done|done]. rewrite Hv. apply step_unknown.
Qed.

(** A heartbeat keeps the sessions, and what it does not give up on. *)
Lemma heartbeat_moves now e ok a : peer_step Tick ok (view e a) (view (heartbeat now e) a).
Proof.
  unfold view, peer_data, sessions_in, handshakes_in. cbn -[heartbeat].
  rewrite (proj2 (heartbeat_frame now e)), heartbeat_handshakes. cbn.
  destruct (pending (handshakes e) !! a) as [c|] eqn:Hc.
  - destruct (Context.is_timed_out now c) eqn:Ht.
    + rewrite map_lookup_filter_None_2; [apply step_give_up|]. right. intros c'.
      rewrite Hc. intros [= <-]. cbn. by rewrite Ht.
    + rewrite (map_lookup_filter_Some_2 _ _ _ c); [apply step_tick|done|done].
  - rewrite map_lookup_filter_None_2 by auto. apply step_tick.
Qed.
End View.

(** ** The calls *)

Section Calls.
Context {X : Ext} {W : WireCodecs} {J : JsonOut} `{!FromJson GossipConfig}.
Context `{!Bincode LineageWire}.

(** What a method of the engine does to the statics, as the component exports
    it. *)
Definition through (P : bool -> GossipEngine -> GossipEngine -> Prop) (g : Global) (ok : bool)
    (g' : Global) : Prop :=
  match GOSSIP_STATE g with
  | None => ok = false ∧ g' = g
  | Some e => ∃ e', P ok e e' ∧ g' = mkGlobal (Some e') (LINEAGE g)
  end.

Lemma engine_through {A} P (m : method (GossipEngine * Os) A) (s : Global * Os) :
  (∀ e os, P (is_ok (m (e, os)).1) e (m (e, os)).2.1) ->
  through P s.1 (is_ok (with_engine (on_engine m) s).1) (with_engine (on_engine m) s).2.1.
Proof.
  intros HP. destruct s as [[[e|] l] os]; [|done]. specialize (HP e os).
  unfold through, with_engine, on_engine, zoom. cbn [GOSSIP_STATE LINEAGE fst snd].
  destruct (m (e, os)) as [r [e' os']]. by exists e'.
Qed.

Lemma timed_through {A} P (m : Z -> method (GossipEngine * Os) A) (s : Global * Os) :
  (∀ now e os, P (is_ok (m now (e, os)).1) e (m now (e, os)).2.1) ->
  let k := current_time_unix_ms ≫= λ now, with_engine (on_engine (m now)) in
  through P s.1 (is_ok (k s).1) (k s).2.1.
Proof.
  intros HP. cbv zeta. destruct (time_bind s) as (now & os & ->).
  by apply (engine_through P (m now) (s.1, os)).
Qed.

Lemma exported_run {A} (m : method (Global * Os) A) (s : Global * Os) :
  is_ok (wit m s).1 = is_ok (m s).1 ∧ (wit m s).2 = (m s).2.
Proof. unfold wit. by destruct (m s) as [[] ?]. Qed.

Lemma discarded_run {A} (m : method (Global * Os) A) (s : Global * Os) :
  is_ok (discard (wit m) s).1 = is_ok (m s).1 ∧ (discard (wit m) s).2 = (m s).2.
Proof.
  destruct (exported_run m s) as [<- <-]. apply (bind_ret_run (wit m) (λ _, tt)).
Qed.

(** A call about a peer. *)
Lemma about_through c addr ev (s : Global * Os) :
  about c = Some (addr, ev) ->
  through (moves ev addr) s.1 (is_ok (run_call c s).1) (run_call c s).2.1.
Proof.
  destruct c; try done; intros [= <- <-]; cbn [run_call];
    unfold Guest.gossip_connect_peer, Guest.gossip_disconnect_peer,
      Guest.gossip_process_handshake_bytes, Guest.gossip_build_handshake_ack,
      Guest.gossip_build_finish_ack.
  2: { destruct (exported_run (gossip_disconnect_peer addr0) s) as [-> ->].
       apply engine_through. intros e os. apply disconnect_moves. }
  all: match goal with |- context [discard (wit ?m) _] => destruct (discarded_run m s) as [-> ->] end.
  all: apply timed_through; intros now e os.
  - apply connect_moves.
  - apply process_moves.
  - rewrite engine_bind. apply probe_moves.
  - apply build_finish_moves.
Qed.

Lemma stats_through (s : Global * Os) :
  through (λ ok e e', ∀ a, peer_step Tick ok (view e a) (view e' a)) s.1
    (is_ok (run_call call_get_stats s).1) (run_call call_get_stats s).2.1.
Proof.
  cbn [run_call]. unfold Guest.gossip_get_stats.
  destruct (discarded_run gossip_get_stats s) as [-> ->].
  apply timed_through. intros now e os a. rewrite update_bind, engine_bind. apply heartbeat_moves.
Qed.

(** Before it is initialized a component knows nobody and refuses. *)
Lemma uninitialized_step ev (g : Global) a :
  GOSSIP_STATE g = None -> peer_step ev false (view g a) (view g a).
Proof.
  intros Hg. assert (view g a = stranger) as ->.
  { unfold view, peer_data, sessions_in, handshakes_in, engine_in, engine_of_statics. by rewrite Hg. }
  destruct (decide (ev = Disconnect)) as [->|Hev]; [apply step_unknown|by apply step_refused].
Qed.

Lemma quiet_data c (s : Global * Os) a :
  peer_call c = false -> peer_data (run_call c s).2.1 a = peer_data s.1 a.
Proof.
  intros Hc. destruct (quiet_call_untouched c Hc (sessions_in s.1, handshakes_in s.1) s
    (run_call c s).1 (run_call c s).2) as [H1 H2]; [by destruct (run_call c s)|done|].
  exact (f_equal2 (λ ss h, (ss !! a, pending h !! a)) H1 H2).
Qed.

Lemma peer_call_about c : peer_call c = true -> c = call_get_stats ∨ ∃ p, about c = Some p.
Proof. destruct c; try done; eauto. Qed.

Lemma component_step c (s : Global * Os) a :
  peer_step (event_of c a) (is_ok (run_call c s).1) (view s.1 a) (view (run_call c s).2.1 a).
Proof.
  destruct (peer_call c) eqn:Hc.
  - destruct (peer_call_about c Hc) as [->|[[addr ev] Ha]].
    + pose proof (stats_through s) as Ht. unfold through in Ht.
      destruct (GOSSIP_STATE s.1) as [e|] eqn:Hg.
      * destruct Ht as (e' & Hp & ->). specialize (Hp a). destruct s as [[[] l] os]; cbn in Hg; [|done].
        by injection Hg as ->.
      * destruct Ht as [-> ->]. by apply uninitialized_step.
    + pose proof (about_through c addr ev s Ha) as Ht. unfold through in Ht.
      unfold event_of. rewrite Ha. destruct (GOSSIP_STATE s.1) as [e|] eqn:Hg.
      * destruct Ht as (e' & [Hp Ho] & ->). destruct s as [[[] l] os]; cbn in Hg; [|done].
        injection Hg as ->. case_decide as Hd; [by subst|]. unfold view at 2.
        change (peer_data (mkGlobal (Some e') (LINEAGE (mkGlobal (Some e) l, os).1)) a)
          with (peer_data e' a).
        rewrite Ho by done. apply step_other.
      * destruct Ht as [-> ->]. by apply uninitialized_step.
  - unfold view at 2. rewrite quiet_data by done. unfold event_of.
    destruct c; try done; apply step_other.
Qed.

(** A call about another peer keeps what is known of this one. *)
Lemma others_data c (s : Global * Os) a :
  (∀ ev, about c ≠ Some (a, ev)) -> c ≠ call_get_stats ->
  peer_data (run_call c s).2.1 a = peer_data s.1 a.
Proof.
  intros Ha Hns. destruct (peer_call c) eqn:Hc; [|by apply quiet_data].
  destruct (peer_call_about c Hc) as [|[[addr ev] Hab]]; [done|].
  pose proof (about_through c addr ev s Hab) as Ht. unfold through in Ht.
  destruct s as [[[e|] l] os]; cbn [GOSSIP_STATE fst] in Ht.
  - destruct Ht as (e' & [_ Ho] & ->). apply (Ho a). intros ->. by apply (Ha ev).
  - by destruct Ht as [_ ->].
Qed.

(** C4. The component refines the machines of its peers: in any state, whatever a
    call is given and whatever entropy and clock answer, for every peer at once,
    the call is a step of that peer's machine, with the call's own success or
    failure.  A call about one peer is invisible to every other: its session and
    its pending handshake are the same before and after. *)
Theorem component_refines_peers (c : host_call) (g : Global) (os : Os) (a : string) :
  let '(r, (g', _)) := run_call c (g, os) in
  peer_step (event_of c a) (is_ok r) (view g a) (view g' a) ∧
  ((∀ ev, about c ≠ Some (a, ev)) -> c ≠ call_get_stats -> peer_data g' a = peer_data g a).
Proof.
  pose proof (component_step c (g, os) a) as Hs. pose proof (others_data c (g, os) a) as Ho.
  by destruct (run_call c (g, os)) as [r [g' os']].
Qed.

(** ** Any sequence of calls *)

Definition trace_for (a : string) (l : list (host_call * bool)) : list (event * bool) :=
  (λ x, (event_of x.1 a, x.2)) <$> l.

Lemma play_machine script g tr a :
  machine tr (view g a) ->
  machine (tr ++ trace_for a (play script g).1) (view (play script g).2 a).
Proof.
  revert g tr. induction script as [|[c os] script IH]; intros g tr Hm; cbn.
  - by rewrite app_nil_r.
  - pose proof (component_step c (g, os) a) as Hs.
    destruct (run_call c (g, os)) as [r [g' os']]. cbn [fst snd] in Hs.
    specialize (IH g' (tr ++ [(event_of c a, is_ok r)])).
    destruct (play script g') as [l g'']. cbn [fst snd trace_for fmap list_fmap] in *.
    rewrite <- (assoc_L (++)) in IH. apply IH. by eapply machine_step.
Qed.

(** C5. A peer is connected through a whole handshake.  After any sequence of
    calls of a fresh component, what is known of a peer is the end of a run of
    its machine on the calls about it; and if it is connected, then either a
    finish of its was answered, the last success about it before that being the
    answer to its probe, or a final message was accepted, the last success
    before being the acceptance of its acknowledgement, and the last before that
    the probe sent to it; and it has not been disconnected since. *)
Theorem connected_through_handshake (script : list (host_call * Os)) (a : string) :
  let '(l, g) := play script uninitialized in
  machine (trace_for a l) (view g a) ∧ (connected (view g a) = true -> linked (trace_for a l)).
Proof.
  pose proof (play_machine script uninitialized [] a machine_start) as Hm.
  destruct (play script uninitialized) as [l g]. cbn [fst snd app] in Hm.
  split; [exact Hm|]. apply (machine_history _ _ Hm).
Qed.
End Calls.
