(* ===== verification/Republish.v ===== *)
(** * Publishing the same message again

    A message that was published, whatever the component is asked to do next: as
    long as its id is alive, publishing it again is refused. *)

From S2P Require Import Prelude Errors Types Extern F64 Config Dedup Quorum Session Identity Envelope Rotation Lineage Handshake Engine EngineThms Api ApiThms Component ComponentThms Frames.
Import Engine Api.

Section Republish.
Context {X : Ext} {W : WireCodecs}.

(** What a call that asks for the time is told. *)
Definition clock (os : Os) : Z :=
  match (system_time_ms os).1 with Some ms => wrap 64 ms | None => 0%Z end.

Lemma clock_bind {A} (k : Z -> method (Global * Os) A) (s : Global * Os) :
  (current_time_unix_ms ≫= k) s = k (clock s.2) (s.1, (system_time_ms s.2).2).
Proof.
  unfold current_time_unix_ms, Handshakes.current_time_unix_ms, clock, mbind, st_bind.
  by destruct (system_time_ms s.2).
Qed.

(** ** What keeps an id remembered *)

Section Remembered.
(** An id, the size of its payload, and a time until which it is alive. *)
Context (id : bytes) (size until : Z).

Record remembered (e : GossipEngine) : Prop := {
  rm_seen : seen id until e;
  rm_size : (size <= max_message_bytes (config e))%Z;
}.

Definition remembering_engine (_ : unit) (o : option GossipEngine) : Prop :=
  ∃ e, o = Some e ∧ remembered e.

Lemma remembered_same e e' :
  config e' = config e -> dedup e' = dedup e -> remembered e -> remembered e'.
Proof. intros Hc Hd [Hs Hz]. constructor; [unfold seen in *; by rewrite Hd|by rewrite Hc]. Qed.

Lemma remembering_same (i : unit) e e' :
  config e' = config e -> dedup e' = dedup e ->
  remembering_engine i (Some e) -> remembering_engine i (Some e').
Proof. intros Hc Hd (e0 & [= <-] & He). exists e'. split; [done|by apply (remembered_same e)]. Qed.

#[local] Instance remembering_stable : Stable remembering_engine.
Proof.
  split; [|by intros i r i0 (e & ? & _)].
  intros i e e' Hc _ _ Hd. by apply remembering_same.
Qed.

Abbreviation keeps m := (framed remembering_engine m).

(** Handshakes have nothing to do with the cache. *)
Lemma on_handshakes_keeps {A} (m : method (HandshakeManager * Os) A) : keeps (on_handshakes m).
Proof. apply framed_on_handshakes. intros i e os. by apply remembering_same. Qed.

Lemma update_keeps f :
  (∀ e, config (f e) = config e) -> (∀ e, dedup (f e) = dedup e) -> keeps (update f).
Proof. intros Hc Hd. apply framed_update. intros i e. by apply remembering_same. Qed.

Lemma add_to_mesh_rest addr e :
  config (add_to_mesh addr e) = config e ∧ dedup (add_to_mesh addr e) = dedup e.
Proof. unfold add_to_mesh. by case_match. Qed.

Lemma complete_keeps addr se : keeps (update (complete_handshake addr se)).
Proof. apply update_keeps; intros e; cbn; by destruct (add_to_mesh_rest addr (set_sessions (Store.insert se (sessions e)) e)). Qed.

Lemma record_keeps se : keeps (update (record_session se)).
Proof. by apply update_keeps. Qed.

#[local] Hint Resolve on_handshakes_keeps complete_keeps record_keeps : frames.

Lemma connect_keeps_id addr now : keeps (connect_peer addr now).
Proof. apply framed_bind; [apply framed_engine|intros e]. case_match; auto with frames. Qed.

Lemma process_keeps_id addr b now : keeps (process_handshake_bytes addr b now).
Proof.
  apply framed_bind; [apply framed_engine|intros e]. case_match; auto with frames.
  apply framed_bind; [auto with frames|intros [fb se]]. auto with frames.
Qed.

Lemma build_finish_keeps_id addr b now : keeps (build_finish_ack addr b now).
Proof.
  apply framed_bind; [apply framed_engine|intros e].
  apply framed_bind; [auto with frames|intros [fb se]]. auto with frames.
Qed.

Lemma disconnect_keeps_id addr : keeps (disconnect_peer addr).
Proof.
  apply framed_result. intros i s Hs. rewrite disconnect_run. case_match; [|done].
  by apply (remembering_same i s.1).
Qed.

#[local] Hint Resolve connect_keeps_id process_keeps_id build_finish_keeps_id disconnect_keeps_id
  : frames.

Context {J : JsonOut} `{!FromJson GossipConfig} `{!Bincode LineageWire}.

Lemma peer_call_keeps c : peer_call c = true -> c ≠ call_get_stats -> keeps (run_call c).
Proof.
  destruct c; try done; intros _ _; cbn [run_call]; apply framed_wit || apply framed_discard, framed_wit;
    unfold gossip_connect_peer, gossip_disconnect_peer, gossip_process_handshake_bytes,
      gossip_build_handshake_ack, gossip_build_finish_ack; auto 10 with frames.
Qed.

(** ** The calls that evict *)

(** An id alive at [until] is alive at any time before. *)
Lemma seen_before now e : (now <= until)%Z -> seen id until e -> seen id now e.
Proof.
  intros Ht (ts & Hts & Ha). exists ts. split; [done|].
  unfold Cache.alive, saturating_sub in *. lia.
Qed.

Lemma evicted_remembered now e : (now <= until)%Z -> remembered e -> remembered (evicted now e).
Proof.
  intros Ht [Hs Hz]. constructor; [|done]. destruct (seen_before now e Ht Hs) as (ts & Hts & Ha).
  destruct Hs as (ts' & Hts' & Ha'). rewrite Hts' in Hts. injection Hts as ->.
  exists ts. split; [|done]. by apply Cache.lookup_evict.
Qed.

Lemma other_remembered id' now e :
  (now <= until)%Z -> id' ≠ id -> remembered e -> remembered (remembering id' now e).
Proof.
  intros Ht Hne He. destruct (evicted_remembered now e Ht He) as [(ts & Hts & Ha) Hz].
  constructor; [|done]. exists ts. split; [|done]. cbn. by rewrite lookup_insert_ne.
Qed.

Lemma publish_remembered v payload now (s : GossipEngine * Os) :
  (now <= until)%Z -> remembered s.1 -> remembered (publish v payload now s).2.1.
Proof.
  intros Ht Hs. destruct (publish_cases v payload now s) as [|t msg _ _|t _ _ _|t err _ _ Hn _|t env _ _ Hn _];
    [done|done| | |]; cbn [fst snd].
  - apply (remembered_same (evicted now s.1)); [done..|by apply evicted_remembered].
  - apply other_remembered; [done| |done]. intros Hid. apply Hn. rewrite Hid. by apply seen_before; [|apply Hs].
  - apply (remembered_same (remembering (compute_message_id t payload) now s.1)); [done..|].
    apply other_remembered; [done| |done]. intros Hid. apply Hn. rewrite Hid. by apply seen_before; [|apply Hs].
Qed.

Lemma heartbeat_remembered now e :
  (now <= until)%Z -> remembered e -> remembered (heartbeat now e).
Proof.
  intros Ht He. destruct (maintain_only_mesh (swept now e)) as [l Hl].
  apply (remembered_same (evicted now e)); [|by rewrite heartbeat_swept, Hl|by apply evicted_remembered].
  by rewrite heartbeat_swept, Hl.
Qed.

(** A call about the engine that is told the time, at a time it is alive. *)
Lemma timed_keeps {A} (m : Z -> method (GossipEngine * Os) A) (s : Global * Os) :
  (clock s.2 <= until)%Z ->
  (∀ now e os, (now <= until)%Z -> remembered e -> remembered (m now (e, os)).2.1) ->
  remembering_engine tt (GOSSIP_STATE s.1) ->
  remembering_engine tt
    (GOSSIP_STATE ((current_time_unix_ms ≫= λ now, with_engine (on_engine (m now))) s).2.1).
Proof.
  intros Ht Hm (e & He & Hrm). rewrite clock_bind. destruct s as [[eo l] os]. cbn in He. subst eo.
  specialize (Hm (clock os) e (system_time_ms os).2 Ht Hrm).
  unfold with_engine, on_engine, zoom. cbn [fst snd GOSSIP_STATE LINEAGE].
  destruct (m (clock os) (e, (system_time_ms os).2)) as [r [e' os']]. by exists e'.
Qed.

Lemma wit_state {A} (m : method (Global * Os) A) s : (discard (wit m) s).2 = (m s).2.
Proof. unfold discard, wit, mbind, st_bind. by destruct (m s) as [[] ?]. Qed.

Lemma call_remembers c (s : Global * Os) :
  (clock s.2 <= until)%Z -> remembering_engine tt (GOSSIP_STATE s.1) ->
  remembering_engine tt (GOSSIP_STATE (run_call c s).2.1).
Proof.
  intros Ht Hs.
  assert (keeps (run_call c) -> remembering_engine tt (GOSSIP_STATE (run_call c s).2.1)) as Hk.
  { intros Hk. apply (Hk tt s (run_call c s).1 (run_call c s).2); [by destruct (run_call c s)|done]. }
  destruct (peer_call c) eqn:Hp; [|destruct (publishing_call c) eqn:Hc].
  - assert (c = call_get_stats ∨ c ≠ call_get_stats) as [->|Hne]
      by (destruct c; first [by left|by right]); [|by apply Hk, peer_call_keeps].
    cbn [run_call]. unfold Guest.gossip_get_stats. rewrite wit_state. apply timed_keeps; [done| |done].
    intros now e os Hn He. rewrite update_bind, engine_bind. by apply heartbeat_remembered.
  - destruct c; try done. cbn [run_call]. unfold Guest.gossip_publish. rewrite wit_state.
    apply timed_keeps; [done| |done]. intros now e os Hn He. by apply publish_remembered.
  - apply Hk, quiet_call_framed; [apply _|done..].
Qed.

Lemma play_remembers script g :
  Forall (λ x, (clock x.2 <= until)%Z) script -> remembering_engine tt (GOSSIP_STATE g) ->
  remembering_engine tt (GOSSIP_STATE (play script g).2).
Proof.
  intros Hall. revert g. induction Hall as [|[c os] script Ht _ IH]; intros g Hg; [done|]. cbn.
  pose proof (call_remembers c (g, os) Ht Hg) as Hg'.
  destruct (run_call c (g, os)) as [r [g' os']]. specialize (IH g' Hg').
  by destruct (play script g') as [l g''].
Qed.
End Remembered.

Context {J : JsonOut} `{!FromJson GossipConfig} `{!Bincode LineageWire}.

(** C12. A published message is not published again while its id is alive.  After a
    [gossip_publish] that succeeded, or that failed at nothing but signing, let
    the host make any calls with any arguments, in any number and order, other
    publishes and heartbeats included, on a clock that may even run backwards.
    Then publishing the same type and payload again, at most the TTL after the
    first and not before any of the calls between, is refused as a duplicate; the
    refusal is counted, and nothing but the counter and the expired ids
    changes. *)
Theorem publish_once (v : Z) (t : PayloadType) (payload : bytes) (e : GossipEngine)
    (l : option KeyLineage) (os os1 os2 : Os) (r : res bytes) (g1 : Global)
    (script : list (host_call * Os))
    (Ht : from_u8 v = Some t)
    (Hp : gossip_publish v payload (mkGlobal (Some e) l, os) = (r, (g1, os1)))
    (Hr : (∃ id, r = Ok id) ∨ (∃ err, build_envelope t payload (identity e)
            (default_ttl (config e)) (clock os) = Err err ∧
            (Z.of_nat (length payload) <= max_message_bytes (config e))%Z ∧
            ¬ seen (compute_message_id t payload) (clock os) e))
    (Hcalls : Forall (λ x, (clock x.2 <= clock os2)%Z) script)
    (Hage : (saturating_sub (clock os2) (clock os) <= Cache.ttl_ms (dedup e))%Z) :
  ∃ e2 l2, (play script g1).2 = mkGlobal (Some e2) l2 ∧
    gossip_publish v payload (mkGlobal (Some e2) l2, os2) =
    (Err (EnvelopeError "duplicate message"),
     (mkGlobal (Some (on_stats add_deduplicated (evicted (clock os2) e2))) l2,
      (system_time_ms os2).2)).
Proof.
  set (id := compute_message_id t payload). set (size := Z.of_nat (length payload)).
  assert (remembering_engine id size (clock os2) tt (GOSSIP_STATE g1)) as Hg1.
  { unfold gossip_publish in Hp. rewrite clock_bind in Hp.
    unfold with_engine, on_engine, zoom in Hp. cbn [fst snd GOSSIP_STATE LINEAGE] in Hp.
    destruct (publish_remembers v t payload (clock os) (e, (system_time_ms os).2)) as (f & E & Hsz);
      [done| |].
    { destruct (publish v payload (clock os) _) as [r' [e' os']]. injection Hp as <- _ _. exact Hr. }
    destruct (publish v payload (clock os) _) as [r' [e' os']]. injection Hp as _ <- _.
    cbn in E. injection E as -> _. eexists. split; [done|].
    apply (remembered_same _ _ _ (remembering id (clock os) e)); [done..|].
    constructor; [|exact Hsz]. by apply seen_remembering. }
  destruct (play_remembers id size (clock os2) script g1 Hcalls Hg1) as (e2 & He2 & [Hseen Hsz]).
  destruct (play script g1).2 as [eo l2]. cbn in He2. subst eo. exists e2, l2. split; [done|].
  unfold gossip_publish. rewrite clock_bind. unfold with_engine, on_engine, zoom.
  cbn [fst snd GOSSIP_STATE LINEAGE].
  by rewrite (publish_seen v t) by done.
Qed.
End Republish.
