(* ===== verification/Network.v ===== *)
(** * A network of components

    Any number of nodes, each an instance of the component, over a network that
    belongs to an adversary: he makes every call of every node, in any order,
    with any bytes.  The one thing he cannot do is to sign with the keys of
    honest nodes.  The log of the completed handshakes is a ghost: no
    definition of the program reads it. *)

From S2P Require Import Prelude Errors Types Extern F64 Config Session Identity Envelope Rotation Lineage LineageThms Handshake HandshakeThms Engine EngineThms Api ApiThms Component ComponentThms Frames.
Import Engine Api.

(** ** Calls that open no session *)

(** The sessions are among [M], and what is pending is well formed. *)
Definition within_frame `{Ext, !WireCodecs} (M ss : gmap string SessionRecord)
    (h : HandshakeManager) : Prop := ss ⊆ M ∧ manager_wf h.

Abbreviation within M s := (holds (on_peers within_frame) M s).
Abbreviation tame m := (framed (on_peers within_frame) m).

Section Tame.
Context {X : Ext} {W : WireCodecs} {L : ExtLaws} {WL : WireLaws}.

Lemma within_sub M (e e' : GossipEngine) :
  Store.sessions (sessions e') ⊆ Store.sessions (sessions e) ->
  manager_wf (handshakes e') -> within M e -> within M e'.
Proof. intros Hs Hm [HM _]. split; [by transitivity (sessions_in e)|done]. Qed.

Lemma tame_on_handshakes {A} (m : method (HandshakeManager * Os) A) :
  (∀ s, manager_wf s.1 -> manager_wf (m s).2.1) -> tame (on_handshakes m).
Proof. intros Hm. apply framed_on_handshakes. intros M e os [Hs Hw]. split; [done|by apply Hm]. Qed.

Lemma disconnect_tame addr : tame (disconnect_peer addr).
Proof.
  apply framed_result. intros M s Hs. rewrite disconnect_run. case_match; [|done].
  apply (within_sub M s.1); [apply delete_subseteq|apply manager_wf_remove, Hs|done].
Qed.

Lemma connect_tame addr now : tame (connect_peer addr now).
Proof.
  apply framed_bind; [apply framed_engine|intros e]. case_match; [apply framed_throw|].
  apply tame_on_handshakes. intros s. apply build_probe_wf.
Qed.

Lemma answer_tame addr b now :
  tame (e ← engine;
        on_handshakes (Handshakes.process_probe_build_ack addr b (identity e) now)).
Proof.
  apply framed_bind; [apply framed_engine|intros e]. apply tame_on_handshakes. intros s.
  apply process_probe_wf.
Qed.

Lemma heartbeat_tame now : tame (update (heartbeat now)).
Proof.
  apply framed_update. intros M e He.
  apply (within_sub M e); [by rewrite (proj2 (heartbeat_frame now e))| |done].
  rewrite heartbeat_handshakes. apply wf_evict, He.
Qed.

#[local] Hint Resolve disconnect_tame connect_tame answer_tame heartbeat_tame : frames.

Context {J : JsonOut} `{!FromJson GossipConfig} `{!Bincode LineageWire}.

(** The peer, the message and its kind, of a call that may end a handshake. *)
Definition finishing_call (c : host_call) : option (string * bytes * MessageKind) :=
  match c with
  | call_process_handshake_bytes addr b => Some (addr, b, classify_incoming b)
  | call_build_finish_ack addr b => Some (addr, b, KHandshakeFinish)
  | _ => None
  end.

Lemma other_call_tame c : finishing_call c = None -> tame (run_call c).
Proof.
  destruct (peer_call c) eqn:Hc; [|by intros _; apply framed_untouched, quiet_call_untouched].
  destruct c; try done; intros _; cbn [run_call]; apply framed_wit || apply framed_discard, framed_wit;
    unfold gossip_connect_peer, gossip_disconnect_peer, gossip_build_handshake_ack, gossip_get_stats;
    auto 10 with frames.
Qed.
End Tame.

(** ** Completed handshakes *)

Inductive side : Type := Opened | Answered.

#[export] Instance side_eq_dec : EqDecision side.
Proof. solve_decision. Defined.

(** The node, its side and its key; the three messages it hashed; the session it
    got. *)
Record Completion : Type := mkCompletion {
  at_node : string;
  on_side : side;
  own_key : bytes;
  the_probe : bytes;
  the_ack : bytes;
  the_finish : bytes;
  gained : SessionRecord;
}.

Section Completions.
Context {X : Ext} {W : WireCodecs}.

Definition hash_of (x : Completion) : bytes :=
  compute_transcript_hash (the_probe x) (the_ack x) (the_finish x).

(** The side and the messages of the handshake a message would end. *)
Definition transcript_at (e : GossipEngine) (addr : string) (b : bytes) (k : MessageKind) :
    option (side * (bytes * bytes * bytes)) :=
  match k, pending (handshakes e) !! addr with
  | KHandshakeFinish, Some (Server (AckSent d)) =>
      Some (Answered, (as_probe_bytes d, as_ack_bytes d, b))
  | KHandshakeFinishAck, Some (Client (FinishSent d)) =>
      Some (Opened, (fs_probe_bytes d, fs_ack_bytes d, fs_finish_bytes d))
  | _, _ => None
  end.

Definition completion_at (n : string) (e : GossipEngine) (addr : string) (b : bytes)
    (k : MessageKind) (e' : GossipEngine) : option Completion :=
  '(sd, (p, a, f)) ← transcript_at e addr b k;
  se ← Store.get (sessions e') addr;
  Some (mkCompletion n sd (sig_public_key_bytes (identity e)) p a f se).

(** ** What a completion guarantees *)

(** A final message with this hash, signed with this key. *)
Definition signs (b th pk : bytes) : Prop :=
  ∃ fa, deserialize (A:=HandshakeFinishAck) b = inr fa ∧ fa_transcript_hash fa = th ∧
    verify_external pk th (fa_transcript_signature fa) SIG_CTX_HANDSHAKE = Ok true.

(** What a node sent is an encoding, what it received decodes; the node that
    opened the handshake has the key of the acknowledgement, and a signature. *)
Record sound (x : Completion) (b : bytes) : Prop := {
  so_hash : transcript_hash (gained x) = hash_of x;
  so_opened : on_side x = Opened ->
    signs b (hash_of x) (peer_sig_public_key (gained x)) ∧
    (∃ probe : HandshakeProbe, serialize probe = inr (the_probe x)) ∧
    (∃ fin : HandshakeFinish, serialize fin = inr (the_finish x)) ∧
    ∃ ack : HandshakeAck, deserialize (the_ack x) = inr ack ∧
      ack_ml_dsa_65_public_key ack = peer_sig_public_key (gained x);
  so_answered : on_side x = Answered ->
    (∃ ack : HandshakeAck, serialize ack = inr (the_ack x)) ∧
    ∃ probe : HandshakeProbe, deserialize (the_probe x) = inr probe;
}.

(** What a message that may end a handshake does to an engine. *)
Definition gains (n : string) (e : GossipEngine) (addr : string) (b : bytes) (k : MessageKind)
    (ok : bool) (e' : GossipEngine) : Prop :=
  match (if ok then completion_at n e addr b k e' else None) with
  | Some x =>
      sound x b ∧ manager_wf (handshakes e') ∧
      Store.sessions (sessions e') = <[addr := gained x]> (Store.sessions (sessions e))
  | None => within (Store.sessions (sessions e)) e'
  end.

Lemma gains_none n e addr b k ok e' :
  transcript_at e addr b k = None -> within (Store.sessions (sessions e)) e' ->
  gains n e addr b k ok e'.
Proof. intros Ht Hw. unfold gains, completion_at. rewrite Ht. by destruct ok. Qed.

Context {L : ExtLaws} {WL : WireLaws}.

Lemma get_inserted se store addr :
  peer_addr se = addr -> Store.get (Store.insert se store) addr = Some se.
Proof. intros <-. apply lookup_insert_eq. Qed.

(** A server that answered a finish, stored with [f]. *)
Lemma finish_gains {A} n addr b now (e : GossipEngine) os (f : SessionRecord -> GossipEngine -> GossipEngine)
    (h : bytes -> A) r e' os' :
  manager_wf (handshakes e) ->
  (∀ se e, sessions (f se e) = Store.insert se (sessions e)) ->
  (∀ se e, handshakes (f se e) = handshakes e) ->
  ('(fb, se) ← on_handshakes
      (Handshakes.process_finish_build_finish_ack addr b (identity e) now);
    _ ← update (f se); mret (h fb)) (e, os) = (r, (e', os')) ->
  gains n e addr b KHandshakeFinish (is_ok r) e'.
Proof.
  intros Hw Hs Hh E. unfold on_handshakes, zoom, mbind, st_bind in E. cbn [fst snd] in E.
  pose proof (process_finish_wf addr b (identity e) now (handshakes e, os) Hw) as Hw'.
  destruct (Handshakes.process_finish_build_finish_ack _ _ _ _ _) as [[[fb se]|err|] [m' o']] eqn:Ep;
    cbn in E; injection E as <- <- _; cbn in Hw'.
  2,3: done.
  apply process_finish_ok in Ep as (fin & d & ct & ss & key & ctb & mac & sg & sid & _ & _ & Hp & _ & _
    & _ & _ & _ & _ & _ & _ & -> & _). cbn [fst] in Hp.
  unfold gains, completion_at, transcript_at. rewrite Hp. cbn.
  rewrite Hs, get_inserted by done. cbn. rewrite Hh. split; [|done].
  destruct (mwf_pending _ Hw _ _ Hp) as (_ & probe & ack & Hpr & Hack & _).
  constructor; [done|done|]. intros _. split; [by exists ack|by exists probe].
Qed.

(** A client that accepted the final message. *)
Lemma finish_ack_gains {A} n addr b now (e : GossipEngine) os (a : A) r e' os' :
  manager_wf (handshakes e) ->
  (se ← on_handshakes (Handshakes.process_finish_ack addr b now);
   _ ← update (complete_handshake addr se); mret a) (e, os) = (r, (e', os')) ->
  gains n e addr b KHandshakeFinishAck (is_ok r) e'.
Proof.
  intros Hw E. unfold on_handshakes, zoom, mbind, st_bind in E. cbn [fst snd] in E.
  pose proof (process_finish_ack_wf addr b now (handshakes e, os) Hw) as Hw'.
  destruct (Handshakes.process_finish_ack _ _ _ _) as [[se|err|] [m' o']] eqn:Ep;
    cbn in E; injection E as <- <- _; cbn in Hw'.
  2,3: done.
  apply process_finish_ack_ok in Ep as (fa & d & [Hfa _]%receive_ok & Hp & [Ht _ Hv] & -> & _).
  cbn [fst] in Hp. unfold gains, completion_at, transcript_at. rewrite Hp.
  cbn -[complete_handshake]. rewrite sessions_complete, get_inserted by done.
  cbn -[complete_handshake]. rewrite handshakes_complete. split; [|done].
  destruct (mwf_pending _ Hw _ _ Hp) as (_ & _ & _ & probe & ack & fin & Hpr & Hack & Hfin & _ & _ & _
    & _ & Hpk & _).
  constructor; [done| |done]. intros _. cbn. split; [|split; [by exists probe|split; [by exists fin|]]].
  - exists fa. unfold hash_of. cbn. by rewrite <- Ht.
  - by exists ack.
Qed.

Lemma tame_within {A} (m : method (GossipEngine * Os) A) (e : GossipEngine) os r e' os' :
  tame m -> manager_wf (handshakes e) -> m (e, os) = (r, (e', os')) ->
  within (Store.sessions (sessions e)) e'.
Proof. intros Hm Hw E. apply (Hm _ _ _ _ E). by split. Qed.

Lemma process_gains n addr b now (e : GossipEngine) os r e' os' :
  manager_wf (handshakes e) ->
  process_handshake_bytes addr b now (e, os) = (r, (e', os')) ->
  gains n e addr b (classify_incoming b) (is_ok r) e'.
Proof.
  intros Hw. unfold process_handshake_bytes. rewrite engine_bind. cbn [fst].
  destruct (classify_incoming b); intros E.
  - apply gains_none; [done|]. apply (tame_within _ _ _ _ _ _) in E; [done| |done].
    apply framed_bind; [|intros ab; apply framed_ret]. apply tame_on_handshakes. intros s.
    apply process_probe_wf.
  - apply gains_none; [done|]. apply (tame_within _ _ _ _ _ _) in E; [done| |done].
    apply framed_bind; [|intros ab; apply framed_ret]. apply tame_on_handshakes. intros s.
    apply process_ack_wf.
  - eapply finish_gains; [done| | |exact E]; intros se e0.
    + apply sessions_complete.
    + apply handshakes_complete.
  - eapply finish_ack_gains; [done|exact E].
  - apply gains_none; [done|]. apply (tame_within _ _ _ _ _ _) in E; [done|apply framed_throw|done].
Qed.

Lemma build_finish_gains n addr b now (e : GossipEngine) os r e' os' :
  manager_wf (handshakes e) ->
  build_finish_ack addr b now (e, os) = (r, (e', os')) ->
  gains n e addr b KHandshakeFinish (is_ok r) e'.
Proof.
  intros Hw. unfold build_finish_ack. rewrite engine_bind. cbn [fst]. intros E.
  by eapply (finish_gains n addr b now e os record_session id).
Qed.
End Completions.

(** ** The network *)

Section Network.
Context {X : Ext} {W : WireCodecs} {J : JsonOut} `{!FromJson GossipConfig}.
Context `{!Bincode LineageWire}.

Definition completion (n : string) (g : Global) (c : host_call) (g' : Global) :
    option Completion :=
  e ← GOSSIP_STATE g;
  e' ← GOSSIP_STATE g';
  '(addr, b, k) ← finishing_call c;
  completion_at n e addr b k e'.

(** The instances, and the handshakes completed so far, the last one first. *)
Record World : Type := mkWorld {
  instances : gmap string Global;
  log : list Completion;
}.

Definition start : World := mkWorld ∅ [].

Definition instance_of (w : World) (n : string) : Global := default uninitialized (instances w !! n).

(** Node [n] is called. *)
Definition call_on (w : World) (n : string) (c : host_call) (os : Os) : World :=
  let g := instance_of w n in
  let '(r, (g', _)) := run_call c (g, os) in
  mkWorld (<[n := g']> (instances w))
    (match (if is_ok r then completion n g c g' else None) with
     | Some x => x :: log w
     | None => log w
     end).

(** Some node with this key answered a handshake with this hash. *)
Definition answered (w : World) (pk th : bytes) : bool :=
  existsb (λ y, bool_decide (on_side y = Answered ∧ own_key y = pk ∧ hash_of y = th)) (log w).

(** No message carries a signature that an honest key did not make: if it
    verifies under that key as one of a transcript hash, its node answered that
    handshake. *)
Definition unforged (honest : list bytes) (w : World) (c : host_call) : bool :=
  match c with
  | call_process_handshake_bytes _ b =>
      match deserialize (A:=HandshakeFinishAck) b with
      | inr fa =>
          forallb (λ pk,
            match verify_external pk (fa_transcript_hash fa) (fa_transcript_signature fa)
                    SIG_CTX_HANDSHAKE with
            | Ok true => answered w pk (fa_transcript_hash fa)
            | _ => true
            end) honest
      | inl _ => true
      end
  | _ => true
  end.

Inductive net_step (honest : list bytes) (w : World) : World -> Prop :=
  | net_call n c os : unforged honest w c = true -> net_step honest w (call_on w n c os).

Definition network_reachable (honest : list bytes) : World -> Prop := rtc (net_step honest) start.

(** ** The invariant *)

Definition answers (y x : Completion) : Prop :=
  on_side y = Answered ∧ own_key y = peer_sig_public_key (gained x) ∧ hash_of y = hash_of x.

(** Every handshake a node opened with an honest key was answered before. *)
Fixpoint authentic (honest : list bytes) (l : list Completion) : Prop :=
  match l with
  | [] => True
  | x :: l' =>
      (∃ b, sound x b) ∧
      (on_side x = Opened -> peer_sig_public_key (gained x) ∈ honest -> ∃ y, y ∈ l' ∧ answers y x) ∧
      authentic honest l'
  end.

Record net_wf (honest : list bytes) (w : World) : Prop := {
  nw_handshakes n : manager_wf (handshakes_in (instance_of w n));
  nw_sessions n addr se :
    sessions_in (instance_of w n) !! addr = Some se ->
    ∃ x, x ∈ log w ∧ at_node x = n ∧ gained x = se;
  nw_log : authentic honest (log w);
}.

Context {L : ExtLaws} {WL : WireLaws}.

(** A call of a method of the engine, as the component exports it. *)
Lemma engine_call_run {A} (m : Z -> method (GossipEngine * Os) A) (g : Global) os r g' os' :
  discard (wit (current_time_unix_ms ≫= λ now, with_engine (on_engine (m now)))) (g, os)
  = (r, (g', os')) ->
  match GOSSIP_STATE g with
  | None => is_ok r = false ∧ g' = g
  | Some e =>
      ∃ now os0 r0 e', m now (e, os0) = (r0, (e', os')) ∧ is_ok r = is_ok r0 ∧
        g' = mkGlobal (Some e') (LINEAGE g)
  end.
Proof.
  unfold discard, wit. unfold mbind at 1, st_bind at 1.
  destruct (time_bind (g, os)) as (now & os0 & ->). unfold with_engine. cbn [fst].
  destruct g as [[e|] l]; cbn [GOSSIP_STATE LINEAGE].
  - unfold on_engine, zoom. cbn [fst snd]. destruct (m now (e, os0)) as [r0 [e' o']] eqn:E.
    intros H. exists now, os0, r0, e'. destruct r0; cbn in H; by injection H as <- <- <-.
  - cbn. intros H. by injection H as <- <- _.
Qed.

Lemma finishing_runs n c (g : Global) os r g' os' addr b k :
  manager_wf (handshakes_in g) -> finishing_call c = Some (addr, b, k) ->
  run_call c (g, os) = (r, (g', os')) ->
  match GOSSIP_STATE g with
  | None => is_ok r = false ∧ g' = g
  | Some e =>
      ∃ e', gains n e addr b k (is_ok r) e' ∧ g' = mkGlobal (Some e') (LINEAGE g)
  end.
Proof.
  intros Hw Hc E. destruct c; try done; injection Hc as <- <- <-; apply engine_call_run in E;
    destruct g as [[e|] l]; try done; destruct E as (now & os0 & r0 & e' & E & Hr & ->);
    exists e'; rewrite Hr.
  - split; [by eapply process_gains|done].
  - split; [by eapply build_finish_gains|done].
Qed.

(** What a call leaves: the handshake it completed, or nothing new. *)
Lemma call_gains n c (g : Global) os r g' os' :
  manager_wf (handshakes_in g) -> run_call c (g, os) = (r, (g', os')) ->
  match (if is_ok r then completion n g c g' else None) with
  | Some x =>
      ∃ addr b k, finishing_call c = Some (addr, b, k) ∧ sound x b ∧
        manager_wf (handshakes_in g') ∧ sessions_in g' = <[addr := gained x]> (sessions_in g)
  | None => within (sessions_in g) g'
  end.
Proof.
  intros Hw E. unfold completion. destruct (finishing_call c) as [[[addr b] k]|] eqn:Hc.
  - pose proof (finishing_runs n c g os r g' os' addr b k Hw Hc E) as Hg.
    destruct g as [[e|] l]; cbn [GOSSIP_STATE] in Hg.
    + destruct Hg as (e' & Hg & ->). unfold gains in Hg. cbn. destruct (is_ok r); [|exact Hg].
      destruct (completion_at n e addr b k e') as [x|]; [|exact Hg].
      destruct Hg as (Hs & Hm & Hse). by exists addr, b, k.
    + destruct Hg as [-> ->]. by split.
  - assert (within (sessions_in g) g') as Hin by (by apply (other_call_tame c Hc _ _ _ _ E)).
    destruct (is_ok r), (GOSSIP_STATE g), (GOSSIP_STATE g'); exact Hin.
Qed.

(** Only the dispatcher ends a handshake the node opened. *)
Lemma opened_by_dispatch n g c g' x addr b k :
  completion n g c g' = Some x -> finishing_call c = Some (addr, b, k) -> on_side x = Opened ->
  c = call_process_handshake_bytes addr b.
Proof.
  unfold completion. intros Hx Hc Ho. destruct (GOSSIP_STATE g) as [e|]; [|done].
  destruct (GOSSIP_STATE g') as [e'|]; [|done]. cbn in Hx. rewrite Hc in Hx. cbn in Hx.
  destruct c; try done; injection Hc as <- <- <-; [done|].
  unfold completion_at, transcript_at in Hx.
  destruct (pending (handshakes e) !! addr0) as [[[]|[]]|]; try done. cbn in Hx.
  destruct (Store.get _ _); [|done]. injection Hx as <-. discriminate Ho.
Qed.

Lemma completion_node n g c g' x : completion n g c g' = Some x -> at_node x = n.
Proof.
  unfold completion, completion_at. destruct (GOSSIP_STATE g); [|done].
  destruct (GOSSIP_STATE g'); [|done]. destruct (finishing_call c) as [[[addr b] k]|]; [|done].
  cbn. destruct (transcript_at _ _ _ _) as [[sd [[p a] f]]|]; [|done]. cbn.
  destruct (Store.get _ _); [|done]. by intros [= <-].
Qed.

(** An honest key behind a signature means an answer in the log. *)
Lemma unforged_answered honest w addr b th pk :
  unforged honest w (call_process_handshake_bytes addr b) = true -> pk ∈ honest -> signs b th pk ->
  ∃ y, y ∈ log w ∧ on_side y = Answered ∧ own_key y = pk ∧ hash_of y = th.
Proof.
  unfold unforged. intros Hu Hpk (fa & Hd & <- & Hv). rewrite Hd in Hu.
  rewrite forallb_forall in Hu. specialize (Hu pk ltac:(by apply list_elem_of_In)).
  cbv beta in Hu. rewrite Hv in Hu. apply existsb_exists in Hu as (y & Hy & Hb%bool_decide_eq_true).
  exists y. split; [by apply list_elem_of_In|exact Hb].
Qed.

Lemma instance_called w n g l m :
  instance_of (mkWorld (<[n := g]> (instances w)) l) m
  = if decide (m = n) then g else instance_of w m.
Proof.
  unfold instance_of. cbn. case_decide as Hm; [subst; by rewrite lookup_insert_eq|].
  by rewrite lookup_insert_ne.
Qed.

(** ** Preservation *)

Lemma net_wf_start honest : net_wf honest start.
Proof. split; [intros n; apply manager_wf_new|intros n addr se|]; by cbn. Qed.

(** The log only grows; each node's sessions stay within what it logged. *)
Lemma step_wf honest w n c os :
  unforged honest w c = true -> net_wf honest w -> net_wf honest (call_on w n c os).
Proof.
  intros Hu [Hh Hs Hl]. unfold call_on.
  destruct (run_call c (instance_of w n, os)) as [r [g' os']] eqn:E.
  pose proof (call_gains n c _ os r g' os' (Hh n) E) as Hg. cbn [fst snd].
  destruct (if is_ok r then completion n (instance_of w n) c g' else None) as [x|] eqn:Ex.
  - destruct (is_ok r); [|done]. destruct Hg as (addr & b & k & Hc & Hx & Hm & Hse).
    split.
    + intros m. rewrite instance_called. by case_decide.
    + intros m a se. rewrite instance_called. cbn [log]. case_decide as Hmn.
      * rewrite Hse. intros [[-> <-]|[_ Ha]]%lookup_insert_Some.
        { exists x. split; [by left|]. split; [|done]. by apply completion_node in Ex as ->. }
        apply Hs in Ha as (y & Hy & Hyn & Hyg). exists y. subst m. by split; [right|].
      * intros Ha. apply Hs in Ha as (y & Hy & Hyn). exists y. by split; [right|].
    + split; [by exists b|]. split; [|exact Hl]. intros Ho Hpk.
      pose proof (opened_by_dispatch _ _ _ _ _ _ _ _ Ex Hc Ho) as ->.
      destruct (so_opened _ _ Hx Ho) as (Hsg & _).
      destruct (unforged_answered honest w addr b _ _ Hu Hpk Hsg) as (y & Hy & Ha).
      by exists y.
  - destruct Hg as [Hsub Hm]. split; [| |exact Hl].
    + intros m. rewrite instance_called. by case_decide.
    + intros m a se. rewrite instance_called. cbn [log]. case_decide as Hmn; [|apply Hs].
      intros Ha. subst m. apply (Hs n a). by eapply lookup_weaken.
Qed.

Lemma network_wf honest w : network_reachable honest w -> net_wf honest w.
Proof.
  unfold network_reachable. intros Hr. cut (net_wf honest start); [|apply net_wf_start].
  induction Hr as [w|w1 w2 w3 Hst Hr IH]; [done|]. intros Hw. apply IH.
  destruct Hst. by apply step_wf.
Qed.

Lemma authentic_split honest l1 x l2 :
  authentic honest (l1 ++ x :: l2) ->
  (∃ b, sound x b) ∧
  (on_side x = Opened -> peer_sig_public_key (gained x) ∈ honest -> ∃ y, y ∈ l2 ∧ answers y x) ∧
  Forall (λ y, ∃ b, sound y b) l2.
Proof.
  induction l1 as [|z l1 IH]; cbn.
  - intros (Hx & Hy & Hl). split; [done|]. split; [done|]. clear -Hl.
    induction l2 as [|y l2 IH]; [done|]. destruct Hl as (Hy & _ & Hl).
    constructor; [done|by apply IH].
  - intros (_ & _ & Hl). by apply IH.
Qed.

(** ** Agreement on the messages *)

Definition messages (x : Completion) : bytes := the_probe x ++ the_ack x ++ the_finish x.

Lemma hash_agrees x y :
  hash_of y = hash_of x -> messages y = messages x ∨ collide (messages y) (messages x).
Proof. apply same_hash. Qed.

(** The node that received the message read it to its end. *)
Definition probe_exact (x : Completion) : Prop :=
  ∃ probe : HandshakeProbe, serialize probe = inr (the_probe x).
Definition ack_exact (x : Completion) : Prop :=
  ∃ ack : HandshakeAck, serialize ack = inr (the_ack x).

(** No encoding is a proper prefix of another. *)
Lemma encoding_split {A} `{!Bincode A, !BincodeTrailing A} (m1 m2 : A) b1 b2 r1 r2 :
  serialize m1 = inr b1 -> serialize m2 = inr b2 -> b1 ++ r1 = b2 ++ r2 -> b1 = b2 ∧ r1 = r2.
Proof.
  intros H1 H2 E. pose proof (deserialize_trailing m1 b1 r1 H1) as D1.
  rewrite E, (deserialize_trailing m2 b2 r2 H2) in D1. injection D1 as ->.
  rewrite H1 in H2. injection H2 as ->. split; [done|]. by apply app_inv_head in E.
Qed.

Lemma messages_agree `{!BincodeTrailing HandshakeProbe, !BincodeTrailing HandshakeAck} x y :
  probe_exact x -> probe_exact y -> ack_exact x -> ack_exact y -> messages y = messages x ->
  the_probe y = the_probe x ∧ the_ack y = the_ack x ∧ the_finish y = the_finish x.
Proof.
  intros [px Hpx] [py Hpy] [ax Hax] [ay Hay] E.
  apply (encoding_split _ _ _ _ _ _ Hpy Hpx) in E as [-> E].
  by apply (encoding_split _ _ _ _ _ _ Hay Hax) in E as [-> ->].
Qed.

(** C3. A session the node opened was answered by its peer.  In a network whose
    adversary calls every node in any order with any bytes, and can do anything
    but sign with an honest key, every session a node holds comes from a
    handshake it completed, under whose transcript hash it is filed.  If the node
    opened it and the peer's key is honest, a node with that key answered a
    handshake with the same hash, before.  That hash is the SHA-256 of the three
    messages of either end, so the two ends agree on the bytes of their messages,
    or else these two strings of bytes are a collision; and if they agree and
    neither read bytes after the message it received, which the code does not
    ask for, they exchanged the same three messages. *)
Theorem opened_session_answered
    `{!BincodeTrailing HandshakeProbe, !BincodeTrailing HandshakeAck}
    (honest : list bytes) (w : World) (n addr : string) (se : SessionRecord)
    (Hr : network_reachable honest w)
    (Hse : sessions_in (instance_of w n) !! addr = Some se) :
  ∃ l1 x l2,
    log w = l1 ++ x :: l2 ∧ at_node x = n ∧ gained x = se ∧
    transcript_hash se = sha256 (messages x) ∧
    (on_side x = Opened -> peer_sig_public_key se ∈ honest ->
     ∃ y, y ∈ l2 ∧ on_side y = Answered ∧ own_key y = peer_sig_public_key se ∧
       transcript_hash (gained y) = transcript_hash se ∧
       transcript_hash (gained y) = sha256 (messages y) ∧
       (messages y = messages x ∧
        (probe_exact y -> ack_exact x ->
         the_probe y = the_probe x ∧ the_ack y = the_ack x ∧ the_finish y = the_finish x)
        ∨ collide (messages y) (messages x))).
Proof.
  destruct (network_wf honest w Hr) as [_ Hs Hl].
  destruct (Hs n addr se Hse) as (x & (l1 & l2 & Hw)%list_elem_of_split & Hn & <-).
  rewrite Hw in Hl. destruct (authentic_split _ _ _ _ Hl) as ((b & Hx) & Hy & Hall).
  exists l1, x, l2. do 3 (split; [done|]). split; [apply Hx|]. intros Ho Hpk.
  destruct (Hy Ho Hpk) as (y & Hin & Ha & Hk & Hh).
  rewrite Forall_forall in Hall. destruct (Hall y Hin) as (b' & Hyb).
  exists y. do 3 (split; [done|]). split; [by rewrite (so_hash _ _ Hyb), (so_hash _ _ Hx)|].
  split; [apply (so_hash _ _ Hyb)|].
  destruct (hash_agrees x y Hh) as [Hm|]; [left|by right]. split; [done|]. intros Hpy Hax.
  destruct (so_opened _ _ Hx Ho) as (_ & Hpx & _). destruct (so_answered _ _ Hyb Ha) as (Hay & _).
  by apply messages_agree.
Qed.
End Network.
