(* ===== verification/Memory.v ===== *)
(** * Linear memory

    The memory the C interface of [witan/src/wasi_exports.rs] works on: the
    bytes of a 32-bit linear memory, the live heap blocks, and the allocator as
    an interface.  An access is defined only inside one live block, as Rust's
    pointer rules demand; outside it the behaviour is undefined, which is a
    value here ([Fault]), apart from a trap ([Panic]). *)

From S2P Require Import Prelude.

(** ** Machine words of wasm32 *)

Definition as_usize (i : Z) : Z := wrap 32 i.
Definition as_i32 (z : Z) : Z :=
  let u := wrap 32 z in if (u <? 2 ^ 31)%Z then u else (u - 2 ^ 32)%Z.

Definition as_i64 (z : Z) : Z :=
  let u := wrap 64 z in if (u <? 2 ^ 63)%Z then u else (u - 2 ^ 64)%Z.

Definition isize_max : Z := 2 ^ 31 - 1.
Definition is_i32 (i : Z) : Prop := (- 2 ^ 31 <= i < 2 ^ 31)%Z.

Lemma as_usize_of_i32 z : (0 <= z < 2 ^ 32)%Z -> as_usize (as_i32 z) = z.
Proof.
  intros Hz. unfold as_usize, as_i32. rewrite (wrap_small 32 z) by done.
  destruct (Z.ltb_spec z (2 ^ 31)); [by apply wrap_small|].
  unfold wrap. rewrite <- (Z.mod_add _ 1) by done.
  replace (z - 2 ^ 32 + 1 * 2 ^ 32)%Z with z by lia. by apply Z.mod_small.
Qed.

Lemma as_i32_range z : is_i32 (as_i32 z).
Proof.
  unfold is_i32, as_i32, wrap. pose proof (Z.mod_pos_bound z (2 ^ 32) eq_refl).
  destruct (Z.ltb_spec (z `mod` 2 ^ 32) (2 ^ 31)); lia.
Qed.

Lemma as_i32_of_small z : (0 <= z <= isize_max)%Z -> as_i32 z = z.
Proof.
  unfold isize_max. intros Hz. unfold as_i32. rewrite wrap_small by (unfold fits; lia).
  destruct (Z.ltb_spec z (2 ^ 31)); lia.
Qed.

Lemma as_i32_id z : is_i32 z -> as_i32 z = z.
Proof.
  unfold is_i32, as_i32. intros Hz. destruct (Z.ltb_spec z 0).
  - assert (wrap 32 z = (z + 2 ^ 32)%Z) as ->.
    { unfold wrap. rewrite <- (Z.mod_add z 1) by done. apply Z.mod_small. lia. }
    destruct (Z.ltb_spec (z + 2 ^ 32) (2 ^ 31)); lia.
  - rewrite wrap_small by (unfold fits; lia). destruct (Z.ltb_spec z (2 ^ 31)); lia.
Qed.

(** ** The allocator

    [std::alloc] at alignment 1: from its hidden state, the live blocks and a
    size, an address or null.  [spare] is the capacity a [Vec] keeps beyond its
    length, which its growth strategy decides. *)

Class Allocator := {
  Heap : Type;
  malloc : Heap -> gmap Z Z -> Z -> Z * Heap;
  spare : Heap -> bytes -> Z;
}.

(** Whether [n] bytes at [p] lie in the address space, apart from every block. *)
Definition fresh_block (p n : Z) (blocks : gmap Z Z) : Prop :=
  (0 < p)%Z ∧ (p + n <= 2 ^ 32)%Z ∧
  ∀ q s, blocks !! q = Some s -> (p + n <= q)%Z ∨ (q + s <= p)%Z.

Class AllocatorLaws `{Allocator} : Prop := {
  malloc_fresh h blocks n p h' :
    malloc h blocks n = (p, h') -> p ≠ 0%Z -> fresh_block p n blocks;
  spare_nonneg h b : (0 <= spare h b)%Z;
}.

Section Memory.
Context {M : Allocator}.

Record Memory : Type := mkMemory {
  cells : gmap Z byte;      (* the initialised bytes *)
  blocks : gmap Z Z;        (* address and size of the live heap blocks *)
  heap : Heap;
}.

(** Undefined behaviour. *)
Inductive Fault : Type :=
  | InvalidRead (ptr len : Z)
  | InvalidWrite (ptr : Z)
  | InvalidFree (ptr len : Z)
  | ZeroSizedAlloc.

(** [n] bytes at [p] inside one live block. *)
Definition in_block (m : Memory) (p n : Z) : Prop :=
  map_Exists (λ q s, q <= p ∧ p + n <= q + s)%Z (blocks m).

#[global] Instance in_block_dec m p n : Decision (in_block m p n).
Proof. unfold in_block. apply _. Defined.

Definition load (m : Memory) (p : Z) (n : nat) : option bytes :=
  mapM (λ a, cells m !! a) (seqZ p (Z.of_nat n)).

Definition store (p : Z) (b : bytes) (m : Memory) : Memory :=
  mkMemory (map_seqZ p b ∪ cells m) (blocks m) (heap m).

Definition grow (p n : Z) (h : Heap) (m : Memory) : Memory :=
  mkMemory (cells m) (<[p := n]> (blocks m)) h.

Definition release (p n : Z) (m : Memory) : Memory :=
  mkMemory (filter (λ ab, ¬ (p <= ab.1 < p + n)%Z) (cells m)) (delete p (blocks m)) (heap m).

(** ** Well-formed memories

    Blocks are apart from each other, non-empty and in the address space, and
    every initialised byte is in one. *)
Record mem_wf (m : Memory) : Prop := {
  mw_block p n : blocks m !! p = Some n -> (0 < p ∧ 0 < n <= isize_max ∧ p + n <= 2 ^ 32)%Z;
  mw_apart p n q s : blocks m !! p = Some n -> blocks m !! q = Some s -> p ≠ q ->
    (p + n <= q)%Z ∨ (q + s <= p)%Z;
  mw_cells a b : cells m !! a = Some b -> in_block m a 1;
}.

Lemma in_block_bounds m p n :
  mem_wf m -> in_block m p n -> (0 <= n)%Z -> (0 < p ∧ p + n <= 2 ^ 32 ∧ n <= isize_max)%Z.
Proof.
  intros Hm (q & s & Hq & H1 & H2) Hn. destruct (mw_block _ Hm _ _ Hq) as (? & ? & ?). lia.
Qed.

Lemma in_block_sub m p n q k :
  in_block m p n -> (p <= q)%Z -> (q + k <= p + n)%Z -> in_block m q k.
Proof. intros (b & s & Hb & H1 & H2) Hp Hk. exists b, s. split_and!; [done|lia..]. Qed.

(** ** Loads and stores *)

Lemma load_store m p b : load (store p b m) p (length b) = Some b.
Proof.
  unfold load. apply mapM_Some_2, Forall2_lookup. intros i.
  destruct (decide (i < length b)%nat) as [Hi|Hi].
  - destruct (lookup_lt_is_Some_2 _ _ Hi) as [x Hx]. rewrite Hx.
    rewrite (lookup_seqZ_lt _ _ _) by lia. constructor. cbn.
    apply lookup_union_Some_l, lookup_map_seqZ_Some_inv, Hx.
  - rewrite lookup_seqZ_ge by lia. rewrite lookup_ge_None_2 by lia. constructor.
Qed.

Lemma lookup_store_out p b m a :
  (a < p ∨ p + Z.of_nat (length b) <= a)%Z -> cells (store p b m) !! a = cells m !! a.
Proof. intros Ha. cbn. apply lookup_union_r, lookup_map_seqZ_None. lia. Qed.

Lemma mapM_ext_in {A B} (f g : A -> option B) (l : list A) :
  (∀ x, x ∈ l -> f x = g x) -> mapM f l = mapM g l.
Proof.
  induction l as [|x l IH]; intros He; [done|]. cbn.
  rewrite (He x), IH; [done| |left]. intros y Hy. apply He. by right.
Qed.

Lemma load_ext m m' p n :
  (∀ a, (p <= a < p + Z.of_nat n)%Z -> cells m' !! a = cells m !! a) ->
  load m' p n = load m p n.
Proof.
  intros He. apply mapM_ext_in. intros a [? ?]%elem_of_seqZ. apply He. lia.
Qed.

Lemma load_store_apart m p b q n :
  (q + Z.of_nat n <= p ∨ p + Z.of_nat (length b) <= q)%Z ->
  load (store p b m) q n = load m q n.
Proof. intros Ha. apply load_ext. intros a Hr. apply lookup_store_out. lia. Qed.

Lemma load_length m p n b : load m p n = Some b -> length b = n.
Proof.
  intros Hl%mapM_Some_1%Forall2_length. rewrite <- Hl, length_seqZ. lia.
Qed.

Lemma load_in_cells m p n b a :
  load m p n = Some b -> (p <= a < p + Z.of_nat n)%Z -> is_Some (cells m !! a).
Proof.
  intros Hl%mapM_Some_1 Ha.
  assert (a ∈ seqZ p (Z.of_nat n)) as Hin by (apply elem_of_seqZ; lia).
  apply list_elem_of_lookup in Hin as [i Hi].
  destruct (Forall2_lookup_l _ _ _ _ _ Hl Hi) as (x & _ & Hx). eauto.
Qed.

(** ** The operations keep memories well formed *)

Lemma store_wf p b m :
  mem_wf m -> in_block m p (Z.of_nat (length b)) -> mem_wf (store p b m).
Proof.
  intros [Hb Ha Hc] Hin. constructor; [done..|]. intros a x. cbn.
  rewrite lookup_union_Some_raw. intros [Hs|[_ Hx]]; [|by apply (Hc a x)].
  apply lookup_map_seqZ_Some in Hs as [? Hs].
  apply lookup_lt_Some in Hs. apply (in_block_sub m p _ _ _ Hin); lia.
Qed.

(** No block is at the address of a fresh one. *)
Lemma fresh_lookup p n m :
  mem_wf m -> (0 < n)%Z -> fresh_block p n (blocks m) -> blocks m !! p = None.
Proof.
  intros Hm Hn (_ & _ & Hf). apply eq_None_not_Some. intros [s Hs].
  pose proof (mw_block _ Hm _ _ Hs). destruct (Hf _ _ Hs); lia.
Qed.

Lemma grow_wf p n h m :
  mem_wf m -> fresh_block p n (blocks m) -> (0 < n <= isize_max)%Z -> mem_wf (grow p n h m).
Proof.
  intros Hm Hfr Hn. pose proof (fresh_lookup p n m Hm ltac:(lia) Hfr) as Hnone.
  destruct Hm as [Hb Ha Hc], Hfr as (Hp & Hmax & Hf).
  constructor; cbn.
  - intros q s [[<- <-]|[_ Hq]]%lookup_insert_Some; [done|by apply Hb].
  - intros q s q' s' [[<- <-]|[? Hq]]%lookup_insert_Some [[<- <-]|[? Hq']]%lookup_insert_Some Hne;
      [done|by apply Hf| |by eapply Ha].
    destruct (Hf _ _ Hq); auto.
  - intros a b Hx. destruct (Hc _ _ Hx) as (q & s & Hq & Hr).
    exists q, s. split; [|done]. cbn. rewrite lookup_insert_ne; [done|]. by intros <-; simplify_eq.
Qed.

Lemma release_wf p n m : mem_wf m -> blocks m !! p = Some n -> mem_wf (release p n m).
Proof.
  intros [Hb Ha Hc] Hp. constructor; cbn.
  - intros q s [_ Hq]%lookup_delete_Some. by apply Hb.
  - intros q s q' s' [_ Hq]%lookup_delete_Some [_ Hq']%lookup_delete_Some. by apply Ha.
  - intros a b [Hx Hout]%map_lookup_filter_Some. cbn in Hout.
    destruct (Hc _ _ Hx) as (q & s & Hq & Hr). exists q, s. split; [|done]. cbn.
    rewrite lookup_delete_ne; [done|]. intros <-. simplify_eq. lia.
Qed.

(** The address of a fresh block holds nothing yet. *)
Lemma fresh_cells m p n a :
  mem_wf m -> fresh_block p n (blocks m) -> (p <= a < p + n)%Z -> cells m !! a = None.
Proof.
  intros Hm (_ & _ & Hf) Ha. apply eq_None_not_Some. intros [b Hb].
  destruct (mw_cells _ Hm _ _ Hb) as (q & s & Hq & Hr). destruct (Hf _ _ Hq); lia.
Qed.

(** Giving a fresh block back restores the memory. *)
Lemma release_grow p n h m :
  mem_wf m -> (0 < n)%Z -> fresh_block p n (blocks m) ->
  cells (release p n (grow p n h m)) = cells m ∧ blocks (release p n (grow p n h m)) = blocks m.
Proof.
  intros Hm Hn Hf. split; cbn.
  - apply map_filter_id. intros a b Hb Hr. cbn in Hr.
    by rewrite (fresh_cells m p n a Hm Hf Hr) in Hb.
  - by apply delete_insert_id, (fresh_lookup p n).
Qed.

(** What was stored in a block is gone with it. *)
Lemma release_store p n b m :
  (Z.of_nat (length b) <= n)%Z ->
  cells (release p n (store p b m)) = cells (release p n m).
Proof.
  intros Hb. apply map_eq. intros a. apply option_eq. intros x. cbn.
  rewrite !map_lookup_filter_Some. cbn.
  split; intros [H Hn]; (split; [|done]);
    [rewrite lookup_union_r in H|rewrite lookup_union_r];
    first [done|apply lookup_map_seqZ_None; lia].
Qed.

(** Bytes written elsewhere do not matter to a block that is freed. *)
Lemma release_store_apart s b q n m :
  (∀ a, (q <= a < q + n -> a < s ∨ s + Z.of_nat (length b) <= a)%Z) ->
  cells (release q n (store s b m)) = cells (store s b (release q n m)).
Proof.
  intros Hd. apply map_eq. intros a. apply option_eq. intros x.
  destruct (decide (q <= a < q + n)%Z) as [Hin|Hout].
  - rewrite lookup_store_out by auto. cbn. rewrite !map_lookup_filter_Some. cbn. tauto.
  - cbn. rewrite map_lookup_filter_Some, !lookup_union_Some_raw, map_lookup_filter_Some. cbn. tauto.
Qed.
End Memory.
