(* ===== verification/Utf8.v ===== *)
(** * UTF-8

    [std::str::from_utf8], which [read_str] of [witan/src/wasi_exports.rs] calls
    on the host's bytes: the validator, byte by byte, and its specification, the
    encodings of the Unicode scalar values. *)

From S2P Require Import Prelude.

Open Scope Z_scope.

Definition between (lo hi : Z) (b : byte) : bool :=
  (lo <=? byte_to_Z b) && (byte_to_Z b <=? hi).

(** A continuation byte, [10xxxxxx]. *)
Definition cont (b : byte) : bool := between 128 191 b.

(** The second byte of a sequence of three or four, by its first: no overlong
    form, no surrogate, nothing above U+10FFFF. *)
Definition second_of_3 (b0 b1 : byte) : bool :=
  if byte_to_Z b0 =? 224 then between 160 191 b1
  else if byte_to_Z b0 =? 237 then between 128 159 b1
  else cont b1.

Definition second_of_4 (b0 b1 : byte) : bool :=
  if byte_to_Z b0 =? 240 then between 144 191 b1
  else if byte_to_Z b0 =? 244 then between 128 143 b1
  else cont b1.

Fixpoint is_utf8 (b : bytes) : bool :=
  match b with
  | [] => true
  | b0 :: t =>
      if between 0 127 b0 then is_utf8 t
      else if between 194 223 b0 then
        match t with b1 :: t' => cont b1 && is_utf8 t' | _ => false end
      else if between 224 239 b0 then
        match t with
        | b1 :: b2 :: t' => second_of_3 b0 b1 && cont b2 && is_utf8 t'
        | _ => false
        end
      else if between 240 244 b0 then
        match t with
        | b1 :: b2 :: b3 :: t' => second_of_4 b0 b1 && cont b2 && cont b3 && is_utf8 t'
        | _ => false
        end
      else false
  end.

(** [std::str::from_utf8]. *)
Definition from_utf8 (b : bytes) : option string := if is_utf8 b then Some (of_bytes b) else None.

(** ** The specification *)

Definition scalar (c : Z) : Prop := 0 <= c < 55296 \/ 57344 <= c < 1114112.

Definition encode_scalar (c : Z) : bytes :=
  if c <? 128 then [byte_of_Z c]
  else if c <? 2048 then [byte_of_Z (192 + c / 64); byte_of_Z (128 + c mod 64)]
  else if c <? 65536 then
    [byte_of_Z (224 + c / 4096); byte_of_Z (128 + c / 64 mod 64); byte_of_Z (128 + c mod 64)]
  else
    [byte_of_Z (240 + c / 262144); byte_of_Z (128 + c / 4096 mod 64);
     byte_of_Z (128 + c / 64 mod 64); byte_of_Z (128 + c mod 64)].

Definition encode_text (t : list Z) : bytes := concat (map encode_scalar t).

(** ** The validator accepts exactly the encodings *)

Lemma between_spec lo hi b : between lo hi b = true <-> lo <= byte_to_Z b <= hi.
Proof. unfold between. rewrite andb_true_iff, !Z.leb_le. done. Qed.

Lemma between_false lo hi b : between lo hi b = false <-> byte_to_Z b < lo \/ hi < byte_to_Z b.
Proof. rewrite <- not_true_iff_false, between_spec. lia. Qed.

Lemma byte_to_small z : 0 <= z < 256 -> byte_to_Z (byte_of_Z z) = z.
Proof. intros Hz. rewrite byte_to_of_Z. by apply Z.mod_small. Qed.

(** A byte is the one its number says. *)
Lemma byte_is b z : byte_to_Z b = z -> byte_of_Z z = b.
Proof. intros <-. by rewrite byte_of_to_Z. Qed.

(** Read the tests on bytes as bounds on their numbers. *)
Ltac bounds_of_tests :=
  unfold second_of_3, second_of_4, cont in *;
  repeat match goal with
  | H : _ && _ = true |- _ => apply andb_true_iff in H as [? ?]
  | H : between _ _ _ = true |- _ => apply between_spec in H
  | H : between _ _ _ = false |- _ => apply between_false in H
  | H : (_ =? _) = true |- _ => apply Z.eqb_eq in H
  | H : (_ =? _) = false |- _ => apply Z.eqb_neq in H
  | H : (_ <? _) = true |- _ => apply Z.ltb_lt in H
  | H : (_ <? _) = false |- _ => apply Z.ltb_ge in H
  end.

(** Follow the validator on bytes whose numbers have known bounds. *)
Ltac follow_tests :=
  repeat (case_match; bounds_of_tests; rewrite ?byte_to_small in * by lia; try lia);
  rewrite ?andb_true_iff, ?between_spec; rewrite ?byte_to_small by lia; split_and?; try done; lia.

Ltac division := Z.to_euclidean_division_equations; lia.

Lemma is_utf8_encode_cons c r :
  scalar c -> is_utf8 r = true -> is_utf8 (encode_scalar c ++ r) = true.
Proof.
  unfold scalar. intros Hc Hr.
  assert (0 <= c mod 64 < 64 /\ 0 <= c / 64 mod 64 < 64 /\ 0 <= c / 4096 mod 64 < 64) as (? & ? & ?)
    by (split_and!; apply Z.mod_pos_bound; lia).
  unfold encode_scalar.
  destruct (c <? 128) eqn:E1; [|destruct (c <? 2048) eqn:E2; [|destruct (c <? 65536) eqn:E3]];
    bounds_of_tests; cbn [app is_utf8].
  - follow_tests.
  - assert (2 <= c / 64 < 32) by division. follow_tests.
  - assert (0 <= c / 4096 < 16) by division.
    assert (c / 4096 = 0 -> 32 <= c / 64 mod 64) by division.
    assert (c / 4096 = 13 -> c / 64 mod 64 < 32) by division. follow_tests.
  - assert (0 <= c / 262144 < 5) by division.
    assert (c / 262144 = 0 -> 16 <= c / 4096 mod 64) by division.
    assert (c / 262144 = 4 -> c / 4096 mod 64 < 16) by division. follow_tests.
Qed.

(** The character two, three or four bytes stand for. *)
Lemma encode_scalar_1 b : between 0 127 b = true -> encode_scalar (byte_to_Z b) = [b].
Proof.
  intros H. bounds_of_tests. unfold encode_scalar.
  rewrite (proj2 (Z.ltb_lt _ _)) by lia. by rewrite byte_of_to_Z.
Qed.

Ltac same_bytes :=
  unfold encode_scalar; rewrite ?(proj2 (Z.ltb_ge _ _)) by lia;
  rewrite ?(proj2 (Z.ltb_lt _ _)) by lia; repeat f_equal; apply byte_is; division.

Lemma encode_scalar_2 b0 b1 :
  between 194 223 b0 = true -> cont b1 = true ->
  encode_scalar ((byte_to_Z b0 - 192) * 64 + (byte_to_Z b1 - 128)) = [b0; b1].
Proof. intros H0 H1. bounds_of_tests. same_bytes. Qed.

Lemma encode_scalar_3 b0 b1 b2 :
  between 224 239 b0 = true -> second_of_3 b0 b1 = true -> cont b2 = true ->
  let c := (byte_to_Z b0 - 224) * 4096 + (byte_to_Z b1 - 128) * 64 + (byte_to_Z b2 - 128) in
  scalar c /\ encode_scalar c = [b0; b1; b2].
Proof.
  intros H0 H1 H2 c. subst c. unfold scalar.
  unfold second_of_3 in H1. repeat case_match; bounds_of_tests; (split; [lia|same_bytes]).
Qed.

Lemma encode_scalar_4 b0 b1 b2 b3 :
  between 240 244 b0 = true -> second_of_4 b0 b1 = true -> cont b2 = true -> cont b3 = true ->
  let c := (byte_to_Z b0 - 240) * 262144 + (byte_to_Z b1 - 128) * 4096
           + (byte_to_Z b2 - 128) * 64 + (byte_to_Z b3 - 128) in
  scalar c /\ encode_scalar c = [b0; b1; b2; b3].
Proof.
  intros H0 H1 H2 H3 c. subst c. unfold scalar.
  unfold second_of_4 in H1. repeat case_match; bounds_of_tests; (split; [lia|same_bytes]).
Qed.

Lemma is_utf8_head b0 t :
  is_utf8 (b0 :: t) = true ->
  exists c r, scalar c /\ b0 :: t = encode_scalar c ++ r /\ is_utf8 r = true.
Proof.
  cbn [is_utf8]. intros H. destruct (between 0 127 b0) eqn:E1; [|destruct (between 194 223 b0) eqn:E2;
    [|destruct (between 224 239 b0) eqn:E3; [|destruct (between 240 244 b0) eqn:E4; [|done]]]].
  - exists (byte_to_Z b0), t. rewrite encode_scalar_1 by done.
    bounds_of_tests. unfold scalar. split_and!; try done; lia.
  - destruct t as [|b1 t]; [done|]. apply andb_true_iff in H as [H1 Hr].
    eexists _, t. rewrite encode_scalar_2 by done. split_and!; [|done..].
    bounds_of_tests. unfold scalar. lia.
  - destruct t as [|b1 [|b2 t]]; [done..|].
    apply andb_true_iff in H as [[H1 H2]%andb_true_iff Hr].
    destruct (encode_scalar_3 b0 b1 b2 E3 H1 H2) as [Hc He]. eexists _, t. by rewrite He.
  - destruct t as [|b1 [|b2 [|b3 t]]]; [done..|].
    apply andb_true_iff in H as [[[H1 H2]%andb_true_iff H3]%andb_true_iff Hr].
    destruct (encode_scalar_4 b0 b1 b2 b3 E4 H1 H2 H3) as [Hc He]. eexists _, t. by rewrite He.
Qed.

Lemma encode_scalar_nonempty c : encode_scalar c <> [].
Proof. unfold encode_scalar. by repeat case_match. Qed.

(** The validator accepts exactly the texts: the sequences of encodings of
    scalar values. *)
Lemma is_utf8_spec b :
  is_utf8 b = true <-> exists t, Forall scalar t /\ b = encode_text t.
Proof.
  split.
  - remember (length b) as n eqn:Hn. revert b Hn. induction (lt_wf n) as [n _ IH].
    intros [|b0 t] Hn H; [by exists []|].
    destruct (is_utf8_head b0 t H) as (c & r & Hc & He & Hr).
    destruct (IH (length r)) with (b := r) as (cs & Hcs & ->); [|done..|].
    { rewrite Hn, He, length_app. pose proof (encode_scalar_nonempty c).
      destruct (encode_scalar c); [done|cbn; lia]. }
    exists (c :: cs). by split; [constructor|].
  - intros (t & Ht & ->). induction Ht as [|c t Hc Ht IH]; [done|]. by apply is_utf8_encode_cons.
Qed.
