(* ===== verification/Wasi.v ===== *)
(** * The C interface

    [witan/src/wasi_exports.rs]: the functions the [wasm32-wasip1] build exports
    to a host that has only integers and the linear memory.  A function is a
    method over the state of the API and the memory of [Memory]; [Err] of a
    [Fault] is undefined behaviour, [Panic] a trap.  The theorems are in
    [WasiThms]. *)

From S2P Require Import Prelude Errors Types Extern Config Session Identity Rotation Engine Api Memory Utf8.
Import Api.

Module Wasi.

(** ** Allocation *)

Section Alloc.
Context {M : Allocator}.

Abbreviation mem A := (ST Memory Fault A).

(** [wasi_alloc]: the address, or null. *)
Definition wasi_alloc (size : Z) : mem Z :=
  λ m,
    let n := as_usize size in
    if bool_decide (isize_max < n)%Z then (Panic, m)
    else if bool_decide (n = 0%Z) then (Err ZeroSizedAlloc, m)
    else
      let '(p, h) := malloc (heap m) (blocks m) n in
      if bool_decide (p = 0%Z) then (Ok 0%Z, mkMemory (cells m) (blocks m) h)
      else (Ok (as_i32 p), grow p n h m).

Definition wasi_free (ptr len : Z) : mem unit :=
  λ m,
    if bool_decide (ptr = 0%Z ∨ len = 0%Z) then (Ok tt, m)
    else
      let n := as_usize len in
      if bool_decide (isize_max < n)%Z then (Panic, m)
      else if bool_decide (blocks m !! as_usize ptr = Some n) then
        (Ok tt, release (as_usize ptr) n m)
      else (Err (InvalidFree ptr len), m).

(** A heap block of the crate's own, holding [data] at its start; a failing
    allocation aborts. *)
Definition place (capacity : Z) (data : bytes) : mem Z :=
  λ m,
    if bool_decide (isize_max < capacity)%Z then (Panic, m)
    else
      let '(p, h) := malloc (heap m) (blocks m) capacity in
      if bool_decide (p = 0%Z) then (Panic, m)
      else (Ok (as_i32 p), store p data (grow p capacity h m)).

(** The address of the buffer of a [Vec<u8>] that [std::mem::forget] leaks: the
    dangling one of [NonNull] when it has no capacity. *)
Definition leak_vec (data : bytes) : mem Z :=
  λ m,
    let capacity := (Z.of_nat (length data) + spare (heap m) data)%Z in
    if bool_decide (capacity = 0%Z) then (Ok 1%Z, m) else place capacity data m.

(** [Box::into_raw(Box::new(data))]. *)
Definition leak_box (n : nat) (data : bytes) : mem Z := place (Z.of_nat n) data.

(** ** The out-slot *)

(** [slot.add(k).write(v)] through a [*mut i32]: aligned, and in the block of
    [slot]. *)
Definition write_i32 (slot k v : Z) : mem unit :=
  λ m,
    if bool_decide (slot `mod` 4 = 0 ∧ in_block m slot (4 * k + 4))%Z then
      (Ok tt, store (slot + 4 * k) (le_bytes 4 (wrap 32 v)) m)
    else (Err (InvalidWrite slot), m).

Definition write_out (out ok ptr len : Z) : mem unit :=
  let slot := as_usize out in
  _ ← write_i32 slot 0 ok;
  _ ← write_i32 slot 1 ptr;
  write_i32 slot 2 len.

Definition write_ok_bytes (out : Z) (data : bytes) : mem unit :=
  ptr ← leak_vec data;
  write_out out 1 ptr (as_i32 (Z.of_nat (length data))).

Definition write_ok_fixed (n : nat) (out : Z) (data : bytes) : mem unit :=
  ptr ← leak_box n data;
  write_out out 1 ptr (as_i32 (Z.of_nat n)).

Definition write_ok_unit (out : Z) : mem unit := write_out out 1 0 0.

(** ** Errors as JSON text *)

Definition quote : string := String.String (Ascii.ascii_of_nat 34) String.EmptyString.
Definition quoted (s : string) : string := quote +:+ s +:+ quote.

Section Json.
Context {TS : ToJson string}.

Definition error_json (e : GossipError) : string :=
  let detail_json :=
    match json_to_string (GossipError_fmt e) with
    | inr j => j
    | inl _ => quoted "unknown"
    end in
  "{" +:+ quoted "error" +:+ ":" +:+ quoted (error_variant e) +:+ ","
    +:+ quoted "detail" +:+ ":" +:+ detail_json +:+ "}".

Definition error_to_leaked_json (e : GossipError) : mem (Z * Z) :=
  let b := as_bytes (error_json e) in
  ptr ← leak_vec b;
  mret (ptr, as_i32 (Z.of_nat (length b))).

Definition write_err (out : Z) (e : GossipError) : mem unit :=
  '(ptr, len) ← error_to_leaked_json e;
  write_out out 0 ptr len.
End Json.

(** ** Arguments *)

(** [std::slice::from_raw_parts] on the host's bytes. *)
Definition read_bytes (ptr len : Z) : mem bytes :=
  λ m,
    if bool_decide (len = 0%Z) then (Ok [], m)
    else
      let p := as_usize ptr in
      let n := as_usize len in
      if bool_decide (n <= isize_max ∧ in_block m p n)%Z then
        (from_option Ok (Err (InvalidRead ptr len)) (load m p (Z.to_nat n)), m)
      else (Err (InvalidRead ptr len), m).

Definition read_str (ptr len : Z) : mem string :=
  b ← read_bytes ptr len;
  mret (default ""%string (from_utf8 b)).
End Alloc.

(** ** The exports *)

Section Exports.
Context {M : Allocator} {X : Ext} {W : WireCodecs} {J : JsonOut} {TS : ToJson string}.
Context `{!FromJson GossipConfig}.

Abbreviation abi A := (ST ((Global * Os) * Memory) Fault A).

(** A part that touches only the memory. *)
Definition on_memory {A} (m : ST Memory Fault A) : abi A :=
  zoom snd (λ m s, (s.1, m)) m.

(** A call of the API: its [Result] as a value. *)
Definition api {A} (f : method (Global * Os) A) : abi (GossipError + A) :=
  λ s, let '(r, t) := f s.1 in
       (match r with Ok a => Ok (inr a) | Err e => Ok (inl e) | Panic => Panic end, (t, s.2)).

(** [match api::f(...) { Ok(a) => ok, Err(e) => write_err(out, &e) }]. *)
Definition answer {A} (out : Z) (f : method (Global * Os) A) (ok : A -> ST Memory Fault unit) :
    abi unit :=
  r ← api f;
  on_memory (match r with inr a => ok a | inl e => write_err out e end).

(** [s.into_bytes()] of a report. *)
Definition write_ok_string (out : Z) (s : string) : ST Memory Fault unit :=
  write_ok_bytes out (as_bytes s).

Definition gossip_init_wasi (cfg_ptr cfg_len out : Z) : abi unit :=
  cfg ← on_memory (read_str cfg_ptr cfg_len);
  answer out (gossip_init cfg) (λ _, write_ok_unit out).

Definition gossip_publish_wasi (pt payload_ptr payload_len out : Z) : abi unit :=
  payload ← on_memory (read_bytes payload_ptr payload_len);
  answer out (gossip_publish (wrap 8 pt) payload) (write_ok_fixed 32 out).

Definition gossip_connect_peer_wasi (addr_ptr addr_len out : Z) : abi unit :=
  addr ← on_memory (read_str addr_ptr addr_len);
  answer out (gossip_connect_peer addr) (write_ok_bytes out).

Definition gossip_disconnect_peer_wasi (addr_ptr addr_len out : Z) : abi unit :=
  addr ← on_memory (read_str addr_ptr addr_len);
  answer out (gossip_disconnect_peer addr) (λ _, write_ok_unit out).

Definition gossip_get_peers_wasi (out : Z) : abi unit :=
  answer out gossip_get_peers (write_ok_string out).

Definition gossip_get_node_identity_wasi (out : Z) : abi unit :=
  answer out gossip_get_node_identity (write_ok_string out).

Definition gossip_verify_envelope_wasi (bytes_ptr bytes_len out : Z) : abi unit :=
  b ← on_memory (read_bytes bytes_ptr bytes_len);
  answer out (gossip_verify_envelope b) (λ valid, write_out out 1 (Z.b2z valid) 0).

Definition gossip_encode_envelope_wasi (pt payload_ptr payload_len out : Z) : abi unit :=
  payload ← on_memory (read_bytes payload_ptr payload_len);
  answer out (gossip_encode_envelope (wrap 8 pt) payload) (write_ok_bytes out).

Definition gossip_decode_envelope_wasi (bytes_ptr bytes_len out : Z) : abi unit :=
  b ← on_memory (read_bytes bytes_ptr bytes_len);
  answer out (gossip_decode_envelope b) (write_ok_string out).

Definition gossip_get_stats_wasi (out : Z) : abi unit :=
  answer out gossip_get_stats (write_ok_string out).

Definition gossip_process_handshake_bytes_wasi (addr_ptr addr_len bytes_ptr bytes_len out : Z) :
    abi unit :=
  addr ← on_memory (read_str addr_ptr addr_len);
  b ← on_memory (read_bytes bytes_ptr bytes_len);
  answer out (gossip_process_handshake_bytes addr b)
    (λ r, match r with
          | Some response => write_ok_bytes out response
          | None => write_out out 1 0 0
          end).

Definition gossip_build_handshake_ack_wasi (addr_ptr addr_len probe_ptr probe_len out : Z) :
    abi unit :=
  addr ← on_memory (read_str addr_ptr addr_len);
  probe ← on_memory (read_bytes probe_ptr probe_len);
  answer out (gossip_build_handshake_ack addr probe) (write_ok_bytes out).

Definition gossip_build_finish_ack_wasi (addr_ptr addr_len finish_ptr finish_len out : Z) :
    abi unit :=
  addr ← on_memory (read_str addr_ptr addr_len);
  finish ← on_memory (read_bytes finish_ptr finish_len);
  answer out (gossip_build_finish_ack addr finish) (write_ok_bytes out).

(** The result is the value itself, not an out-slot; the call has no error. *)
Definition gossip_now_ms_wasi : abi (GossipError + Z) :=
  r ← api gossip_now_ms;
  mret (sum_map id as_i64 r).

Definition gossip_get_version_wasi (out : Z) : abi unit :=
  on_memory (write_ok_string out gossip_get_version).

Definition gossip_get_session_wasi (addr_ptr addr_len out : Z) : abi unit :=
  addr ← on_memory (read_str addr_ptr addr_len);
  answer out (gossip_get_session addr) (write_ok_string out).
End Exports.

End Wasi.
