(* ===== verification/WasiThms.v ===== *)
(** * The C interface is faithful

    What a host sees of the API through pointers: a call on readable arguments
    and a valid out-slot acts on the statics exactly as the API function, leaves
    its answer in the slot and in a fresh block, and changes no other byte; or it
    traps, exactly when the block for the answer cannot be had. *)

From S2P Require Import Prelude Errors Types Extern Config Session Identity Envelope Rotation Lineage LineageThms Handshake HandshakeThms Engine EngineThms Api ApiThms Component ComponentThms Memory Utf8 Wasi.
Import Engine Api Wasi.

Open Scope Z_scope.

(** ** What a part may change of a memory *)

Section Frame.
Context {M : Allocator}.

(** Every block stays, and every byte of a block outside the [n] bytes at [p]. *)
Definition same_outside (p n : Z) (m m' : Memory) : Prop :=
  blocks m ⊆ blocks m' ∧
  ∀ a, in_block m a 1 -> a < p ∨ p + n <= a -> cells m' !! a = cells m !! a.

Lemma in_block_mono m m' p n : blocks m ⊆ blocks m' -> in_block m p n -> in_block m' p n.
Proof. intros Hs (q & s & Hq & Hr). exists q, s. split; [|done]. by eapply lookup_weaken. Qed.

Lemma same_outside_refl p n m : same_outside p n m m.
Proof. done. Qed.

Lemma same_outside_trans p n m1 m2 m3 :
  same_outside p n m1 m2 -> same_outside p n m2 m3 -> same_outside p n m1 m3.
Proof.
  intros [H1 K1] [H2 K2]. split; [by etrans|]. intros a Ha Hr.
  rewrite K2, K1; [done..| |done]. by eapply in_block_mono.
Qed.

Lemma same_outside_weaken p n m m' : same_outside p 0 m m' -> same_outside p n m m'.
Proof. intros [H K]. split; [done|]. intros a Ha Hr. apply K; [done|lia]. Qed.

Lemma same_outside_store p b m : same_outside p (Z.of_nat (length b)) m (store p b m).
Proof. split; [done|]. intros a _ Hr. by apply lookup_store_out. Qed.

(** What can be read outside the window is read again. *)
Lemma load_same_outside p n m m' q k b :
  mem_wf m -> same_outside p n m m' -> load m q k = Some b ->
  q + Z.of_nat k <= p ∨ p + n <= q -> load m' q k = Some b.
Proof.
  intros Hm [_ Hs] Hl Hr. rewrite <- Hl. apply load_ext. intros a Ha. apply Hs; [|lia].
  destruct (load_in_cells _ _ _ _ a Hl Ha) as [x Hx]. by eapply mw_cells.
Qed.

Lemma store_app p b1 b2 m :
  store (p + Z.of_nat (length b1)) b2 (store p b1 m) = store p (b1 ++ b2) m.
Proof.
  unfold store. cbn. f_equal. rewrite map_seqZ_app, assoc by apply _. f_equal.
  apply map_union_comm. apply map_disjoint_spec. intros a x y.
  rewrite !lookup_map_seqZ_Some. intros [? H1] [? H2%lookup_lt_Some]. lia.
Qed.
End Frame.

(** ** Blocks for the answers *)

Section Blocks.
Context {M : Allocator} {ML : AllocatorLaws}.

(** A block of [n] bytes can be had: none is needed, or the allocator gives one. *)
Definition available (n : Z) (m : Memory) : Prop :=
  n = 0 ∨ n <= isize_max ∧ (malloc (heap m) (blocks m) n).1 ≠ 0.

#[export] Instance available_dec n m : Decision (available n m).
Proof. unfold available. apply _. Defined.

Definition vec_capacity (m : Memory) (b : bytes) : Z := Z.of_nat (length b) + spare (heap m) b.

(** [data] is in the memory at the address [ptr] a host was given. *)
Definition holds (m : Memory) (ptr : Z) (data : bytes) : Prop :=
  is_i32 ptr ∧ ptr ≠ 0 ∧ load m (as_usize ptr) (length data) = Some data.

(** None of the [n] bytes at [ptr] is in a block of [m]. *)
Definition apart (m : Memory) (ptr n : Z) : Prop :=
  ∀ a, as_usize ptr <= a < as_usize ptr + n -> ¬ in_block m a 1.

Lemma as_i32_neq_0 p : 0 < p < 2 ^ 32 -> as_i32 p ≠ 0.
Proof.
  intros Hp He. pose proof (as_usize_of_i32 p) as Hu. rewrite He in Hu.
  change (as_usize 0) with 0 in Hu. lia.
Qed.

(** The block [malloc] gives is fresh, so writing it changes nothing else. *)
Lemma place_ok m cap data :
  mem_wf m -> 0 < cap -> Z.of_nat (length data) <= cap -> available cap m ->
  ∃ p m', place cap data m = (Ok p, m') ∧ mem_wf m' ∧ same_outside 0 0 m m' ∧
    holds m' p data ∧ apart m p cap ∧ blocks m' = <[as_usize p := cap]> (blocks m).
Proof.
  intros Hm Hc Hd [|[Hmax Hn]]; [lia|]. unfold place. rewrite bool_decide_false by lia.
  destruct (malloc (heap m) (blocks m) cap) as [q h] eqn:E. cbn in Hn.
  rewrite bool_decide_false by done.
  pose proof (malloc_fresh _ _ _ _ _ E Hn) as Hf. pose proof Hf as (Hq & Hq' & Hap).
  assert (as_usize (as_i32 q) = q) as Hu by (apply as_usize_of_i32; lia).
  assert (mem_wf (grow q cap h m)) as Hg by (apply grow_wf; [done..|lia]).
  eexists _, _. split; [done|]. unfold holds, apart. rewrite Hu. split_and!.
  - apply store_wf; [done|]. exists q, cap. split; [apply lookup_insert_eq|lia].
  - split; [apply insert_subseteq, (fresh_lookup q cap); done|]. intros a (b & s & Hb & Hr) _.
    rewrite lookup_store_out; [done|]. destruct (Hap _ _ Hb); lia.
  - apply as_i32_range.
  - apply as_i32_neq_0. lia.
  - apply load_store.
  - intros a Ha (b & s & Hb & Hr). destruct (Hap _ _ Hb); lia.
  - done.
Qed.

Lemma place_trap m cap data : 0 < cap -> ¬ available cap m -> ∃ m', place cap data m = (Panic, m').
Proof.
  intros Hc Ha. unfold place. case_bool_decide as Hmax; [by eexists|].
  destruct (malloc (heap m) (blocks m) cap) as [q h] eqn:E.
  case_bool_decide as Hq; [by eexists|]. exfalso. apply Ha. right. rewrite E. split; [lia|done].
Qed.

Lemma vec_capacity_ge m b : Z.of_nat (length b) <= vec_capacity m b.
Proof. unfold vec_capacity. pose proof (spare_nonneg (heap m) b). lia. Qed.

Lemma leak_vec_ok m data :
  mem_wf m -> available (vec_capacity m data) m ->
  ∃ p m', leak_vec data m = (Ok p, m') ∧ mem_wf m' ∧ same_outside 0 0 m m' ∧ holds m' p data ∧
    apart m p (Z.of_nat (length data)).
Proof.
  intros Hm Ha. pose proof (vec_capacity_ge m data) as Hge. unfold leak_vec.
  fold (vec_capacity m data). case_bool_decide as Hz.
  - exists 1, m. assert (data = []) as -> by (apply nil_length_inv; lia).
    split_and!; try done. unfold apart. cbn. lia.
  - destruct (place_ok m (vec_capacity m data) data) as (p & m' & E & Hw & Hs & Hh & Hp & _);
      [done|lia|done..|].
    exists p, m'. split_and!; try done. intros a Hr. apply Hp. lia.
Qed.

Lemma leak_vec_trap m data :
  ¬ available (vec_capacity m data) m -> ∃ m', leak_vec data m = (Panic, m').
Proof.
  intros Ha. pose proof (vec_capacity_ge m data). unfold leak_vec. fold (vec_capacity m data).
  case_bool_decide as Hz; [exfalso; apply Ha; by left|]. apply place_trap; [lia|done].
Qed.

(** ** The out-slot *)

Definition slot_ok (m : Memory) (out : Z) : Prop :=
  as_usize out `mod` 4 = 0 ∧ in_block m (as_usize out) 12.

Definition read_slot (m : Memory) (out : Z) : option (Z * Z * Z) :=
  b ← load m (as_usize out) 12;
  mret (as_i32 (le_value (take 4 b)), as_i32 (le_value (take 4 (drop 4 b))),
        as_i32 (le_value (drop 8 b))).

Definition slot_bytes (ok ptr len : Z) : bytes :=
  le_bytes 4 (wrap 32 ok) ++ le_bytes 4 (wrap 32 ptr) ++ le_bytes 4 (wrap 32 len).

Lemma write_i32_ok m0 out k v m :
  slot_ok m0 out -> blocks m = blocks m0 -> 0 <= k <= 2 ->
  write_i32 (as_usize out) k v m
  = (Ok tt, store (as_usize out + 4 * k) (le_bytes 4 (wrap 32 v)) m).
Proof.
  intros [Ha Hin] E Hk. unfold write_i32. rewrite bool_decide_true; [done|]. split; [done|].
  unfold in_block. rewrite E. eapply in_block_sub; [exact Hin|lia..].
Qed.

Lemma write_out_ok m out ok ptr len :
  slot_ok m out ->
  write_out out ok ptr len m = (Ok tt, store (as_usize out) (slot_bytes ok ptr len) m).
Proof.
  intros Hs. unfold write_out.
  erewrite st_bind_run by (apply (write_i32_ok m); [done|done|lia]).
  erewrite st_bind_run by (apply (write_i32_ok m); [done|done|lia]).
  rewrite (write_i32_ok m) by (done || lia). f_equal. unfold slot_bytes.
  rewrite <- !store_app, !length_le_bytes, Z.mul_0_r, Z.add_0_r.
  by replace (as_usize out + Z.of_nat 4 + Z.of_nat 4) with (as_usize out + 4 * 2) by lia.
Qed.

Lemma as_i32_wrap z : as_i32 (wrap 32 z) = as_i32 z.
Proof. unfold as_i32, wrap. by rewrite Z.mod_mod. Qed.

Lemma le_value_wrapped z : as_i32 (le_value (le_bytes 4 (wrap 32 z))) = as_i32 z.
Proof. rewrite le_value_bytes by (apply (wrap_fits 32); lia). apply as_i32_wrap. Qed.

Lemma read_slot_write m out ok ptr len :
  read_slot (store (as_usize out) (slot_bytes ok ptr len) m) out
  = Some (as_i32 ok, as_i32 ptr, as_i32 len).
Proof.
  unfold read_slot. pose proof (load_store m (as_usize out) (slot_bytes ok ptr len)) as Hl.
  replace (length (slot_bytes ok ptr len)) with 12%nat in Hl
    by (unfold slot_bytes; by rewrite !length_app, !length_le_bytes).
  rewrite Hl. cbn -[le_bytes le_value as_i32 take drop slot_bytes]. unfold slot_bytes.
  rewrite !take_app_length', !drop_app_length' by (by rewrite length_le_bytes).
  rewrite take_app_length' by (by rewrite length_le_bytes).
  replace 8%nat with (4 + 4)%nat by lia.
  rewrite <- drop_drop, !drop_app_length' by (by rewrite length_le_bytes).
  by rewrite !le_value_wrapped.
Qed.
End Blocks.

(** ** Arguments *)

Section Arguments.
Context {M : Allocator}.

(** The bytes and the text the pair [(ptr, len)] denotes. *)
Definition bytes_at (m : Memory) (s : Z * Z) : option bytes :=
  if bool_decide (s.2 = 0) then Some []
  else if bool_decide (as_usize s.2 <= isize_max ∧ in_block m (as_usize s.1) (as_usize s.2)) then
    load m (as_usize s.1) (Z.to_nat (as_usize s.2))
  else None.

Definition text_at (m : Memory) (s : Z * Z) : option string :=
  default ""%string ∘ from_utf8 <$> bytes_at m s.

Lemma read_bytes_spec m s :
  read_bytes s.1 s.2 m = (from_option Ok (Err (InvalidRead s.1 s.2)) (bytes_at m s), m).
Proof. unfold read_bytes, bytes_at. by repeat case_bool_decide. Qed.

Lemma read_str_spec m s :
  read_str s.1 s.2 m = (from_option Ok (Err (InvalidRead s.1 s.2)) (text_at m s), m).
Proof.
  unfold read_str, text_at, mbind, st_bind. rewrite read_bytes_spec. by destruct (bytes_at m s).
Qed.
End Arguments.

(** ** The calls

    A call of an export with an out-slot, over the representation of its
    arguments: pointers and lengths for the host, text and bytes for the API. *)

Inductive abi_call (S B : Type) : Type :=
  | c_init (cfg : S)
  | c_publish (pt : Z) (payload : B)
  | c_connect_peer (addr : S)
  | c_disconnect_peer (addr : S)
  | c_get_peers
  | c_get_node_identity
  | c_verify_envelope (b : B)
  | c_encode_envelope (pt : Z) (payload : B)
  | c_decode_envelope (b : B)
  | c_get_stats
  | c_process_handshake_bytes (addr : S) (b : B)
  | c_build_handshake_ack (addr : S) (probe : B)
  | c_build_finish_ack (addr : S) (finish : B)
  | c_get_version
  | c_get_session (addr : S).
Arguments c_init {S B}. Arguments c_publish {S B}. Arguments c_connect_peer {S B}.
Arguments c_disconnect_peer {S B}. Arguments c_get_peers {S B}.
Arguments c_get_node_identity {S B}. Arguments c_verify_envelope {S B}.
Arguments c_encode_envelope {S B}. Arguments c_decode_envelope {S B}.
Arguments c_get_stats {S B}. Arguments c_process_handshake_bytes {S B}.
Arguments c_build_handshake_ack {S B}. Arguments c_build_finish_ack {S B}.
Arguments c_get_version {S B}. Arguments c_get_session {S B}.

Definition pointer_call := abi_call (Z * Z) (Z * Z).
Definition value_call := abi_call string bytes.

(** What the API hands back on success. *)
Inductive reply : Type :=
  | RUnit                  (* [()], or [None] *)
  | RBool (b : bool)
  | RFixed (b : bytes)     (* an array *)
  | RBytes (b : bytes).    (* a [Vec<u8>], or the bytes of a [String] *)

Section Calls.
Context {M : Allocator} {X : Ext} {W : WireCodecs} {J : JsonOut} {TS : ToJson string}.
Context `{!FromJson GossipConfig}.

(** The arguments a call's pointers denote; [None] when one cannot be read.  The
    payload type keeps its low eight bits. *)
Definition arguments (m : Memory) (c : pointer_call) : option value_call :=
  match c with
  | c_init cfg => c_init <$> text_at m cfg
  | c_publish pt p => c_publish (wrap 8 pt) <$> bytes_at m p
  | c_connect_peer a => c_connect_peer <$> text_at m a
  | c_disconnect_peer a => c_disconnect_peer <$> text_at m a
  | c_get_peers => Some c_get_peers
  | c_get_node_identity => Some c_get_node_identity
  | c_verify_envelope b => c_verify_envelope <$> bytes_at m b
  | c_encode_envelope pt p => c_encode_envelope (wrap 8 pt) <$> bytes_at m p
  | c_decode_envelope b => c_decode_envelope <$> bytes_at m b
  | c_get_stats => Some c_get_stats
  | c_process_handshake_bytes a b =>
      a ← text_at m a; c_process_handshake_bytes a <$> bytes_at m b
  | c_build_handshake_ack a b => a ← text_at m a; c_build_handshake_ack a <$> bytes_at m b
  | c_build_finish_ack a b => a ← text_at m a; c_build_finish_ack a <$> bytes_at m b
  | c_get_version => Some c_get_version
  | c_get_session a => c_get_session <$> text_at m a
  end.

(** The same call of an export, and of the API. *)
Definition run_abi (c : pointer_call) (out : Z) : ST ((Global * Os) * Memory) Fault unit :=
  match c with
  | c_init s => gossip_init_wasi s.1 s.2 out
  | c_publish pt p => gossip_publish_wasi pt p.1 p.2 out
  | c_connect_peer a => gossip_connect_peer_wasi a.1 a.2 out
  | c_disconnect_peer a => gossip_disconnect_peer_wasi a.1 a.2 out
  | c_get_peers => gossip_get_peers_wasi out
  | c_get_node_identity => gossip_get_node_identity_wasi out
  | c_verify_envelope b => gossip_verify_envelope_wasi b.1 b.2 out
  | c_encode_envelope pt p => gossip_encode_envelope_wasi pt p.1 p.2 out
  | c_decode_envelope b => gossip_decode_envelope_wasi b.1 b.2 out
  | c_get_stats => gossip_get_stats_wasi out
  | c_process_handshake_bytes a b =>
      gossip_process_handshake_bytes_wasi a.1 a.2 b.1 b.2 out
  | c_build_handshake_ack a b => gossip_build_handshake_ack_wasi a.1 a.2 b.1 b.2 out
  | c_build_finish_ack a b => gossip_build_finish_ack_wasi a.1 a.2 b.1 b.2 out
  | c_get_version => gossip_get_version_wasi out
  | c_get_session a => gossip_get_session_wasi a.1 a.2 out
  end.

(** A method with its value turned into a reply. *)
Definition replying {S E A} (f : A -> reply) (m : ST S E A) : ST S E reply := m ≫= mret ∘ f.

Definition text_reply (s : string) : reply := RBytes (as_bytes s).
Definition next_reply (o : option bytes) : reply := from_option RBytes RUnit o.

Definition api_call (c : value_call) : method (Global * Os) reply :=
  match c with
  | c_init cfg => replying (λ _, RUnit) (gossip_init cfg)
  | c_publish pt p => replying RFixed (gossip_publish pt p)
  | c_connect_peer a => replying RBytes (gossip_connect_peer a)
  | c_disconnect_peer a => replying (λ _, RUnit) (gossip_disconnect_peer a)
  | c_get_peers => replying text_reply gossip_get_peers
  | c_get_node_identity => replying text_reply gossip_get_node_identity
  | c_verify_envelope b => replying RBool (gossip_verify_envelope b)
  | c_encode_envelope pt p => replying RBytes (gossip_encode_envelope pt p)
  | c_decode_envelope b => replying text_reply (gossip_decode_envelope b)
  | c_get_stats => replying text_reply gossip_get_stats
  | c_process_handshake_bytes a b =>
      replying next_reply (gossip_process_handshake_bytes a b)
  | c_build_handshake_ack a b => replying RBytes (gossip_build_handshake_ack a b)
  | c_build_finish_ack a b => replying RBytes (gossip_build_finish_ack a b)
  | c_get_version => mret (text_reply gossip_get_version)
  | c_get_session a => replying text_reply (gossip_get_session a)
  end.

(** ** The answer in the slot *)

(** What the host reads at [out] after a call that ended with [r]. *)
Definition delivered (m : Memory) (out : Z) (r : res reply) : Prop :=
  match r with
  | Ok RUnit => read_slot m out = Some (1, 0, 0)
  | Ok (RBool b) => read_slot m out = Some (1, Z.b2z b, 0)
  | Ok (RFixed b) | Ok (RBytes b) =>
      ∃ p, read_slot m out = Some (1, p, Z.of_nat (length b)) ∧ holds m p b
  | Err e =>
      let b := as_bytes (error_json e) in
      ∃ p, read_slot m out = Some (0, p, Z.of_nat (length b)) ∧ holds m p b
  | Panic => False
  end.

(** The capacity of the block the answer needs. *)
Definition needed (m : Memory) (r : res reply) : Z :=
  match r with
  | Ok (RFixed b) => Z.of_nat (length b)
  | Ok (RBytes b) => vec_capacity m b
  | Err e => vec_capacity m (as_bytes (error_json e))
  | _ => 0
  end.

(** ** An export reads, calls, answers *)

Definition deliver (out : Z) (r : GossipError + reply) : ST Memory Fault unit :=
  match r with
  | inl e => write_err out e
  | inr RUnit => write_out out 1 0 0
  | inr (RBool b) => write_out out 1 (Z.b2z b) 0
  | inr (RFixed b) => write_ok_fixed 32 out b
  | inr (RBytes b) => write_ok_bytes out b
  end.

Definition answered (out : Z) (p : res reply * (Global * Os)) (m : Memory) :
    result Fault unit * ((Global * Os) * Memory) :=
  match p.1 with
  | Panic => (Panic, (p.2, m))
  | Ok a => let '(q, m') := deliver out (inr a) m in (q, (p.2, m'))
  | Err e => let '(q, m') := deliver out (inl e) m in (q, (p.2, m'))
  end.

Lemma answer_spec {A} out (f : method (Global * Os) A) g ok gs m :
  (∀ a, ok a = deliver out (inr (g a))) ->
  answer out f ok (gs, m) = answered out (replying g f gs) m.
Proof.
  intros Hok. unfold answer, answered, replying, api, on_memory, zoom, mbind, st_bind. cbn [fst snd].
  destruct (f gs) as [[a|e|] gs']; cbn; [by rewrite Hok|done..].
Qed.

Lemma on_memory_bind {A B} (rd : ST Memory Fault A) (k : A -> ST ((Global * Os) * Memory) Fault B)
    gs m a :
  rd m = (Ok a, m) -> (on_memory rd ≫= k) (gs, m) = k a (gs, m).
Proof. intros E. unfold on_memory, zoom, mbind, st_bind. cbn. by rewrite E. Qed.

Lemma read_bytes_at m s b : bytes_at m s = Some b -> read_bytes s.1 s.2 m = (Ok b, m).
Proof. intros E. by rewrite read_bytes_spec, E. Qed.

Lemma read_text_at m s b : text_at m s = Some b -> read_str s.1 s.2 m = (Ok b, m).
Proof. intros E. by rewrite read_str_spec, E. Qed.

Ltac split_arguments :=
  repeat match goal with
  | H : _ <$> _ = Some _ |- _ => apply fmap_Some in H as (? & ? & ?)
  | H : _ ≫= _ = Some _ |- _ => apply bind_Some in H as (? & ? & ?)
  end; simplify_eq.

Lemma run_abi_spec c v out gs m :
  arguments m c = Some v -> run_abi c out (gs, m) = answered out (api_call v gs) m.
Proof.
  destruct c; cbn [arguments run_abi]; intros Ha; split_arguments; cbn [api_call];
    unfold gossip_init_wasi, gossip_publish_wasi, gossip_connect_peer_wasi,
      gossip_disconnect_peer_wasi, gossip_verify_envelope_wasi, gossip_encode_envelope_wasi,
      gossip_decode_envelope_wasi, gossip_process_handshake_bytes_wasi,
      gossip_build_handshake_ack_wasi, gossip_build_finish_ack_wasi, gossip_get_session_wasi;
    repeat (erewrite on_memory_bind by (by first [apply read_bytes_at|apply read_text_at]));
    try (apply answer_spec; intros a; by (done || destruct a)).
  unfold gossip_get_version_wasi, on_memory, zoom, answered. cbn. done.
Qed.

(** ** The answer arrives *)

Section Deliver.
Context {ML : AllocatorLaws}.

Lemma slot_bytes_length ok ptr len : length (slot_bytes ok ptr len) = 12%nat.
Proof. unfold slot_bytes. by rewrite !length_app, !length_le_bytes. Qed.

(** Filling the slot of a memory that has grown since the call began. *)
Lemma fill_slot m m1 out ok ptr len :
  mem_wf m1 -> same_outside 0 0 m m1 -> slot_ok m out ->
  ∃ m2, write_out out ok ptr len m1 = (Ok tt, m2) ∧ mem_wf m2 ∧
    same_outside (as_usize out) 12 m m2 ∧
    read_slot m2 out = Some (as_i32 ok, as_i32 ptr, as_i32 len) ∧
    ∀ p b, apart m p (Z.of_nat (length b)) -> holds m1 p b -> holds m2 p b.
Proof.
  intros Hm1 [Hbl Hce] [Ha Hin]. assert (in_block m1 (as_usize out) 12) by (by eapply in_block_mono).
  pose proof (same_outside_store (as_usize out) (slot_bytes ok ptr len) m1) as Hst.
  rewrite slot_bytes_length in Hst.
  eexists. split; [by apply write_out_ok|]. split_and!.
  - apply store_wf; [done|]. by rewrite slot_bytes_length.
  - eapply same_outside_trans; [|exact Hst]. split; [done|]. intros a Hb _. apply Hce; [done|lia].
  - apply read_slot_write.
  - intros p b Hap (Hi & Hp & Hl). split_and!; [done..|]. rewrite <- Hl. apply load_ext. intros a Hr.
    apply lookup_store_out. rewrite slot_bytes_length.
    destruct (decide (a < as_usize out ∨ as_usize out + 12 <= a)) as [|Hn]; [lia|].
    destruct (Hap a Hr). apply (in_block_sub _ _ _ _ _ Hin); lia.
Qed.

(** A block with the answer, then the slot that points to it. *)
Lemma write_leaked m out ok b (lk : ST Memory Fault Z) m1 p :
  is_i32 ok -> slot_ok m out -> (Z.of_nat (length b) <= isize_max) ->
  lk m = (Ok p, m1) -> mem_wf m1 -> same_outside 0 0 m m1 -> holds m1 p b ->
  apart m p (Z.of_nat (length b)) ->
  ∃ m2, (ptr ← lk; write_out out ok ptr (as_i32 (Z.of_nat (length b)))) m = (Ok tt, m2) ∧
    mem_wf m2 ∧ same_outside (as_usize out) 12 m m2 ∧
    ∃ p, read_slot m2 out = Some (ok, p, Z.of_nat (length b)) ∧ holds m2 p b.
Proof.
  intros Hok Hs Hmax E Hw Ho Hh Hap.
  destruct (fill_slot m m1 out ok p (as_i32 (Z.of_nat (length b))) Hw Ho Hs)
    as (m2 & E2 & Hw2 & Ho2 & Hr & Hk).
  exists m2. rewrite (st_bind_run _ _ _ _ _ E). split_and!; [done..|].
  exists p. split; [|by apply Hk]. rewrite Hr, (as_i32_of_small (Z.of_nat (length b))) by lia.
  destruct Hh as [Hp _]. by rewrite !as_i32_id, as_i32_of_small by (done || lia).
Qed.

Lemma available_small n m b :
  Z.of_nat (length b) <= n -> available n m -> Z.of_nat (length (b : bytes)) <= isize_max.
Proof. unfold available, isize_max. lia. Qed.

(** An array reply is a message id, so its length is the constant of the export. *)
Definition arrays_32 (r : GossipError + reply) : Prop :=
  match r with inr (RFixed b) => length b = 32%nat | _ => True end.

Definition as_res (r : GossipError + reply) : res reply :=
  match r with inr a => Ok a | inl e => Err e end.

Lemma deliver_ok m out r :
  mem_wf m -> slot_ok m out -> arrays_32 r -> available (needed m (as_res r)) m ->
  ∃ m', deliver out r m = (Ok tt, m') ∧ mem_wf m' ∧ same_outside (as_usize out) 12 m m' ∧
    delivered m' out (as_res r).
Proof.
  intros Hm Hs H32 Ha. assert (is_i32 0 ∧ is_i32 1) as [I0 I1] by (unfold is_i32; lia).
  assert (∀ ok n, is_i32 ok -> is_i32 n -> ∃ m', write_out out ok n 0 m = (Ok tt, m') ∧ mem_wf m' ∧
    same_outside (as_usize out) 12 m m' ∧ read_slot m' out = Some (ok, n, 0)) as Hplain.
  { intros ok n Hok Hn.
    destruct (fill_slot m m out ok n 0 Hm (same_outside_refl _ _ _) Hs) as (m' & E & ? & ? & Hr & _).
    exists m'. rewrite !as_i32_id in Hr by done. done. }
  assert (∀ ok b, is_i32 ok -> available (vec_capacity m b) m -> ∃ m',
    (ptr ← leak_vec b; write_out out ok ptr (as_i32 (Z.of_nat (length b)))) m = (Ok tt, m') ∧
    mem_wf m' ∧ same_outside (as_usize out) 12 m m' ∧
    ∃ p, read_slot m' out = Some (ok, p, Z.of_nat (length b)) ∧ holds m' p b) as Hvec.
  { intros ok b Hok Hb. pose proof (available_small _ _ b (vec_capacity_ge m b) Hb).
    destruct (leak_vec_ok m b Hm Hb) as (p & m1 & E & Hw & Ho & Hh & Hap).
    by eapply write_leaked. }
  destruct r as [e|[|b|b|b]]; cbn [deliver as_res delivered needed] in *.
  - destruct (Hvec 0 _ I0 Ha) as (m' & E & ?). exists m'. split; [|done].
    rewrite <- E. unfold write_err, error_to_leaked_json. cbn.
    unfold mbind, st_bind. by destruct (leak_vec _ m) as [[] ?].
  - by apply Hplain.
  - by destruct b; apply Hplain.
  - cbn in H32. pose proof (available_small _ _ b (Z.le_refl _) Ha).
    destruct (place_ok m 32 b) as (p & m1 & E & Hw & Ho & Hh & Hap & _);
      [done|lia|lia|by rewrite H32 in Ha|].
    unfold write_ok_fixed, leak_box. rewrite <- H32 in *. eapply write_leaked; try done.
    + by rewrite H32.
    + by rewrite H32.
  - by apply Hvec.
Qed.

Lemma deliver_trap m out r :
  arrays_32 r -> ¬ available (needed m (as_res r)) m -> ∃ m', deliver out r m = (Panic, m').
Proof.
  intros H32 Ha. destruct r as [e|[|b|b|b]]; cbn [deliver as_res needed] in *.
  - destruct (leak_vec_trap m _ Ha) as [m' E]. exists m'.
    unfold write_err, error_to_leaked_json, mbind, st_bind. by rewrite E.
  - destruct Ha. by left.
  - destruct Ha. by left.
  - cbn in H32. rewrite H32 in Ha. destruct (place_trap m 32 b) as [m' E]; [done..|].
    exists m'. unfold write_ok_fixed, leak_box, mbind, st_bind.
    change (Z.of_nat 32) with 32. by rewrite E.
  - destruct (leak_vec_trap m b Ha) as [m' E]. exists m'.
    unfold write_ok_bytes, mbind, st_bind. by rewrite E.
Qed.

(** ** The API calls never panic, and an array reply has 32 bytes *)

Context {L : ExtLaws}.

Lemma replying_pf {S E A} (f : A -> reply) (m : ST S E A) :
  panic_free m -> panic_free (replying f m).
Proof. intros Hm. by apply panic_free_bind. Qed.

Lemma api_call_pf v : panic_free (api_call v).
Proof.
  destruct (reports_pf "") as (Hp & Hi & _).
  destruct v; cbn [api_call]; try done; apply replying_pf;
    first [apply gossip_init_pf|apply on_engine_pf, disconnect_pf|apply Hp|apply Hi|apply reports_pf
      |apply decode_envelope_pf|apply stats_pf|apply build_ack_pf|apply build_finish_pf
      |apply timed_pf; intros now;
       first [apply publish_pf|apply connect_pf|apply verify_pf|apply encode_pf|apply process_pf]].
Qed.

Lemma publish_id_length pt p (gs gs' : Global * Os) id :
  gossip_publish pt p gs = (Ok id, gs') -> length id = 32%nat.
Proof.
  unfold gossip_publish. destruct (time_bind gs) as (now & os' & ->). unfold with_engine.
  destruct (GOSSIP_STATE _) as [e|]; [|done]. unfold on_engine, zoom. cbn [fst snd].
  pose proof (publish_cases pt p now (e, os')) as H.
  destruct (publish pt p now (e, os')) as [r [e' os'']].
  inversion H; subst; try done. intros [= <- _]. apply sha256_length.
Qed.

Lemma api_call_arrays v gs r gs' :
  api_call v gs = (r, gs') -> match r with Ok (RFixed b) => length b = 32%nat | _ => True end.
Proof.
  intros E. destruct r as [[| |b|]|e|]; try done.
  destruct v; cbn [api_call] in E; unfold replying in E;
    first [apply st_bind_ok in E as (a & s1 & E & [= Hr _])|by injection E as Hr _];
    try (by destruct a); try done.
  subst. by eapply publish_id_length.
Qed.

(** ** Refinement *)

Lemma answered_spec m out v gs r gs' :
  mem_wf m -> slot_ok m out -> api_call v gs = (r, gs') ->
  (available (needed m r) m ->
   ∃ m', answered out (r, gs') m = (Ok tt, (gs', m')) ∧ mem_wf m' ∧
     same_outside (as_usize out) 12 m m' ∧ delivered m' out r) ∧
  (¬ available (needed m r) m -> ∃ m', answered out (r, gs') m = (Panic, (gs', m'))).
Proof.
  intros Hm Hs E. pose proof (api_call_arrays _ _ _ _ E) as H32.
  pose proof (api_call_pf v gs) as Hp. rewrite E in Hp. unfold answered. cbn [fst snd] in *.
  assert (∀ x, as_res x = r -> arrays_32 x) as Hx by (intros [e|[]] <-; exact H32).
  destruct r as [a|e|]; [| |done]; split; intros Ha;
    (destruct (deliver_ok m out (inr a) Hm Hs (Hx (inr a) eq_refl) Ha) as (m' & -> & ?)
     || destruct (deliver_ok m out (inl e) Hm Hs (Hx (inl e) eq_refl) Ha) as (m' & -> & ?)
     || destruct (deliver_trap m out (inr a) (Hx (inr a) eq_refl) Ha) as (m' & ->)
     || destruct (deliver_trap m out (inl e) (Hx (inl e) eq_refl) Ha) as (m' & ->)); by exists m'.
Qed.

(** C20. The C interface refines the API.  On readable arguments and a valid
    out-slot, an export acts on the statics and the operating system exactly as
    the API function on the values the pointers denote.  Its behaviour is always
    defined: when a block for the answer can be had it returns, the slot and the
    block describe the answer, every earlier byte outside the slot is as it was
    and every earlier block still there; otherwise it traps. *)
Theorem abi_refines_api (c : pointer_call) (v : value_call) (out : Z) (gs : Global * Os)
    (m : Memory) (Hm : mem_wf m) (Hs : slot_ok m out) (Hv : arguments m c = Some v) :
  let '(r, gs') := api_call v gs in
  (available (needed m r) m ->
   ∃ m', run_abi c out (gs, m) = (Ok tt, (gs', m')) ∧ delivered m' out r ∧
     same_outside (as_usize out) 12 m m' ∧ mem_wf m') ∧
  (¬ available (needed m r) m -> ∃ m', run_abi c out (gs, m) = (Panic, (gs', m'))).
Proof.
  rewrite (run_abi_spec c v out gs m Hv). destruct (api_call v gs) as [r gs'] eqn:E.
  destruct (answered_spec m out v gs r gs' Hm Hs E) as [Hok Hno]. split; [|done].
  intros (m' & ? & ? & ? & ?)%Hok. by exists m'.
Qed.

(** An argument that cannot be read makes the call undefined before it has done
    anything. *)
Lemma on_memory_bad {A B} (rd : ST Memory Fault A)
    (k : A -> ST ((Global * Os) * Memory) Fault B) gs m f :
  rd m = (Err f, m) -> (on_memory rd ≫= k) (gs, m) = (Err f, (gs, m)).
Proof. intros E. unfold on_memory, zoom, mbind, st_bind. cbn. by rewrite E. Qed.

Lemma unreadable_undefined c out gs m :
  arguments m c = None -> ∃ f, run_abi c out (gs, m) = (Err f, (gs, m)).
Proof.
  destruct c; cbn [arguments run_abi]; try done;
    unfold gossip_init_wasi, gossip_publish_wasi, gossip_connect_peer_wasi,
      gossip_disconnect_peer_wasi, gossip_verify_envelope_wasi, gossip_encode_envelope_wasi,
      gossip_decode_envelope_wasi, gossip_process_handshake_bytes_wasi,
      gossip_build_handshake_ack_wasi, gossip_build_finish_ack_wasi, gossip_get_session_wasi;
    repeat match goal with
    | |- context [on_memory (read_bytes ?s.1 _)] =>
        destruct (bytes_at m s) as [b'|] eqn:Hb;
          [erewrite on_memory_bind by (by apply read_bytes_at); clear Hb
          |intros _; eexists; apply on_memory_bad; by rewrite read_bytes_spec, Hb]
    | |- context [on_memory (read_str ?s.1 _)] =>
        destruct (text_at m s) as [a'|] eqn:Hb;
          [erewrite on_memory_bind by (by apply read_text_at); clear Hb
          |intros _; eexists; apply on_memory_bad; by rewrite read_str_spec, Hb]
    end; done.
Qed.

(** ** A host and its component

    What a host does with the interface: allocate, write into what it
    allocated, free it, call.  No step is one that is undefined or traps. *)

Inductive host_step : Global * Memory -> Global * Memory -> Prop :=
  | host_alloc g m m' size p :
      wasi_alloc size m = (Ok p, m') -> host_step (g, m) (g, m')
  | host_write g m p b :
      in_block m p (Z.of_nat (length b)) -> host_step (g, m) (g, store p b m)
  | host_free g m m' ptr len :
      wasi_free ptr len m = (Ok tt, m') -> host_step (g, m) (g, m')
  | host_export g m g' m' os os' c out :
      slot_ok m out -> run_abi c out ((g, os), m) = (Ok tt, ((g', os'), m')) ->
      host_step (g, m) (g', m').

Lemma wasi_alloc_wf size m p m' : wasi_alloc size m = (Ok p, m') -> mem_wf m -> mem_wf m'.
Proof.
  unfold wasi_alloc. intros E Hm. case_bool_decide as Hmax; [done|]. case_bool_decide as Hz; [done|].
  destruct (malloc (heap m) (blocks m) (as_usize size)) as [q h] eqn:Eq.
  case_bool_decide as Hq; injection E as _ <-.
  - destruct Hm. by constructor.
  - apply grow_wf; [done|by eapply malloc_fresh|].
    pose proof (wrap_fits 32 size ltac:(lia)) as Hf. unfold as_usize, fits in *. lia.
Qed.

Lemma wasi_free_wf ptr len m m' : wasi_free ptr len m = (Ok tt, m') -> mem_wf m -> mem_wf m'.
Proof.
  unfold wasi_free. intros E Hm. repeat case_bool_decide; try done; injection E as <-; [done|].
  by apply release_wf.
Qed.

Context `{!Bincode LineageWire}.

Lemma api_call_step v g os : rtc api_step g (api_call v (g, os)).2.1.
Proof.
  assert (∀ A (f : A -> reply) (m : method (Global * Os) A),
    (replying f m (g, os)).2 = (m (g, os)).2) as Hr.
  { intros A f m. unfold replying, mbind, st_bind. by destruct (m (g, os)) as [[] ?]. }
  destruct v; cbn [api_call]; rewrite ?Hr; first [apply rtc_once; constructor|done].
Qed.

Lemma host_step_inv s s' :
  host_step s s' -> mem_wf s.2 -> mem_wf s'.2 ∧ rtc api_step s.1 s'.1.
Proof.
  intros Hst Hm. destruct Hst as [g m m' size p E|g m p b Hin|g m m' ptr len E
    |g m g' m' os os' c out Hs E]; cbn in *.
  - by eapply wasi_alloc_wf in E.
  - split; [by apply store_wf|done].
  - by eapply wasi_free_wf in E.
  - destruct (arguments m c) as [v|] eqn:Hv.
    2: { destruct (unreadable_undefined c out (g, os) m Hv) as [f Hf]. by rewrite Hf in E. }
    pose proof (api_call_step v g os) as Hg. rewrite (run_abi_spec c v out (g, os) m Hv) in E.
    destruct (api_call v (g, os)) as [r gs'] eqn:Ec.
    destruct (answered_spec m out v (g, os) r gs' Hm Hs Ec) as [Hok Hno].
    destruct (decide (available (needed m r) m)) as [Ha|Ha].
    + destruct (Hok Ha) as (m1 & E1 & Hw & _). rewrite E1 in E. simplify_eq. by cbn in Hg.
    + destruct (Hno Ha) as (m1 & E1). by rewrite E1 in E.
Qed.

Context {WL : WireLaws} {LC : LineageCodec} {CJ : ConfigJsonLaws}.

(** C29. Whatever defined steps a host takes, in whatever order - allocating, writing
    anything into its blocks, freeing, calling exports with any arguments - the
    memory stays well formed (blocks apart, no byte outside one) and the
    statics stay a state of the API, with engine and lineage of one node. *)
Theorem host_preserves (m0 : Memory) (s : Global * Memory) (Hm : mem_wf m0)
    (Hs : rtc host_step (uninitialized, m0) s) :
  mem_wf s.2 ∧ api_reachable s.1 ∧ global_wf s.1.
Proof.
  cut (mem_wf s.2 ∧ rtc api_step uninitialized s.1).
  { intros [? Hr]. split_and!; [done..|]. by apply api_reachable_wf. }
  change (mem_wf (uninitialized, m0).2) in Hm.
  change (rtc api_step uninitialized) with (rtc api_step (uninitialized, m0).1).
  generalize dependent (uninitialized, m0).
  intros s0 Hm Hs. induction Hs as [s|s1 s2 s3 H12 H23 IH]; [done|].
  destruct (host_step_inv _ _ H12 Hm) as [Hm2 H2]. destruct (IH Hm2) as [? H3].
  split; [done|]. by etrans.
Qed.
End Deliver.
End Calls.

(** ** Text arguments *)

Section Text.
Context {M : Allocator}.

(** [read_str] reads exactly the texts: bytes that encode a sequence of Unicode
    scalar values come back unchanged; any other bytes give the empty string,
    without an error. *)
Theorem read_str_text (m : Memory) (ptr len : Z) (b : bytes)
    (Hb : bytes_at m (ptr, len) = Some b) :
  ∃ s, read_str ptr len m = (Ok s, m) ∧
    ((∃ t, Forall scalar t ∧ b = encode_text t) -> as_bytes s = b) ∧
    (¬ (∃ t, Forall scalar t ∧ b = encode_text t) -> s = ""%string).
Proof.
  exists (default ""%string (from_utf8 b)). pose proof (read_str_spec m (ptr, len)) as Hr.
  unfold text_at in Hr. rewrite Hb in Hr. split; [exact Hr|].
  rewrite <- is_utf8_spec. unfold from_utf8. destruct (is_utf8 b); cbn; [|done].
  split; [intros _; apply as_of_bytes|by intros []].
Qed.
End Text.

(** ** Giving memory back *)

Section Free.
Context {M : Allocator} {ML : AllocatorLaws}.

Lemma as_usize_nonneg z : 0 <= z < 2 ^ 32 -> as_usize z = z.
Proof. intros. by apply wrap_small. Qed.

(** Freeing the block at the start of which [b] was stored. *)
Lemma free_stored m q n h p b :
  mem_wf m -> fresh_block q n (blocks m) -> 0 < n <= isize_max -> as_usize p = q -> p ≠ 0 ->
  Z.of_nat (length b) <= n ->
  ∃ m'', wasi_free p n (store q b (grow q n h m)) = (Ok tt, m'') ∧
    cells m'' = cells m ∧ blocks m'' = blocks m.
Proof.
  intros Hm Hf Hn Hq Hp Hb. unfold isize_max in *.
  unfold wasi_free. rewrite bool_decide_false by lia.
  rewrite (as_usize_nonneg n), Hq by lia. rewrite bool_decide_false by (unfold isize_max; lia).
  rewrite bool_decide_true by apply lookup_insert_eq. eexists. split; [done|].
  pose proof (release_grow q n h m Hm ltac:(lia) Hf) as [Hc Hbl]. split; [|exact Hbl].
  rewrite <- Hc. by apply release_store.
Qed.

(** C36. Bytes passed through [wasi_alloc]: the block takes what the host writes, an
    export reads it back, and [wasi_free] with the same length restores every
    byte and block. *)
Theorem alloc_write_read_free (m m' : Memory) (size p : Z) (b : bytes) (Hm : mem_wf m)
    (Hi : is_i32 size) (Ha : wasi_alloc size m = (Ok p, m')) (Hp : p ≠ 0)
    (Hb : Z.of_nat (length b) = size) :
  let written := store (as_usize p) b m' in
  in_block m' (as_usize p) size ∧
  read_bytes p size written = (Ok b, written) ∧
  ∃ m'', wasi_free p size written = (Ok tt, m'') ∧ cells m'' = cells m ∧ blocks m'' = blocks m.
Proof.
  unfold is_i32 in Hi. unfold wasi_alloc in Ha. rewrite (as_usize_nonneg size) in Ha by lia.
  case_bool_decide as Hmax; [done|]. case_bool_decide as Hz; [done|].
  destruct (malloc (heap m) (blocks m) size) as [q h] eqn:E.
  case_bool_decide as Hq; [by injection Ha as <- _|]. injection Ha as <- <-.
  pose proof (malloc_fresh _ _ _ _ _ E Hq) as Hf. pose proof Hf as (Hq1 & Hq2 & _).
  assert (as_usize (as_i32 q) = q) as Hu by (apply as_usize_of_i32; lia).
  assert (in_block (grow q size h m) q size) as Hin.
  { exists q, size. split; [apply lookup_insert_eq|lia]. }
  rewrite Hu. split_and!; [exact Hin| |by apply free_stored; try done; lia].
  unfold read_bytes. rewrite bool_decide_false, Hu, (as_usize_nonneg size) by lia.
  rewrite bool_decide_true by (split; [lia|exact Hin]).
  replace (Z.to_nat size) with (length b) by lia. by rewrite load_store.
Qed.

(** The block of a reply. *)
Lemma leak_vec_block m m1 b p :
  b ≠ [] -> leak_vec b m = (Ok p, m1) ->
  ∃ q h, let n := Z.of_nat (length b) + spare (heap m) b in
    fresh_block q n (blocks m) ∧ p = as_i32 q ∧ as_usize p = q ∧ p ≠ 0 ∧
    0 < Z.of_nat (length b) ∧ n <= isize_max ∧ m1 = store q b (grow q n h m).
Proof.
  intros Hb Hl. assert (0 < Z.of_nat (length b)) as Hlen by (destruct b; [done|cbn; lia]).
  pose proof (spare_nonneg (heap m) b) as Hsp.
  unfold leak_vec in Hl. cbv zeta in Hl. rewrite bool_decide_false in Hl by lia. unfold place in Hl.
  case_bool_decide as Hmax; [done|].
  destruct (malloc _ _ _) as [q h] eqn:E. case_bool_decide as Hq; [done|]. injection Hl as <- <-.
  pose proof (malloc_fresh _ _ _ _ _ E Hq) as Hf. pose proof Hf as (Hq1 & Hq2 & _).
  exists q, h. cbv zeta. split_and!; try done; [by apply as_usize_of_i32; lia|apply as_i32_neq_0; lia|lia].
Qed.

(** Freeing the block of a reply, with the slot written since. *)
Lemma free_written m q n h p b s sb :
  mem_wf m -> fresh_block q n (blocks m) -> 0 < n <= isize_max -> as_usize p = q -> p ≠ 0 ->
  Z.of_nat (length b) <= n -> in_block m s (Z.of_nat (length sb)) ->
  ∃ m'', wasi_free p n (store s sb (store q b (grow q n h m))) = (Ok tt, m'') ∧
    blocks m'' = blocks m ∧ cells m'' = cells (store s sb m).
Proof.
  intros Hm Hf Hn Hq Hp Hb (p0 & s0 & Hp0 & Hin1 & Hin2). unfold isize_max in *.
  unfold wasi_free. rewrite bool_decide_false by lia.
  rewrite (as_usize_nonneg n), Hq by lia. rewrite bool_decide_false by (unfold isize_max; lia).
  rewrite bool_decide_true by apply lookup_insert_eq. eexists. split; [done|].
  pose proof (release_grow q n h m Hm ltac:(lia) Hf) as [Hc Hbl]. split; [exact Hbl|].
  assert (cells (release q n (store q b (grow q n h m))) = cells m) as Hr
    by (by rewrite release_store).
  destruct Hf as (_ & _ & Hap). pose proof (Hap _ _ Hp0).
  rewrite release_store_apart by lia.
  change (map_seqZ s sb ∪ cells (release q n (store q b (grow q n h m)))
          = map_seqZ s sb ∪ cells m). by rewrite Hr.
Qed.

(** C37. The buffer of a reply, as the host frees it: with the address and the
    length it reads in the slot.  When the vector had no spare capacity, the
    memory is then the one before the call but for the slot; when it had some,
    the slot holds its length, not the capacity it was allocated with: the
    layouts differ and the call is undefined. *)
Theorem free_reply_iff_exact (m m' : Memory) (b : bytes) (out : Z) (Hm : mem_wf m)
    (Hs : slot_ok m out) (Hb : b ≠ []) (Hw : write_ok_bytes out b m = (Ok tt, m')) :
  ∃ p len, read_slot m' out = Some (1, p, len) ∧
    if bool_decide (spare (heap m) b = 0) then
      ∃ m'', wasi_free p len m' = (Ok tt, m'') ∧ blocks m'' = blocks m ∧
        cells m'' = cells (store (as_usize out) (slot_bytes 1 p len) m)
    else wasi_free p len m' = (Err (InvalidFree p len), m').
Proof.
  unfold write_ok_bytes, mbind, st_bind in Hw.
  destruct (leak_vec b m) as [[p|e|] m1] eqn:E; [|done..].
  destruct (leak_vec_block m m1 b p Hb E) as (q & h & Hf & Hp & Hu & Hne & Hlen & Hmax & Hm1).
  cbv zeta in Hf, Hmax, Hm1. pose proof (spare_nonneg (heap m) b) as Hsp.
  assert (0 <= Z.of_nat (length b) <= isize_max) as Hsmall by lia.
  rewrite (as_i32_of_small (Z.of_nat (length b))) in Hw by exact Hsmall.
  assert (slot_ok m1 out) as Hs1.
  { destruct Hs as [Ha Hin]. split; [done|]. subst m1. eapply in_block_mono; [|exact Hin].
    apply insert_subseteq, (fresh_lookup q (Z.of_nat (length b) + spare (heap m) b)); [done|lia|done]. }
  rewrite write_out_ok in Hw by done. injection Hw as <-.
  exists p, (Z.of_nat (length b)). rewrite read_slot_write. split.
  { assert (as_i32 p = p) as -> by (apply as_i32_id; subst p; apply as_i32_range).
    by rewrite (as_i32_of_small (Z.of_nat (length b))) by exact Hsmall. }
  unfold isize_max in *. case_bool_decide as Hz; subst m1.
  - rewrite Hz, Z.add_0_r in *. apply free_written; try done; try lia.
    rewrite slot_bytes_length. apply Hs.
  - unfold wasi_free, isize_max. rewrite bool_decide_false by lia.
    rewrite (as_usize_nonneg (Z.of_nat _)) by lia. rewrite bool_decide_false, Hu by lia.
    rewrite bool_decide_false; [done|]. cbn. rewrite lookup_insert_eq. intros [= ?]. lia.
Qed.
End Free.

(** ** Errors as text *)

(** [serde_json::to_string] on a string: it does not fail, and distinct strings
    have distinct texts. *)
Class JsonStringLaws `{TS : ToJson string} : Prop := {
  json_string_total s : ∃ j, json_to_string s = inr j;
  json_string_inj (s1 s2 : string) j :
    json_to_string s1 = inr j -> json_to_string s2 = inr j -> s1 = s2;
}.

Fixpoint before_quote (s : string) : string :=
  match s with
  | String.EmptyString => ""
  | String.String c s' =>
      if bool_decide (c = Ascii.ascii_of_nat 34) then "" else String.String c (before_quote s')
  end%string.

Fixpoint skip (n : nat) (s : string) : string :=
  match n, s with
  | S n', String.String _ s' => skip n' s'
  | _, _ => s
  end.

(** The tag of an error, as a host can read it off the text. *)
Definition tag_of (json : string) : string := before_quote (skip 10 json).

Lemma tag_of_error_json `{TS : ToJson string} e : tag_of (error_json e) = error_variant e.
Proof. unfold error_json. by destruct e. Qed.

Lemma append_inj_r (s1 s2 t : string) : s1 +:+ t = s2 +:+ t -> s1 = s2.
Proof.
  intros H%(f_equal String.list_ascii_of_string).
  assert (∀ a b, String.list_ascii_of_string (a +:+ b)
    = String.list_ascii_of_string a ++ String.list_ascii_of_string b) as Happ.
  { intros a b. induction a as [|c a IH]; [done|]. exact (f_equal (cons c) IH). }
  rewrite !Happ in H. apply app_inv_tail in H.
  by rewrite <- (String.string_of_list_ascii_of_string s1), H, String.string_of_list_ascii_of_string.
Qed.

(** The text in a failed call's block tells the error exactly: its tag is the
    variant, and no two errors have the same text. *)
Theorem error_json_inj `{TS : ToJson string, !JsonStringLaws} (e1 e2 : GossipError)
    (He : error_json e1 = error_json e2) : e1 = e2 ∧ tag_of (error_json e1) = error_variant e1.
Proof.
  split; [|apply tag_of_error_json].
  assert (error_variant e1 = error_variant e2) as Hv by (rewrite <- !tag_of_error_json; by f_equal).
  unfold error_json in He. rewrite Hv in He.
  destruct (json_string_total (GossipError_fmt e1)) as [j1 E1].
  destruct (json_string_total (GossipError_fmt e2)) as [j2 E2].
  rewrite E1, E2 in He.
  repeat apply (inj (String.append _)) in He. apply append_inj_r in He as <-.
  pose proof (json_string_inj _ _ _ E1 E2) as Hf.
  destruct e1, e2; try discriminate Hv; try done; cbn in Hf; simplify_eq; done.
Qed.
