(* ===== verification/Host.v ===== *)
(** * The host of a node

    [wasmtime-test/src/node.rs]: a node as the host holds it, an address and a
    component instance, and its methods, each a call of the component with the
    guest's error rendered; and [do_handshake] of [wasmtime-test/src/main.rs],
    the host loop that carries the four messages.

    The instance is the state of the component behind it.  A guest that traps
    leaves an instance wasmtime does not enter again: [None]. *)

From S2P Require Import Prelude Errors Types Extern F64 Config Identity Rotation Engine Api Component.
Import Api.

(** ** The host's libraries *)

(** wasmtime: loading, linking and instantiating the component. *)
Class Wasmtime := {
  from_binary : bytes -> fallible unit;
  add_to_linker : fallible unit;
  instantiate : bytes -> fallible unit;
}.

(** serde_json in the host: parsing into a [Value] and into a list of them,
    [Value::to_string], [Value::get], [Value::as_str] and [==]. *)
Class HostJson := {
  parse_value :: FromJson JsonValue;
  parse_values :: FromJson (list JsonValue);
  value_text : JsonValue -> string;
  get_field : JsonValue -> string -> option JsonValue;
  as_str : JsonValue -> option string;
  value_eqb : JsonValue -> JsonValue -> bool;
}.

(** [value[key]]: null where there is no such field. *)
Definition field {HJ : HostJson} (v : JsonValue) (key : string) : JsonValue :=
  default JNull (get_field v key).

(** What serde_json does with fields. *)
Fixpoint assoc (key : string) (fields : list (string * JsonValue)) : option JsonValue :=
  match fields with
  | [] => None
  | (k, v) :: fields' => if bool_decide (k = key) then Some v else assoc key fields'
  end.

Definition as_text (v : JsonValue) : option string :=
  match v with JString s => Some s | _ => None end.

Definition as_number (v : JsonValue) : option Z :=
  match v with JNumber n => Some n | _ => None end.

(** The fields of a [GossipConfig] in an object: a missing one is [None], one the
    struct does not have is ignored. *)
Definition config_of_fields (fields : list (string * JsonValue)) : GossipConfig :=
  let text k := assoc k fields ≫= as_text in
  let number k := assoc k fields ≫= as_number in
  mkConfig (text "node_id") (text "kem_seed_hex") (text "sig_seed_hex") (text "key_epoch")
    (number "mesh_n") (number "mesh_n_low") (number "mesh_n_high") (number "heartbeat_ms")
    (number "max_message_bytes") (number "dedup_cache_secs") None
    (number "replay_window_ms") (number "default_ttl").

(** The fields it has are of the right type and range. *)
Definition config_fields_ok (fields : list (string * JsonValue)) : bool :=
  let text_ok k := match assoc k fields with None | Some (JString _) => true | _ => false end in
  let number_ok (kw : string * Z) :=
    match assoc kw.1 fields with
    | None => true
    | Some (JNumber z) => (0 <=? z)%Z && (z <? 2 ^ kw.2)%Z
    | _ => false
    end in
  forallb text_ok ["node_id"; "kem_seed_hex"; "sig_seed_hex"; "key_epoch"]%string &&
  forallb number_ok [("mesh_n", 8); ("mesh_n_low", 8); ("mesh_n_high", 8); ("heartbeat_ms", 64);
    ("max_message_bytes", usize_bits); ("dedup_cache_secs", 64); ("replay_window_ms", 64);
    ("default_ttl", 8)]%string%Z &&
  match assoc "quorum_fraction" fields with None => true | _ => false end.

(** serde_json between the component and the host: the component's reports are
    written, and read as the values they show; the host's configurations are
    read as their fields; and the host looks at values as they are. *)
Class HostJsonLaws `{Ext} {J : JsonOut} `{!FromJson GossipConfig} `{HostJson} : Prop := {
  identity_text i : ∃ s, json_to_string (A:=NodeIdentityPublic) i = inr s ∧
    json_from_str s = inr (identity_value i);
  peers_text ps : ∃ s, json_to_string (A:=list PeerInfo) ps = inr s ∧
    json_from_str s = inr (map peer_value ps);
  stats_text st : ∃ s, json_to_string (A:=GossipStats) st = inr s ∧
    json_from_str s = inr (stats_value st);
  json_text v : ∃ s, json_to_string (A:=JsonValue) v = inr s ∧ json_from_str s = inr v;
  config_text fields : config_fields_ok fields = true ->
    json_from_str (value_text (JObject fields)) = inr (config_of_fields fields);
  empty_config_text : json_from_str "{}" = inr empty_config;
  get_object fields key : get_field (JObject fields) key = assoc key fields;
  as_str_text v : as_str v = as_text v;
  eqb_strings a b : value_eqb (JString a) (JString b) = bool_decide (a = b);
  eqb_numbers a b : value_eqb (JNumber a) (JNumber b) = (a =? b)%Z;
}.

(** An [anyhow::Error], as far as the host tells them apart. *)
Inductive HostError : Type :=
  | GuestTrap                                  (* the call itself failed *)
  | GuestError (context : string) (e : WitError)
  | Message (s : string)
  | Context (context : string) (cause : HostError).

(** [.context(c)], on a result of the host's own. *)
Definition with_context {A} (c : string) (r : result HostError A) : result HostError A :=
  match r with Err e => Err (Context c e) | _ => r end.

Section Host.
Context {X : Ext} {W : WireCodecs} {J : JsonOut} `{!FromJson GossipConfig}.
Context `{!Bincode LineageWire} {WT : Wasmtime} {HJ : HostJson}.

Record GossipNode : Type := mkNode {
  addr : string;
  instance : option Global;
}.

Abbreviation host A := (ST (GossipNode * Os) HostError A).

(** [GossipNode::new]: a fresh instance. *)
Definition new (a : string) (component_bytes : bytes) : result HostError GossipNode :=
  _ ← map_err (λ e, Message (a +:+ ": loading component: " +:+ e)) (from_binary component_bytes);
  _ ← map_err (λ e, Message (a +:+ ": linking WASI: " +:+ e)) add_to_linker;
  _ ← map_err (λ e, Message (a +:+ ": instantiating component: " +:+ e))
        (instantiate component_bytes);
  mret (mkNode a (Some uninitialized)).

(** [call_gossip_*(&mut self.store, ...)?]: the guest's answer, unless it traps. *)
Definition enter {A} (m : ST (Global * Os) WitError A) : host (WitError + A) :=
  λ s,
    match instance s.1 with
    | None => (Err GuestTrap, s)
    | Some g =>
        let '(r, (g', os')) := m (g, s.2) in
        match r with
        | Ok a => (Ok (inr a), (mkNode (addr s.1) (Some g'), os'))
        | Err e => (Ok (inl e), (mkNode (addr s.1) (Some g'), os'))
        | Panic => (Err GuestTrap, (mkNode (addr s.1) None, os'))
        end
    end.

(** The same with [.map_err(|e| err(name, e))]. *)
Definition call {A} (name : string) (m : ST (Global * Os) WitError A) : host A :=
  r ← enter m;
  lift (match r with inr a => Ok a | inl e => Err (GuestError name e) end).

(** A call that has no error of its own. *)
Definition call_plain {A} (m : ST (Global * Os) WitError A) : host A := call "" m.

(** [serde_json::from_str(&json).context(c)]. *)
Definition parsing {A} `{!FromJson A} (c : string) (m : host string) : host A :=
  json ← m;
  lift (with_context c (map_err Message (json_from_str json))).

(** ** Lifecycle *)

Definition init (config_json : string) : host unit :=
  call "gossip_init" (Guest.gossip_init config_json).

Definition get_version : host string := call_plain (mret Guest.gossip_get_version).

Definition now_ms : host Z := call_plain Guest.gossip_now_ms.

(** ** Identity *)

Definition get_node_identity : host JsonValue :=
  parsing "parsing node identity JSON"
    (call "gossip_get_node_identity" Guest.gossip_get_node_identity).

Definition rotate_keys : host string := call "gossip_rotate_keys" Guest.gossip_rotate_keys.

(** ** Peers and handshake *)

Definition connect_peer (peer_addr : string) : host bytes :=
  call "gossip_connect_peer" (Guest.gossip_connect_peer peer_addr).

Definition process_handshake_bytes (peer_addr : string) (b : bytes) : host (option bytes) :=
  call "gossip_process_handshake_bytes" (Guest.gossip_process_handshake_bytes peer_addr b).

Definition disconnect_peer (peer_addr : string) : host unit :=
  call "gossip_disconnect_peer" (Guest.gossip_disconnect_peer peer_addr).

Definition get_peers : host (list JsonValue) :=
  parsing "parsing peers JSON" (call "gossip_get_peers" Guest.gossip_get_peers).

Definition get_session (peer_addr : string) : host JsonValue :=
  parsing "parsing session JSON" (call "gossip_get_session" (Guest.gossip_get_session peer_addr)).

(** ** Messaging *)

Definition publish (payload_type : Z) (payload : bytes) : host bytes :=
  id ← call "gossip_publish" (Guest.gossip_publish payload_type payload);
  if bool_decide (length id = 32%nat) then mret id
  else throw (Context ("expected a 32-byte message ID, got " +:+ pretty (length id) +:+ " bytes")
         (Message "could not convert slice to array")).

Definition encode_envelope (payload_type : Z) (payload : bytes) : host bytes :=
  call "gossip_encode_envelope" (Guest.gossip_encode_envelope payload_type payload).

Definition decode_envelope (b : bytes) : host JsonValue :=
  parsing "parsing envelope JSON"
    (call "gossip_decode_envelope" (Guest.gossip_decode_envelope b)).

Definition verify_envelope (b : bytes) : host bool :=
  call "gossip_verify_envelope" (Guest.gossip_verify_envelope b).

Definition verify_signature (public_key message signature context : bytes) : host bool :=
  call "gossip_verify_signature"
    (lift (Guest.gossip_verify_signature public_key message signature context)).

(** ** Stats *)

Definition get_stats : host JsonValue :=
  parsing "parsing stats JSON" (call "gossip_get_stats" Guest.gossip_get_stats).

(** ** Key lineage *)

Definition init_with_lineage (config_json : string) (lineage : bytes) : host unit :=
  call "gossip_init_with_lineage" (Guest.gossip_init_with_lineage config_json lineage).

Definition rotate_keys_under_id (kem_seed sig_seed : bytes) (key_epoch : string)
    (next_key_commitment : option bytes) : host bytes :=
  call "gossip_rotate_keys_under_id"
    (Guest.gossip_rotate_keys_under_id kem_seed sig_seed key_epoch next_key_commitment).

Definition get_key_lineage : host bytes := call "gossip_get_key_lineage" Guest.gossip_get_key_lineage.

Definition verify_key_lineage (lineage : bytes) : host JsonValue :=
  parsing "parsing lineage summary JSON"
    (call "gossip_verify_key_lineage" (lift (Guest.gossip_verify_key_lineage lineage))).

Definition verify_envelope_from_lineage (envelope lineage : bytes) : host bool :=
  call "gossip_verify_envelope_from_lineage"
    (Guest.gossip_verify_envelope_from_lineage envelope lineage).

Definition recover_lineage (lineage kem_seed sig_seed : bytes) (key_epoch : string)
    (next_key_commitment : option bytes) : host bytes :=
  call "gossip_recover_lineage"
    (Guest.gossip_recover_lineage lineage kem_seed sig_seed key_epoch next_key_commitment).

Definition key_commitment (sig_seed : bytes) : host bytes :=
  call "gossip_key_commitment" (lift (Guest.gossip_key_commitment sig_seed)).

(** ** A host built against 0.2.1

    [legacy_0_2_1::smoke]: its bindings are those of the older interface, whose
    functions the component still has. *)

Definition on_fresh {A} (component_bytes : bytes) (m : host A) : ST Os HostError A :=
  λ os,
    match _ ← map_err Message (from_binary component_bytes);
          _ ← map_err Message add_to_linker;
          map_err Message (instantiate component_bytes) with
    | Ok _ => let '(r, (_, os')) := m (mkNode "" (Some uninitialized), os) in (r, os')
    | Err e => (Err e, os)
    | Panic => (Panic, os)
    end.

Definition smoke (component_bytes : bytes) : ST Os HostError (string * bytes) :=
  on_fresh component_bytes (
    _ ← call "legacy gossip_init" (Guest.gossip_init "{}");
    version ← get_version;
    envelope ← call "legacy gossip_encode_envelope"
      (Guest.gossip_encode_envelope 0 (as_bytes "legacy host"));
    mret (version, envelope)).

(** ** The handshake, as the host drives it

    [do_handshake] of [main.rs], on a client and a server. *)

Abbreviation pair A := (ST ((GossipNode * GossipNode) * Os) HostError A).

Definition on_client {A} (m : host A) : pair A :=
  zoom (λ s, (s.1.1, s.2)) (λ t s, ((t.1, s.1.2), t.2)) m.

Definition on_server {A} (m : host A) : pair A :=
  zoom (λ s, (s.1.2, s.2)) (λ t s, ((s.1.1, t.1), t.2)) m.

(** [.with_context(...)] on a call. *)
Definition within {S A} (c : string) (m : ST S HostError A) : ST S HostError A :=
  λ s, let '(r, s') := m s in (with_context c r, s').

Definition do_handshake : pair unit :=
  s ← get;
  let client_addr := addr s.1.1 in
  let server_addr := addr s.1.2 in
  probe ← within (client_addr +:+ " connect_peer(" +:+ server_addr +:+ ")")
    (on_client (connect_peer server_addr));
  r ← within (server_addr +:+ " process_handshake_bytes (probe)")
    (on_server (process_handshake_bytes client_addr probe));
  ack ← lift (ok_or r (Message "server returned None for probe — expected ack bytes"));
  r ← within (client_addr +:+ " process_handshake_bytes (ack)")
    (on_client (process_handshake_bytes server_addr ack));
  finish ← lift (ok_or r (Message "client returned None for ack — expected finish bytes"));
  r ← within (server_addr +:+ " process_handshake_bytes (finish)")
    (on_server (process_handshake_bytes client_addr finish));
  finish_ack ← lift (ok_or r
    (Message "server returned None for finish — expected finish_ack bytes"));
  r ← within (client_addr +:+ " process_handshake_bytes (finish_ack)")
    (on_client (process_handshake_bytes server_addr finish_ack));
  match r with
  | Some _ => throw (Message
      "client returned Some bytes after finish_ack — expected None (handshake complete)")
  | None => mret tt
  end.
End Host.
