(* ===== verification/HostThms.v ===== *)
(** * The host drives the component

    What the host loop of [wasmtime-test] achieves, in an environment where the
    entropy source, the clock and the key encapsulation do their part: the four
    messages carried by [do_handshake] always end with a session on both
    sides. *)

From S2P Require Import Prelude Errors Types Extern F64 Config Dedup Quorum Session Identity Envelope Rotation Lineage LineageThms Handshake HandshakeThms Engine EngineThms Api ApiThms Component ComponentThms Host.
Import Engine Api.

(** ** An environment that does its part *)

Section Environment.
Context {X : Ext} {W : WireCodecs}.

(** Keys a node can take part with. *)
Record usable (i : NodeIdentity) : Prop := {
  us_signs : can_sign i;
  us_kem_json : ∃ kj, kem_pk_to_json (kem_public_key (kem_keypair i)) = inr kj ∧
                      short (String.length kj);
  us_id : short (String.length (node_id i));
}.

(** From a state in [Q] on, the clock stays in a window of half a minute, and the
    operating system and the key encapsulation do not fail. *)
Record quiet (Q : Os -> Prop) (lo hi : Z) : Prop := {
  q_window : (0 <= lo ∧ hi < 2 ^ 64 ∧ hi - lo <= 30000)%Z;
  q_clock os : Q os ->
    ∃ t os', system_time_ms os = (Some t, os') ∧ (lo <= t <= hi)%Z ∧ Q os';
  q_random n os : Q os -> ∃ b os', getrandom n os = (inr b, os') ∧ Q os';
  q_encapsulate i os : Q os -> usable i ->
    ∃ ct ss key cj ctb os',
      encapsulate_to (kem_public_key (kem_keypair i)) os = (inr (ct, ss), os') ∧
      as_32_bytes ss = inr key ∧ ct_to_json ct = inr cj ∧ short (String.length cj) ∧
      serialize ct = inr ctb ∧ Q os';
  q_generate epoch os : Q os ->
    ∃ i os', Q os' ∧ usable i ∧ self_derived i ∧
      ∀ S (s : S), generate epoch (s, os) = (Ok i, (s, os'));
}.

Context {Q : Os -> Prop} {lo hi : Z} (Hq : quiet Q lo hi).

Lemma q_time (g : Global) os :
  Q os -> ∃ t os', (lo <= t <= hi)%Z ∧ Q os' ∧
    ∀ A (k : Z -> method (Global * Os) A), (current_time_unix_ms ≫= k) (g, os) = k t (g, os').
Proof.
  intros Hos. destruct (q_clock _ _ _ Hq os Hos) as (t & os' & E & Ht & Hos').
  exists t, os'. split_and!; [lia..|done|]. intros A k.
  unfold current_time_unix_ms, Handshakes.current_time_unix_ms, mbind, st_bind. cbn. rewrite E.
  pose proof (q_window _ _ _ Hq). rewrite wrap_small by (unfold fits; lia). done.
Qed.

Definition in_window (t : Z) : Prop := (lo <= t <= hi)%Z.

Lemma window_in_time t1 t2 t3 t4 t5 :
  in_window t1 -> in_window t2 -> in_window t3 -> in_window t4 -> in_window t5 ->
  in_time t1 t2 t3 t4 t5.
Proof.
  unfold in_window. pose proof (q_window _ _ _ Hq). intros. constructor; unfold fits; lia.
Qed.
End Environment.

(** ** Calls on a live instance *)

Section Calls.
Context {X : Ext} {W : WireCodecs} {J : JsonOut} `{!FromJson GossipConfig}.
Context `{!Bincode LineageWire}.

(** A node whose component holds an engine and a lineage. *)
Definition node_at (a : string) (e : GossipEngine) (l : option KeyLineage) : GossipNode :=
  mkNode a (Some (mkGlobal (Some e) l)).

Lemma call_ok {A} name (m : method (Global * Os) A) a g os r g' os' :
  m (g, os) = (Ok r, (g', os')) ->
  call name (wit m) (mkNode a (Some g), os) = (Ok r, (mkNode a (Some g'), os')).
Proof. intros E. unfold call, enter, wit, mbind, st_bind. cbn. by rewrite E. Qed.

Lemma call_err {A} name (m : method (Global * Os) A) a g os e g' os' :
  m (g, os) = (Err e, (g', os')) ->
  call name (wit m) (mkNode a (Some g), os)
  = (Err (GuestError name (wit_error e)), (mkNode a (Some g'), os')).
Proof. intros E. unfold call, enter, wit, mbind, st_bind. cbn. by rewrite E. Qed.

Lemma with_engine_ok {A} (m : method (GossipEngine * Os) A) e l os r e' os' :
  m (e, os) = (Ok r, (e', os')) ->
  with_engine (on_engine m) (mkGlobal (Some e) l, os) = (Ok r, (mkGlobal (Some e') l, os')).
Proof. intros E. unfold with_engine, on_engine, zoom. cbn. by rewrite E. Qed.

Lemma with_engine_err {A} (m : method (GossipEngine * Os) A) e l os r e' os' :
  m (e, os) = (Err r, (e', os')) ->
  with_engine (on_engine m) (mkGlobal (Some e) l, os) = (Err r, (mkGlobal (Some e') l, os')).
Proof. intros E. unfold with_engine, on_engine, zoom. cbn. by rewrite E. Qed.

Context {Q : Os -> Prop} {lo hi : Z} (Hq : quiet Q lo hi).

Abbreviation window t := (in_window (lo:=lo) (hi:=hi) t).

(** A call that reads the clock and works on the engine. *)
Lemma timed_call a e l os :
  Q os -> ∃ t os1, window t ∧ Q os1 ∧
    ∀ A name (m : Z -> method (GossipEngine * Os) A) r e' os',
      m t (e, os1) = (Ok r, (e', os')) ->
      call name (wit (current_time_unix_ms ≫= λ now, with_engine (on_engine (m now))))
        (node_at a e l, os) = (Ok r, (node_at a e' l, os')).
Proof.
  intros Hos. destruct (q_time Hq (mkGlobal (Some e) l) os Hos) as (t & os1 & Ht & Hos1 & Hk).
  exists t, os1. split; [exact Ht|]. split; [done|]. intros A name m r e' os' E.
  apply call_ok. rewrite Hk. by apply with_engine_ok.
Qed.

(** ** The handshake *)

Context {L : ExtLaws} {WL : WireLaws} {WTo : WireTotal}.

Lemma on_client_ok {A} c (m : ST (GossipNode * Os) HostError A) n1 n2 os r n1' os' :
  m (n1, os) = (Ok r, (n1', os')) ->
  within c (on_client m) ((n1, n2), os) = (Ok r, ((n1', n2), os')).
Proof. intros E. unfold within, on_client, zoom. cbn. by rewrite E. Qed.

Lemma on_client_err {A} c (m : ST (GossipNode * Os) HostError A) n1 n2 os e n1' os' :
  m (n1, os) = (Err e, (n1', os')) ->
  within c (on_client m) ((n1, n2), os) = (Err (Context c e), ((n1', n2), os')).
Proof. intros E. unfold within, on_client, zoom. cbn. by rewrite E. Qed.

Lemma on_server_ok {A} c (m : ST (GossipNode * Os) HostError A) n1 n2 os r n2' os' :
  m (n2, os) = (Ok r, (n2', os')) ->
  within c (on_server m) ((n1, n2), os) = (Ok r, ((n1, n2'), os')).
Proof. intros E. unfold within, on_server, zoom. cbn. by rewrite E. Qed.

(** An engine that has completed a handshake with [addr]. *)
Definition connected (addr : string) (se : SessionRecord) (e : GossipEngine) : GossipEngine :=
  complete_handshake addr se (set_handshakes (Handshakes.delete_pending addr (handshakes e)) e).

(** The five calls of the loop, each from any node that holds what it needs. *)
Section Stages.
Context (ca sa : string) (idc ids : NodeIdentity) (Hn : names_short sa idc ids).

Lemma probe_stage e l os :
  Q os -> identity e = idc -> Store.get (sessions e) sa = None ->
  ∃ t1 cn pb os', window t1 ∧ Q os' ∧ on_probe sa idc t1 cn pb ∧
    Host.connect_peer sa (node_at ca e l, os)
    = (Ok pb, (node_at ca (set_handshakes (Handshakes.insert_pending sa
         (Client (ProbeSent (mkProbeSent cn pb t1))) (handshakes e)) e) l, os')).
Proof.
  intros Hos Hi Hnew. destruct (timed_call ca e l os Hos) as (t1 & o1 & W1 & Q1 & C1).
  destruct (q_random _ _ _ Hq 32%nat o1 Q1) as (cn & o2 & Hcn & Q2).
  destruct (run_probe sa idc ids t1 t1 t1 t1 t1 (handshakes e) o1 o2 cn)
    as (pb & Hp & H1); [by apply (window_in_time Hq)|done..|].
  exists t1, cn, pb, o2. do 3 (split; [done|]).
  apply (C1 _ "gossip_connect_peer"%string (connect_peer sa)). apply connect_run; [done|].
  by rewrite Hi.
Qed.

Lemma ack_stage e l os t1 cn pb :
  Q os -> identity e = ids -> usable ids -> window t1 ->
  on_probe sa idc t1 cn pb ->
  ∃ t2 sn kj ab os', window t2 ∧ Q os' ∧
    on_ack sa idc ids t1 t2 cn pb sn kj ab ∧
    Host.process_handshake_bytes ca pb (node_at sa e l, os)
    = (Ok (Some ab), (node_at sa (set_handshakes (Handshakes.insert_pending ca
         (Server (AckSent (mkAckSent cn sn pb ab t2))) (handshakes e)) e) l, os')).
Proof.
  intros Hos Hi [Hsign (kj & Hkj & Hkjs) _] W1 Hp.
  destruct (timed_call sa e l os Hos) as (t2 & o1 & W2 & Q1 & C2).
  destruct (q_random _ _ _ Hq 32%nat o1 Q1) as (sn & o2 & Hsn & Q2).
  destruct (run_ack ca sa idc ids t1 t2 t2 t2 t2 (handshakes e) o1 o2 cn pb sn kj)
    as (ab & Ha & H2); [by apply (window_in_time Hq)|done..|].
  exists t2, sn, kj, ab, o2. split; [done|]. split; [done|]. split; [done|].
  apply (C2 _ "gossip_process_handshake_bytes"%string (process_handshake_bytes ca pb)).
  apply probe_run; [|by rewrite Hi].
  by eapply probe_classified.
Qed.

Lemma finish_stage e l os t1 t2 cn pb sn kj ab :
  Q os -> identity e = idc -> usable ids ->
  window t1 -> window t2 ->
  on_ack sa idc ids t1 t2 cn pb sn kj ab ->
  pending (handshakes e) !! sa = Some (Client (ProbeSent (mkProbeSent cn pb t1))) ->
  ∃ t3 ct ss key cj ctb fb os', window t3 ∧ Q os' ∧
    wire_out (finish_of idc cj t3) = Ok fb ∧ encapsulated ids ct ss key cj ctb ∧
    Host.process_handshake_bytes sa ab (node_at ca e l, os)
    = (Ok (Some fb), (node_at ca (set_handshakes (Handshakes.insert_pending sa
         (Client (FinishSent (finish_sent_of (ack_msg sa idc ids t1 t2 cn sn kj) pb ab fb ctb key t3)))
         (handshakes e)) e) l, os')).
Proof.
  intros Hos Hi Hus W1 W2 Ha Hpend.
  destruct (timed_call ca e l os Hos) as (t3 & o1 & W3 & Q1 & C3).
  destruct (q_encapsulate _ _ _ Hq ids o1 Q1 Hus)
    as (ct & ss & key & cj & ctb & o2 & Henc & Hkey & Hcj & Hcjs & Hctb & Q2).
  destruct (run_finish sa idc ids t1 t2 t3 t3 t3 (handshakes e) o1 o2 cn pb sn kj ab ct ss key cj ctb)
    as (fb & Hf & Hen & H3); [by apply (window_in_time Hq)|done..|].
  exists t3, ct, ss, key, cj, ctb, fb, o2. do 4 (split; [done|]).
  apply (C3 _ "gossip_process_handshake_bytes"%string (process_handshake_bytes sa ab)).
  apply ack_run; [|by rewrite Hi].
  by eapply ack_classified.
Qed.

Lemma finish_ack_stage e l os t2 t3 cn pb sn ab ct ss key cj ctb fb :
  Q os -> identity e = ids -> usable ids ->
  window t2 -> window t3 ->
  wire_out (finish_of idc cj t3) = Ok fb -> encapsulated ids ct ss key cj ctb ->
  pending (handshakes e) !! ca = Some (Server (AckSent (mkAckSent cn sn pb ab t2))) ->
  let th := transcript t2 cn sn pb ab fb in
  ∃ t4 fa kb os', window t4 ∧ Q os' ∧ on_finish_ack ids t4 key th fa kb ∧
    Host.process_handshake_bytes ca fb (node_at sa e l, os)
    = (Ok (Some kb), (node_at sa (connected ca
         (server_session ca (fa_session_id fa) (finish_of idc cj t3) th t4) e) l, os')).
Proof.
  intros Hos Hi [Hsign _ _] W2 W3 Hf Hen Hpend th.
  destruct (timed_call sa e l os Hos) as (t4 & o1 & W4 & Q1 & C4).
  destruct (run_finish_ack ca idc ids t2 t2 t3 t4 t4 (handshakes e) o1 cn pb sn ab ct ss key cj ctb fb)
    as (fa & kb & Hk & H4); [by apply (window_in_time Hq)|done..|].
  exists t4, fa, kb, o1. do 3 (split; [done|]).
  apply (C4 _ "gossip_process_handshake_bytes"%string (process_handshake_bytes ca fb)).
  apply finish_run; [|by rewrite Hi].
  by eapply finish_classified.
Qed.

Lemma done_stage e l os t1 t2 t3 t4 cn pb sn kj ab key ctb fb fa kb :
  Q os -> window t1 -> window t2 -> window t3 -> window t4 ->
  on_finish_ack ids t4 key (transcript t2 cn sn pb ab fb) fa kb ->
  pending (handshakes e) !! sa = Some (Client (FinishSent
    (finish_sent_of (ack_msg sa idc ids t1 t2 cn sn kj) pb ab fb ctb key t3))) ->
  ∃ t5 os', window t5 ∧ Q os' ∧
    Host.process_handshake_bytes sa kb (node_at ca e l, os)
    = (Ok None, (node_at ca (connected sa (client_session sa fa
         (finish_sent_of (ack_msg sa idc ids t1 t2 cn sn kj) pb ab fb ctb key t3) t5) e) l, os')).
Proof.
  intros Hos W1 W2 W3 W4 Hk Hpend.
  destruct (timed_call ca e l os Hos) as (t5 & o1 & W5 & Q1 & C5).
  exists t5, o1. do 2 (split; [done|]).
  apply (C5 _ "gossip_process_handshake_bytes"%string (process_handshake_bytes sa kb)).
  apply finish_ack_run.
  - by eapply finish_ack_classified.
  - apply (run_done sa idc ids t1 t2 t3 t4 t5); [by apply (window_in_time Hq)|done..].
Qed.
End Stages.

(** The host loop connects two nodes that are up: from any two of which the
    client has no session with the server, it returns, both ends hold mirrored
    sessions, and nothing else in either node has changed. *)
Lemma do_handshake_run ca sa ec es lc ls os :
  Q os -> usable (identity es) -> names_short sa (identity ec) (identity es) ->
  Store.get (sessions ec) sa = None ->
  ∃ sc ss t4 t5 os',
    Q os' ∧ mirror ca sa (identity ec) (identity es) t4 t5 sc ss ∧
    session_wf sa sc ∧ session_wf ca ss ∧
    do_handshake ((node_at ca ec lc, node_at sa es ls), os)
    = (Ok tt, ((node_at ca (connected sa sc ec) lc, node_at sa (connected ca ss es) ls), os')).
Proof.
  intros Hos Hus Hn Hnew.
  edestruct (probe_stage ca sa _ _ Hn ec lc os Hos eq_refl Hnew)
    as (t1 & cn & pb & o1 & W1 & Q1 & Hp & C1).
  edestruct (ack_stage ca sa _ _ Hn es ls o1 t1 cn pb Q1 eq_refl Hus W1 Hp)
    as (t2 & sn & kj & ab & o2 & W2 & Q2 & Ha & C2).
  set (ec1 := set_handshakes _ ec) in C1. set (es1 := set_handshakes _ es) in C2.
  edestruct (finish_stage ca sa _ _ Hn ec1 lc o2 t1 t2 cn pb sn kj ab Q2 eq_refl Hus W1 W2 Ha)
    as (t3 & ct & sec & key & cj & ctb & fb & o3 & W3 & Q3 & Hf & Hen & C3);
    [apply lookup_insert_eq|].
  edestruct (finish_ack_stage ca sa _ _ es1 ls o3 t2 t3 cn pb sn ab ct sec key cj ctb fb
    Q3 eq_refl Hus W2 W3 Hf Hen) as (t4 & fa & kb & o4 & W4 & Q4 & Hk & C4);
    [apply lookup_insert_eq|].
  set (ec2 := set_handshakes _ ec1) in C3.
  edestruct (done_stage ca sa (identity ec) (identity es) ec2 lc o4 t1 t2 t3 t4 cn pb sn kj ab
    key ctb fb fa kb
    Q4 W1 W2 W3 W4 Hk) as (t5 & o5 & W5 & Q5 & C5); [apply lookup_insert_eq|].
  eexists _, _, t4, t5, o5. split; [exact Q5|].
  split; [exact (sessions_mirror ca sa _ _ t1 t2 t3 t4 t5 cn sn kj pb ab fb ctb key cj fa kb Hk)|].
  assert (is32 (transcript t2 cn sn pb ab fb)) as Hth by apply sha256_length.
  pose proof (sig_public_key_bytes_length (identity ec)).
  pose proof (sig_public_key_bytes_length (identity es)).
  split; [split_and!; [done|done|done|by cbn; rewrite (of_shape _ _ _ _ _ _ Hk)]|].
  split; [by split_and!|].
  unfold do_handshake. rewrite get_bind. cbn [fst snd addr node_at].
  rewrite (st_bind_run _ _ _ _ _ (on_client_ok _ _ _ _ _ _ _ _ C1)).
  rewrite (st_bind_run _ _ _ _ _ (on_server_ok _ _ _ _ _ _ _ _ C2)), lift_bind. cbn [ok_or].
  rewrite (st_bind_run _ _ _ _ _ (on_client_ok _ _ _ _ _ _ _ _ C3)), lift_bind. cbn [ok_or].
  rewrite (st_bind_run _ _ _ _ _ (on_server_ok _ _ _ _ _ _ _ _ C4)), lift_bind. cbn [ok_or].
  rewrite (st_bind_run _ _ _ _ _ (on_client_ok _ _ _ _ _ _ _ _ C5)).
  unfold ec2, ec1, es1, connected. cbn [handshakes set_handshakes].
  by rewrite !delete_insert_pending.
Qed.

(** A second handshake with a peer that has a session stops at its first call. *)
Lemma do_handshake_again ca sa ec lc (n2 : GossipNode) se os :
  Q os -> addr n2 = sa -> Store.get (sessions ec) sa = Some se ->
  ∃ os', Q os' ∧
    do_handshake ((node_at ca ec lc, n2), os)
    = (Err (Context (ca +:+ " connect_peer(" +:+ sa +:+ ")")
             (GuestError "gossip_connect_peer" (WitHandshakeError ("already connected to " +:+ sa)))),
       ((node_at ca ec lc, n2), os')).
Proof.
  intros Hos <- Hs. destruct (q_time Hq (mkGlobal (Some ec) lc) os Hos) as (t & os1 & _ & Hos1 & Hk).
  exists os1. split; [done|]. unfold do_handshake. rewrite get_bind. cbn [fst snd addr node_at].
  apply st_bind_stop, on_client_err, (call_err "gossip_connect_peer"%string
    (gossip_connect_peer (addr n2)) _ _ _ (HandshakeError ("already connected to " +:+ addr n2))).
  unfold gossip_connect_peer. rewrite Hk. apply with_engine_err.
  unfold connect_peer, engine. unfold_bind. cbn. by rewrite Hs.
Qed.

Lemma sessions_connected a se e x :
  peer_addr se = a ->
  Store.get (sessions (connected a se e)) x =
  (if bool_decide (x = a) then Some se else Store.get (sessions e) x).
Proof.
  intros Ha. unfold connected. rewrite sessions_complete. unfold Store.get. cbn. rewrite Ha.
  case_bool_decide as Hx; [subst; apply lookup_insert_eq|by apply lookup_insert_ne].
Qed.

(** C22. The host's handshake connects, in a quiet environment: one where the clock
    stays within half a minute, and entropy and key encapsulation do not fail.
    Between any two nodes that are up, the server with a key that can sign and a
    KEM key that can be written, names and ids of a length that fits, the client
    without a session with the server, the host loop then returns without an
    error; both ends hold mirrored sessions, every other session of both is as it
    was, and a second run of the loop is refused by the client's first call and
    changes neither node. *)
Theorem host_handshake_connects (ca sa : string) (ec es : GossipEngine)
    (lc ls : option KeyLineage) (os : Os)
    (Hos : Q os) (Hus : usable (identity es)) (Hn : names_short sa (identity ec) (identity es))
    (Hnew : Store.get (sessions ec) sa = None) :
  ∃ sc ss t4 t5 ec' es' os',
    do_handshake ((node_at ca ec lc, node_at sa es ls), os)
    = (Ok tt, ((node_at ca ec' lc, node_at sa es' ls), os')) ∧
    mirror ca sa (identity ec) (identity es) t4 t5 sc ss ∧
    (∀ x, Store.get (sessions ec') x
          = if bool_decide (x = sa) then Some sc else Store.get (sessions ec) x) ∧
    (∀ x, Store.get (sessions es') x
          = if bool_decide (x = ca) then Some ss else Store.get (sessions es) x) ∧
    ∃ os'',
      do_handshake ((node_at ca ec' lc, node_at sa es' ls), os')
      = (Err (Context (ca +:+ " connect_peer(" +:+ sa +:+ ")")
               (GuestError "gossip_connect_peer"
                 (WitHandshakeError ("already connected to " +:+ sa)))),
         ((node_at ca ec' lc, node_at sa es' ls), os'')).
Proof.
  destruct (do_handshake_run ca sa ec es lc ls os Hos Hus Hn Hnew)
    as (sc & ss & t4 & t5 & os' & Hos' & Hm & [Hc _] & [Hs _] & E).
  exists sc, ss, t4, t5, (connected sa sc ec), (connected ca ss es), os'.
  split_and!; [done..|intros; by apply sessions_connected|intros; by apply sessions_connected|].
  destruct (do_handshake_again ca sa (connected sa sc ec) lc (node_at sa (connected ca ss es) ls)
    sc os' Hos' eq_refl) as (os'' & _ & E'); [|by exists os''].
  rewrite sessions_connected by done. by rewrite bool_decide_true.
Qed.
End Calls.

(** ** Total correctness of a piece of the host program

    From every state in [I] and every operating system in [Q], it returns, with
    a value and a state in [J], and an operating system in [Q]. *)

Section Triples.
Context {X : Ext} (Q : Os -> Prop).

Definition runs {S E A} (I : S -> Prop) (m : ST (S * Os) E A) (J : A -> S -> Prop) : Prop :=
  ∀ s os, I s -> Q os -> ∃ a s' os', m (s, os) = (Ok a, (s', os')) ∧ J a s' ∧ Q os'.

Lemma runs_bind {S E A B} (I : S -> Prop) (m : ST (S * Os) E A) (J : A -> S -> Prop)
    (k : A -> ST (S * Os) E B) (K : B -> S -> Prop) :
  runs I m J -> (∀ a, runs (J a) (k a) K) -> runs I (m ≫= k) K.
Proof.
  intros Hm Hk s os Hs Hos. destruct (Hm s os Hs Hos) as (a & s1 & os1 & E1 & H1 & Hos1).
  destruct (Hk a s1 os1 H1 Hos1) as (b & s2 & os2 & E2 & H2 & Hos2).
  exists b, s2, os2. by rewrite (st_bind_run _ _ _ _ _ E1).
Qed.

Lemma runs_ret {S E A} (a : A) (J : A -> S -> Prop) : runs (J a) (mret a : ST (S * Os) E A) J.
Proof. intros s os Hs Hos. by exists a, s, os. Qed.

Lemma runs_conseq {S E A} (I I' : S -> Prop) (m : ST (S * Os) E A) (J J' : A -> S -> Prop) :
  runs I' m J' -> (∀ s, I s -> I' s) -> (∀ a s, J' a s -> J a s) -> runs I m J.
Proof.
  intros Hm HI HJ s os Hs Hos. destruct (Hm s os (HI s Hs) Hos) as (a & s1 & os1 & ? & ? & ?).
  exists a, s1, os1. auto.
Qed.

(** A fact the state gives can be used by what follows. *)
Lemma runs_pure {S E A} (P : Prop) (I : S -> Prop) (m : ST (S * Os) E A) (J : A -> S -> Prop) :
  (∀ s, I s -> P) -> (P -> runs I m J) -> runs I m J.
Proof. intros HP Hm s os Hs Hos. by apply Hm; [eapply HP|..]. Qed.

(** A step with a fact the following ones use. *)
Lemma runs_bind_fact {S E A B} (I I' : S -> Prop) (m : ST (S * Os) E A) (K : A -> Prop)
    (k : A -> ST (S * Os) E B) J :
  runs I m (λ a s, K a ∧ I' s) -> (∀ a, K a -> runs I' (k a) J) -> runs I (m ≫= k) J.
Proof.
  intros Hm Hk. eapply runs_bind; [exact Hm|]. intros a.
  apply (runs_pure (K a)); [by intros s []|]. intros Ha.
  eapply runs_conseq; [by apply Hk|by intros s []|done].
Qed.

(** A step that makes something the next ones use. *)
Lemma runs_bind_made {S T E A B} (I : S -> Prop) (m : ST (S * Os) E A) (K : T -> A -> Prop)
    (J : T -> S -> Prop) (k : A -> ST (S * Os) E B) R :
  runs I m (λ a s, ∃ x, K x a ∧ J x s) -> (∀ a x, K x a -> runs (J x) (k a) R) ->
  runs I (m ≫= k) R.
Proof.
  intros Hm Hk. eapply runs_bind; [exact Hm|]. intros a s os (x & Hx & Hs) Hos. by apply (Hk a x).
Qed.

(** A part of the state, when the part's new value is stored back. *)
Lemma runs_zoom {S T E A} (get : S -> T) (put : T -> S -> S) (I : T -> Prop) (R : S -> Prop)
    (m : ST (T * Os) E A) (J : A -> T -> Prop) :
  runs I m J -> (∀ t s, get (put t s) = t) -> (∀ t s, R s -> R (put t s)) ->
  runs (λ s, I (get s) ∧ R s)
    (zoom (λ s : S * Os, (get s.1, s.2)) (λ t s, (put t.1 s.1, t.2)) m)
    (λ a s, J a (get s) ∧ R s).
Proof.
  intros Hm Hgp HR s os [Hs Hr] Hos. destruct (Hm _ _ Hs Hos) as (a & t & os' & E1 & H1 & Hos').
  exists a, (put t s), os'. unfold zoom. cbn. rewrite E1, Hgp. auto.
Qed.
End Triples.
