(* ===== verification/NodeRuns.v ===== *)
(** * What each call does to a node

    For the host programs of [wasmtime-test]: every method of a node, in a quiet
    environment, from a node that is up with a known identity, lineage and set of
    peers, to what is then known of it. *)

From S2P Require Import Prelude Errors Types Extern F64 Config Dedup Quorum Session Identity Envelope Rotation Lineage LineageThms Handshake HandshakeThms Engine EngineThms Api ApiThms Component ComponentThms Host HostThms.
Import Engine Api.

Section NodeRuns.
Context {X : Ext} {W : WireCodecs} {J : JsonOut} `{!FromJson GossipConfig}.
Context `{!Bincode LineageWire} {HJ : HostJson}.
Context {L : ExtLaws} {WL : WireLaws} {WTo : WireTotal} {JL : HostJsonLaws} {CJ : ConfigJsonLaws}.
Context {Q : Os -> Prop} {lo hi : Z} (Hq : quiet Q lo hi).

Abbreviation window t := (in_window (lo:=lo) (hi:=hi) t).
Abbreviation runs I m J := (HostThms.runs Q I m J).

(** The parameters the harness leaves at their defaults. *)
Record plain (r : ResolvedConfig) : Prop := {
  pl_replay : replay_window_ms r = 30000%Z;
  pl_ttl : default_ttl r = 8%Z;
  pl_size : max_message_bytes r = 1048576%Z;
}.

(** A node at [a] with identity [i], lineage [l] and sessions with exactly the
    peers [P]; [quiet_cache] says that it has published nothing yet. *)
Record node_is (a : string) (i : NodeIdentity) (l : KeyLineage) (P : list string)
    (quiet_cache : bool) (n : GossipNode) : Prop := {
  ni_engine : ∃ e, n = node_at a e (Some l) ∧ identity e = i ∧ plain (config e) ∧ engine_wf e ∧
    (∀ x, is_Some (Store.get (sessions e) x) <-> x ∈ P) ∧
    (quiet_cache = true -> Cache.entries (dedup e) = ∅);
  ni_usable : usable i;
}.

Definition fresh (a : string) (n : GossipNode) : Prop := n = mkNode a (Some uninitialized).

(** From a call's run on every engine of such a node. *)
Lemma runs_on_node {A} a i l P q (m : ST (GossipNode * Os) HostError A)
    (K : A -> GossipNode -> Prop) :
  (∀ e os, identity e = i -> plain (config e) -> engine_wf e -> usable i ->
     (∀ x, is_Some (Store.get (sessions e) x) <-> x ∈ P) ->
     (q = true -> Cache.entries (dedup e) = ∅) -> Q os ->
     ∃ r n' os', m (node_at a e (Some l), os) = (Ok r, (n', os')) ∧ K r n' ∧ Q os') ->
  runs (node_is a i l P q) m K.
Proof. intros Hm s os [(e & -> & Hi & Hpl & Hw & Hp & Hc) Hu] Hos. by apply Hm. Qed.

(** The same when the node is left as it is. *)
Lemma runs_reading {A} a i l P q (m : ST (GossipNode * Os) HostError A) (K : A -> Prop) :
  (∀ e os, identity e = i -> engine_wf e -> usable i ->
     (∀ x, is_Some (Store.get (sessions e) x) <-> x ∈ P) ->
     ∃ r, m (node_at a e (Some l), os) = (Ok r, (node_at a e (Some l), os)) ∧ K r) ->
  runs (node_is a i l P q) m (λ r n, K r ∧ node_is a i l P q n).
Proof.
  intros Hm. apply runs_on_node. intros e os Hi Hpl Hw Hu Hp Hc Hos.
  destruct (Hm e os Hi Hw Hu Hp) as (r & E & Hr). exists r, (node_at a e (Some l)), os.
  split_and!; try done. constructor; [|done]. by exists e.
Qed.

(** ** Reports *)

Lemma call_report {A} name (f : GossipEngine -> res A) a e l os x :
  f e = Ok x -> call name (wit (report f)) (node_at a e l, os) = (Ok x, (node_at a e l, os)).
Proof.
  intros E. apply call_ok. unfold report, with_engine. cbn. unfold_bind. cbn. by rewrite E.
Qed.

Lemma call_lift {A} name (r : res A) a g os x :
  r = Ok x ->
  call name (lift (wit_result r)) (mkNode a (Some g), os) = (Ok x, (mkNode a (Some g), os)).
Proof. by intros ->. Qed.

Lemma parsing_ok {A} `{!FromJson A} c (m : ST (GossipNode * Os) HostError string) s text v s' :
  m s = (Ok text, s') -> json_from_str text = inr v -> parsing c m s = (Ok v, s').
Proof. intros E Hv. unfold parsing. rewrite (st_bind_run _ _ _ _ _ E), Hv. done. Qed.

Lemma version_runs a i l P q : runs (node_is a i l P q) get_version (λ _, node_is a i l P q).
Proof.
  eapply runs_conseq; [apply (runs_reading a i l P q _ (λ _, True))|done|by intros r n []].
  intros e os _ _ _ _. by eexists.
Qed.

Lemma field_object fields key : field (JObject fields) key = default JNull (assoc key fields).
Proof. unfold field. by rewrite get_object. Qed.

Definition identity_shown (i : NodeIdentity) (v : JsonValue) : Prop :=
  field v "node_id" = JString (node_id i) ∧
  field v "sig_public_key_hex" = JString (sig_public_key_hex i).

Lemma identity_runs a i l P q :
  runs (node_is a i l P q) get_node_identity
    (λ v n, identity_shown i v ∧ node_is a i l P q n).
Proof.
  apply runs_reading. intros e os Hi _ [_ (kj & Hkj & _) _] _.
  set (pub := mkIdentityPublic (node_id i) kj (sig_public_key_hex i) (id_key_epoch i)).
  destruct (identity_text pub) as (text & Ht & Hv). exists (identity_value pub).
  split; [|by split; unfold identity_value; rewrite field_object].
  eapply parsing_ok; [|exact Hv]. apply call_report.
  unfold get_node_identity_json, public_view, kem_public_key_json. rewrite Hi, Hkj. cbn.
  unfold to_json. fold pub. by rewrite Ht.
Qed.

Lemma peers_runs a i l P q :
  runs (node_is a i l P q) get_peers
    (λ vs n, (∃ ps, vs = map peer_value ps ∧ NoDup (peer_info_addr <$> ps) ∧
                ∀ x, x ∈ (peer_info_addr <$> ps) <-> x ∈ P) ∧ node_is a i l P q n).
Proof.
  apply runs_reading. intros e os _ [Hw _] _ Hp.
  set (ps := Store.active_peers (sessions e)).
  destruct (peers_text ps) as (text & Ht & Hv). exists (map peer_value ps).
  pose proof (core_store_wf _ Hw) as Hs. split.
  - eapply parsing_ok; [|exact Hv]. apply call_report. unfold get_peers_json, to_json.
    fold ps. by rewrite Ht.
  - exists ps. split_and!; [done|by apply Store.active_addrs_NoDup|].
    intros x. unfold ps. rewrite (Store.elem_of_active_addrs _ _ Hs). apply Hp.
Qed.

(** ** Calls that work on the engine *)

(** What such a call leaves of a node. *)
Record engine_is (i : NodeIdentity) (P : list string) (q : bool) (e : GossipEngine) : Prop := {
  ei_identity : identity e = i;
  ei_plain : plain (config e);
  ei_wf : engine_wf e;
  ei_peers x : is_Some (Store.get (sessions e) x) <-> x ∈ P;
  ei_cache : q = true -> Cache.entries (dedup e) = ∅;
}.

Lemma engine_is_node a i l P q e :
  usable i -> engine_is i P q e -> node_is a i l P q (node_at a e (Some l)).
Proof. intros Hu []. constructor; [by exists e|done]. Qed.

Lemma runs_timed {A} name a i l P q (m : Z -> method (GossipEngine * Os) A) K i' P' q' :
  usable i' ->
  (∀ t e os, window t -> engine_is i P q e -> usable i ->
     ∃ r e', m t (e, os) = (Ok r, (e', os)) ∧ K r ∧ engine_is i' P' q' e') ->
  runs (node_is a i l P q)
    (call name (wit (current_time_unix_ms ≫= λ now, with_engine (on_engine (m now)))))
    (λ r n, K r ∧ node_is a i' l P' q' n).
Proof.
  intros Hu' Hm. apply runs_on_node. intros e os Hi Hpl Hw Hu Hp Hc Hos.
  destruct (timed_call Hq a e (Some l) os Hos) as (t & os1 & Ht & Hos1 & Hcall).
  destruct (Hm t e os1 Ht) as (r & e' & E & Hr & He'); [by constructor|done|].
  exists r, (node_at a e' (Some l)), os1. split_and!; [by apply Hcall|done| |done].
  by apply engine_is_node.
Qed.

Definition small (p : bytes) : Prop := (Z.of_nat (length p) <= 1048576)%Z.

Lemma engine_builds i P q e t ty p :
  engine_is i P q e -> usable i ->
  ∃ env, build_envelope ty p i (default_ttl (config e)) t = Ok env ∧
         build_envelope ty p i 8 t = Ok env.
Proof.
  intros [_ [_ Httl _] _ _ _] [Hs _ _]. rewrite Httl. unfold build_envelope.
  destruct (can_sign_ok i (signing_input (unsigned_envelope ty p i 8 t)) SIG_CTX_MESSAGE Hs)
    as [sg ->]; [cbn; lia|]. by eexists.
Qed.

Lemma publish_runs a i l P pt ty p :
  from_u8 pt = Some ty -> small p ->
  runs (node_is a i l P true) (Host.publish pt p) (λ _, node_is a i l P false).
Proof.
  intros Hty Hp. intros s os Hs Hos.
  assert (usable i) as Hu by apply Hs.
  destruct (runs_timed "gossip_publish" a i l P true (Engine.publish pt p)
    (λ id, length id = 32%nat) i P false Hu) with (s := s) (os := os)
    as (id & s' & os' & E & [Hid Hn] & Hos'); [|done..|].
  - intros t e os1 Ht He _. pose proof (publish_cases pt p t (e, os1)) as Hcases.
    pose proof (publish_wf pt p t (e, os1) (ei_wf _ _ _ _ He)) as Hwf.
    destruct (engine_builds i P true e t ty p He Hu) as (env & Henv & _).
    pose proof He as [Hi [_ _ Hsz] _ Hpeers Hc].
    destruct (Engine.publish pt p t (e, os1)) as [r [e' os2]].
    assert (¬ seen (compute_message_id ty p) t e) as Hns.
    { intros (t0 & Hl & _). by rewrite (Hc eq_refl), lookup_empty in Hl. }
    inversion Hcases; subst; cbn [fst] in *; simplify_eq; try (unfold small in Hp; lia); try congruence.
    exists (compute_message_id ty p), (on_stats add_published (remembering (compute_message_id ty p) t e)).
    split_and!; [done|apply sha256_length|]. destruct He. by constructor.
  - exists id, s', os'. split_and!; [|done|done]. unfold Host.publish.
    rewrite (st_bind_run _ _ _ _ _ E). by rewrite bool_decide_true.
Qed.

(** An envelope [i] built in the window, as bytes. *)
Definition envelope_of (i : NodeIdentity) (b : bytes) : Prop :=
  ∃ ty p t env, window t ∧ small p ∧ build_envelope ty p i 8 t = Ok env ∧ deserialize b = inr env.

Lemma built_fits ty p i t env :
  usable i -> window t -> small p -> build_envelope ty p i 8 t = Ok env -> envelope_fits env.
Proof.
  intros [_ _ Hid] Ht Hp (s & Hs & ->)%build_envelope_inv. pose proof (q_window _ _ _ Hq).
  unfold in_window, small in *.
  constructor; cbn; try done; unfold short, fits.
  - apply compute_message_id_length.
  - rewrite sig_public_key_bytes_length. lia.
  - lia.
  - rewrite (sign_length _ _ _ _ Hs). lia.
  - lia.
Qed.

Lemma encode_runs name a i l P q pt ty p :
  from_u8 pt = Some ty -> small p ->
  runs (node_is a i l P q) (call name (Guest.gossip_encode_envelope pt p))
    (λ b n, envelope_of i b ∧ node_is a i l P q n).
Proof.
  intros Hty Hp s os Hs Hos. assert (usable i) as Hu by apply Hs.
  apply (runs_timed name a i l P q (Engine.encode_envelope pt p)); try done.
  intros t e os1 Ht He _. destruct (engine_builds i P q e t ty p He Hu) as (env & Henv & Henv8).
  destruct (serialize_envelope_total env) as [b Hb]; [by eapply built_fits|].
  exists b, e. split; [|split; [|done]].
  2: { exists ty, p, t, env. do 3 (split; [done|]). by apply deserialize_serialize. }
  unfold Engine.encode_envelope, payload_type_of. rewrite Hty, lift_bind. cbn [ok_or].
  rewrite engine_bind. cbn [fst]. rewrite (ei_identity _ _ _ _ He), Henv, lift_bind.
  unfold Envelope.encode_envelope. by rewrite Hb.
Qed.

Lemma verify_accepts i P q e j b t :
  window t -> envelope_of j b -> engine_is i P q e ->
  ∀ os, ∃ e', verify_envelope_bytes b t (e, os) = (Ok true, (e', os)) ∧ engine_is i P q e'.
Proof.
  intros Ht (ty & p & t0 & env & Ht0 & Hp & Henv & Hd) [Hi Hpl Hwf Hpeers Hc] os.
  exists (on_stats add_received e). split.
  - rewrite verify_run. unfold Envelope.decode_envelope. rewrite Hd. cbn [map_err fst snd].
    rewrite (proj2 (verify_envelope_true _ _ _)); [done|]. destruct Hpl as [Hr _ Hsz].
    pose proof (q_window _ _ _ Hq). unfold in_window, small in *.
    eapply built_accepted; [exact Henv|lia..].
  - constructor; try done. by apply wf_on_stats.
Qed.

Lemma verify_runs a i l P q j b :
  envelope_of j b ->
  runs (node_is a i l P q) (Host.verify_envelope b) (λ v n, v = true ∧ node_is a i l P q n).
Proof.
  intros Hb s os Hs Hos. assert (usable i) as Hu by apply Hs.
  apply (runs_timed "gossip_verify_envelope" a i l P q (verify_envelope_bytes b)); try done.
  intros t e os1 Ht He _. destruct (verify_accepts i P q e j b t Ht Hb He os1) as (e' & E & He').
  by exists true, e'.
Qed.

Lemma stats_runs a i l P q :
  runs (node_is a i l P q) get_stats (λ _, node_is a i l P false).
Proof.
  intros s os Hs Hos. assert (usable i) as Hu by apply Hs.
  destruct (runs_timed "gossip_get_stats" a i l P q
    (λ now_ms, _ ← update (heartbeat now_ms); e ← engine; lift (get_stats_json e now_ms))
    (λ text, ∃ v, json_from_str (A:=JsonValue) text = inr v) i P false Hu)
    with (s := s) (os := os) as (text & s' & os' & E & [[v Hv] Hn] & Hos'); [|done..|].
  - intros t e os1 Ht [Hi Hpl Hwf Hpeers Hc] _.
    destruct (stats_text (stats (heartbeat t e))) as (text & Htext & Hv).
    exists text, (heartbeat t e). split_and!; [|by eexists|].
    + rewrite update_bind, engine_bind. unfold get_stats_json, to_json. cbn [fst]. by rewrite Htext.
    + destruct (heartbeat_frame t e) as [Hcf Hse].
      constructor; rewrite ?heartbeat_identity, ?Hcf, ?Hse; by try apply heartbeat_wf.
  - exists v, s', os'. split_and!; [|done|done]. by eapply parsing_ok.
Qed.

(** A call that works on the engine and reads no clock. *)
Lemma runs_untimed {A} name a i l P q (m : method (GossipEngine * Os) A) K P' :
  (∀ e os, engine_is i P q e ->
     ∃ r e', m (e, os) = (Ok r, (e', os)) ∧ K r ∧ engine_is i P' q e') ->
  runs (node_is a i l P q) (call name (wit (with_engine (on_engine m))))
    (λ r n, K r ∧ node_is a i l P' q n).
Proof.
  intros Hm. apply runs_on_node. intros e os Hi Hpl Hw Hu Hp Hc Hos.
  destruct (Hm e os) as (r & e' & E & Hr & He'); [by constructor|].
  exists r, (node_at a e' (Some l)), os. split_and!; [|done|by apply engine_is_node|done].
  by apply call_ok, with_engine_ok.
Qed.

Lemma disconnect_runs a i l P q b :
  b ∈ P ->
  runs (node_is a i l P q) (Host.disconnect_peer b)
    (λ _ n, node_is a i l (filter (λ x, x ≠ b) P) q n).
Proof.
  intros Hb. eapply runs_conseq; [|done|].
  { apply (runs_untimed "gossip_disconnect_peer" a i l P q (disconnect_peer b) (λ _, True)
      (filter (λ x, x ≠ b) P)).
    intros e os [Hi Hpl Hw Hp Hc]. pose proof (disconnect_peer_wf b (e, os) Hw) as Hw'.
    rewrite disconnect_run in *. cbn [fst snd] in *.
    destruct (proj2 (Hp b) Hb) as [se Hse]. unfold Store.get in Hse. rewrite Hse in *.
    eexists tt, _. split_and!; [done..|]. constructor; try done. intros x. cbn.
    unfold Store.get. cbn. rewrite list_elem_of_filter, <- (Hp x). unfold Store.get.
    destruct (decide (x = b)) as [->|Hx].
    - rewrite lookup_delete_eq. split; [by intros []|tauto].
    - rewrite lookup_delete_ne by done. tauto. }
  by intros r n [].
Qed.

(** ** The handshake between two nodes *)

Definition pair_is (A B : GossipNode -> Prop) (s : GossipNode * GossipNode) : Prop := A s.1 ∧ B s.2.

Lemma connected_is i P q addr se e :
  session_wf addr se -> engine_is i P q e -> engine_is i (addr :: P) q (connected addr se e).
Proof.
  intros Hs [Hi Hpl Hw Hp Hc]. pose proof Hs as (Ha & _).
  assert (∀ f : GossipEngine, config (add_to_mesh addr f) = config f ∧
    dedup (add_to_mesh addr f) = dedup f) as Hf by (intros f; unfold add_to_mesh; by case_match).
  constructor.
  - unfold connected. by rewrite complete_identity.
  - unfold connected, complete_handshake. cbn. by destruct (Hf (set_sessions
      (Store.insert se (sessions e))
      (set_handshakes (Handshakes.delete_pending addr (handshakes e)) e))) as [-> _].
  - apply complete_wf; [done|]. apply wf_set_handshakes; [|done].
    apply wf_delete_pending. apply (ec_handshakes _ (proj1 Hw)).
  - intros x. unfold connected, Store.get. rewrite sessions_complete. cbn.
    rewrite Ha, lookup_insert_is_Some', elem_of_cons, <- (Hp x). unfold Store.get.
    split; [intros [->|?]; auto|intros [->|?]; auto].
  - intros ->. unfold connected, complete_handshake. cbn. destruct (Hf (set_sessions
      (Store.insert se (sessions e))
      (set_handshakes (Handshakes.delete_pending addr (handshakes e)) e))) as [_ ->].
    by apply Hc.
Qed.

Lemma handshake_runs ca sa ic iv lc ls Pc Ps qc qs :
  sa ∉ Pc -> short (String.length sa) ->
  runs (pair_is (node_is ca ic lc Pc qc) (node_is sa iv ls Ps qs)) do_handshake
    (λ _, pair_is (node_is ca ic lc (sa :: Pc) qc) (node_is sa iv ls (ca :: Ps) qs)).
Proof.
  intros Hnew Hsa [n1 n2] os [Hn1 Hn2] Hos. cbn [fst snd] in Hn1, Hn2.
  destruct Hn1 as [(ec & -> & Hic & Hplc & Hwc & Hpc & Hcc) Huc].
  destruct Hn2 as [(es & -> & His & Hpls & Hws & Hps & Hcs) Hus].
  destruct (do_handshake_run Hq ca sa ec es (Some lc) (Some ls) os Hos)
    as (sc & ss & t4 & t5 & os' & Hos' & _ & Hwsc & Hwss & E).
  - by rewrite His.
  - rewrite Hic, His. constructor; [done|apply Huc|apply Hus].
  - apply eq_None_not_Some. by rewrite Hpc.
  - eexists tt, _, os'. split_and!; [exact E| |done].
    split; apply engine_is_node, connected_is; try done; by constructor.
Qed.

(** ** Initialization *)

(** The identity a configuration asks for: from its seeds, or fresh. *)
Definition configured (r : ResolvedConfig) : method (Global * Os) NodeIdentity :=
  match kem_seed r, sig_seed r with
  | Some kem, Some sig => lift (identity_from_config_seeds r kem sig)
  | _, _ => generate (key_epoch r)
  end.

Lemma init_run cfg c r i l os os' :
  json_from_str cfg = inr c -> resolve c = Ok r ->
  configured r (uninitialized, os) = (Ok i, (uninitialized, os')) -> from_identity i = Ok l ->
  gossip_init cfg (uninitialized, os) =
    (Ok tt, (mkGlobal (Some (Engine.new r i)) (Some l), os')).
Proof.
  intros Hc Hr Hi Hl. unfold gossip_init.
  rewrite (st_bind_run _ _ _ tt (uninitialized, os)) by done.
  unfold from_json. rewrite Hc, lift_bind. cbn [map_err]. rewrite Hr, lift_bind.
  fold (configured r). rewrite (st_bind_run _ _ _ _ _ Hi), Hl. done.
Qed.

Lemma new_engine_is cfg c r i :
  json_from_str cfg = inr c -> resolve c = Ok r -> plain r ->
  engine_is i [] true (Engine.new r i).
Proof.
  intros Hc Hr Hpl. pose proof (resolve_inv _ _ Hr) as [_ Hwf].
  constructor; try done.
  - apply new_wf; [done|]. by apply (resolve_high_nonneg _ _ (json_config_fits _ _ Hc)).
  - intros x. unfold Store.get. cbn. rewrite lookup_empty.
    split; [by intros []|by intros ?%not_elem_of_nil].
Qed.

(** A node without seeds: some usable identity, and its inception lineage. *)
Lemma init_runs name a cfg c r :
  json_from_str cfg = inr c -> resolve c = Ok r -> plain r -> kem_seed r = None ->
  runs (fresh a) (call name (Guest.gossip_init cfg)) (λ _ n, ∃ i l, node_is a i l [] true n).
Proof.
  intros Hc Hr Hpl Hk n os -> Hos.
  destruct (q_generate _ _ _ Hq (key_epoch r) os Hos) as (i & os' & Hos' & Hu & Hd & Hg).
  destruct (from_identity_self_derived i Hd) as [l Hl].
  exists tt, (node_at a (Engine.new r i) (Some l)), os'. split_and!; [|exists i, l|done].
  - apply call_ok. apply (init_run cfg c r i l os os'); try done. unfold configured. by rewrite Hk.
  - by apply engine_is_node, (new_engine_is cfg c).
Qed.

(** A node with seeds: exactly the identity they derive. *)
Lemma init_seeded_runs a cfg c r kem sig i l :
  json_from_str cfg = inr c -> resolve c = Ok r -> plain r ->
  kem_seed r = Some kem -> sig_seed r = Some sig ->
  identity_from_config_seeds r kem sig = Ok i -> from_identity i = Ok l -> usable i ->
  runs (fresh a) (init cfg) (λ _, node_is a i l [] true).
Proof.
  intros Hc Hr Hpl Hk Hs Hi Hl Hu n os -> Hos.
  exists tt, (node_at a (Engine.new r i) (Some l)), os. split_and!; [| |done].
  - apply call_ok. apply (init_run cfg c r i l os os); try done.
    unfold configured. by rewrite Hk, Hs, Hi.
  - by apply engine_is_node, (new_engine_is cfg c).
Qed.
End NodeRuns.
