(* ===== verification/RotationRuns.v ===== *)
(** * What the lineage calls do to a node

    For the host programs of [wasmtime-test]: the calls of the key lineage
    interface in a quiet environment that can save lineages, those the programs
    expect to succeed and those they expect to be refused. *)

From S2P Require Import Prelude Errors Types Extern F64 Config Dedup Quorum Session Identity Envelope Rotation Lineage LineageThms Storage Handshake HandshakeThms Engine EngineThms Api ApiThms Restart Component ComponentThms Host HostThms NodeRuns.
Import Engine Api.

Section RotationRuns.
Context {X : Ext} {W : WireCodecs} {J : JsonOut} `{!FromJson GossipConfig}.
Context `{!Bincode LineageWire} {HJ : HostJson}.
Context {L : ExtLaws} {WL : WireLaws} {WTo : WireTotal} {JL : HostJsonLaws} {CJ : ConfigJsonLaws}.
Context {LC : LineageCodec} {LS : LineageSizes}.
Context {Q : Os -> Prop} {lo hi : Z} (Hq : quiet Q lo hi).

Abbreviation window t := (in_window (lo:=lo) (hi:=hi) t).
Abbreviation runs I m J := (HostThms.runs Q I m J).

(** A call that is refused: it returns an error, and the state is in [J]. *)
Definition refuses {S E A} (I : S -> Prop) (m : ST (S * Os) E A) (J : S -> Prop) : Prop :=
  ∀ s os, I s -> Q os -> ∃ e s' os', m (s, os) = (Err e, (s', os')) ∧ J s' ∧ Q os'.

(** A node whose engine speaks with the keys of its lineage, under its id. *)
Record speaks (i : NodeIdentity) (l : KeyLineage) : Prop := {
  sp_id : lin_node_id l = node_id i;
  sp_keys : carries i l;
}.

Lemma speaks_new l i : carries i l -> speaks (with_node_id (lin_node_id l) i) l.
Proof. intros []. by constructor; [|constructor]. Qed.

Lemma usable_renamed id i : short (String.length id) -> usable i -> usable (with_node_id id i).
Proof. intros Hid []. by constructor. Qed.

Lemma valid_id_short l : valid l -> short (String.length (lin_node_id l)).
Proof.
  intros Hv. apply short_small. rewrite <- length_as_bytes, light_node_id by done. lia.
Qed.

Lemma window_fits t : window t -> fits 64 t.
Proof. pose proof (q_window _ _ _ Hq). unfold in_window, fits. lia. Qed.

(** ** Rotating under the id *)

(** The identity a call takes, from seeds. *)
Record given (kem sig : bytes) (epoch : string) (next : NodeIdentity) : Prop := {
  gv_seeds : identity_from_seed_bytes kem sig epoch = Ok next;
  gv_usable : usable next;
  gv_epoch : short_epoch epoch;
}.

Lemma given_inv kem sig epoch i :
  given kem sig epoch i -> self_derived i ∧ id_key_epoch i = epoch.
Proof. intros [(_ & _ & H)%seed_bytes_inv _ _]. by apply from_seeds_inv in H. Qed.

Lemma given_kem kem sig epoch i :
  given kem sig epoch i -> ∃ k, kem_public_key_canonical_bytes i = Ok k.
Proof. intros [(k & Hk & _) _]%given_inv. by exists k. Qed.

Lemma given_passable kem sig epoch i c t :
  given kem sig epoch i -> commitment_fits c -> window t -> passable i c t.
Proof.
  intros Hg Hc Ht. destruct (given_inv _ _ _ _ Hg) as [_ He].
  constructor; [by rewrite He; apply Hg|done|by apply window_fits].
Qed.

Lemma parse_commitment_ok c : commitment_fits c -> parse_commitment c = Ok c.
Proof.
  unfold commitment_fits, is32. destruct c as [b|]; [|done]. intros Hc. cbn.
  by rewrite bool_decide_true by auto.
Qed.

Lemma rotate_stored_done next c now e l os r l' b :
  lin_node_id l = node_id (identity e) -> rotate (identity e) next c now l = (Ok r, l') ->
  lin_node_id l' = lin_node_id l -> encode l' = Ok b ->
  rotate_stored_lineage next c now (e, Some l, os) = (Ok b, (under_id l next e, Some l', os)).
Proof.
  intros Hid E Hid' Hb. unfold rotate_stored_lineage. rewrite get_bind, lift_bind. cbn [fst snd ok_or].
  unfold rotate_keys_under_id. rewrite get_bind. rewrite bool_decide_false by auto.
  unfold mbind, st_bind, zoom, modify, lift, mret, st_ret. cbn [fst snd]. rewrite E. cbn.
  by rewrite Hb, Hid'.
Qed.

Lemma rotate_stored_refused next c now e l os err :
  lin_node_id l = node_id (identity e) -> rotate (identity e) next c now l = (Err err, l) ->
  rotate_stored_lineage next c now (e, Some l, os) = (Err err, (e, Some l, os)).
Proof.
  intros Hid E. unfold rotate_stored_lineage. rewrite get_bind, lift_bind. cbn [fst snd ok_or].
  unfold rotate_keys_under_id. rewrite get_bind. rewrite bool_decide_false by auto.
  unfold mbind, st_bind, zoom, modify, lift. cbn [fst snd]. by rewrite E.
Qed.

(** The call up to the clock. *)
Lemma rotate_call kem sig epoch next c e l os :
  identity_from_seed_bytes kem sig epoch = Ok next -> commitment_fits c -> Q os ->
  ∃ t os', window t ∧ Q os' ∧
    gossip_rotate_keys_under_id kem sig epoch c (mkGlobal (Some e) (Some l), os) =
    with_engine (rotate_stored_lineage next c t) (mkGlobal (Some e) (Some l), os').
Proof.
  intros Hi Hc Hos. destruct (q_time Hq (mkGlobal (Some e) (Some l)) os Hos) as (t & os' & Ht & Hos' & Hk).
  exists t, os'. do 2 (split; [done|]). unfold gossip_rotate_keys_under_id.
  rewrite Hi, lift_bind, (parse_commitment_ok _ Hc), lift_bind. apply Hk.
Qed.

Lemma renamed_node a i i' l' P q e :
  engine_is i P q e -> usable i' ->
  node_is a i' l' P q (node_at a (set_identity i' e) (Some l')).
Proof.
  intros [_ Hpl Hw Hp Hc] Hu. apply engine_is_node; [done|].
  constructor; try done. by apply wf_set_identity.
Qed.

Lemma rotate_under_id_runs a i l P q kem sig epoch next c :
  given kem sig epoch next -> speaks i l -> light l -> (length (lin_rotations l) <= 408)%nat ->
  commitment_fits c -> opens l next ->
  runs (node_is a i l P q) (Host.rotate_keys_under_id kem sig epoch c)
    (λ b n, ∃ l', (grows l next c l' ∧ stored l' b) ∧
                  node_is a (with_node_id (lin_node_id l) next) l' P q n).
Proof.
  intros Hg [Hid [Hsig _]] Hl Hn Hc Ho. apply runs_on_node. intros e os Hi Hpl Hw Hu Hp Hca Hos.
  destruct (rotate_call kem sig epoch next c e l os (gv_seeds _ _ _ _ Hg) Hc Hos)
    as (t & os' & Ht & Hos' & E).
  destruct (given_kem _ _ _ _ Hg) as [k Hk].
  destruct (rotate_grows l (identity e) next k c t) as (r & l' & b & Er & Hgr & Hst); try done.
  - by eapply given_passable.
  - by rewrite Hi.
  - rewrite Hi. apply Hu.
  - apply (gv_usable _ _ _ _ Hg).
  - exists b, (node_at a (under_id l next e) (Some l')), os'. split_and!; [|exists l'|done].
    + apply call_ok. rewrite E. unfold with_engine. cbn [GOSSIP_STATE LINEAGE fst snd].
      rewrite (rotate_stored_done next c t e l os' r l' b); try done; [by rewrite Hi|apply Hgr|apply Hst].
    + split; [done|]. eapply renamed_node; [by constructor|].
      apply usable_renamed; [by apply valid_id_short, Hl|by apply (gv_usable _ _ _ _ Hg)].
Qed.

Lemma refuses_on_node {A} a i l P q (m : ST (GossipNode * Os) HostError A) (I : GossipNode -> Prop) :
  (∀ e os, engine_is i P q e -> usable i -> Q os ->
     ∃ err n' os', m (node_at a e (Some l), os) = (Err err, (n', os')) ∧ I n' ∧ Q os') ->
  refuses (node_is a i l P q) m I.
Proof.
  intros Hm n os [(e & -> & Hi & Hpl & Hw & Hp & Hc) Hu] Hos. apply Hm; [by constructor|done..].
Qed.

Lemma rotate_under_id_refused a i l P q kem sig epoch next c :
  given kem sig epoch next -> speaks i l -> valid l -> commitment_fits c -> ¬ opens l next ->
  refuses (node_is a i l P q) (Host.rotate_keys_under_id kem sig epoch c) (node_is a i l P q).
Proof.
  intros Hg [Hid _] Hv Hc Ho. apply refuses_on_node. intros e os He Hu Hos.
  destruct (rotate_call kem sig epoch next c e l os (gv_seeds _ _ _ _ Hg) Hc Hos)
    as (t & os' & Ht & Hos' & E).
  destruct (rotate_closed l (identity e) next c t Hv Ho) as [err Er].
  eexists _, (node_at a e (Some l)), os'. split; [|split; [by apply engine_is_node|done]].
  apply call_err. rewrite E. unfold with_engine. cbn [GOSSIP_STATE LINEAGE fst snd].
  rewrite (rotate_stored_refused next c t e l os' err); try done.
  by rewrite (ei_identity _ _ _ _ He).
Qed.

(** ** Reading and checking lineages *)

Lemma key_lineage_runs a i l P q b :
  stored l b ->
  runs (node_is a i l P q) Host.get_key_lineage (λ b' n, b' = b ∧ node_is a i l P q n).
Proof.
  intros [Hb _]. apply runs_reading. intros e os _ _ _ _. exists b. split; [|done].
  apply call_ok. unfold gossip_get_key_lineage, with_lineage, zoom. cbn.
  unfold_bind. cbn. by rewrite Hb.
Qed.

(** Calls that answer from their arguments alone. *)
Lemma pure_runs {A} name a i l P q (r : res A) x :
  r = Ok x ->
  runs (node_is a i l P q) (call name (lift (wit_result r))) (λ y n, y = x ∧ node_is a i l P q n).
Proof.
  intros Hr. apply runs_reading. intros e os _ _ _ _. exists x. split; [by apply call_lift|done].
Qed.

Lemma commitment_runs a i l P q kem sig epoch next :
  given kem sig epoch next ->
  runs (node_is a i l P q) (Host.key_commitment sig)
    (λ c n, c = Rotation.key_commitment (sig_public_key_bytes next) ∧ node_is a i l P q n).
Proof.
  intros Hg. apply pure_runs. destruct Hg as [(_ & _ & Hs)%seed_bytes_inv _ _].
  revert Hs. unfold from_seeds. intros (kk & _ & (kp & Hkp & Hs)%bind_ok)%bind_ok.
  apply identity_of_keys_inv in Hs as (_ & Hkp' & _).
  unfold gossip_key_commitment, key_commitment_for_seed. rewrite Hkp. unfold_bind.
  unfold sig_public_key_bytes. by rewrite Hkp'.
Qed.

Lemma verify_lineage_runs a i l P q lj b :
  stored lj b ->
  runs (node_is a i l P q) (Host.verify_key_lineage b)
    (λ v n, v = lineage_summary lj ∧ node_is a i l P q n).
Proof.
  intros [_ Hd]. apply runs_reading. intros e os _ _ _ _. exists (lineage_summary lj). split; [|done].
  destruct (json_text (lineage_summary lj)) as (text & Ht & Hv).
  eapply parsing_ok; [|exact Hv]. apply call_lift. unfold gossip_verify_key_lineage.
  rewrite Hd. unfold_bind. unfold to_json. by rewrite Ht.
Qed.

(** ** Recovery, by any node *)

Lemma recover_call lb kem sig epoch next c lj g os :
  decode lb = Ok lj -> identity_from_seed_bytes kem sig epoch = Ok next -> commitment_fits c -> Q os ->
  ∃ t os', window t ∧ Q os' ∧
    gossip_recover_lineage lb kem sig epoch c (g, os) =
    (let '(r, lj') := recover next c t lj in _ ← lift r; lift (encode lj')) (g, os').
Proof.
  intros Hd Hi Hc Hos. destruct (q_time Hq g os Hos) as (t & os' & Ht & Hos' & Hk).
  exists t, os'. do 2 (split; [done|]). unfold gossip_recover_lineage.
  rewrite Hd, lift_bind, Hi, lift_bind, (parse_commitment_ok _ Hc), lift_bind. apply Hk.
Qed.

Lemma recover_runs a i l P q lj lb kem sig epoch next c com :
  given kem sig epoch next -> stored lj lb -> light lj -> (length (lin_rotations lj) <= 408)%nat ->
  commitment_fits c -> next_key_commitment lj = Some com ->
  Rotation.key_commitment (sig_public_key_bytes next) = com ->
  runs (node_is a i l P q) (Host.recover_lineage lb kem sig epoch c)
    (λ b n, (∃ lj', grows lj next c lj' ∧ stored lj' b) ∧ node_is a i l P q n).
Proof.
  intros Hg [_ Hd] Hl Hn Hc Hcom Ho. apply runs_on_node. intros e os Hi Hpl Hw Hu Hp Hca Hos.
  destruct (recover_call lb kem sig epoch next c lj (mkGlobal (Some e) (Some l)) os Hd
    (gv_seeds _ _ _ _ Hg) Hc Hos) as (t & os' & Ht & Hos' & E).
  destruct (given_kem _ _ _ _ Hg) as [k Hk].
  destruct (recover_grows lj next k c t com) as (r & lj' & b & Er & Hgr & Hst); try done.
  - by eapply given_passable.
  - apply (gv_usable _ _ _ _ Hg).
  - exists b, (node_at a e (Some l)), os'. split_and!; [|by exists lj'| |done].
    + apply call_ok. rewrite E, Er, lift_bind. by rewrite (proj1 Hst).
    + apply engine_is_node; [done|by constructor].
Qed.

Lemma recover_refused a i l P q lj lb kem sig epoch next c :
  given kem sig epoch next -> stored lj lb -> valid lj -> commitment_fits c -> ¬ opens lj next ->
  refuses (node_is a i l P q) (Host.recover_lineage lb kem sig epoch c) (node_is a i l P q).
Proof.
  intros Hg [_ Hd] Hv Hc Ho. apply refuses_on_node. intros e os He Hu Hos.
  destruct (recover_call lb kem sig epoch next c lj (mkGlobal (Some e) (Some l)) os Hd
    (gv_seeds _ _ _ _ Hg) Hc Hos) as (t & os' & Ht & Hos' & E).
  destruct (recover_closed lj next c t Hv Ho) as [err Er].
  eexists _, (node_at a e (Some l)), os'. split; [|split; [by apply engine_is_node|done]].
  apply call_err. by rewrite E, Er, lift_bind.
Qed.

(** ** Envelopes against a lineage *)

Lemma envelope_sender i b env :
  envelope_of (lo:=lo) (hi:=hi) i b -> deserialize b = inr env ->
  env_sender_node_id env = node_id i ∧ env_sender_public_key env = sig_public_key_bytes i.
Proof.
  intros (ty & p & t & env' & _ & _ & (s & _ & ->)%build_envelope_inv & Hd) Hd'.
  rewrite Hd in Hd'. by injection Hd' as <-.
Qed.

Lemma from_lineage_call b lb lj g os :
  decode lb = Ok lj -> Q os ->
  ∃ t os', window t ∧ Q os' ∧
    gossip_verify_envelope_from_lineage b lb (g, os) =
    with_engine (on_engine (
      envelope ← lift (Envelope.decode_envelope b);
      match check_envelope_sender lj envelope with
      | Ok _ => verify_envelope_bytes b t
      | Err e => _ ← update (on_stats add_dropped); throw e
      | Panic => lift Panic
      end)) (g, os').
Proof.
  intros Hd Hos. destruct (q_time Hq g os Hos) as (t & os' & Ht & Hos' & Hk).
  exists t, os'. do 2 (split; [done|]). unfold gossip_verify_envelope_from_lineage.
  rewrite Hd, lift_bind. apply Hk.
Qed.

Lemma verify_from_lineage_runs a i l P q lj lb j b :
  stored lj lb -> speaks j lj -> envelope_of (lo:=lo) (hi:=hi) j b ->
  runs (node_is a i l P q) (Host.verify_envelope_from_lineage b lb)
    (λ v n, v = true ∧ node_is a i l P q n).
Proof.
  intros [_ Hd] [Hid [Hsig _]] Hb. apply runs_on_node. intros e os Hi Hpl Hw Hu Hp Hca Hos.
  destruct (from_lineage_call b lb lj (mkGlobal (Some e) (Some l)) os Hd Hos)
    as (t & os' & Ht & Hos' & E).
  destruct (verify_accepts Hq i P q e j b t Ht Hb) with (os := os') as (e' & Ev & He'); [by constructor|].
  exists true, (node_at a e' (Some l)), os'. split_and!; [|done|by apply engine_is_node|done].
  apply call_ok. rewrite E. apply with_engine_ok.
  pose proof Hb as (ty & p & t0 & env & _ & _ & _ & Hdb).
  unfold Envelope.decode_envelope at 1. rewrite Hdb, lift_bind. cbn [map_err].
  destruct (envelope_sender j b env Hb Hdb) as [Hs1 Hs2].
  unfold check_envelope_sender. rewrite !bool_decide_true by congruence. exact Ev.
Qed.

Lemma verify_from_lineage_refused a i l P q lj lb j b :
  stored lj lb -> sig_public_key_bytes j ≠ current_sig_public_key lj ->
  envelope_of (lo:=lo) (hi:=hi) j b ->
  refuses (node_is a i l P q) (Host.verify_envelope_from_lineage b lb) (node_is a i l P q).
Proof.
  intros [_ Hd] Hk Hb. apply refuses_on_node. intros e os He Hu Hos.
  destruct (from_lineage_call b lb lj (mkGlobal (Some e) (Some l)) os Hd Hos)
    as (t & os' & Ht & Hos' & E).
  pose proof Hb as (ty & p & t0 & env & _ & _ & _ & Hdb).
  destruct (envelope_sender j b env Hb Hdb) as [_ Hs].
  assert (∃ err, check_envelope_sender lj env = Err err) as [err Herr].
  { unfold check_envelope_sender. rewrite Hs. case_match; [by eexists|].
    rewrite bool_decide_false by done. by eexists. }
  eexists _, (node_at a (on_stats add_dropped e) (Some l)), os'.
  split; [|split; [apply engine_is_node; [done|]|done]].
  - apply call_err. rewrite E. apply with_engine_err.
    unfold Envelope.decode_envelope at 1. rewrite Hdb, lift_bind. cbn [map_err].
    rewrite Herr, update_bind. done.
  - destruct He. constructor; try done. by apply wf_on_stats.
Qed.

(** ** Restarting with a lineage *)

(** A configuration with seeds, as the program writes it and as it is read. *)
Record seeded_config (cfg : string) (kem sig : bytes) (epoch : string) : Prop := {
  sc_read : ∃ c r, json_from_str cfg = inr c ∧ resolve c = Ok r ∧ plain r ∧
    kem_seed r = Some kem ∧ sig_seed r = Some sig ∧ key_epoch r = epoch;
}.

Lemma init_given_runs a cfg kem sig epoch i l :
  seeded_config cfg kem sig epoch -> given kem sig epoch i -> from_identity i = Ok l ->
  runs (fresh a) (Host.init cfg) (λ _, node_is a i l [] true).
Proof.
  intros [(c & r & Hc & Hr & Hpl & Hk & Hs & He)] [Hi Hu _] Hl.
  apply (init_seeded_runs a cfg c r kem sig); try done. by eapply config_seeds.
Qed.

(** The call up to the comparison of the keys. *)
Lemma init_lineage_call cfg lb kem sig epoch i l os :
  seeded_config cfg kem sig epoch -> given kem sig epoch i -> stored l lb ->
  ∃ r, engine_is (with_node_id (lin_node_id l) i) [] true
         (Engine.new r (with_node_id (lin_node_id l) i)) ∧
    gossip_init_with_lineage cfg lb (uninitialized, os) =
    (same ← lift (lineage_keys_match i l);
     if negb same then
       throw (IdentityError ("seeds are not the current keys of lineage "
         +:+ lin_node_id l +:+ " (sequence " +:+ pretty (sequence l) +:+ ")"))
     else install r (with_node_id (lin_node_id l) i) l) (uninitialized, os).
Proof.
  intros [(c & r & Hc & Hr & Hpl & Hk & Hs & He)] [Hi Hu _] [_ Hd]. exists r.
  split; [by apply (new_engine_is cfg c)|].
  apply (init_with_lineage_run _ _ kem sig epoch); [|done..]. constructor; eauto.
Qed.

Lemma init_lineage_runs a cfg lb kem sig epoch i l :
  seeded_config cfg kem sig epoch -> given kem sig epoch i -> stored l lb -> valid l -> carries i l ->
  runs (fresh a) (Host.init_with_lineage cfg lb)
    (λ _, node_is a (with_node_id (lin_node_id l) i) l [] true).
Proof.
  intros Hcfg Hg Hst Hv [Hsig Hkem] n os -> Hos.
  destruct (init_lineage_call cfg lb kem sig epoch i l os Hcfg Hg Hst) as (r & He & E).
  exists tt, (node_at a (Engine.new r (with_node_id (lin_node_id l) i)) (Some l)), os.
  split_and!; [|apply engine_is_node; [|done]|done].
  - apply call_ok. rewrite E, (proj2 (lineage_keys_match_ok i l)), lift_bind by done. done.
  - apply usable_renamed; [by apply valid_id_short|by apply (gv_usable _ _ _ _ Hg)].
Qed.

Lemma init_lineage_refused a cfg lb kem sig epoch i l :
  seeded_config cfg kem sig epoch -> given kem sig epoch i -> stored l lb ->
  sig_public_key_bytes i ≠ current_sig_public_key l ->
  refuses (fresh a) (Host.init_with_lineage cfg lb) (fresh a).
Proof.
  intros Hcfg Hg Hst Hk n os -> Hos.
  destruct (init_lineage_call cfg lb kem sig epoch i l os Hcfg Hg Hst) as (r & He & E).
  eexists _, (mkNode a (Some uninitialized)), os. split; [|done]. apply call_err. rewrite E.
  unfold lineage_keys_match. rewrite bool_decide_true by done. done.
Qed.
End RotationRuns.
