(* ===== verification/Harness.v ===== *)
(** * The integration test

    [wasmtime-test/src/main.rs]: a mesh of three nodes in one process, then the
    life of a fourth that rotates its keys, restarts, rotates again and is
    recovered.  The program prints and, at the first step that does not go as it
    expects, exits with status 1: that is [Stop].  What it prints is left out.
    The theorems are in [HarnessThms]. *)

From S2P Require Import Prelude Errors Types Extern Config Identity Rotation Engine Api Component Host.
Import Api.

Inductive Stop : Type :=
  | CheckFailed (label : string) (e : HostError)   (* [check!] *)
  | Refuted (message : string)                     (* a comparison, then [exit(1)] *)
  | Usage
  | Unreadable (e : HostError).

Section Harness.
Context {X : Ext} {W : WireCodecs} {J : JsonOut} `{!FromJson GossipConfig}.
Context `{!Bincode LineageWire} {WT : Wasmtime} {HJ : HostJson}.

(** [check!(label, result)]. *)
Definition check {S A} (label : string) (m : ST S HostError A) : ST S Stop A :=
  λ s,
    let '(r, s') := m s in
    (match r with Ok a => Ok a | Err e => Err (CheckFailed label e) | Panic => Panic end, s').

Definition require {S} (b : bool) (message : string) : ST S Stop unit :=
  if b then mret tt else throw (Refuted message).

(** [result.is_ok()] of a call. *)
Definition succeeds {S A} (m : ST S HostError A) : ST S Stop bool :=
  λ s,
    let '(r, s') := m s in
    (match r with Ok _ => Ok true | Err _ => Ok false | Panic => Panic end, s').

(** ** The mesh: steps 0 to 15 *)

Record Mesh : Type := mkMesh {
  node_a : GossipNode;
  node_b : GossipNode;
  node_c : GossipNode;
}.

Abbreviation on_host A := (ST (GossipNode * Os) HostError A).
Abbreviation on_mesh A := (ST (Mesh * Os) HostError A).
Abbreviation step A := (ST (Mesh * Os) Stop A).

Definition on_a {A} (m : on_host A) : on_mesh A :=
  zoom (λ s, (node_a s.1, s.2)) (λ t s, (mkMesh t.1 (node_b s.1) (node_c s.1), t.2)) m.
Definition on_b {A} (m : on_host A) : on_mesh A :=
  zoom (λ s, (node_b s.1, s.2)) (λ t s, (mkMesh (node_a s.1) t.1 (node_c s.1), t.2)) m.
Definition on_c {A} (m : on_host A) : on_mesh A :=
  zoom (λ s, (node_c s.1, s.2)) (λ t s, (mkMesh (node_a s.1) (node_b s.1) t.1, t.2)) m.

Definition handshake_ab : on_mesh unit :=
  zoom (λ s, ((node_a s.1, node_b s.1), s.2))
    (λ t s, (mkMesh t.1.1 t.1.2 (node_c s.1), t.2)) do_handshake.
Definition handshake_ac : on_mesh unit :=
  zoom (λ s, ((node_a s.1, node_c s.1), s.2))
    (λ t s, (mkMesh t.1.1 (node_b s.1) t.1.2, t.2)) do_handshake.
Definition handshake_bc : on_mesh unit :=
  zoom (λ s, ((node_b s.1, node_c s.1), s.2))
    (λ t s, (mkMesh (node_a s.1) t.1.1 t.1.2, t.2)) do_handshake.

(** Step 0. *)
Definition instantiate_mesh (wasm_bytes : bytes) : result Stop Mesh :=
  let node a label :=
    match new a wasm_bytes with
    | Ok n => Ok n
    | Err e => Err (CheckFailed label e)
    | Panic => Panic
    end in
  a ← node "node-a" "instantiate node-a";
  b ← node "node-b" "instantiate node-b";
  c ← node "node-c" "instantiate node-c";
  mret (mkMesh a b c).

(** Step 1. *)
Definition versions : step (string * string * string) :=
  va ← check "node-a get_version" (on_a get_version);
  vb ← check "node-b get_version" (on_b get_version);
  vc ← check "node-c get_version" (on_c get_version);
  mret (va, vb, vc).

(** Step 2. *)
Definition mesh_config (node : string) : string :=
  value_text (JObject
    [("node_addr", JString node); ("max_peers", JNumber 16); ("fanout", JNumber 3);
     ("heartbeat_interval_ms", JNumber 1000); ("message_ttl", JNumber 8);
     ("replay_window_ms", JNumber 30000); ("key_epoch", JString "epoch-1")]%string).

Definition initialize : step unit :=
  _ ← check "node-a gossip_init" (on_a (init (mesh_config "node-a")));
  _ ← check "node-b gossip_init" (on_b (init (mesh_config "node-b")));
  check "node-c gossip_init" (on_c (init (mesh_config "node-c"))).

(** Step 3. *)
Definition identities : step (JsonValue * JsonValue * JsonValue) :=
  a ← check "node-a get_node_identity" (on_a get_node_identity);
  b ← check "node-b get_node_identity" (on_b get_node_identity);
  c ← check "node-c get_node_identity" (on_c get_node_identity);
  mret (a, b, c).

(** Steps 4, 5 and 6. *)
Definition handshakes : step unit :=
  _ ← check "handshake node-a ↔ node-b" handshake_ab;
  _ ← check "handshake node-a ↔ node-c" handshake_ac;
  check "handshake node-b ↔ node-c" handshake_bc.

(** Step 7. *)
Definition verify_peers : step unit :=
  peers_a ← check "node-a get_peers" (on_a get_peers);
  peers_b ← check "node-b get_peers" (on_b get_peers);
  peers_c ← check "node-c get_peers" (on_c get_peers);
  _ ← require (2 <=? length peers_a)%nat "node-a should have ≥2 peers";
  _ ← require (2 <=? length peers_b)%nat "node-b should have ≥2 peers";
  require (2 <=? length peers_c)%nat "node-c should have ≥2 peers".

(** Steps 8 to 11. *)
Definition tx_payload : bytes := as_bytes "hello from node-a: test transaction payload".

Definition messages : step bytes :=
  msg_id ← check "node-a publish" (on_a (publish 1 tx_payload));
  envelope_bytes ← check "node-a encode_envelope" (on_a (encode_envelope 1 tx_payload));
  b_valid ← check "node-b verify_envelope" (on_b (verify_envelope envelope_bytes));
  _ ← require b_valid "node-b: envelope verification returned false";
  c_valid ← check "node-c verify_envelope" (on_c (verify_envelope envelope_bytes));
  _ ← require c_valid "node-c: envelope verification returned false";
  mret msg_id.

(** Step 12. *)
Definition statistics : step unit :=
  _ ← check "node-a get_stats" (on_a get_stats);
  _ ← check "node-b get_stats" (on_b get_stats);
  _ ← check "node-c get_stats" (on_c get_stats);
  mret tt.

(** Steps 13 to 15. *)
Definition lists_b (peers : list JsonValue) : bool :=
  existsb (λ p, match get_field p "addr" ≫= as_str with
                | Some s => bool_decide (s = "node-b"%string)
                | None => false
                end) peers.

Definition disconnect : step unit :=
  _ ← check "node-a disconnect_peer(node-b)" (on_a (disconnect_peer "node-b"));
  peers_a_after ← check "node-a get_peers (after disconnect)" (on_a get_peers);
  _ ← require (negb (lists_b peers_a_after))
    "node-a still lists node-b as a peer after disconnect";
  _ ← check "node-a final get_stats" (on_a get_stats);
  mret tt.

Definition mesh_test : step unit :=
  _ ← versions;
  _ ← initialize;
  _ ← identities;
  _ ← handshakes;
  _ ← verify_peers;
  _ ← messages;
  _ ← statistics;
  disconnect.

(** Step 16. *)
Definition legacy_test (wasm_bytes : bytes) : step unit :=
  '(_, legacy_env) ← check "0.2.1-bindings host instantiates, inits and signs"
    (zoom snd (λ os s, (s.1, os)) (smoke wasm_bytes));
  ok ← check "node-b verifies the 0.2.1-host envelope" (on_b (verify_envelope legacy_env));
  require ok "envelope from the 0.2.1-bindings host did not verify".

(** ** Rotation: steps 17 to 20, with a fourth node *)

Abbreviation life A := (ST ((Mesh * GossipNode) * Os) Stop A).
Abbreviation on_world A := (ST ((Mesh * GossipNode) * Os) HostError A).

Definition of_mesh {A} (m : on_mesh A) : on_world A :=
  zoom (λ s, (s.1.1, s.2)) (λ t s, ((t.1, s.1.2), t.2)) m.
Definition on_d {A} (m : on_host A) : on_world A :=
  zoom (λ s, (s.1.2, s.2)) (λ t s, ((s.1.1, t.1), t.2)) m.

(** A node that lives for a part of the program, and is dropped at its end. *)
Definition with_node_d {A} (label : string) (wasm_bytes : bytes) (m : life A) : step A :=
  λ s,
    match new "node-d" wasm_bytes with
    | Ok n => let '(r, ((mesh, _), os)) := m ((s.1, n), s.2) in (r, (mesh, os))
    | Err e => (Err (CheckFailed label e), s)
    | Panic => (Panic, s)
    end.

Definition kem_of (n : Z) : bytes :=
  repeat (byte_of_Z n) 32 ++ repeat (byte_of_Z (wrap 8 (n + 100))) 64.
Definition sig_of (n : Z) : bytes := repeat (byte_of_Z (wrap 8 (n + 200))) 32.

Definition config_for (n : Z) : string :=
  value_text (JObject
    [("kem_seed_hex", JString (hex_encode (kem_of n)));
     ("sig_seed_hex", JString (hex_encode (sig_of n)));
     ("key_epoch", JString ("epoch-" +:+ pretty n))]%string).

Definition same_field (v w : JsonValue) (key : string) : bool :=
  value_eqb (field v key) (field w key).

(** The summary of a lineage of [node_id] after [n] rotations. *)
Definition summary_is (summary id_before : JsonValue) (n : Z) : bool :=
  same_field summary id_before "node_id" && value_eqb (field summary "sequence") (JNumber n).

(** What steps 18 to 20 use of step 17. *)
Record Rotated : Type := mkRotated {
  rot_id_before : JsonValue;
  rot_id_after : JsonValue;
  rot_lineage : bytes;
}.

(** Step 17. *)
Definition rotate_under_id : life Rotated :=
  _ ← check "node-d gossip_init (seed 1)" (on_d (init (config_for 1)));
  id_before ← check "node-d identity" (on_d get_node_identity);
  env_old_key ← check "node-d signs with key 1" (on_d (encode_envelope 2 (as_bytes "vote-1")));
  c3 ← check "commitment to key 3" (on_d (key_commitment (sig_of 3)));
  lineage ← check "node-d rotates to key 2 under its id, committing to key 3"
    (on_d (rotate_keys_under_id (kem_of 2) (sig_of 2) "epoch-2" (Some c3)));
  id_after ← check "node-d identity after rotation" (on_d get_node_identity);
  _ ← require (same_field id_after id_before "node_id"
                 && negb (same_field id_after id_before "sig_public_key_hex"))
    "rotation must keep node_id and change the signing key";
  summary ← check "node-c verifies the lineage (stateless)"
    (of_mesh (on_c (verify_key_lineage lineage)));
  _ ← require (summary_is summary id_before 1) "lineage summary wrong";
  env_new_key ← check "node-d signs with key 2" (on_d (encode_envelope 2 (as_bytes "vote-2")));
  ok ← check "node-b accepts the new-key envelope against the lineage"
    (of_mesh (on_b (verify_envelope_from_lineage env_new_key lineage)));
  _ ← require ok "current-key envelope rejected";
  ok ← check "node-b's plain 0.2.1 verifier also accepts it"
    (of_mesh (on_b (verify_envelope env_new_key)));
  _ ← require ok "rotated envelope broke the existing verifier";
  accepted ← succeeds (of_mesh (on_b (verify_envelope_from_lineage env_old_key lineage)));
  _ ← require (negb accepted) "retired-key envelope accepted against the lineage";
  accepted ← succeeds (on_d (rotate_keys_under_id (kem_of 9) (sig_of 9) "epoch-9" None));
  _ ← require (negb accepted) "rotation to an uncommitted key was accepted";
  unchanged ← check "node-d lineage after refused rotation" (on_d get_key_lineage);
  _ ← require (bool_decide (unchanged = lineage)) "refused rotation changed the lineage";
  mret (mkRotated id_before id_after lineage).

(** Step 18, on a fresh instance. *)
Definition restart (r : Rotated) : life unit :=
  accepted ← succeeds (on_d (init_with_lineage (config_for 1) (rot_lineage r)));
  _ ← require (negb accepted) "restart on the retired seeds was accepted";
  _ ← check "node-d gossip_init_with_lineage (seed 2)"
    (on_d (init_with_lineage (config_for 2) (rot_lineage r)));
  id_restart ← check "node-d identity after restart" (on_d get_node_identity);
  _ ← require (same_field id_restart (rot_id_before r) "node_id"
                 && same_field id_restart (rot_id_after r) "sig_public_key_hex")
    "restarted node has the wrong id or key";
  env_restart ← check "restarted node-d signs" (on_d (encode_envelope 2 (as_bytes "vote-3")));
  ok ← check "node-c accepts it against the lineage"
    (of_mesh (on_c (verify_envelope_from_lineage env_restart (rot_lineage r))));
  require ok "restarted node's envelope rejected".

(** Step 19: the updated lineage, and an envelope under key 3. *)
Definition rotate_to_committed (r : Rotated) : life (bytes * bytes) :=
  c4 ← check "commitment to key 4" (on_d (key_commitment (sig_of 4)));
  lineage2 ← check "node-d rotates to committed key 3, committing to key 4"
    (on_d (rotate_keys_under_id (kem_of 3) (sig_of 3) "epoch-3" (Some c4)));
  summary2 ← check "node-c verifies the lineage" (of_mesh (on_c (verify_key_lineage lineage2)));
  _ ← require (summary_is summary2 (rot_id_before r) 2)
    "lineage summary wrong after committed rotation";
  env_key3 ← check "node-d signs with key 3" (on_d (encode_envelope 2 (as_bytes "vote-4")));
  ok ← check "node-b accepts it against the updated lineage"
    (of_mesh (on_b (verify_envelope_from_lineage env_key3 lineage2)));
  _ ← require ok "committed-key envelope rejected";
  accepted ← succeeds (of_mesh (on_b (verify_envelope_from_lineage env_key3 (rot_lineage r))));
  _ ← require (negb accepted) "stale lineage accepted the new key";
  mret (lineage2, env_key3).

(** Step 20, before the recovered node is instantiated. *)
Definition recover_committed (r : Rotated) (lineage2 : bytes) : step bytes :=
  accepted ← succeeds (on_c (recover_lineage lineage2 (kem_of 9) (sig_of 9) "epoch-9" None));
  _ ← require (negb accepted) "recovery to an uncommitted key was accepted";
  recovered ← check "recover lineage to key 4 (stateless)"
    (on_c (recover_lineage lineage2 (kem_of 4) (sig_of 4) "epoch-4" None));
  summary3 ← check "node-b verifies the recovered lineage" (on_b (verify_key_lineage recovered));
  _ ← require (summary_is summary3 (rot_id_before r) 3) "recovered lineage summary wrong";
  mret recovered.

(** Step 20, with the recovered node. *)
Definition recovered_node (r : Rotated) (recovered env_key3 : bytes) : life unit :=
  _ ← check "node-d gossip_init_with_lineage (seed 4)"
    (on_d (init_with_lineage (config_for 4) recovered));
  id_recovered ← check "node-d identity after recovery" (on_d get_node_identity);
  _ ← require (same_field id_recovered (rot_id_before r) "node_id")
    "recovered node has a different id";
  env_key4 ← check "recovered node-d signs with key 4"
    (on_d (encode_envelope 2 (as_bytes "vote-5")));
  ok ← check "node-b accepts it against the recovered lineage"
    (of_mesh (on_b (verify_envelope_from_lineage env_key4 recovered)));
  _ ← require ok "recovered node's envelope rejected";
  accepted ← succeeds (of_mesh (on_b (verify_envelope_from_lineage env_key3 recovered)));
  require (negb accepted) "the lost key 3 is still accepted after recovery".

Definition rotation_test (wasm_bytes : bytes) : step unit :=
  r ← with_node_d "instantiate node-d" wasm_bytes rotate_under_id;
  '(lineage2, env_key3) ← with_node_d "instantiate node-d (restart)" wasm_bytes
    (_ ← restart r; rotate_to_committed r);
  recovered ← recover_committed r lineage2;
  with_node_d "instantiate node-d (recovered)" wasm_bytes (recovered_node r recovered env_key3).

(** ** The program *)

Definition harness (wasm_bytes : bytes) : ST Os Stop unit :=
  λ os,
    match instantiate_mesh wasm_bytes with
    | Ok mesh =>
        let '(r, (_, os')) :=
          (_ ← mesh_test; _ ← legacy_test wasm_bytes; rotation_test wasm_bytes) (mesh, os) in
        (r, os')
    | Err e => (Err e, os)
    | Panic => (Panic, os)
    end.

(** [main], on the arguments and the contents of files. *)
Definition main (read : string -> fallible bytes) (args : list string) : ST Os Stop unit :=
  match args with
  | [_; wasm_path] =>
      wasm_bytes ← lift (map_err
        (λ e, Unreadable (Context ("Failed to read WASM file: " +:+ wasm_path) (Message e)))
        (read wasm_path));
      harness wasm_bytes
  | [] => λ os, (Panic, os)   (* [args[0]] in the usage text *)
  | _ => throw Usage
  end.
End Harness.
