(* ===== verification/HarnessThms.v ===== *)
(** * The mesh test passes

    In every quiet environment, with wasmtime loading the component and serde_json
    doing its part, steps 0 to 16 of [wasmtime-test/src/main.rs] run to their end:
    none of their checks and comparisons fails, whatever keys, nonces and times
    they meet.  [RotationTest] has the rest of the program. *)

From S2P Require Import Prelude Errors Types Extern F64 Config Dedup Quorum Session Identity Envelope Rotation Lineage LineageThms Handshake HandshakeThms Engine EngineThms Api ApiThms Component ComponentThms Host HostThms NodeRuns Harness.
Import Engine Api.

Section Harness.
Context {X : Ext} {W : WireCodecs} {JO : JsonOut} `{!FromJson GossipConfig}.
Context `{!Bincode LineageWire} {WT : Wasmtime} {HJ : HostJson}.
Context {L : ExtLaws} {WL : WireLaws} {WTo : WireTotal} {JL : HostJsonLaws} {CJ : ConfigJsonLaws}.
Context {Q : Os -> Prop} {lo hi : Z} (Hq : quiet Q lo hi).

Abbreviation runs I m J := (HostThms.runs Q I m J).

(** ** The program's own statements *)

Lemma check_runs {S A} label (m : ST (S * Os) HostError A) I J :
  runs I m J -> runs I (check label m) J.
Proof.
  intros Hm s os Hs Hos. destruct (Hm s os Hs Hos) as (a & s' & os' & E & H).
  exists a, s', os'. unfold check. by rewrite E.
Qed.

Lemma require_runs {S} b message (I : S -> Prop) :
  b = true -> runs I (require b message) (λ _, I).
Proof. intros -> s os Hs Hos. by exists tt, s, os. Qed.

(** ** Three nodes *)

Definition mesh_is (A B C : GossipNode -> Prop) (m : Mesh) : Prop :=
  A (node_a m) ∧ B (node_b m) ∧ C (node_c m).

Section OneNode.
Context {A : Type} (N B C : GossipNode -> Prop) (m : ST (GossipNode * Os) HostError A).
Context (K : A -> Prop) (N' : GossipNode -> Prop).
Context (Hm : runs N m (λ a n, K a ∧ N' n)).

Lemma on_a_runs : runs (mesh_is N B C) (on_a m) (λ a s, K a ∧ mesh_is N' B C s).
Proof.
  intros s os (Hn & Hb & Hc) Hos. destruct (Hm _ _ Hn Hos) as (a & n & os' & E & [Ha Hn'] & Hos').
  eexists a, _, os'. unfold on_a, zoom. cbn. by rewrite E.
Qed.

Lemma on_b_runs : runs (mesh_is B N C) (on_b m) (λ a s, K a ∧ mesh_is B N' C s).
Proof.
  intros s os (Hb & Hn & Hc) Hos. destruct (Hm _ _ Hn Hos) as (a & n & os' & E & [Ha Hn'] & Hos').
  eexists a, _, os'. unfold on_b, zoom. cbn. by rewrite E.
Qed.

Lemma on_c_runs : runs (mesh_is B C N) (on_c m) (λ a s, K a ∧ mesh_is B C N' s).
Proof.
  intros s os (Hb & Hc & Hn) Hos. destruct (Hm _ _ Hn Hos) as (a & n & os' & E & [Ha Hn'] & Hos').
  eexists a, _, os'. unfold on_c, zoom. cbn. by rewrite E.
Qed.
End OneNode.

(** A call whose answer does not matter. *)
Lemma unit_fact {A} (N N' : GossipNode -> Prop) (m : ST (GossipNode * Os) HostError A) :
  runs N m (λ _, N') -> runs N m (λ a n, True ∧ N' n).
Proof. intros Hm. eapply runs_conseq; [exact Hm|done|done]. Qed.

Section Handshakes.
Context (N1 N2 N1' N2' R : GossipNode -> Prop).
Context (Hm : runs (pair_is N1 N2) do_handshake (λ _, pair_is N1' N2')).

Lemma handshake_ab_runs : runs (mesh_is N1 N2 R) handshake_ab (λ _ s, True ∧ mesh_is N1' N2' R s).
Proof.
  intros s os (H1 & H2 & Hr) Hos.
  destruct (Hm (node_a s, node_b s) os (conj H1 H2) Hos) as ([] & [n1 n2] & os' & E & [H1' H2'] & Hos').
  eexists tt, _, os'. unfold handshake_ab, zoom. cbn. by rewrite E.
Qed.

Lemma handshake_ac_runs : runs (mesh_is N1 R N2) handshake_ac (λ _ s, True ∧ mesh_is N1' R N2' s).
Proof.
  intros s os (H1 & Hr & H2) Hos.
  destruct (Hm (node_a s, node_c s) os (conj H1 H2) Hos) as ([] & [n1 n2] & os' & E & [H1' H2'] & Hos').
  eexists tt, _, os'. unfold handshake_ac, zoom. cbn. by rewrite E.
Qed.

Lemma handshake_bc_runs : runs (mesh_is R N1 N2) handshake_bc (λ _ s, True ∧ mesh_is R N1' N2' s).
Proof.
  intros s os (Hr & H1 & H2) Hos.
  destruct (Hm (node_b s, node_c s) os (conj H1 H2) Hos) as ([] & [n1 n2] & os' & E & [H1' H2'] & Hos').
  eexists tt, _, os'. unfold handshake_bc, zoom. cbn. by rewrite E.
Qed.
End Handshakes.

(** ** The mesh test *)

(** Up, with some identity and lineage. *)
Definition member (a : string) (P : list string) (q : bool) (n : GossipNode) : Prop :=
  ∃ i l, node_is a i l P q n.

Lemma mesh_config_reads a :
  ∃ c r, json_from_str (mesh_config a) = inr c ∧ resolve c = Ok r ∧ plain r ∧ kem_seed r = None.
Proof.
  eexists _, _. split; [by apply config_text|]. by split.
Qed.

Lemma version_fresh a : runs (fresh a) get_version (λ _ n, True ∧ fresh a n).
Proof. intros n os -> Hos. by eexists _, _, _. Qed.

Lemma init_member a : runs (fresh a) (init (mesh_config a)) (λ _ n, True ∧ member a [] true n).
Proof.
  destruct (mesh_config_reads a) as (c & r & Hc & Hr & Hpl & Hk).
  apply unit_fact. by apply (init_runs Hq _ a _ c r).
Qed.

(** One statement of the program about one node. *)
Tactic Notation "at_a" tactic(lemma) :=
  eapply runs_bind_fact; [apply check_runs, on_a_runs; lemma|cbv beta; intros ? ?].
Tactic Notation "at_b" tactic(lemma) :=
  eapply runs_bind_fact; [apply check_runs, on_b_runs; lemma|cbv beta; intros ? ?].
Tactic Notation "at_c" tactic(lemma) :=
  eapply runs_bind_fact; [apply check_runs, on_c_runs; lemma|cbv beta; intros ? ?].

Lemma ret_fact {S E A} (a : A) (K : A -> Prop) (I : S -> Prop) :
  K a -> runs I (mret a : ST (S * Os) E A) (λ a s, K a ∧ I s).
Proof. intros Ha s os Hs Hos. by exists a, s, os. Qed.

Definition fresh_mesh : Mesh -> Prop :=
  mesh_is (fresh "node-a") (fresh "node-b") (fresh "node-c").

Lemma versions_runs : runs fresh_mesh versions (λ _ s, True ∧ fresh_mesh s).
Proof.
  unfold versions. at_a apply version_fresh. at_b apply version_fresh. at_c apply version_fresh.
  by apply (ret_fact _ (λ _, True)).
Qed.

Lemma initialize_runs :
  runs fresh_mesh initialize (λ _ s, True ∧ mesh_is (member "node-a" [] true)
    (member "node-b" [] true) (member "node-c" [] true) s).
Proof.
  unfold initialize. at_a apply init_member. at_b apply init_member.
  by apply check_runs, on_c_runs, init_member.
Qed.

(** The nodes, once they are up. *)
Section Up.
Context (ia ib ic : NodeIdentity) (la lb lc : KeyLineage).

Definition mesh_up (Pa Pb Pc : list string) (qa qb qc : bool) : Mesh -> Prop :=
  mesh_is (node_is "node-a" ia la Pa qa) (node_is "node-b" ib lb Pb qb)
    (node_is "node-c" ic lc Pc qc).

Lemma identities_runs Pa Pb Pc qa qb qc :
  runs (mesh_up Pa Pb Pc qa qb qc) identities (λ _ s, True ∧ mesh_up Pa Pb Pc qa qb qc s).
Proof.
  unfold identities. at_a apply identity_runs. at_b apply identity_runs. at_c apply identity_runs.
  by apply (ret_fact _ (λ _, True)).
Qed.

Lemma handshakes_runs qa qb qc :
  runs (mesh_up [] [] [] qa qb qc) Harness.handshakes
    (λ _ s, True ∧ mesh_up ["node-c"; "node-b"] ["node-c"; "node-a"] ["node-b"; "node-a"] qa qb qc s).
Proof.
  unfold Harness.handshakes.
  eapply runs_bind_fact.
  { apply check_runs, handshake_ab_runs, (handshake_runs Hq); [set_solver|apply short_small; cbn; lia]. }
  intros _ _. eapply runs_bind_fact.
  { apply check_runs, handshake_ac_runs, (handshake_runs Hq); [set_solver|apply short_small; cbn; lia]. }
  intros _ _.
  apply check_runs, handshake_bc_runs, (handshake_runs Hq); [set_solver|apply short_small; cbn; lia].
Qed.

(** A node lists as many peers as it has. *)
Lemma count_peers_runs a i l P q :
  NoDup P ->
  runs (node_is a i l P q) get_peers (λ vs n, length vs = length P ∧ node_is a i l P q n).
Proof.
  intros HP. eapply runs_conseq; [apply peers_runs|done|].
  intros vs n [(ps & -> & Hnd & Hin) Hn]. split; [|done].
  rewrite length_map, <- (length_fmap peer_info_addr).
  by apply Permutation_length, NoDup_Permutation.
Qed.

Lemma verify_peers_runs Pa Pb Pc qa qb qc :
  NoDup Pa -> NoDup Pb -> NoDup Pc ->
  (2 <= length Pa)%nat -> (2 <= length Pb)%nat -> (2 <= length Pc)%nat ->
  runs (mesh_up Pa Pb Pc qa qb qc) verify_peers (λ _, mesh_up Pa Pb Pc qa qb qc).
Proof.
  intros Na Nb Nc Ha Hb Hc. unfold verify_peers.
  at_a apply (count_peers_runs _ _ _ _ _ Na). at_b apply (count_peers_runs _ _ _ _ _ Nb).
  at_c apply (count_peers_runs _ _ _ _ _ Nc).
  eapply runs_bind; [apply require_runs, Nat.leb_le; lia|intros []].
  eapply runs_bind; [apply require_runs, Nat.leb_le; lia|intros []].
  apply require_runs, Nat.leb_le. lia.
Qed.

Lemma messages_runs Pa Pb Pc qb qc :
  runs (mesh_up Pa Pb Pc true qb qc) messages (λ _ s, True ∧ mesh_up Pa Pb Pc false qb qc s).
Proof.
  unfold messages. at_a apply unit_fact, (publish_runs Hq _ _ _ _ _ BlockProposal); done.
  at_a apply (encode_runs Hq _ _ _ _ _ _ _ BlockProposal); done.
  at_b eapply (verify_runs Hq); eassumption.
  eapply runs_bind; [by apply require_runs|intros []].
  at_c eapply (verify_runs Hq); eassumption.
  eapply runs_bind; [by apply require_runs|intros []].
  by apply (ret_fact _ (λ _, True)).
Qed.

Lemma statistics_runs Pa Pb Pc qa qb qc :
  runs (mesh_up Pa Pb Pc qa qb qc) statistics
    (λ _ s, True ∧ mesh_up Pa Pb Pc false false false s).
Proof.
  unfold statistics. at_a apply unit_fact, (stats_runs Hq). at_b apply unit_fact, (stats_runs Hq).
  at_c apply unit_fact, (stats_runs Hq). by apply (ret_fact _ (λ _, True)).
Qed.

Lemma lists_b_spec (ps : list PeerInfo) :
  lists_b (map peer_value ps) = true <-> "node-b"%string ∈ (peer_info_addr <$> ps).
Proof.
  unfold lists_b. induction ps as [|p ps IH]; [by split; [|intros ?%not_elem_of_nil]|].
  change (peer_info_addr <$> p :: ps) with (peer_info_addr p :: (peer_info_addr <$> ps)).
  rewrite elem_of_cons, <- IH. cbn [map existsb].
  assert (get_field (peer_value p) "addr" ≫= as_str = Some (peer_info_addr p)) as ->.
  { unfold peer_value. rewrite get_object. exact (as_str_text _). }
  rewrite orb_true_iff, bool_decide_eq_true. naive_solver.
Qed.

Lemma disconnect_step_runs Pa Pb Pc qa qb qc :
  "node-b"%string ∈ Pa ->
  runs (mesh_up Pa Pb Pc qa qb qc) disconnect
    (λ _ s, True ∧ mesh_up (filter (λ x, x ≠ "node-b"%string) Pa) Pb Pc false qb qc s).
Proof.
  intros Hb. unfold disconnect. at_a apply unit_fact; by apply disconnect_runs.
  at_a apply peers_runs.
  match goal with H : ∃ ps, _ |- _ => destruct H as (ps & -> & _ & Hin) end.
  eapply runs_bind; [apply require_runs|intros []].
  { apply negb_true_iff, not_true_iff_false. rewrite lists_b_spec, Hin, list_elem_of_filter. tauto. }
  at_a apply unit_fact, (stats_runs Hq). by apply (ret_fact _ (λ _, True)).
Qed.
End Up.

(** Three nodes that are up, whoever they are. *)
Definition mesh_of (Pa Pb Pc : list string) (qa qb qc : bool) (s : Mesh) : Prop :=
  ∃ ia ib ic la lb lc, mesh_up ia ib ic la lb lc Pa Pb Pc qa qb qc s.

Lemma mesh_of_runs {E A} Pa Pb Pc qa qb qc (m : ST (Mesh * Os) E A) K :
  (∀ ia ib ic la lb lc, runs (mesh_up ia ib ic la lb lc Pa Pb Pc qa qb qc) m K) ->
  runs (mesh_of Pa Pb Pc qa qb qc) m K.
Proof. intros Hm s os (ia & ib & ic & la & lb & lc & Hs) Hos. by eapply Hm. Qed.

Lemma mesh_of_members qa qb qc Pa Pb Pc s :
  mesh_is (member "node-a" Pa qa) (member "node-b" Pb qb) (member "node-c" Pc qc) s ->
  mesh_of Pa Pb Pc qa qb qc s.
Proof. intros ((ia & la & Ha) & (ib & lb & Hb) & (ic & lc & Hc)). by exists ia, ib, ic, la, lb, lc. Qed.

(** After the mesh test: the disconnected peer is gone from [node-a] alone. *)
Definition mesh_after : Mesh -> Prop :=
  mesh_of ["node-c"] ["node-c"; "node-a"] ["node-b"; "node-a"] false false false.

Lemma mesh_test_runs : runs fresh_mesh mesh_test (λ _, mesh_after).
Proof.
  unfold mesh_test.
  eapply runs_bind_fact; [apply versions_runs|intros _ _].
  eapply runs_bind_fact; [apply initialize_runs|intros _ _].
  eapply runs_conseq; [|apply mesh_of_members|intros ? ? H; exact H].
  apply mesh_of_runs. intros ia ib ic la lb lc.
  eapply runs_bind_fact; [apply identities_runs|intros _ _].
  eapply runs_bind_fact; [apply handshakes_runs|intros _ _].
  eapply runs_bind; [apply verify_peers_runs; by apply (bool_decide_eq_true_1 _)|intros []].
  eapply runs_bind_fact; [apply messages_runs|intros _ _].
  eapply runs_bind_fact; [apply statistics_runs|intros _ _].
  eapply runs_conseq; [|done|].
  { apply (disconnect_step_runs ia ib ic la lb lc ["node-c"; "node-b"]%string). set_solver. }
  intros [] s [_ Hs]. by exists ia, ib, ic, la, lb, lc.
Qed.

(** ** A host built against 0.2.1 *)

(** wasmtime loads the component. *)
Record loads (wasm : bytes) : Prop := {
  ld_binary : from_binary wasm = inr tt;
  ld_linker : add_to_linker = inr tt;
  ld_instance : instantiate wasm = inr tt;
}.

Lemma new_ok a wasm : loads wasm -> Host.new a wasm = Ok (mkNode a (Some uninitialized)).
Proof. intros [H1 H2 H3]. unfold Host.new. by rewrite H1, H2, H3. Qed.

Lemma empty_config_reads :
  ∃ c r, json_from_str "{}" = inr c ∧ resolve c = Ok r ∧ plain r ∧ kem_seed r = None.
Proof. eexists _, _. split; [apply empty_config_text|]. by split. Qed.

Lemma smoke_runs wasm os :
  loads wasm -> Q os ->
  ∃ v b i os', smoke wasm os = (Ok (v, b), os') ∧ envelope_of (lo:=lo) (hi:=hi) i b ∧ Q os'.
Proof.
  intros [H1 H2 H3] Hos. destruct empty_config_reads as (c & r & Hc & Hr & Hpl & Hk).
  unfold smoke, on_fresh. rewrite H1, H2, H3. cbn [map_err mbind result_bind].
  destruct (init_runs Hq "legacy gossip_init" "" _ c r Hc Hr Hpl Hk _ os eq_refl Hos)
    as ([] & n1 & os1 & E1 & (i & l & Hn1) & Q1).
  destruct (version_runs (Q:=Q) "" i l [] true n1 os1 Hn1 Q1) as (v & n2 & os2 & E2 & Hn2 & Q2).
  destruct (encode_runs Hq "legacy gossip_encode_envelope" "" i l [] true 0 Transaction
    (as_bytes "legacy host") eq_refl ltac:(by unfold small) n2 os2 Hn2 Q2) as (b & n3 & os3 & E3 & [Hb Hn3] & Q3).
  exists v, b, i, os3. split_and!; [|done|done].
  rewrite (st_bind_run _ _ _ _ _ E1), (st_bind_run _ _ _ _ _ E2).
  by rewrite (st_bind_run _ _ _ _ _ E3).
Qed.

Lemma legacy_test_runs wasm :
  loads wasm -> runs mesh_after (legacy_test wasm) (λ _, mesh_after).
Proof.
  intros Hld. apply mesh_of_runs. intros ia ib ic la lb lc s os Hs Hos.
  destruct (smoke_runs wasm os Hld Hos) as (v & b & i & os1 & E & Hb & Q1).
  destruct (on_b_runs _ _ _ _ _ _ (verify_runs Hq "node-b" ib lb _ false i b Hb) s os1 Hs Q1)
    as (ok & s2 & os2 & E2 & [Hok Hs2] & Q2).
  exists tt, s2, os2. split_and!; [|by exists ia, ib, ic, la, lb, lc|done].
  unfold legacy_test. rewrite (st_bind_run _ _ _ (v, b) (s, os1)).
  - cbn beta iota. rewrite (st_bind_run _ _ _ ok (s2, os2)); [by rewrite Hok|].
    unfold check. by rewrite E2.
  - unfold check, zoom. cbn. by rewrite E.
Qed.

Lemma instantiate_mesh_ok wasm :
  loads wasm -> ∃ mesh, instantiate_mesh wasm = Ok mesh ∧ fresh_mesh mesh.
Proof.
  intros Hld. unfold instantiate_mesh. rewrite !new_ok by done. by eexists.
Qed.

End Harness.
