(* ===== verification/RotationTest.v ===== *)
(** * The rotation test passes

    Steps 17 to 20 of [wasmtime-test/src/main.rs]: a node rotates under its id,
    restarts, rotates to its committed key and is recovered without it.  They
    succeed in every quiet environment that can save lineages, when the seeds of
    the program derive usable keys with different commitments; with the mesh test,
    so does the whole program. *)

From S2P Require Import Prelude Errors Types Extern F64 Config Dedup Quorum Session Identity Envelope Rotation Lineage LineageThms Storage Handshake HandshakeThms Engine EngineThms Api ApiThms Component ComponentThms Host HostThms NodeRuns RotationRuns Harness HarnessThms.
Import Engine Api.

Section RotationTest.
Context {X : Ext} {W : WireCodecs} {JO : JsonOut} `{!FromJson GossipConfig}.
Context `{!Bincode LineageWire} {WT : Wasmtime} {HJ : HostJson}.
Context {L : ExtLaws} {WL : WireLaws} {WTo : WireTotal} {JL : HostJsonLaws} {CJ : ConfigJsonLaws}.
Context {LC : LineageCodec} {LS : LineageSizes}.
Context {Q : Os -> Prop} {lo hi : Z} (Hq : quiet Q lo hi).

Abbreviation runs I m J := (HostThms.runs Q I m J).
Abbreviation refuses I m J := (RotationRuns.refuses (Q:=Q) I m J).
Abbreviation sealed i b := (envelope_of (lo:=lo) (hi:=hi) i b).

(** ** The seeds of the program *)

Definition test_seeds : list Z := [1; 2; 3; 4; 9]%Z.
Definition epoch_of (n : Z) : string := "epoch-" +:+ pretty n.

(** They derive usable keys, and no two of these the same commitment. *)
Record seeds_ok (id_of : Z -> NodeIdentity) : Prop := {
  so_derive n : n ∈ test_seeds ->
    identity_from_seed_bytes (kem_of n) (sig_of n) (epoch_of n) = Ok (id_of n) ∧ usable (id_of n);
  so_distinct n m : n ∈ test_seeds -> m ∈ test_seeds -> n ≠ m ->
    Rotation.key_commitment (sig_public_key_bytes (id_of n)) ≠
    Rotation.key_commitment (sig_public_key_bytes (id_of m));
}.

Context (id_of : Z -> NodeIdentity) (Hids : seeds_ok id_of).

Abbreviation pk n := (sig_public_key_bytes (id_of n)).

Lemma seeds_given n : n ∈ test_seeds -> given (kem_of n) (sig_of n) (epoch_of n) (id_of n).
Proof.
  intros Hn. destruct (so_derive _ Hids n Hn). constructor; try done. revert Hn.
  unfold test_seeds, short_epoch. rewrite !elem_of_cons.
  intros [->|[->|[->|[->|[->|[]%not_elem_of_nil]]]]]; apply Nat.leb_le; by vm_compute.
Qed.

Lemma keys_differ n m : n ∈ test_seeds -> m ∈ test_seeds -> n ≠ m -> pk n ≠ pk m.
Proof. intros Hn Hm Hne H. apply (so_distinct _ Hids n m Hn Hm Hne). by rewrite H. Qed.

Lemma length_kem n : length (kem_of n) = 96%nat.
Proof. unfold kem_of. by rewrite length_app, !repeat_length. Qed.

Lemma length_sig n : length (sig_of n) = 32%nat.
Proof. unfold sig_of. by rewrite repeat_length. Qed.

(** The component reads the configuration the program writes for a seed. *)
Lemma config_for_reads n :
  json_from_str (config_for n) =
  inr (mkConfig None (Some (hex_encode (kem_of n))) (Some (hex_encode (sig_of n))) (Some (epoch_of n))
         None None None None None None None None None).
Proof. unfold config_for. by rewrite config_text. Qed.

Lemma config_for_seeded n : seeded_config (config_for n) (kem_of n) (sig_of n) (epoch_of n).
Proof.
  constructor. eexists _, _. split; [apply config_for_reads|].
  unfold resolve, decode_seed. cbn [cfg_kem_seed_hex cfg_sig_seed_hex].
  rewrite !hex_decode_encode. unfold_bind. cbn [map_err].
  rewrite length_kem, length_sig, !bool_decide_true by done. by split.
Qed.

(** ** Lifting to the program's state *)

Definition world (M : Mesh -> Prop) (D : GossipNode -> Prop) (s : Mesh * GossipNode) : Prop :=
  M s.1 ∧ D s.2.

Lemma on_d_runs {A} M D (m : ST (GossipNode * Os) HostError A) (K : A -> Prop) D' :
  runs D m (λ a n, K a ∧ D' n) -> runs (world M D) (on_d m) (λ a s, K a ∧ world M D' s).
Proof.
  intros Hm [s n] os [Hs Hn] Hos. destruct (Hm n os Hn Hos) as (a & n' & os' & E & [Hk Hd] & Hos').
  exists a, (s, n'), os'. unfold on_d, zoom. cbn. by rewrite E.
Qed.

Lemma on_d_made {T A} M D (m : ST (GossipNode * Os) HostError A) (K : T -> A -> Prop) D' :
  runs D m (λ a n, ∃ x, K x a ∧ D' x n) ->
  runs (world M D) (on_d m) (λ a s, ∃ x, K x a ∧ world M (D' x) s).
Proof.
  intros Hm [s n] os [Hs Hn] Hos. destruct (Hm n os Hn Hos) as (a & n' & os' & E & (x & Hk & Hd) & Hos').
  exists a, (s, n'), os'. unfold on_d, zoom. cbn. rewrite E. split_and!; [done|by exists x|done].
Qed.

Lemma of_mesh_runs {A} M D (m : ST (Mesh * Os) HostError A) (K : A -> Prop) M' :
  runs M m (λ a s, K a ∧ M' s) -> runs (world M D) (of_mesh m) (λ a s, K a ∧ world M' D s).
Proof.
  intros Hm [s n] os [Hs Hn] Hos. destruct (Hm s os Hs Hos) as (a & s' & os' & E & [Ha Hs'] & Hos').
  exists a, (s', n), os'. unfold of_mesh, zoom. cbn. by rewrite E.
Qed.

Lemma on_d_refuses {A} M D (m : ST (GossipNode * Os) HostError A) D' :
  refuses D m D' -> refuses (world M D) (on_d m) (world M D').
Proof.
  intros Hm [s n] os [Hs Hn] Hos. destruct (Hm n os Hn Hos) as (e & n' & os' & E & Hn' & Hos').
  exists e, (s, n'), os'. unfold on_d, zoom. cbn. by rewrite E.
Qed.

Lemma of_mesh_refuses {A} M D (m : ST (Mesh * Os) HostError A) M' :
  refuses M m M' -> refuses (world M D) (of_mesh m) (world M' D).
Proof.
  intros Hm [s n] os [Hs Hn] Hos. destruct (Hm s os Hs Hos) as (e & s' & os' & E & Hs' & Hos').
  exists e, (s', n), os'. unfold of_mesh, zoom. cbn. by rewrite E.
Qed.

Lemma on_b_refuses {A} N B C (m : ST (GossipNode * Os) HostError A) N' :
  refuses N m N' -> refuses (mesh_is B N C) (on_b m) (mesh_is B N' C).
Proof.
  intros Hm s os (Hb & Hn & Hc) Hos. destruct (Hm _ _ Hn Hos) as (e & n & os' & E & Hn' & Hos').
  eexists e, _, os'. unfold on_b, zoom. cbn. by rewrite E.
Qed.

Lemma on_c_refuses {A} N B C (m : ST (GossipNode * Os) HostError A) N' :
  refuses N m N' -> refuses (mesh_is B C N) (on_c m) (mesh_is B C N').
Proof.
  intros Hm s os (Hb & Hc & Hn) Hos. destruct (Hm _ _ Hn Hos) as (e & n & os' & E & Hn' & Hos').
  eexists e, _, os'. unfold on_c, zoom. cbn. by rewrite E.
Qed.

Lemma succeeds_refused {S A} (m : ST (S * Os) HostError A) I J :
  refuses I m J -> runs I (succeeds m) (λ b s, b = false ∧ J s).
Proof.
  intros Hm s os Hs Hos. destruct (Hm s os Hs Hos) as (e & s' & os' & E & Hj & Hos').
  exists false, s', os'. unfold succeeds. by rewrite E.
Qed.

(** ** The stages of the fourth node *)

(** Its identity under key [k]: always the id of key 1. *)
Definition who (k : Z) : NodeIdentity := with_node_id (node_id (id_of 1)) (id_of k).

Definition committed (k : Z) : option bytes := Some (Rotation.key_commitment (pk k)).

(** Its lineage under key [k] after [s] records, with commitment [c] in force. *)
Record at_stage (l : KeyLineage) (k : Z) (c : option bytes) (s : nat) : Prop := {
  as_light : light l;
  as_id : lin_node_id l = node_id (id_of 1);
  as_keys : carries (id_of k) l;
  as_commitment : next_key_commitment l = c;
  as_count : length (lin_rotations l) = s;
}.

Definition node_d (k : Z) (l : KeyLineage) : GossipNode -> Prop :=
  node_is "node-d" (who k) l [] true.

Lemma who_1 : who 1 = id_of 1.
Proof. unfold who. by destruct (id_of 1). Qed.

Lemma stage_speaks l k c s : at_stage l k c s -> speaks (who k) l.
Proof. intros []. constructor; [done|]. by destruct as_keys0. Qed.

Lemma stage_grows l k c s m c' l' :
  at_stage l k c s -> grows l (id_of m) c' l' -> at_stage l' m c' (S s).
Proof. intros [] []. constructor; congruence. Qed.

Lemma stage_sequence l k c s : at_stage l k c s -> sequence l = Z.of_nat s.
Proof. intros [[Hv _ _] _ _ _ <-]. by apply valid_sequence. Qed.

Lemma commitment_32 pk : commitment_fits (Some (Rotation.key_commitment pk)).
Proof. intros b [= <-]. apply sha256_length. Qed.

Lemma no_commitment_fits : commitment_fits None.
Proof. done. Qed.

Lemma opens_free l k s m : at_stage l k None s -> opens l (id_of m).
Proof. intros Hs c. by rewrite (as_commitment _ _ _ _ Hs). Qed.

Lemma opens_committed l k s m : at_stage l k (committed m) s -> opens l (id_of m).
Proof. intros Hs c. rewrite (as_commitment _ _ _ _ Hs). by intros [= <-]. Qed.

Lemma closed_committed l k s m n :
  at_stage l k (committed m) s -> n ∈ test_seeds -> m ∈ test_seeds -> n ≠ m -> ¬ opens l (id_of n).
Proof.
  intros Hs Hn Hm Hne Ho. apply (so_distinct _ Hids n m Hn Hm Hne), Ho, (as_commitment _ _ _ _ Hs).
Qed.

Lemma first_stage : ∃ l, from_identity (id_of 1) = Ok l ∧ at_stage l 1 None 0.
Proof.
  assert (1%Z ∈ test_seeds) as H1 by by left.
  destruct (given_inv _ _ _ _ (seeds_given 1 H1)) as [Hd He].
  destruct (from_identity_self_derived _ Hd) as [l Hl]. exists l. split; [done|].
  destruct (from_identity_ok _ _ Hl) as (Hv & Hid & Hsig & Hkem).
  assert (short_epoch (id_key_epoch (id_of 1))) as Hs.
  { rewrite He. apply (gv_epoch _ _ _ _ (seeds_given 1 H1)). }
  destruct (light_identity _ _ Hs Hl) as [Hlt Hr]. constructor; try done.
  - revert Hl. unfold from_identity.
    intros (k & _ & (l' & (_ & _ & El)%inception_ok & Hb)%bind_ok)%bind_ok.
    case_bool_decide; [|done]. injection Hb as <-. by subst l'.
  - by rewrite Hr.
Qed.

Lemma stage_other_key l k c s j :
  at_stage l k c s -> j ∈ test_seeds -> k ∈ test_seeds -> j ≠ k ->
  pk j ≠ current_sig_public_key l.
Proof. intros Hs Hj Hk Hne. rewrite (ca_sig _ _ (as_keys _ _ _ _ Hs)). by apply keys_differ. Qed.

(** What the program compares. *)
Lemma hex_same a b : bool_decide (hex_encode a = hex_encode b) = bool_decide (a = b).
Proof.
  apply bool_decide_ext. split; [|by intros ->]. intros H%(f_equal hex_decode).
  rewrite !hex_decode_encode in H. by injection H.
Qed.

Lemma same_node_id i j v w :
  identity_shown i v -> identity_shown j w ->
  same_field v w "node_id" = bool_decide (node_id i = node_id j).
Proof. intros [Hv _] [Hw _]. unfold same_field. rewrite Hv, Hw. apply eqb_strings. Qed.

Lemma same_sig_key i j v w :
  identity_shown i v -> identity_shown j w ->
  same_field v w "sig_public_key_hex" = bool_decide (sig_public_key_bytes i = sig_public_key_bytes j).
Proof.
  intros [_ Hv] [_ Hw]. unfold same_field. rewrite Hv, Hw, eqb_strings. apply hex_same.
Qed.

Lemma summary_ok l k c s w n :
  at_stage l k c s -> identity_shown (who 1) w -> n = Z.of_nat s ->
  summary_is (lineage_summary l) w n = true.
Proof.
  intros Hs [Hw _] ->.
  assert (field (lineage_summary l) "node_id" = JString (lin_node_id l)) as Hid
    by (unfold lineage_summary; by rewrite field_object).
  assert (field (lineage_summary l) "sequence" = JNumber (sequence l)) as Hseq
    by (unfold lineage_summary; by rewrite field_object).
  unfold summary_is, same_field. rewrite Hw, Hid, Hseq, eqb_strings, eqb_numbers.
  rewrite (as_id _ _ _ _ Hs), bool_decide_true by done. rewrite (stage_sequence _ _ _ _ Hs).
  apply Z.eqb_refl.
Qed.

(** ** The calls of the program *)

Section Life.
Context (ia ib ic : NodeIdentity) (la lb lc : KeyLineage) (Pa Pb Pc : list string) (qa qb qc : bool).

Definition mesh : Mesh -> Prop := mesh_up ia ib ic la lb lc Pa Pb Pc qa qb qc.

Lemma d_rotates k l c s m c' :
  at_stage l k c s -> (s <= 408)%nat -> m ∈ test_seeds -> opens l (id_of m) -> commitment_fits c' ->
  runs (world mesh (node_d k l))
    (on_d (Host.rotate_keys_under_id (kem_of m) (sig_of m) (epoch_of m) c'))
    (λ b s', ∃ l', (at_stage l' m c' (S s) ∧ stored l' b) ∧ world mesh (node_d m l') s').
Proof.
  intros Hs Hn Hm Ho Hc. apply on_d_made.
  eapply runs_conseq; [apply (rotate_under_id_runs Hq "node-d" (who k) l [] true (kem_of m) (sig_of m)
    (epoch_of m) (id_of m) c')|done|].
  - by apply seeds_given.
  - by eapply stage_speaks.
  - apply Hs.
  - by rewrite (as_count _ _ _ _ Hs).
  - done.
  - done.
  - intros b n (l' & [Hg Hst] & Hnode). exists l'. split; [split; [by eapply stage_grows|done]|].
    unfold node_d, who. by rewrite <- (as_id _ _ _ _ Hs).
Qed.

Lemma d_refuses_rotation k l c s m n c' :
  at_stage l k c s -> c = committed m -> m ∈ test_seeds -> n ∈ test_seeds -> n ≠ m ->
  commitment_fits c' ->
  runs (world mesh (node_d k l))
    (succeeds (on_d (Host.rotate_keys_under_id (kem_of n) (sig_of n) (epoch_of n) c')))
    (λ b s', b = false ∧ world mesh (node_d k l) s').
Proof.
  intros Hs -> Hm Hn Hne Hc. eapply succeeds_refused, on_d_refuses, (rotate_under_id_refused Hq).
  - by apply seeds_given.
  - by eapply stage_speaks.
  - apply Hs.
  - done.
  - by eapply closed_committed.
Qed.

Lemma d_signs k l p :
  small p ->
  runs (world mesh (node_d k l)) (on_d (Host.encode_envelope 2 p))
    (λ b s', sealed (who k) b ∧ world mesh (node_d k l) s').
Proof. intros Hp. by apply on_d_runs, (encode_runs Hq _ _ _ _ _ _ _ FinalityVote). Qed.

Lemma d_identity k l :
  runs (world mesh (node_d k l)) (on_d get_node_identity)
    (λ v s', identity_shown (who k) v ∧ world mesh (node_d k l) s').
Proof. by apply on_d_runs, identity_runs. Qed.

Lemma d_commits k l m :
  m ∈ test_seeds ->
  runs (world mesh (node_d k l)) (on_d (Host.key_commitment (sig_of m)))
    (λ c s', c = Rotation.key_commitment (pk m) ∧ world mesh (node_d k l) s').
Proof. intros Hm. by eapply on_d_runs, commitment_runs, seeds_given. Qed.

Lemma b_verifies D i env :
  sealed i env ->
  runs (world mesh D) (of_mesh (on_b (Host.verify_envelope env)))
    (λ v s', v = true ∧ world mesh D s').
Proof. intros He. by eapply of_mesh_runs, on_b_runs, (verify_runs Hq). Qed.

Lemma b_summary l b :
  stored l b ->
  runs mesh (on_b (Host.verify_key_lineage b)) (λ v s', v = lineage_summary l ∧ mesh s').
Proof. intros Hb. by apply on_b_runs, verify_lineage_runs. Qed.

(** What the other nodes make of a lineage and an envelope. *)
Section Others.
Context (D : GossipNode -> Prop) (l : KeyLineage) (b : bytes) (k : Z) (c : option bytes) (s : nat).
Context (Hs : at_stage l k c s) (Hb : stored l b).

Lemma b_accepts env :
  sealed (who k) env ->
  runs (world mesh D) (of_mesh (on_b (Host.verify_envelope_from_lineage env b)))
    (λ v s', v = true ∧ world mesh D s').
Proof.
  intros He. apply of_mesh_runs, on_b_runs.
  by eapply (verify_from_lineage_runs Hq); [exact Hb|by eapply stage_speaks|].
Qed.

Lemma c_accepts env :
  sealed (who k) env ->
  runs (world mesh D) (of_mesh (on_c (Host.verify_envelope_from_lineage env b)))
    (λ v s', v = true ∧ world mesh D s').
Proof.
  intros He. apply of_mesh_runs, on_c_runs.
  by eapply (verify_from_lineage_runs Hq); [exact Hb|by eapply stage_speaks|].
Qed.

Lemma b_rejects env j :
  sealed (who j) env -> j ∈ test_seeds -> k ∈ test_seeds -> j ≠ k ->
  runs (world mesh D) (succeeds (of_mesh (on_b (Host.verify_envelope_from_lineage env b))))
    (λ v s', v = false ∧ world mesh D s').
Proof.
  intros He Hj Hk Hne. apply succeeds_refused, of_mesh_refuses, on_b_refuses.
  eapply (verify_from_lineage_refused Hq); [exact Hb| |exact He]. by eapply stage_other_key.
Qed.

Lemma c_summary :
  runs (world mesh D) (of_mesh (on_c (Host.verify_key_lineage b)))
    (λ v s', v = lineage_summary l ∧ world mesh D s').
Proof. by apply of_mesh_runs, on_c_runs, verify_lineage_runs. Qed.
End Others.

(** ** The program, part by part *)

Abbreviation at_d k l := (world mesh (node_d k l)).

(** What step 17 leaves to the later ones. *)
Definition rotated (r : Rotated) : Prop :=
  ∃ l, (at_stage l 2 (committed 3) 1 ∧ stored l (rot_lineage r)) ∧
    identity_shown (who 1) (rot_id_before r) ∧ identity_shown (who 2) (rot_id_after r).

Lemma d_starts l :
  from_identity (id_of 1) = Ok l ->
  runs (world mesh (fresh "node-d")) (on_d (Host.init (config_for 1)))
    (λ _ s, True ∧ at_d 1 l s).
Proof.
  intros Hl. apply on_d_runs, unit_fact. unfold node_d. rewrite who_1.
  apply (init_given_runs "node-d" _ (kem_of 1) (sig_of 1) (epoch_of 1));
    [apply config_for_seeded|apply seeds_given; by left|done].
Qed.

(** A statement whose value is used, and a comparison that holds. *)
Tactic Notation "call" uconstr(lemma) :=
  eapply runs_bind_fact; [apply check_runs; eapply lemma|cbv beta; intros ? ?; subst].
Tactic Notation "probe" uconstr(lemma) :=
  eapply runs_bind_fact; [eapply lemma|cbv beta; intros ? ->].
Tactic Notation "holds" tactic(t) := eapply runs_bind; [apply require_runs; t|intros []].

Lemma seeds_in n : bool_decide (n ∈ test_seeds) = true -> n ∈ test_seeds.
Proof. apply bool_decide_eq_true_1. Qed.

Lemma rotate_under_id_passes :
  runs (world mesh (fresh "node-d")) rotate_under_id (λ r s, rotated r ∧ mesh s.1).
Proof.
  destruct first_stage as (l1 & Hl1 & Hs1). unfold rotate_under_id.
  call (d_starts l1). { done. }
  call d_identity.
  call d_signs. { done. }
  call (d_commits 1 l1 3). { by apply seeds_in. }
  eapply runs_bind_made.
  { apply check_runs, (d_rotates 1 l1 None 0 2 (committed 3)); [done|lia|by apply seeds_in| |].
    - by eapply opens_free.
    - apply commitment_32. }
  cbv beta. intros lineage l2 [Hs2 Hb2].
  call d_identity.
  holds idtac.
  { erewrite same_node_id, same_sig_key by eassumption.
    rewrite bool_decide_true by done. apply negb_true_iff, bool_decide_eq_false.
    by apply keys_differ; [apply seeds_in..|]. }
  call (c_summary _ l2). { done. }
  holds (by eapply summary_ok).
  call d_signs. { done. }
  call b_accepts. { done. } { done. } { done. }
  holds done.
  call b_verifies. { done. }
  holds done.
  probe (b_rejects (node_d 2 l2) l2 lineage 2 (committed 3) 1 Hs2 Hb2 _ 1);
    [done|by apply seeds_in..|done|].
  holds done.
  probe (d_refuses_rotation 2 l2 _ 1 3 9 None Hs2); [done|by apply seeds_in..|done|done|].
  holds done.
  call (on_d_runs mesh (node_d 2 l2)). { by eapply key_lineage_runs. }
  holds (by apply bool_decide_eq_true).
  intros s os Hw Hos. eexists _, s, os. split; [done|]. split; [|done]. split; [|apply Hw].
  by exists l2.
Qed.

Section Restart.
Context (l : KeyLineage) (b : bytes) (k : Z) (c : option bytes) (s : nat).
Context (Hs : at_stage l k c s) (Hb : stored l b).

Lemma d_restarts :
  k ∈ test_seeds ->
  runs (world mesh (fresh "node-d")) (on_d (Host.init_with_lineage (config_for k) b))
    (λ _ s', True ∧ at_d k l s').
Proof.
  intros Hk. apply on_d_runs, unit_fact. unfold node_d, who. rewrite <- (as_id _ _ _ _ Hs).
  eapply init_lineage_runs;
    [apply config_for_seeded|by apply seeds_given|done|apply Hs|apply (as_keys _ _ _ _ Hs)].
Qed.

Lemma d_refuses_restart j :
  j ∈ test_seeds -> k ∈ test_seeds -> j ≠ k ->
  runs (world mesh (fresh "node-d")) (succeeds (on_d (Host.init_with_lineage (config_for j) b)))
    (λ v s', v = false ∧ world mesh (fresh "node-d") s').
Proof.
  intros Hj Hk Hne. apply succeeds_refused, on_d_refuses.
  eapply init_lineage_refused; [apply config_for_seeded|by apply seeds_given|done|].
  by eapply stage_other_key.
Qed.

Lemma c_recovers m :
  c = committed m -> m ∈ test_seeds -> (s <= 408)%nat ->
  runs mesh (on_c (Host.recover_lineage b (kem_of m) (sig_of m) (epoch_of m) None))
    (λ b' s', (∃ l', at_stage l' m None (S s) ∧ stored l' b') ∧ mesh s').
Proof.
  intros -> Hm Hn. apply on_c_runs. eapply runs_conseq; [|done|].
  - apply (recover_runs Hq _ _ _ _ _ l b (kem_of m) (sig_of m) (epoch_of m) (id_of m) None
      (Rotation.key_commitment (pk m)) (seeds_given m Hm) Hb); [apply Hs|by rewrite (as_count _ _ _ _ Hs)|done| |reflexivity].
    apply (as_commitment _ _ _ _ Hs).
  - intros b' n [(l' & Hg & Hst) Hnode]. split; [|done]. exists l'.
    split; [by eapply stage_grows|done].
Qed.

Lemma c_refuses_recovery m n :
  c = committed m -> m ∈ test_seeds -> n ∈ test_seeds -> n ≠ m ->
  runs mesh (succeeds (on_c (Host.recover_lineage b (kem_of n) (sig_of n) (epoch_of n) None)))
    (λ v s', v = false ∧ mesh s').
Proof.
  intros -> Hm Hn Hne. apply succeeds_refused, on_c_refuses.
  eapply (recover_refused Hq); [by apply seeds_given|done|apply Hs|done|by eapply closed_committed].
Qed.
End Restart.

Lemma restart_passes r l :
  at_stage l 2 (committed 3) 1 -> stored l (rot_lineage r) ->
  identity_shown (who 1) (rot_id_before r) -> identity_shown (who 2) (rot_id_after r) ->
  runs (world mesh (fresh "node-d")) (restart r) (λ _, at_d 2 l).
Proof.
  intros Hs Hb H1 H2. unfold restart.
  probe (d_refuses_restart l _ 2 (committed 3) 1 Hs Hb 1); [by apply seeds_in..|done|].
  holds done.
  call (d_restarts l _ 2 _ _ Hs Hb). { by apply seeds_in. }
  call d_identity.
  holds idtac.
  { erewrite same_node_id, same_sig_key by eassumption. by rewrite !bool_decide_true by done. }
  call d_signs. { done. }
  call (c_accepts _ l). { done. } { done. } { done. }
  by apply require_runs.
Qed.

(** What step 19 leaves: the lineage and an envelope under key 3. *)
Definition rotated_again (p : bytes * bytes) : Prop :=
  ∃ l, (at_stage l 3 (committed 4) 2 ∧ stored l p.1) ∧ sealed (who 3) p.2.

Lemma rotate_to_committed_passes r l :
  at_stage l 2 (committed 3) 1 -> stored l (rot_lineage r) ->
  identity_shown (who 1) (rot_id_before r) ->
  runs (at_d 2 l) (rotate_to_committed r) (λ p s, rotated_again p ∧ mesh s.1).
Proof.
  intros Hs Hb H1. unfold rotate_to_committed.
  call (d_commits 2 l 4). { by apply seeds_in. }
  eapply runs_bind_made.
  { apply check_runs, (d_rotates 2 l (committed 3) 1 3 (committed 4)); [done|lia|by apply seeds_in| |].
    - by eapply opens_committed.
    - apply commitment_32. }
  cbv beta. intros lineage2 l3 [Hs3 Hb3].
  call (c_summary _ l3). { done. }
  holds (by eapply summary_ok).
  call d_signs. { done. }
  call (b_accepts _ l3). { done. } { done. } { done. }
  holds done.
  probe (b_rejects (node_d 3 l3) l _ 2 _ _ Hs Hb _ 3); [done|by apply seeds_in..|done|].
  holds done.
  intros s os Hw Hos. eexists _, s, os. split; [done|]. split; [|done]. split; [|apply Hw].
  by exists l3.
Qed.

Lemma recover_committed_passes r l lineage2 :
  at_stage l 3 (committed 4) 2 -> stored l lineage2 -> identity_shown (who 1) (rot_id_before r) ->
  runs mesh (recover_committed r lineage2)
    (λ b s, (∃ l', at_stage l' 4 None 3 ∧ stored l' b) ∧ mesh s).
Proof.
  intros Hs Hb H1. unfold recover_committed.
  probe (c_refuses_recovery l _ 3 _ _ Hs Hb 4 9); [done|by apply seeds_in..|done|].
  holds done.
  call (c_recovers l _ 3 _ _ Hs Hb 4). { done. } { by apply seeds_in. } { lia. }
  match goal with H : ∃ _, _ |- _ => destruct H as (l4 & Hs4 & Hb4) end.
  call (b_summary l4). { done. }
  holds (by eapply summary_ok).
  apply ret_fact. by exists l4.
Qed.

Lemma recovered_node_passes r l recovered env_key3 :
  at_stage l 4 None 3 -> stored l recovered -> identity_shown (who 1) (rot_id_before r) ->
  sealed (who 3) env_key3 ->
  runs (world mesh (fresh "node-d")) (recovered_node r recovered env_key3) (λ _ s, True ∧ mesh s.1).
Proof.
  intros Hs Hb H1 H3. unfold recovered_node.
  call (d_restarts l _ 4 _ _ Hs Hb). { by apply seeds_in. }
  call d_identity.
  holds idtac. { erewrite same_node_id by eassumption. by rewrite bool_decide_true. }
  call d_signs. { done. }
  call (b_accepts _ l). { done. } { done. } { done. }
  holds done.
  probe (b_rejects (node_d 4 l) l _ 4 _ _ Hs Hb _ 3); [done|by apply seeds_in..|done|].
  eapply runs_conseq; [by apply require_runs|done|]. by intros [] s [Hm _].
Qed.

Lemma with_node_d_runs {A} label wasm_bytes (m : ST ((Mesh * GossipNode) * Os) Stop A) (K : A -> Prop) :
  loads wasm_bytes ->
  runs (world mesh (fresh "node-d")) m (λ a s, K a ∧ mesh s.1) ->
  runs mesh (with_node_d label wasm_bytes m) (λ a s, K a ∧ mesh s).
Proof.
  intros Hld Hm s os Hs Hos. unfold with_node_d. rewrite new_ok by done.
  destruct (Hm (s, mkNode "node-d" (Some uninitialized)) os) as (a & [s' n] & os' & E & [Ha Hs'] & Hos');
    [by split|done|].
  exists a, s', os'. cbn. by rewrite E.
Qed.

Lemma rotation_test_passes wasm_bytes :
  loads wasm_bytes -> runs mesh (rotation_test wasm_bytes) (λ _, mesh).
Proof.
  intros Hld. unfold rotation_test.
  eapply runs_bind_fact.
  { apply with_node_d_runs; [done|]. apply rotate_under_id_passes. }
  cbv beta. intros r (l & [Hs Hb] & H1 & H2).
  eapply runs_bind_fact.
  { apply (with_node_d_runs _ _ _ rotated_again); [done|].
    eapply runs_bind; [by apply (restart_passes r l)|intros []].
    by apply rotate_to_committed_passes. }
  cbv beta. intros [lineage2 env_key3] (l3 & [Hs3 Hb3] & H3).
  eapply runs_bind_fact; [by eapply (recover_committed_passes r l3)|].
  cbv beta. intros recovered (l4 & Hs4 & Hb4).
  eapply runs_conseq; [apply (with_node_d_runs _ _ _ (λ _, True)); [done|]|done|by intros [] s' []].
  by apply (recovered_node_passes r l4).
Qed.
End Life.

(** C21. The integration test passes.  In a quiet environment that can save
    lineages, when wasmtime loads the component and the program's seeds derive
    usable keys with different commitments, [main] ends without an error, whatever
    fresh keys, nonces and times it meets: every call it checks succeeds, every
    call it expects to be refused is refused (a retired key's envelope, a rotation
    or recovery to an uncommitted key, a restart on retired seeds, a stale
    lineage), and every comparison holds, through handshakes, messages, a rotation
    under the id, a restart, a committed rotation and a recovery. *)
Theorem main_passes (read : string -> fallible bytes) (program wasm_path : string)
    (wasm_bytes : bytes) (os : Os)
    (Hread : read wasm_path = inr wasm_bytes) (Hld : loads wasm_bytes) (Hos : Q os) :
  ∃ os', main read [program; wasm_path] os = (Ok tt, os') ∧ Q os'.
Proof.
  destruct (instantiate_mesh_ok wasm_bytes Hld) as (m & Hm & Hf).
  assert (runs fresh_mesh (_ ← mesh_test; _ ← legacy_test wasm_bytes; rotation_test wasm_bytes)
    (λ _, mesh_after)) as Hrun.
  { eapply runs_bind; [apply (mesh_test_runs Hq)|intros []].
    eapply runs_bind; [by apply (legacy_test_runs Hq)|intros []].
    apply mesh_of_runs. intros ia ib ic la lb lc.
    eapply runs_conseq; [by apply rotation_test_passes|done|].
    intros [] s Hs. by exists ia, ib, ic, la, lb, lc. }
  destruct (Hrun m os Hf Hos) as ([] & m' & os' & E & _ & Hos'). exists os'. split; [|done].
  unfold main. rewrite Hread. cbn [map_err]. rewrite lift_bind. unfold harness. rewrite Hm. by rewrite E.
Qed.
End RotationTest.
