(* ===== verification/Validate.v ===== *)
(** * The API validator

    [witan/src/bin/validate_api.rs]: a program on the native library that makes
    twenty checks of the public functions, counts which passed, and exits with
    status 1 when one did not.  A test is a definition over the statics, the two
    counters and the operating system; what it prints is left out.  The theorems
    are in [ValidateThms]. *)

From S2P Require Import Prelude Errors Types Extern Config Identity Handshake Session Engine Api Host.
Import Api.

(** serde_json's [Value::as_u64], [Value::is_array] and [Value::as_array]. *)
Class ValueQueries := {
  as_u64 : JsonValue -> option Z;
  is_array : JsonValue -> bool;
  as_array : JsonValue -> option (list JsonValue);
}.

Section Validate.
Context {X : Ext} {W : WireCodecs} {J : JsonOut} `{!FromJson GossipConfig}.
Context {HJ : HostJson} {VQ : ValueQueries}.

(** The two locals of [main]. *)
Record Tally : Type := mkTally {
  passed : nat;
  failed : nat;
}.

Abbreviation validator A := (ST ((Global * Tally) * Os) Empty_set A).

Definition pass : validator unit :=
  modify (λ s, ((s.1.1, mkTally (S (passed s.1.2)) (failed s.1.2)), s.2)).
Definition fail : validator unit :=
  modify (λ s, ((s.1.1, mkTally (passed s.1.2) (S (failed s.1.2))), s.2)).

(** A call whose [Result] is matched on. *)
Definition matched {A} (m : method (Global * Os) A) : validator (GossipError + A) :=
  λ s,
    let '(r, (g, os)) := m (s.1.1, s.2) in
    (match r with Ok a => Ok (inr a) | Err e => Ok (inl e) | Panic => Panic end,
     ((g, s.1.2), os)).

(** The same on values of the test's own. *)
Definition on_local {T A} (t : T) (m : method (T * Os) A) :
    validator ((GossipError + A) * T) :=
  λ s,
    let '(r, (t', os)) := m (t, s.2) in
    (match r with Ok a => Ok (inr a, t') | Err e => Ok (inl e, t') | Panic => Panic end,
     (s.1, os)).

(** [r.expect(..)]. *)
Definition unwrap {E F A} (r : F + A) : result E A :=
  match r with inr a => Ok a | inl _ => Panic end.

Definition unwrap_or_empty (o : option string) : string := default ""%string o.

(** [id.len() == 64 && id.chars().all(|c| c.is_ascii_hexdigit())]. *)
Definition is_node_id (id : string) : bool :=
  (String.length id =? 64)%nat && forallb is_ascii_hexdigit (as_bytes id).

(** ** Tests 1 to 3: version, initialization, identity *)

Definition test_version : validator unit :=
  if negb (bool_decide (gossip_get_version = ""%string)) then pass else fail.

Definition test_init : validator unit :=
  r ← matched (gossip_init "{}");
  match r with inr _ => pass | inl _ => fail end.

(** The [node_id] of an identity report. *)
Definition reported_id (json : string) : validator string :=
  parsed ← lift (unwrap (json_from_str (A:=JsonValue) json));
  mret (unwrap_or_empty (as_str (field parsed "node_id"))).

Definition test_identity : validator unit :=
  r ← matched gossip_get_node_identity;
  match r with
  | inr json => node_id ← reported_id json; if is_node_id node_id then pass else fail
  | inl _ => fail
  end.

(** ** Tests 4 to 8: a message of every type *)

Definition test_publish (t : PayloadType) (payload : bytes) : validator unit :=
  r ← matched (gossip_publish (as_u8 t) payload);
  match r with
  | inr msg_id => if (length msg_id =? 32)%nat then pass else fail
  | inl _ => fail
  end.

Definition test_transaction : validator unit :=
  test_publish Transaction (as_bytes "tx-payload-data").
Definition test_block_proposal : validator unit :=
  test_publish BlockProposal (as_bytes "block-proposal-data").
Definition test_finality_vote : validator unit :=
  test_publish FinalityVote (as_bytes "finality-vote-data").
Definition test_state_sync : validator unit :=
  test_publish StateSync (as_bytes "state-sync-data").
Definition test_peer_discovery : validator unit :=
  test_publish PeerDiscovery (as_bytes "peer-discovery-data").

(** ** Tests 9 to 12: envelopes *)

(** The bytes the next three tests use: none if it failed. *)
Definition test_encode : validator bytes :=
  r ← matched (gossip_encode_envelope (as_u8 Transaction) (as_bytes "encode-test-payload"));
  match r with
  | inr [] => _ ← fail; mret []
  | inr b => _ ← pass; mret b
  | inl _ => _ ← fail; mret []
  end.

Definition test_decode (envelope_bytes : bytes) : validator unit :=
  match envelope_bytes with
  | [] => fail
  | _ =>
      r ← matched (gossip_decode_envelope envelope_bytes);
      match r with
      | inr json =>
          parsed ← lift (unwrap (json_from_str (A:=JsonValue) json));
          if (default 0 (as_u64 (field parsed "version")) =? 1)%Z then pass else fail
      | inl _ => fail
      end
  end.

Definition test_verify (envelope_bytes : bytes) : validator unit :=
  match envelope_bytes with
  | [] => fail
  | _ =>
      r ← matched (gossip_verify_envelope envelope_bytes);
      match r with
      | inr true => pass
      | inr false | inl _ => fail
      end
  end.

(** [*b ^= 0xFF] on the last sixteen bytes. *)
Definition flip (b : byte) : byte := byte_of_Z (Z.lxor (byte_to_Z b) 255).
Definition tamper (b : bytes) : bytes :=
  let len := length b in
  if (16 <=? len)%nat then take (len - 16) b ++ map flip (drop (len - 16) b) else b.

Definition test_tampered (envelope_bytes : bytes) : validator unit :=
  match envelope_bytes with
  | [] => fail
  | _ =>
      r ← matched (gossip_verify_envelope (tamper envelope_bytes));
      match r with
      | inr false | inl _ => pass
      | inr true => fail
      end
  end.

(** ** Tests 13 and 14: reports *)

Definition test_stats : validator unit :=
  r ← matched gossip_get_stats;
  match r with
  | inr json =>
      parsed ← lift (unwrap (json_from_str (A:=JsonValue) json));
      if (5 <=? default 0 (as_u64 (field parsed "messages_published")))%Z then pass else fail
  | inl _ => fail
  end.

Definition test_peers : validator unit :=
  r ← matched gossip_get_peers;
  match r with
  | inr json =>
      parsed ← lift (unwrap (json_from_str (A:=JsonValue) json));
      if is_array parsed then
        _ ← lift (expect (as_array parsed));
        pass
      else fail
  | inl _ => fail
  end.

(** ** Tests 15 to 17: handshakes *)

Definition probed_addr : string := "test-peer-15:9000".

Definition test_probe : validator bytes :=
  r ← matched (gossip_connect_peer probed_addr);
  match r with
  | inr [] => _ ← fail; mret []
  | inr b => _ ← pass; mret b
  | inl _ => _ ← fail; mret []
  end.

(** [NodeIdentity::generate("test").expect(..)]. *)
Definition test_identity_of : validator NodeIdentity :=
  '(r, _) ← on_local tt (generate "test");
  lift (unwrap r).

(** [witan::current_time_unix_ms()]. *)
Definition now_ms : validator Z :=
  '(r, _) ← on_local tt Handshakes.current_time_unix_ms;
  lift (unwrap r).

Definition test_answer (probe_bytes : bytes) : validator unit :=
  match probe_bytes with
  | [] => fail
  | _ =>
      server_identity ← test_identity_of;
      now_ms ← now_ms;
      '(r, _) ← on_local Handshakes.new
        (Handshakes.process_incoming probed_addr probe_bytes server_identity now_ms);
      match r with
      | inr [] => fail
      | inr ack_bytes =>
          _ ← pass;
          _ ← matched (gossip_process_handshake_bytes probed_addr ack_bytes);
          mret tt
      | inl _ => fail
      end
  end.

(** The closure of test 17, on the two managers. *)
Definition on_alice {A} (m : method (HandshakeManager * Os) A) :
    method ((HandshakeManager * HandshakeManager) * Os) A :=
  zoom (λ s, (s.1.1, s.2)) (λ t s, ((t.1, s.1.2), t.2)) m.
Definition on_bob {A} (m : method (HandshakeManager * Os) A) :
    method ((HandshakeManager * HandshakeManager) * Os) A :=
  zoom (λ s, (s.1.2, s.2)) (λ t s, ((s.1.1, t.1), t.2)) m.

Definition roundtrip (alice bob : NodeIdentity) (now_ms : Z) :
    method ((HandshakeManager * HandshakeManager) * Os) unit :=
  probe ← on_alice (Handshakes.create_identity_probe "bob" alice);
  ack ← on_bob (Handshakes.process_incoming "alice" probe bob now_ms);
  finish ← on_alice (Handshakes.process_incoming "bob" ack alice now_ms);
  finish_ack ← on_bob (Handshakes.process_incoming "alice" finish bob now_ms);
  _ ← on_alice (Handshakes.process_incoming "bob" finish_ack alice now_ms);
  mret tt.

(** [&s[..16]]: panics past the end and inside a character. *)
Definition first_16 {E} (s : string) : result E string :=
  let b := as_bytes s in
  match drop 16 b with
  | x :: _ =>
      if ((128 <=? byte_to_Z x) && (byte_to_Z x <? 192))%Z then Panic
      else Ok (of_bytes (take 16 b))
  | [] => if (length b =? 16)%nat then Ok s else Panic
  end.

Definition test_roundtrip : validator unit :=
  alice ← test_identity_of;
  bob ← test_identity_of;
  now_ms ← now_ms;
  '(result, (alice_hs, bob_hs)) ← on_local (Handshakes.new, Handshakes.new)
    (roundtrip alice bob now_ms);
  match result with
  | inr _ =>
      if Handshakes.is_handshake_complete alice_hs "bob"
         && Handshakes.is_handshake_complete bob_hs "alice" then
        match Handshakes.get_session alice_hs "bob", Handshakes.get_session bob_hs "alice" with
        | Some a, Some b =>
            _ ← lift (first_16 (session_id a));
            if bool_decide (session_id a = session_id b) then pass
            else _ ← lift (first_16 (session_id b)); fail
        | _, _ => fail
        end
      else fail
  | inl _ => fail
  end.

(** ** Test 18: a session that is not there *)

Definition test_no_session : validator unit :=
  r ← matched (gossip_get_session "nonexistent-peer:9999");
  match r with
  | inl (SessionNotFound _) | inl (PeerNotFound _) | inr _ => pass
  | inl _ => fail
  end.

(** ** Tests 19 and 20: new keys *)

(** The new id: none if it failed. *)
Definition test_rotate : validator string :=
  r ← matched gossip_rotate_keys;
  match r with
  | inr new_id => if is_node_id new_id then _ ← pass; mret new_id else _ ← fail; mret ""%string
  | inl _ => _ ← fail; mret ""%string
  end.

Definition test_new_identity (new_node_id : string) : validator unit :=
  r ← matched gossip_get_node_identity;
  match r with
  | inr json =>
      current_id ← reported_id json;
      if is_node_id current_id then
        if negb (bool_decide (new_node_id = ""%string)) && bool_decide (current_id = new_node_id)
        then pass
        else if bool_decide (new_node_id = ""%string) then pass
        else fail
      else fail
  | inl _ => fail
  end.

(** ** The program: its exit status *)

Definition exit_status : validator Z :=
  s ← get;
  mret (if (0 <? failed s.1.2)%nat then 1%Z else 0%Z).

Definition validate : validator Z :=
  _ ← test_version;
  _ ← test_init;
  _ ← test_identity;
  _ ← test_transaction;
  _ ← test_block_proposal;
  _ ← test_finality_vote;
  _ ← test_state_sync;
  _ ← test_peer_discovery;
  envelope_bytes ← test_encode;
  _ ← test_decode envelope_bytes;
  _ ← test_verify envelope_bytes;
  _ ← test_tampered envelope_bytes;
  _ ← test_stats;
  _ ← test_peers;
  probe_bytes ← test_probe;
  _ ← test_answer probe_bytes;
  _ ← test_roundtrip;
  _ ← test_no_session;
  new_node_id ← test_rotate;
  _ ← test_new_identity new_node_id;
  exit_status.

Definition main : ST Os Empty_set Z :=
  λ os, let '(r, (_, os')) := validate ((uninitialized, mkTally 0 0), os) in (r, os').
End Validate.
