(* ===== verification/ValidateRuns.v ===== *)
(** * What the validator's calls do

    The public functions [witan/src/bin/validate_api.rs] calls, in a quiet
    environment: each answers, and what its answer and the statics then are.
    [ValidateThms] composes them along the program. *)

From S2P Require Import Prelude Errors Types Extern F64 Config Dedup Quorum Session Identity Envelope Rotation Lineage LineageThms Handshake HandshakeThms Engine EngineThms Api ApiThms Component ComponentThms Host HostThms NodeRuns HarnessThms Validate.
Import Engine Api.

(** serde_json on the reports, as the program reads them. *)
Class ReportLaws `{Ext} {J : JsonOut} {HJ : HostJson} {VQ : ValueQueries} : Prop := {
  envelope_text e : ∃ s, json_to_string (A:=GossipEnvelope) e = inr s ∧
    json_from_str s = inr (envelope_value e);
  peer_array_text ps : ∃ s, json_to_string (A:=list PeerInfo) ps = inr s ∧
    json_from_str s = inr (JArray (map peer_value ps));
  as_u64_number n : fits 64 n -> as_u64 (JNumber n) = Some n;
  is_array_array l : is_array (JArray l) = true;
  as_array_array l : as_array (JArray l) = Some l;
}.

Section Runs.
Context {X : Ext} {Q : Os -> Prop}.

Abbreviation runs I m J := (HostThms.runs Q I m J).

(** ** The counters *)

Definition tallied (n : nat) (I : Global -> Prop) (s : Global * Tally) : Prop :=
  I s.1 ∧ s.2 = mkTally n 0.

Lemma pass_runs n I : runs (tallied n I) pass (λ _, tallied (S n) I).
Proof. intros [g []] os [Hg [= -> ->]] Hos. by eexists tt, _, os. Qed.

Lemma pass_with {A} n I (a : A) (K : A -> Prop) :
  K a -> runs (tallied n I) (_ ← pass; mret a) (λ a s, K a ∧ tallied (S n) I s).
Proof.
  intros Ha. eapply runs_bind; [apply pass_runs|intros []].
  intros s os Hs Hos. by exists a, s, os.
Qed.

(** ** Calls that answer, be it with an error *)

Definition ends {S A} (I : S -> Prop) (m : method (S * Os) A) (J : res A -> S -> Prop) : Prop :=
  ∀ s os, I s -> Q os ->
    ∃ r s' os', m (s, os) = (r, (s', os')) ∧ r ≠ Panic ∧ J r s' ∧ Q os'.

Lemma ends_conseq {S A} (I : S -> Prop) (m : method (S * Os) A) (J J' : res A -> S -> Prop) :
  ends I m J -> (∀ r s, J r s -> J' r s) -> ends I m J'.
Proof.
  intros Hm HJ s os Hs Hos. destruct (Hm s os Hs Hos) as (r & s' & os' & ? & ? & ? & ?).
  exists r, s', os'. auto.
Qed.

Definition answered {A} (K : A -> Prop) (r : res A) : Prop :=
  match r with Ok a => K a | _ => False end.

Definition outcome {A} (x : GossipError + A) : res A :=
  match x with inr a => Ok a | inl e => Err e end.

Lemma matched_made {T A} n I (m : method (Global * Os) A) (K : T -> res A -> Prop) I' :
  ends I m (λ r g, ∃ x, K x r ∧ I' x g) ->
  runs (tallied n I) (matched m) (λ a s, ∃ x, K x (outcome a) ∧ tallied n (I' x) s).
Proof.
  intros Hm [g c] os [Hg Hc] Hos. cbn in Hg, Hc.
  destruct (Hm g os Hg Hos) as (r & g' & os' & E & Hr & (x & Hk & Hg') & Hos').
  unfold matched. cbn [fst snd]. rewrite E.
  destruct r as [a|e|]; [exists (inr a), (g', c), os'|exists (inl e), (g', c), os'|done];
    (split_and!; [done|by exists x|done]).
Qed.

Lemma matched_runs {A} n I (m : method (Global * Os) A) (K : res A -> Prop) I' :
  ends I m (λ r g, K r ∧ I' g) ->
  runs (tallied n I) (matched m) (λ a s, K (outcome a) ∧ tallied n I' s).
Proof.
  intros Hm. eapply runs_conseq; [apply (matched_made (T:=unit) n I m (λ _, K) (λ _, I'))|done|].
  - intros s os Hs Hos. destruct (Hm s os Hs Hos) as (r & s' & os' & ? & ? & ? & ?).
    by exists r, s', os'.
  - intros a s. by intros [].
Qed.

Lemma on_local_runs {T A} (I : Global * Tally -> Prop) (t : T) (m : method (T * Os) A)
    (K : res A -> T -> Prop) :
  ends (λ t', t' = t) m K -> runs I (on_local t m) (λ x s, K (outcome x.1) x.2 ∧ I s).
Proof.
  intros Hm s os Hs Hos. destruct (Hm t os eq_refl Hos) as (r & t' & os' & E & Hr & Hk & Hos').
  unfold on_local. cbn [snd]. rewrite E. cbn [fst].
  destruct r as [a|e|]; [exists (inr a, t'), s, os'|exists (inl e, t'), s, os'|done];
    by split_and!.
Qed.

Lemma unwrap_runs {S E F A} (I : S -> Prop) (a : A) :
  runs I (lift (unwrap (inr a : F + A)) : ST (S * Os) E A) (λ b s, b = a ∧ I s).
Proof. intros s os Hs Hos. by exists a, s, os. Qed.
End Runs.

(** ** The calls, on the statics *)

Section Calls.
Context {X : Ext} {W : WireCodecs} {J : JsonOut} `{!FromJson GossipConfig}.
Context {HJ : HostJson} {VQ : ValueQueries}.
Context {L : ExtLaws} {WL : WireLaws} {WTo : WireTotal} {JL : HostJsonLaws} {CJ : ConfigJsonLaws}.
Context {RL : ReportLaws} {HD : HexDigits} {ET : EnvelopeTail} {SH : SignatureHint}.
Context {Q : Os -> Prop} {lo hi : Z} (Hq : quiet Q lo hi).

Abbreviation window t := (in_window (lo:=lo) (hi:=hi) t).
Abbreviation runs I m J := (HostThms.runs Q I m J).
Abbreviation ends I m J := (ValidateRuns.ends (Q:=Q) I m J).

(** The statics with an engine in [V]. *)
Definition up (V : GossipEngine -> Prop) (g : Global) : Prop :=
  ∃ e l, g = mkGlobal (Some e) l ∧ V e.

Definition fit (i : NodeIdentity) : Prop := usable i ∧ self_derived i.

(** An engine without sessions that has published exactly the messages [ids]. *)
Record told (i : NodeIdentity) (ids : list bytes) (e : GossipEngine) : Prop := {
  to_is : engine_is i [] false e;
  to_ids id : is_Some (Cache.entries (dedup e) !! id) -> id ∈ ids;
  to_count : messages_published (stats e) = Z.of_nat (length ids);
}.

Lemma timed_made {A} V (m : Z -> method (GossipEngine * Os) A) (J' : res A -> GossipEngine -> Prop) :
  (∀ t e os, window t -> Q os -> V e ->
     ∃ r e' os', m t (e, os) = (r, (e', os')) ∧ r ≠ Panic ∧ J' r e' ∧ Q os') ->
  ends (up V) (current_time_unix_ms ≫= λ now, with_engine (on_engine (m now))) (λ r, up (J' r)).
Proof.
  intros Hm g os (e & l & -> & He) Hos.
  destruct (q_time Hq (mkGlobal (Some e) l) os Hos) as (t & os1 & Ht & Hos1 & Hk).
  destruct (Hm t e os1 Ht Hos1 He) as (r & e' & os' & E & Hr & Hj & Hos').
  exists r, (mkGlobal (Some e') l), os'. rewrite Hk. unfold with_engine, on_engine, zoom.
  cbn [fst snd GOSSIP_STATE LINEAGE]. rewrite E. split_and!; try done. by exists e', l.
Qed.

Lemma timed_up {A} V (m : Z -> method (GossipEngine * Os) A) (K : res A -> Prop) V' :
  (∀ t e os, window t -> Q os -> V e ->
     ∃ r e' os', m t (e, os) = (r, (e', os')) ∧ r ≠ Panic ∧ (K r ∧ V' e') ∧ Q os') ->
  ends (up V) (current_time_unix_ms ≫= λ now, with_engine (on_engine (m now)))
    (λ r g, K r ∧ up V' g).
Proof.
  intros Hm. eapply ends_conseq; [by apply (timed_made V m (λ r e, K r ∧ V' e))|].
  intros r g (e & l & -> & Hr & He). split; [done|by exists e, l].
Qed.

Lemma report_up (V : GossipEngine -> Prop) (f : GossipEngine -> res string) (K : string -> Prop) :
  (∀ e, V e -> ∃ s, f e = Ok s ∧ K s) ->
  ends (up V) (report f) (λ r g, answered K r ∧ up V g).
Proof.
  intros Hf g os (e & l & -> & He) Hos. destruct (Hf e He) as (s & E & Hs).
  exists (Ok s), (mkGlobal (Some e) l), os.
  unfold report, with_engine. cbn. unfold_bind. cbn. rewrite E.
  split_and!; try done. by exists e, l.
Qed.

(** ** Initialization and identity *)

Lemma init_ends :
  ends (λ g, g = uninitialized) (gossip_init "{}")
    (λ r g, ∃ i, (answered (λ _, fit i) r) ∧ up (told i []) g).
Proof.
  intros g os -> Hos. destruct empty_config_reads as (c & r & Hc & Hr & Hpl & Hk).
  destruct (q_generate _ _ _ Hq (key_epoch r) os Hos) as (i & os' & Hos' & Hu & Hd & Hg).
  destruct (from_identity_self_derived i Hd) as [l Hl].
  exists (Ok tt), (mkGlobal (Some (Engine.new r i)) (Some l)), os'.
  split_and!; [|done|exists i; split; [by split|]|done].
  - apply (init_run "{}" c r i l os os'); try done. unfold configured. by rewrite Hk.
  - exists (Engine.new r i), (Some l). split; [done|].
    pose proof (new_engine_is "{}" c r i Hc Hr Hpl) as [Hi Hp Hw Hs _].
    constructor; [by constructor| |done].
    intros id. cbn. rewrite lookup_empty. by intros [].
Qed.

Lemma fit_node_id i : fit i -> is_node_id (node_id i) = true.
Proof.
  intros [_ Hd]. unfold is_node_id. rewrite (self_derived_length i Hd).
  destruct Hd as (k & _ & ->). apply hex_encode_digits.
Qed.

Lemma identity_ends i V :
  usable i -> (∀ e, V e -> identity e = i) ->
  ends (up V) gossip_get_node_identity
    (λ r g, answered (λ json, ∃ v, json_from_str json = inr v ∧
                               unwrap_or_empty (as_str (field v "node_id")) = node_id i) r
            ∧ up V g).
Proof.
  intros [_ (kj & Hkj & _) _] Hi. apply report_up. intros e He.
  set (pub := mkIdentityPublic (node_id i) kj (sig_public_key_hex i) (id_key_epoch i)).
  destruct (identity_text pub) as (text & Ht & Hv). exists text. split.
  - unfold get_node_identity_json, public_view, kem_public_key_json. rewrite (Hi e He), Hkj. cbn.
    unfold to_json. fold pub. by rewrite Ht.
  - exists (identity_value pub). split; [done|]. unfold identity_value.
    rewrite field_object, as_str_text. done.
Qed.

(** ** Messages *)

Lemma told_stats i ids f e :
  (∀ s, messages_published (f s) = messages_published s) ->
  (∀ s, active_peers (f s) = active_peers s) ->
  (∀ s, mesh_peers_count (f s) = mesh_peers_count s) ->
  told i ids e -> told i ids (on_stats f e).
Proof.
  intros H1 H2 H3 [[Hi Hp Hw Hs Hc] Hids Hn]. constructor; [|done|cbn; by rewrite H1].
  constructor; try done. by apply wf_on_stats.
Qed.

Lemma publish_ends i ids t p :
  usable i -> small p -> compute_message_id t p ∉ ids -> (length ids < 100)%nat ->
  ends (up (told i ids)) (gossip_publish (as_u8 t) p)
    (λ r g, answered (λ id, length id = 32%nat) r ∧ up (told i (compute_message_id t p :: ids)) g).
Proof.
  intros Hu Hp Hid Hlen. apply timed_up. intros now e os Hnow Hos [He Hids Hn].
  pose proof (publish_cases (as_u8 t) p now (e, os)) as Hcases.
  pose proof (publish_wf (as_u8 t) p now (e, os) (ei_wf _ _ _ _ He)) as Hwf.
  destruct (engine_builds i [] false e now t p He Hu) as (env & Henv & _).
  destruct He as [Hi [Hr Httl Hsz] _ Hpeers _].
  destruct (Engine.publish (as_u8 t) p now (e, os)) as [r [e' os2]].
  assert (¬ seen (compute_message_id t p) now e) as Hns.
  { intros (t0 & Hl & _). apply Hid, Hids. by rewrite Hl. }
  assert (from_u8 (as_u8 t) = Some t) as Ht by apply from_as_u8.
  inversion Hcases; subst; cbn [fst] in *; simplify_eq; try (unfold small in Hp; lia); try congruence.
  eexists _, _, _. split; [done|]. split; [done|]. split; [|done]. split; [apply sha256_length|].
  constructor; [by constructor| |].
  - intros id. cbn. destruct (decide (id = compute_message_id t p)) as [->|Hne]; [by left|].
    rewrite lookup_insert_ne by done. intros [ts Hts]. right. apply Hids.
    apply map_lookup_filter_Some in Hts as [Hts _]. by exists ts.
  - cbn. rewrite Hn, wrap_small; [lia|unfold fits; lia].
Qed.

(** Bytes a node [i] made of an envelope it built. *)
Definition written (i : NodeIdentity) (b : bytes) : Prop :=
  ∃ t p ts env, window ts ∧ small p ∧ build_envelope t p i 8 ts = Ok env ∧ serialize env = inr b.

Lemma encode_ends i ids t p :
  usable i -> small p ->
  ends (up (told i ids)) (gossip_encode_envelope (as_u8 t) p)
    (λ r g, answered (written i) r ∧ up (told i ids) g).
Proof.
  intros Hu Hp. apply timed_up. intros now e os Hnow Hos He.
  destruct (engine_builds i [] false e now t p (to_is _ _ _ He) Hu) as (env & Henv & Henv8).
  destruct (serialize_envelope_total env) as [b Hb]; [by eapply (built_fits Hq)|].
  exists (Ok b), e, os. split; [|split_and!; [done|by exists t, p, now, env|done|done]].
  unfold Engine.encode_envelope, payload_type_of. rewrite from_as_u8, lift_bind. cbn [ok_or].
  rewrite engine_bind. cbn [fst]. rewrite (ei_identity _ _ _ _ (to_is _ _ _ He)), Henv, lift_bind.
  unfold Envelope.encode_envelope. by rewrite Hb.
Qed.

Lemma decode_ends i b V :
  written i b ->
  ends (up V) (gossip_decode_envelope b)
    (λ r g, answered (λ json, ∃ v, json_from_str json = inr v ∧
                               default 0%Z (as_u64 (field v "version")) = 1%Z) r ∧ up V g).
Proof.
  intros (t & p & ts & env & _ & _ & Henv & Hb) g os (e & l & -> & He) Hos.
  destruct (envelope_text env) as (text & Ht & Hv).
  exists (Ok text), (mkGlobal (Some e) l), os. split_and!; [|done| |by exists e, l|done].
  - assert (decode_envelope_to_json b = Ok text) as Hj; [|by unfold gossip_decode_envelope; rewrite Hj].
    unfold decode_envelope_to_json, Envelope.decode_envelope.
    rewrite (deserialize_serialize _ _ Hb). cbn. unfold to_json. by rewrite Ht.
  - exists (envelope_value env). split; [done|]. unfold envelope_value. rewrite field_object.
    apply build_envelope_inv in Henv as (s & _ & ->). cbn.
    rewrite bool_decide_true by done. cbn. by rewrite as_u64_number.
Qed.

(** The verdict on bytes that decode, on whatever engine it is given. *)
Lemma verify_ends i ids b env (K : res bool -> Prop) :
  deserialize b = inr env ->
  (∀ c now, plain c -> window now -> K (Envelope.verify_envelope env c now)) ->
  ends (up (told i ids)) (gossip_verify_envelope b) (λ r g, K r ∧ up (told i ids) g).
Proof.
  intros Hb HK. apply timed_up. intros now e os Hnow Hos He.
  rewrite verify_run. unfold Envelope.decode_envelope. rewrite Hb. cbn [map_err fst snd].
  specialize (HK (config e) now (ei_plain _ _ _ _ (to_is _ _ _ He)) Hnow).
  pose proof (verify_envelope_no_panic env (config e) now).
  destruct (Envelope.verify_envelope env (config e) now) as [v|err|]; [| |done];
    eexists _, _, os; (split; [done|]); split_and!; try done; apply told_stats; try done; by destruct v.
Qed.

Lemma written_verifies i j b ids :
  written i b ->
  ends (up (told j ids)) (gossip_verify_envelope b)
    (λ r g, answered (λ v, v = true) r ∧ up (told j ids) g).
Proof.
  intros (t & p & ts & env & Hts & Hp & Henv & Hb).
  apply (verify_ends j ids b env); [by apply deserialize_serialize|].
  intros c now [Hr _ Hsz] Hnow. rewrite (proj2 (verify_envelope_true _ _ _)); [done|].
  pose proof (q_window _ _ _ Hq). unfold in_window, small in *.
  eapply built_accepted; [exact Henv|lia..].
Qed.

(** ** The tampered envelope

    The last sixteen bytes are seven of the signature, the timestamp and the TTL.
    Inverting the last byte of a signature puts its hint out of bounds. *)

Lemma flip_value b : byte_to_Z (flip b) = (255 - byte_to_Z b)%Z.
Proof. by destruct b. Qed.

Lemma tamper_split head sg ts ttl :
  length sg = 3309%nat ->
  tamper (head ++ sg ++ le_bytes 8 ts ++ [byte_of_Z ttl]) =
  head ++ (take 3302 sg ++ map flip (drop 3302 sg)) ++ map flip (le_bytes 8 ts)
    ++ [flip (byte_of_Z ttl)].
Proof.
  intros Hl. unfold tamper.
  set (b := head ++ sg ++ le_bytes 8 ts ++ [byte_of_Z ttl]).
  assert (length b = length head + 3302 + 16)%nat as Hb.
  { unfold b. rewrite !length_app, length_le_bytes, Hl. cbn. lia. }
  rewrite (proj2 (Nat.leb_le _ _)) by lia.
  replace (length b - 16)%nat with (length head + 3302)%nat by lia.
  assert (b = (head ++ take 3302 sg) ++ drop 3302 sg ++ le_bytes 8 ts ++ [byte_of_Z ttl]) as ->.
  { unfold b. rewrite <- (take_drop 3302 sg) at 1. by rewrite <- !(assoc_L (++)). }
  assert (length head + 3302 = length (head ++ take 3302 sg))%nat as Hn.
  { rewrite length_app, length_take, Hl. lia. }
  rewrite take_app_length', drop_app_length' by done.
  rewrite !map_app. by rewrite <- !(assoc_L (++)).
Qed.

Lemma tampered_signature sg :
  length sg = 3309%nat ->
  List.last (take 3302 sg ++ map flip (drop 3302 sg)) (byte_of_Z 0)
  = flip (List.last sg (byte_of_Z 0)).
Proof.
  intros Hl. destruct (exists_last (l:=sg)) as (s & x & ->); [by intros ->|].
  rewrite length_app in Hl. cbn in Hl.
  rewrite drop_app_le, map_app by lia. cbn [map].
  rewrite (assoc_L (++)), !last_last. done.
Qed.

Lemma written_tampered i b :
  written i b ->
  ∃ env, deserialize (tamper b) = inr env ∧
    ∀ c now, Envelope.verify_envelope env c now ≠ Ok true.
Proof.
  intros (t & p & ts & env & Hts & Hp & Henv & Hb).
  apply build_envelope_inv in Henv as (sg & Hsg & ->).
  pose proof (sign_length _ _ _ _ Hsg) as Hl.
  destruct (serialize_tail _ _ Hb) as (head & -> & Htail).
  cbn [set_signature unsigned_envelope env_signature env_timestamp_unix_ms env_ttl] in Htail |- *.
  rewrite tamper_split by done.
  set (sg' := take 3302 sg ++ map flip (drop 3302 sg)).
  rewrite <- (le_bytes_value (map flip (le_bytes 8 ts))), length_map, length_le_bytes.
  rewrite <- (byte_of_to_Z (flip _)).
  eexists. split.
  { apply deserialize_serialize, Htail.
    - unfold sg'. by rewrite length_app, length_map, <- length_app, take_drop.
    - pose proof (le_value_fits (map flip (le_bytes 8 ts))) as Hf.
      by rewrite length_map, length_le_bytes in Hf.
    - apply byte_to_Z_range. }
  intros c now Hv%verify_envelope_true%acc_sig. revert Hv.
  unfold verify_external. case_bool_decide; [done|].
  destruct (sig_verify _ _ _) eqn:Ev; [|done..]. intros _.
  apply hint_count in Ev. cbn [with_tail env_signature] in Ev. unfold sg' in Ev.
  rewrite tampered_signature, flip_value in Ev by done.
  pose proof (verify_signed _ _ _ _ Hsg) as Hv. revert Hv. unfold verify_external.
  case_bool_decide; [done|]. destruct (sig_verify _ _ sg) eqn:Eo; [|done..]. intros _.
  apply hint_count in Eo. lia.
Qed.

Lemma tampered_rejected i j b ids :
  written i b ->
  ends (up (told j ids)) (gossip_verify_envelope (tamper b))
    (λ r g, r ≠ Ok true ∧ up (told j ids) g).
Proof.
  intros (env & Hd & Hv)%written_tampered. apply (verify_ends j ids _ env); [done|].
  intros c now _ _. apply Hv.
Qed.

Lemma written_long i b : written i b -> b ≠ [].
Proof.
  intros (t & p & ts & env & _ & _ & _ & Hb). destruct (serialize_tail _ _ Hb) as (head & -> & _).
  by destruct head, (env_signature env).
Qed.

(** ** Reports *)

Lemma heartbeat_published now e :
  messages_published (stats (heartbeat now e)) = messages_published (stats e).
Proof.
  destruct (maintain_only_mesh (swept now e)) as [l Hl]. by rewrite heartbeat_swept, Hl.
Qed.

Lemma stats_ends i ids :
  (length ids < 100)%nat ->
  ends (up (told i ids)) gossip_get_stats
    (λ r g, answered (λ json, ∃ v, json_from_str json = inr v ∧
       default 0%Z (as_u64 (field v "messages_published")) = Z.of_nat (length ids)) r
     ∧ up (engine_is i [] false) g).
Proof.
  intros Hlen. apply timed_up. intros now e os Hnow Hos [[Hi Hpl Hwf Hpeers _] _ Hn].
  destruct (stats_text (stats (heartbeat now e))) as (text & Htext & Hv).
  exists (Ok text), (heartbeat now e), os. split; [|split; [done|split; [split|done]]].
  - rewrite update_bind, engine_bind. unfold get_stats_json, to_json. cbn [fst]. by rewrite Htext.
  - exists (stats_value (stats (heartbeat now e))). split; [done|].
    unfold stats_value. rewrite field_object. cbn [assoc].
    rewrite bool_decide_true by done. cbn [default from_option id].
    rewrite heartbeat_published, Hn, as_u64_number; [done|]. unfold fits. lia.
  - destruct (heartbeat_frame now e) as [Hcf Hse].
    constructor; rewrite ?heartbeat_identity, ?Hcf, ?Hse; by try apply heartbeat_wf.
Qed.

Lemma peers_ends V :
  ends (up V) gossip_get_peers
    (λ r g, answered (λ json, ∃ l, json_from_str json = inr (JArray l)) r ∧ up V g).
Proof.
  apply report_up. intros e _.
  destruct (peer_array_text (Store.active_peers (sessions e))) as (text & Ht & Hv).
  exists text. split; [|by eexists]. unfold get_peers_json, to_json. by rewrite Ht.
Qed.

Lemma no_session_run i e l x os :
  engine_is i [] false e ->
  gossip_get_session x (mkGlobal (Some e) l, os)
  = (Err (SessionNotFound x), (mkGlobal (Some e) l, os)).
Proof.
  intros He. unfold gossip_get_session, report, with_engine, get_session_json. cbn. unfold_bind. cbn.
  destruct (Store.get (sessions e) x) eqn:Hx; [|done].
  assert (x ∈ []) as []%not_elem_of_nil. apply (ei_peers _ _ _ _ He). by rewrite Hx.
Qed.

Lemma session_ends i x :
  ends (up (engine_is i [] false)) (gossip_get_session x)
    (λ r g, r = Err (SessionNotFound x) ∧ up (engine_is i [] false) g).
Proof.
  intros g os (e & l & -> & He) Hos.
  exists (Err (SessionNotFound x)), (mkGlobal (Some e) l), os.
  split_and!; [by apply (no_session_run i)|done|done|by exists e, l|done].
Qed.

(** ** New keys *)

Lemma rotate_ends i :
  ends (up (engine_is i [] false)) gossip_rotate_keys
    (λ r g, ∃ i', answered (λ id, id = node_id i' ∧ fit i') r ∧ up (engine_is i' [] false) g).
Proof.
  intros g os (e & l & -> & He) Hos.
  destruct (q_generate _ _ _ Hq (key_epoch (config e)) os Hos) as (i' & os' & Hos' & Hu & Hd & Hg).
  destruct (from_identity_self_derived i' Hd) as [l' Hl'].
  exists (Ok (node_id i')), (mkGlobal (Some (set_identity i' e)) (Some l')), os'.
  split_and!; [|done|exists i'; split; [by split_and!|]|done].
  - unfold gossip_rotate_keys, with_engine, on_engine, zoom, closure_lineage. cbn. unfold_bind. cbn.
    rewrite rotate_keys_run, Hg. cbn. by rewrite Hl'.
  - exists (set_identity i' e), (Some l'). split; [done|]. destruct He. constructor; try done.
    by apply wf_set_identity.
Qed.

(** ** The probed engine: tests 15 and 16 *)

Lemma wire_nonempty {A} `{HandshakeMessage A} `{!Bincode A, !BincodeHead A hm_magic} (m : A) b :
  wire_out m = Ok b -> b ≠ [].
Proof. intros Hw%wire_out_ok. apply (serialize_head (head:=hm_magic)) in Hw as [rest ->]. done. Qed.

(** A probe in flight, as its sender holds it. *)
Record in_flight (sa : string) (i : NodeIdentity) (t : Z) (cn pb : bytes) : Prop := {
  if_window : window t;
  if_names : short (String.length sa);
  if_probe : on_probe sa i t cn pb;
}.

Definition probing (sa : string) (i : NodeIdentity) (t : Z) (cn pb : bytes) (e : GossipEngine) : Prop :=
  engine_is i [] false e ∧
  pending (handshakes e) !! sa = Some (Client (ProbeSent (mkProbeSent cn pb t))).

Lemma names_of sa i j : short (String.length sa) -> fit i -> fit j -> names_short sa i j.
Proof. intros Hs [Hi _] [Hj _]. constructor; [done|apply Hi|apply Hj]. Qed.

Lemma set_handshakes_is i m e :
  engine_is i [] false e -> engine_wf (set_handshakes m e) -> engine_is i [] false (set_handshakes m e).
Proof. by intros [] ?. Qed.

Lemma probe_ends i sa :
  fit i -> short (String.length sa) ->
  ends (up (engine_is i [] false)) (gossip_connect_peer sa)
    (λ r g, ∃ x : Z * bytes * bytes,
       answered (λ b, b = x.2 ∧ in_flight sa i x.1.1 x.1.2 x.2) r
       ∧ up (probing sa i x.1.1 x.1.2 x.2) g).
Proof.
  intros Hi Hsa. eapply ends_conseq; [apply (timed_made _ _ (λ r e, ∃ x : Z * bytes * bytes,
    answered (λ b, b = x.2 ∧ in_flight sa i x.1.1 x.1.2 x.2) r ∧ probing sa i x.1.1 x.1.2 x.2 e))|].
  2: { intros r g (e & l & -> & x & Hr & He). exists x. split; [done|by exists e, l]. }
  intros t e os Ht Hos He. destruct (q_random _ _ _ Hq 32%nat os Hos) as (cn & os' & Hcn & Hos').
  destruct (run_probe sa i i t t t t t (handshakes e) os os' cn) as (pb & Hp & Hrun);
    [by apply (window_in_time Hq)|by apply names_of|done|].
  set (m := Handshakes.insert_pending sa (Client (ProbeSent (mkProbeSent cn pb t))) (handshakes e)) in Hrun.
  assert (connect_peer sa t (e, os) = (Ok pb, (set_handshakes m e, os'))) as E.
  { apply connect_run; [|by rewrite (ei_identity _ _ _ _ He)].
    apply eq_None_not_Some. by intros []%(ei_peers _ _ _ _ He)%not_elem_of_nil. }
  exists (Ok pb), (set_handshakes m e), os'. split; [done|]. split; [done|]. split; [|done].
  exists (t, cn, pb). split; [by split|]. split; [|apply lookup_insert_eq].
  apply set_handshakes_is; [done|].
  pose proof (connect_peer_wf sa t (e, os) (ei_wf _ _ _ _ He)) as Hw. by rewrite E in Hw.
Qed.

Section Answer.
Context (sa : string) (i j : NodeIdentity) (t1 t2 : Z) (cn pb : bytes).
Context (Hi : fit i) (Hj : fit j) (Hf : in_flight sa i t1 cn pb) (Ht2 : window t2).

Lemma answer_ends ca :
  ends (λ m, m = Handshakes.new) (Handshakes.process_incoming ca pb j t2)
    (λ r _, answered (λ ab, ∃ sn kj, on_ack sa i j t1 t2 cn pb sn kj ab) r).
Proof.
  destruct Hf as [Ht1 Hsa Hp]. intros m os -> Hos.
  destruct (q_random _ _ _ Hq 32%nat os Hos) as (sn & os' & Hsn & Hos').
  destruct Hj as [[_ (kj & Hkj & Hkjs) _] _].
  destruct (run_ack ca sa i j t1 t2 t2 t2 t2 Handshakes.new os os' cn pb sn kj) as (ab & Ha & Hrun);
    [by apply (window_in_time Hq)|by apply names_of|done..|].
  eexists (Ok ab), _, os'. split; [|by split_and!; [|exists sn, kj|]].
  unfold Handshakes.process_incoming.
  by rewrite (probe_classified _ _ _ _ _ Hp).
Qed.

Lemma finish_ends ab sn kj :
  on_ack sa i j t1 t2 cn pb sn kj ab ->
  ends (up (probing sa i t1 cn pb)) (gossip_process_handshake_bytes sa ab)
    (λ r g, True ∧ up (engine_is i [] false) g).
Proof.
  destruct Hf as [Ht1 Hsa Hp]. intros Ha. apply timed_up. intros t e os Ht Hos [He Hpend].
  destruct (q_encapsulate _ _ _ Hq j os Hos (proj1 Hj))
    as (ct & ss & key & cj & ctb & os' & Henc & Hkey & Hcj & Hcjs & Hctb & Hos').
  destruct (run_finish sa i j t1 t2 t t t (handshakes e) os os' cn pb sn kj ab ct ss key cj ctb)
    as (fb & Hfb & _ & Hrun); [by apply (window_in_time Hq)|by apply names_of|done..|].
  match type of Hrun with _ = (_, (?m', _)) => set (m := m') in Hrun end.
  assert (process_handshake_bytes sa ab t (e, os) = (Ok (Some fb), (set_handshakes m e, os'))) as E.
  { apply ack_run; [|by rewrite (ei_identity _ _ _ _ He)].
    by eapply ack_classified. }
  pose proof (process_handshake_bytes_wf sa ab t (e, os) (ei_wf _ _ _ _ He)) as Hw. rewrite E in Hw.
  eexists _, _, os'. split; [exact E|]. split; [done|]. split; [split; [done|]|done].
  by apply set_handshakes_is.
Qed.
End Answer.

(** ** The two managers: test 17 *)

Lemma on_alice_ok {A} (m : method (HandshakeManager * Os) A) a b os r a' os' :
  m (a, os) = (Ok r, (a', os')) -> on_alice m ((a, b), os) = (Ok r, ((a', b), os')).
Proof. intros E. unfold on_alice, zoom. cbn. by rewrite E. Qed.

Lemma on_bob_ok {A} (m : method (HandshakeManager * Os) A) a b os r b' os' :
  m (b, os) = (Ok r, (b', os')) -> on_bob m ((a, b), os) = (Ok r, ((a, b'), os')).
Proof. intros E. unfold on_bob, zoom. cbn. by rewrite E. Qed.

Lemma clock_run {S} (s : S) os :
  Q os -> ∃ t os', window t ∧ Q os' ∧
    Handshakes.current_time_unix_ms (s, os) = (Ok t, (s, os')).
Proof.
  intros Hos. destruct (q_clock _ _ _ Hq os Hos) as (t & os' & Ht & Hw & Hos').
  exists t, os'. split; [done|]. split; [done|]. unfold Handshakes.current_time_unix_ms. cbn. rewrite Ht.
  pose proof (q_window _ _ _ Hq). rewrite wrap_small by (unfold fits; lia). done.
Qed.

Lemma create_probe_run sa i j m os :
  fit i -> fit j -> short (String.length sa) -> Q os ->
  ∃ t cn pb os', in_flight sa i t cn pb ∧ Q os' ∧
    Handshakes.create_identity_probe sa i (m, os)
    = (Ok pb, (Handshakes.insert_pending sa (Client (ProbeSent (mkProbeSent cn pb t))) m, os')).
Proof.
  intros Hi Hj Hsa Hos. destruct (clock_run m os Hos) as (t & o1 & Hw & Ho1 & Ht).
  destruct (q_random _ _ _ Hq 32%nat o1 Ho1) as (cn & o2 & Hcn & Ho2).
  destruct (run_probe sa i j t t t t t m o1 o2 cn) as (pb & Hp & Hrun);
    [by apply (window_in_time Hq)|by apply names_of|done|].
  exists t, cn, pb, o2. split; [by split|]. split; [done|].
  unfold Handshakes.create_identity_probe.
  by rewrite (st_bind_run _ _ _ _ _ Ht).
Qed.

Lemma roundtrip_run i j t0 os :
  fit i -> fit j -> window t0 -> Q os ->
  ∃ ma mb sa sb okm os', Q os' ∧ length okm = 32%nat ∧
    roundtrip i j t0 ((Handshakes.new, Handshakes.new), os) = (Ok tt, ((ma, mb), os')) ∧
    completed ma !! "bob"%string = Some sa ∧ completed mb !! "alice"%string = Some sb ∧
    session_id sa = hex_encode okm ∧ session_id sb = hex_encode okm.
Proof.
  intros Hi Hj Ht0 Hos.
  assert (names_short "bob" i j) as Hn by (by apply names_of).
  destruct (create_probe_run "bob" i j Handshakes.new os Hi Hj) as (t & cn & pb & o1 & [Ht _ Hp] & Q1 & E1);
    [done..|].
  assert (in_time t t0 t0 t0 t0) as Hin by (by apply (window_in_time Hq)).
  destruct (q_random _ _ _ Hq 32%nat o1 Q1) as (sn & o2 & Hsn & Q2).
  pose proof Hj as [[Hsign (kj & Hkj & Hkjs) _] _].
  destruct (run_ack "alice" "bob" i j t t0 t0 t0 t0 Handshakes.new o1 o2 cn pb sn kj)
    as (ab & Ha & E2); [done..|].
  destruct (q_encapsulate _ _ _ Hq j o2 Q2 (proj1 Hj))
    as (ct & ss & key & cj & ctb & o3 & Henc & Hkey & Hcj & Hcjs & Hctb & Q3).
  edestruct (run_finish "bob" i j t t0 t0 t0 t0 (Handshakes.insert_pending "bob"
    (Client (ProbeSent (mkProbeSent cn pb t))) Handshakes.new)) as (fb & Hf & Hen & E3);
    [done|done|exact Ha|apply lookup_insert_eq|done..|].
  edestruct (run_finish_ack "alice" i j t t0 t0 t0 t0 (Handshakes.insert_pending "alice"
    (Server (AckSent (mkAckSent cn sn pb ab t0))) Handshakes.new)) with (os := o3) as (fa & kb & Hk & E4);
    [done|done|exact Hf|exact Hen|apply lookup_insert_eq|].
  match type of E3 with _ = (_, (?m, _)) =>
    pose proof (run_done "bob" i j t t0 t0 t0 t0 m o3 cn pb sn kj ab key ctb fb fa kb Hin Hk
      (lookup_insert_eq _ _ _)) as E5
  end.
  destruct (finish_session_id _ _ _ _ _ _ _ _ E4) as (okm & Hl & Hid).
  apply (incoming_probe_run "alice") in E2; [|by eapply probe_classified].
  apply (incoming_ack_run "bob") in E3; [|by eapply ack_classified].
  apply (incoming_finish_run "alice") in E4; [|by eapply finish_classified].
  apply (incoming_finish_ack_run "bob" i) in E5; [|by eapply finish_ack_classified].
  eexists _, _, _, _, okm, o3. split; [done|]. split; [done|]. split.
  { unfold roundtrip.
    rewrite (st_bind_run _ _ _ _ _ (on_alice_ok _ _ _ _ _ _ _ E1)).
    rewrite (st_bind_run _ _ _ _ _ (on_bob_ok _ _ _ _ _ _ _ E2)).
    rewrite (st_bind_run _ _ _ _ _ (on_alice_ok _ _ _ _ _ _ _ E3)).
    rewrite (st_bind_run _ _ _ _ _ (on_bob_ok _ _ _ _ _ _ _ E4)).
    by rewrite (st_bind_run _ _ _ _ _ (on_alice_ok _ _ _ _ _ _ _ E5)). }
  split; [apply lookup_insert_eq|]. split; [apply lookup_insert_eq|]. by split.
Qed.
End Calls.
