(* ===== verification/ValidateThms.v ===== *)
(** * The validator passes

    The twenty checks of [witan/src/bin/validate_api.rs], one lemma each, and the
    program: in every quiet environment every check passes and the exit status
    is 0. *)

From S2P Require Import Prelude Errors Types Extern F64 Config Dedup Quorum Session Identity Envelope Rotation Handshake HandshakeThms Engine EngineThms Api ApiThms Component Host HostThms NodeRuns HarnessThms Validate ValidateRuns.
Import Engine Api.

Section ValidateThms.
Context {X : Ext} {W : WireCodecs} {J : JsonOut} `{!FromJson GossipConfig}.
Context {HJ : HostJson} {VQ : ValueQueries}.
Context {L : ExtLaws} {WL : WireLaws} {WTo : WireTotal} {JL : HostJsonLaws} {CJ : ConfigJsonLaws}.
Context {RL : ReportLaws} {HD : HexDigits} {ET : EnvelopeTail} {SH : SignatureHint}.
Context {Q : Os -> Prop} {lo hi : Z} (Hq : quiet Q lo hi).

Abbreviation runs I m J := (HostThms.runs Q I m J).
Abbreviation ends I m J := (ValidateRuns.ends (Q:=Q) I m J).
Abbreviation sealed := (written (lo:=lo) (hi:=hi)).
Abbreviation probe_in_flight := (in_flight (lo:=lo) (hi:=hi)).
Abbreviation window := (in_window (lo:=lo) (hi:=hi)).

(** A test that passes, and what it leaves. *)
Definition passes {A} n I (m : ST ((Global * Tally) * Os) Empty_set A) (K : A -> Prop) I' : Prop :=
  runs (tallied n I) m (λ a s, K a ∧ tallied (S n) I' s).

Abbreviation unit_passes n I m I' := (passes n I m (λ _ : unit, True) I').

Lemma pass_passes n I : unit_passes n I pass I.
Proof. eapply runs_conseq; [apply pass_runs|done|done]. Qed.

(** A parsed report. *)
Lemma parsed_runs {S E F A B} (I : S -> Prop) (r : F + A) v (k : A -> ST (S * Os) E B) J' :
  r = inr v -> runs I (k v) J' -> runs I (lift (unwrap r) ≫= k) J'.
Proof. intros -> Hk. exact Hk. Qed.

Lemma reported_runs I json v :
  json_from_str json = inr v ->
  runs I (reported_id json) (λ x s, x = unwrap_or_empty (as_str (field v "node_id")) ∧ I s).
Proof. intros Hv. unfold reported_id. eapply parsed_runs; [exact Hv|]. intros s os Hs Hos. by eexists _, s, os. Qed.

(** A call that succeeds, and what follows it. *)
Lemma succeeding {A B} n I (m : method (Global * Os) A) (K : A -> Prop) I'
    (k : GossipError + A -> ST ((Global * Tally) * Os) Empty_set B) J' :
  ends I m (λ r g, answered K r ∧ I' g) ->
  (∀ a, K a -> runs (tallied n I') (k (inr a)) J') ->
  runs (tallied n I) (matched m ≫= k) J'.
Proof.
  intros Hm Hk. eapply runs_bind_fact; [exact (matched_runs n I m (answered K) I' Hm)|]. intros [e|a] Ha; [done|by apply Hk].
Qed.

(** ** Test by test *)

Lemma version_passes n I : unit_passes n I test_version I.
Proof. unfold test_version. rewrite bool_decide_false by done. apply pass_passes. Qed.

Lemma init_passes n :
  runs (tallied n (λ g, g = uninitialized)) test_init
    (λ _ s, ∃ i, fit i ∧ tallied (S n) (up (told i [])) s).
Proof.
  unfold test_init. eapply runs_bind; [exact (matched_made _ _ _ _ _ (init_ends Hq))|].
  intros [e|[]] s os (i & Hi & Hs) Hos; [done|].
  destruct (pass_runs n (up (told i [])) s os Hs Hos) as (a & s' & os' & E & Hs' & Hos').
  exists a, s', os'. split_and!; [done|by exists i|done].
Qed.

Lemma identity_passes n i V :
  fit i -> (∀ e, V e -> identity e = i) -> unit_passes n (up V) test_identity (up V).
Proof.
  intros Hi HV. unfold test_identity.
  eapply succeeding; [by apply identity_ends; [apply Hi|]|]. intros json (v & Hv & Hid).
  eapply runs_bind_fact; [by apply reported_runs|]. cbv beta. intros x ->.
  rewrite Hid, fit_node_id by done. apply pass_passes.
Qed.

Lemma publish_passes n i ids t p :
  fit i -> small p -> compute_message_id t p ∉ ids -> (length ids < 100)%nat ->
  unit_passes n (up (told i ids)) (test_publish t p) (up (told i (compute_message_id t p :: ids))).
Proof.
  intros [Hu _] Hp Hid Hl. unfold test_publish.
  eapply succeeding; [by apply (publish_ends Hq)|]. intros id ->. apply pass_passes.
Qed.

Lemma encode_passes n i ids :
  fit i -> passes n (up (told i ids)) test_encode (sealed i) (up (told i ids)).
Proof.
  intros [Hu _]. unfold test_encode.
  eapply succeeding; [by apply (encode_ends Hq)|]. intros b Hb.
  pose proof (written_long i b Hb). destruct b; [done|]. by apply pass_with.
Qed.

Lemma decode_passes n i b V :
  sealed i b -> unit_passes n (up V) (test_decode b) (up V).
Proof.
  intros Hb. unfold test_decode. pose proof (written_long i b Hb). destruct b as [|x b']; [done|].
  eapply succeeding; [by eapply decode_ends|]. intros json (v & Hv & Hver).
  eapply parsed_runs; [exact Hv|]. rewrite Hver. apply pass_passes.
Qed.

Lemma verify_passes n i j b ids :
  sealed i b -> unit_passes n (up (told j ids)) (test_verify b) (up (told j ids)).
Proof.
  intros Hb. unfold test_verify. pose proof (written_long i b Hb). destruct b as [|x b']; [done|].
  eapply succeeding; [by apply (written_verifies Hq i)|]. intros v ->. apply pass_passes.
Qed.

Lemma tampered_passes n i j b ids :
  sealed i b -> unit_passes n (up (told j ids)) (test_tampered b) (up (told j ids)).
Proof.
  intros Hb. unfold test_tampered. pose proof (written_long i b Hb). destruct b as [|x b']; [done|].
  eapply runs_bind_fact; [exact (matched_runs _ _ _ _ _ (tampered_rejected Hq i j _ ids Hb))|].
  intros [e|[]] Hr; [apply pass_passes|done|apply pass_passes].
Qed.

Lemma stats_passes n i ids :
  (5 <= length ids < 100)%nat ->
  unit_passes n (up (told i ids)) test_stats (up (engine_is i [] false)).
Proof.
  intros Hl. unfold test_stats. eapply succeeding; [apply (stats_ends Hq); lia|].
  intros json (v & Hv & Hn). eapply parsed_runs; [exact Hv|]. rewrite Hn.
  rewrite (proj2 (Z.leb_le _ _)) by lia. apply pass_passes.
Qed.

Lemma peers_passes n V : unit_passes n (up V) test_peers (up V).
Proof.
  unfold test_peers. eapply succeeding; [by apply peers_ends|].
  intros json (l & Hv). eapply parsed_runs; [exact Hv|].
  rewrite is_array_array, as_array_array. apply pass_passes.
Qed.

Lemma no_session_passes n i :
  unit_passes n (up (engine_is i [] false)) test_no_session (up (engine_is i [] false)).
Proof.
  unfold test_no_session. eapply runs_bind_fact; [exact (matched_runs _ _ _ _ _ (session_ends i _))|].
  intros [e|a] Hr; [|done]. injection Hr as ->. apply pass_passes.
Qed.

(** ** Handshakes *)

Lemma probed_short : short (String.length probed_addr).
Proof. done. Qed.

Lemma probe_passes n i :
  fit i ->
  runs (tallied n (up (engine_is i [] false))) test_probe
    (λ b s, ∃ x : Z * bytes * bytes, (b = x.2 ∧ probe_in_flight probed_addr i x.1.1 x.1.2 x.2)
       ∧ tallied (S n) (up (probing probed_addr i x.1.1 x.1.2 x.2)) s).
Proof.
  intros Hi. unfold test_probe. eapply runs_bind; [exact (matched_made _ _ _ _ _ (probe_ends Hq i probed_addr Hi probed_short))|].
  intros [e|b] s os ([[t cn] pb] & Hx & Hs) Hos; [done|]. destruct Hx as [-> Hf]. cbn [snd fst] in *.
  pose proof (wire_nonempty _ _ (proj2 (if_probe _ _ _ _ _ Hf))) as Hne.
  destruct (pass_with n _ pb (λ b, b = pb) eq_refl s os Hs Hos)
    as (a & s' & os' & E & [-> Hs'] & Hos').
  exists pb, s', os'. split_and!; [by destruct pb|by exists (t, cn, pb)|done].
Qed.

Lemma local_identity_runs I : runs I test_identity_of (λ i s, fit i ∧ I s).
Proof.
  unfold test_identity_of. eapply runs_bind_fact.
  { apply (on_local_runs I tt _ (λ r _, answered fit r)). intros t os -> Hos.
    destruct (q_generate _ _ _ Hq "test" os Hos) as (i & os' & Hos' & Hu & Hd & Hg).
    exists (Ok i), tt, os'. by rewrite Hg. }
  intros [[e|i] t] Hi; [done|]. by apply ret_fact.
Qed.

Lemma now_runs I : runs I Validate.now_ms (λ t s, window t ∧ I s).
Proof.
  unfold Validate.now_ms. eapply runs_bind_fact.
  { apply (on_local_runs I tt _ (λ r _, answered window r)). intros u os -> Hos.
    destruct (clock_run Hq tt os Hos) as (t & os' & Ht & Hos' & E). by exists (Ok t), tt, os'. }
  intros [[e|t] u] Ht; [done|]. by apply ret_fact.
Qed.

Lemma answer_passes n i t cn b :
  fit i -> probe_in_flight probed_addr i t cn b ->
  unit_passes n (up (probing probed_addr i t cn b)) (test_answer b) (up (engine_is i [] false)).
Proof.
  intros Hi Hf. unfold test_answer.
  pose proof (wire_nonempty _ _ (proj2 (if_probe _ _ _ _ _ Hf))) as Hne.
  destruct b as [|x b']; [done|]. set (b := x :: b') in *. clear Hne.
  eapply runs_bind_fact; [apply local_identity_runs|]. cbv beta. intros j Hj.
  eapply runs_bind_fact; [apply now_runs|]. cbv beta. intros t2 Ht2.
  eapply runs_bind_fact.
  { exact (on_local_runs _ _ _ _ (answer_ends Hq _ i j t t2 cn b Hi Hj Hf Ht2 probed_addr)). }
  intros [[e|ab] m]; cbn [fst outcome answered]; [done|]. intros (sn & kj & Ha).
  pose proof (wire_nonempty _ _ (oa_wire _ _ _ _ _ _ _ _ _ _ Ha)) as Hne.
  destruct ab as [|y ab']; [done|].
  eapply runs_bind_fact; [apply pass_passes|]. intros [] _.
  eapply runs_bind_fact.
  { exact (matched_runs _ _ _ _ _ (finish_ends Hq _ i j t t2 cn b Hi Hj Hf Ht2 _ sn kj Ha)). }
  intros r _. by apply (ret_fact tt (λ _, True)).
Qed.

Lemma first_16_hex {E} b : length b = 32%nat -> ∃ s, first_16 (E:=E) (hex_encode b) = Ok s.
Proof.
  intros Hb. unfold first_16. pose proof (hex_encode_digits b) as Hd.
  pose proof (hex_encode_length b) as Hl. rewrite <- length_as_bytes, Hb in Hl.
  set (h := as_bytes (hex_encode b)) in *.
  rewrite forallb_forall in Hd. destruct (drop 16 h) as [|x r] eqn:Hx.
  { apply (f_equal length) in Hx. rewrite length_drop in Hx. cbn in Hx. lia. }
  assert (is_ascii_hexdigit x = true) as Hx'.
  { apply Hd. rewrite <- (take_drop 16 h), Hx. apply in_or_app. right. by left. }
  unfold is_ascii_hexdigit in Hx'.
  rewrite (proj2 (Z.leb_gt 128 (byte_to_Z x))) by lia. by eexists.
Qed.

Lemma roundtrip_passes n I : unit_passes n I test_roundtrip I.
Proof.
  unfold test_roundtrip.
  eapply runs_bind_fact; [apply local_identity_runs|]. cbv beta. intros i Hi.
  eapply runs_bind_fact; [apply local_identity_runs|]. cbv beta. intros j Hj.
  eapply runs_bind_fact; [apply now_runs|]. cbv beta. intros t Ht.
  eapply runs_bind_fact.
  { apply (on_local_runs _ _ _ (λ r ms, r = Ok tt ∧ ∃ sa sb okm,
      length okm = 32%nat ∧ completed ms.1 !! "bob"%string = Some sa ∧
      completed ms.2 !! "alice"%string = Some sb ∧
      session_id sa = hex_encode okm ∧ session_id sb = hex_encode okm)). intros ms os -> Hos.
    destruct (roundtrip_run Hq i j t os Hi Hj Ht Hos)
      as (ma & mb & sa & sb & okm & os' & Hos' & Hl & E & Ha & Hb & Hia & Hib).
    exists (Ok tt), (ma, mb), os'. split; [exact E|]. split; [done|]. split; [|done].
    split; [done|]. by exists sa, sb, okm. }
  intros [[e|[]] [ma mb]]; cbn [fst snd outcome]; [by intros []|].
  intros (_ & sa & sb & okm & Hl & Ha & Hb & Hia & Hib).
  unfold Handshakes.is_handshake_complete, Handshakes.is_complete, Handshakes.get_session.
  rewrite Ha, Hb, !bool_decide_true by done. cbn [andb].
  destruct (first_16_hex (E:=Empty_set) okm Hl) as [s Hs]. rewrite Hia, Hib, Hs.
  rewrite bool_decide_true by done. apply pass_passes.
Qed.

(** ** New keys *)

Lemma rotate_passes n i :
  runs (tallied n (up (engine_is i [] false))) test_rotate
    (λ id s, ∃ i', (id = node_id i' ∧ fit i') ∧ tallied (S n) (up (engine_is i' [] false)) s).
Proof.
  unfold test_rotate. eapply runs_bind; [exact (matched_made _ _ _ _ _ (rotate_ends Hq i))|].
  intros [e|id] s os (i' & Hx & Hs) Hos; [done|]. destruct Hx as [-> Hi'].
  rewrite fit_node_id by done.
  destruct (pass_with n _ _ (λ b, b = node_id i') eq_refl s os Hs Hos)
    as (a & s' & os' & E & [-> Hs'] & Hos').
  exists (node_id i'), s', os'. split_and!; [done|by exists i'|done].
Qed.

Lemma new_identity_passes n i V :
  fit i -> (∀ e, V e -> identity e = i) -> unit_passes n (up V) (test_new_identity (node_id i)) (up V).
Proof.
  intros Hi HV. unfold test_new_identity.
  eapply succeeding; [by apply identity_ends; [apply Hi|]|]. intros json (v & Hv & Hid).
  eapply runs_bind_fact; [by apply reported_runs|]. cbv beta. intros x ->.
  rewrite Hid, fit_node_id by done. rewrite (bool_decide_true (node_id i = node_id i)) by done.
  rewrite bool_decide_false; [apply pass_passes|].
  intros He. pose proof (self_derived_length i (proj2 Hi)) as Hl. by rewrite He in Hl.
Qed.

(** ** The program *)

(** The messages the program publishes, and their ids, the last first. *)
Definition published : list (PayloadType * bytes) :=
  [(PeerDiscovery, as_bytes "peer-discovery-data"); (StateSync, as_bytes "state-sync-data");
   (FinalityVote, as_bytes "finality-vote-data");
   (BlockProposal, as_bytes "block-proposal-data"); (Transaction, as_bytes "tx-payload-data")].

Definition published_ids : list bytes := map (λ m, compute_message_id m.1 m.2) published.

(** A test, then the rest. *)
Lemma after {A B} n I (m : ST ((Global * Tally) * Os) Empty_set A) K I'
    (k : A -> ST ((Global * Tally) * Os) Empty_set B) J' :
  passes n I m K I' -> (∀ a, K a -> runs (tallied (S n) I') (k a) J') ->
  runs (tallied n I) (m ≫= k) J'.
Proof. intros Hm Hk. by eapply runs_bind_fact. Qed.

Lemma five_published n i (k : unit -> ST ((Global * Tally) * Os) Empty_set Z) J' :
  fit i -> NoDup published_ids ->
  runs (tallied (5 + n) (up (told i published_ids))) (k tt) J' ->
  runs (tallied n (up (told i []))) (
    _ ← test_transaction;
    _ ← test_block_proposal;
    _ ← test_finality_vote;
    _ ← test_state_sync;
    test_peer_discovery ≫= k) J'.
Proof.
  intros Hi Hnd Hk. unfold published_ids, published in *. cbn [map fst snd] in *.
  rewrite !NoDup_cons in Hnd. destruct Hnd as (N5 & N4 & N3 & N2 & N1 & _).
  eapply after; [apply publish_passes; [done|done|exact N1|cbn; lia]|intros [] _].
  eapply after; [apply publish_passes; [done|done|exact N2|cbn; lia]|intros [] _].
  eapply after; [apply publish_passes; [done|done|exact N3|cbn; lia]|intros [] _].
  eapply after; [apply publish_passes; [done|done|exact N4|cbn; lia]|intros [] _].
  by eapply after; [apply publish_passes; [done|done|exact N5|cbn; lia]|intros [] _].
Qed.

Lemma validate_runs :
  NoDup published_ids ->
  runs (tallied 0 (λ g, g = uninitialized)) validate
    (λ status s, status = 0%Z ∧ ∃ i, tallied 20 (up (engine_is i [] false)) s).
Proof.
  intros Hnd. unfold validate.
  eapply after; [apply version_passes|intros [] _].
  eapply (runs_bind_made Q _ _ (λ i _, fit i)); [apply init_passes|]. intros [] i Hi.
  eapply after; [by apply (identity_passes _ i); [|by intros e [[]]]|intros [] _].
  apply five_published; [done..|].
  eapply after; [by apply encode_passes|]. intros b Hb.
  eapply after; [by eapply decode_passes|intros [] _].
  eapply after; [by eapply verify_passes|intros [] _].
  eapply after; [by eapply tampered_passes|intros [] _].
  eapply after; [apply stats_passes; cbn; lia|intros [] _].
  eapply after; [apply peers_passes|intros [] _].
  eapply runs_bind_made; [by apply probe_passes|]. cbv beta. intros pb [[t cn] pb'] [-> Hf].
  cbn [fst snd] in *.
  eapply after; [by apply answer_passes|intros [] _].
  eapply after; [apply roundtrip_passes|intros [] _].
  eapply after; [apply no_session_passes|intros [] _].
  eapply runs_bind_made; [apply rotate_passes|]. cbv beta. intros id i' [-> Hi'].
  eapply after; [by apply (new_identity_passes _ i'); [|by intros e []]|intros [] _].
  intros [g c] os [Hg Hc] Hos. cbn in Hg, Hc. subst c. eexists _, _, os.
  split_and!; [done|done|by exists i'|done].
Qed.

(** C24. The validator passes.  In a quiet environment (the clock stays within half
    a minute, entropy and key encapsulation do not fail), when the ids of the
    five messages it publishes are different, the program ends with status 0 and
    the counters at twenty passed and none failed, whatever keys, nonces and
    times it meets.  That is as much as its tests ask: the eighteenth would also
    take a session for an answer, the last two only ask whether the id a rotation
    returned is the one reported next.  What the program leaves is initialized
    and has no session: asked for the session of any peer it answers that there
    is none. *)
Theorem validation_passes (os : Os) (Hids : NoDup published_ids) (Hos : Q os) :
  ∃ e l os',
    let g := mkGlobal (Some e) l in
    validate ((uninitialized, mkTally 0 0), os) = (Ok 0%Z, ((g, mkTally 20 0), os')) ∧
    Validate.main os = (Ok 0%Z, os') ∧ Q os' ∧
    ∀ addr os2, gossip_get_session addr (g, os2) = (Err (SessionNotFound addr), (g, os2)).
Proof.
  destruct (validate_runs Hids (uninitialized, mkTally 0 0) os)
    as (z & [g c] & os' & E & [-> (i & Hg & Hc)] & Hos'); [done|done|]. cbn in Hg, Hc. subst c.
  destruct Hg as (e & l & -> & He). exists e, l, os'. cbv zeta. split; [done|].
  split; [by unfold Validate.main; rewrite E|]. split; [done|]. intros addr os2.
  by apply (no_session_run i).
Qed.
End ValidateThms.
