(* ===== verification/Codec.v ===== *)
(** * A fixed-width codec

    bincode's default encoding as a concrete function: little-endian integers of
    fixed width, an eight-byte length before every vector and string, a tag
    byte before an option, fields in order.  The development is stated against
    the classes of [Extern]; this file builds instances of them and proves
    their laws, which the concrete runs of [Sample] and [Witnesses] use. *)

From S2P Require Import Prelude Errors Types Extern F64 Rotation Lineage LineageThms Storage.

Record codec (A : Type) : Type := mkCodec {
  enc : A -> option bytes;
  dec : bytes -> option (A * bytes);
}.
Arguments mkCodec {A} _ _.
Arguments enc {A} _ _.
Arguments dec {A} _ _.

(** Decoding reads back what was encoded and leaves the rest. *)
Class Lawful {A} (c : codec A) : Prop :=
  dec_enc (a : A) (b r : bytes) : enc c a = Some b -> dec c (b ++ r) = Some (a, r).

(** The value has an encoding. *)
Definition encodable {A} (c : codec A) (a : A) : Prop := is_Some (enc c a).

(** ** Combinators *)

#[global] Instance fits_dec w z : Decision (fits w z).
Proof. unfold fits. apply _. Defined.

Definition int_codec (k : nat) : codec Z := mkCodec
  (λ z, if bool_decide (fits (8 * Z.of_nat k) z) then Some (le_bytes k z) else None)
  (λ b, if bool_decide (k <= length b)%nat then Some (le_value (take k b), drop k b) else None).

#[global] Instance int_lawful k : Lawful (int_codec k).
Proof.
  intros z b r. cbn. case_bool_decide as Hz; [|done]. intros [= <-].
  rewrite bool_decide_true by (rewrite length_app, length_le_bytes; lia).
  rewrite take_app_length', drop_app_length' by (symmetry; apply length_le_bytes).
  by rewrite le_value_bytes.
Qed.

Lemma int_encodable k z : fits (8 * Z.of_nat k) z -> encodable (int_codec k) z.
Proof. intros Hz. unfold encodable. cbn. by rewrite bool_decide_true. Qed.

Definition array_codec (n : nat) : codec bytes := mkCodec
  (λ a, if bool_decide (length a = n) then Some a else None)
  (λ b, if bool_decide (n <= length b)%nat then Some (take n b, drop n b) else None).

#[global] Instance array_lawful n : Lawful (array_codec n).
Proof.
  intros a b r. cbn. case_bool_decide as Hn; [|done]. intros [= ->].
  rewrite bool_decide_true by (rewrite length_app; lia).
  by rewrite take_app_length', drop_app_length'.
Qed.

Lemma array_encodable n a : length a = n -> encodable (array_codec n) a.
Proof. intros Hn. unfold encodable. cbn. by rewrite bool_decide_true. Qed.

Definition pair_codec {A B} (c : codec A) (d : codec B) : codec (A * B) := mkCodec
  (λ x, a ← enc c x.1; b ← enc d x.2; mret (a ++ b))
  (λ b, '(x, r) ← dec c b; '(y, r') ← dec d r; mret ((x, y), r')).

#[global] Instance pair_lawful {A B} (c : codec A) (d : codec B) :
  Lawful c -> Lawful d -> Lawful (pair_codec c d).
Proof.
  intros Hc Hd [x y] b r. cbn. intros (bx & Hx & (b2 & Hy & [= <-])%bind_Some)%bind_Some.
  rewrite <- (assoc_L (++)), (Hc _ _ _ Hx). cbn. by rewrite (Hd _ _ _ Hy).
Qed.

Lemma pair_encodable {A B} (c : codec A) (d : codec B) x y :
  encodable c x -> encodable d y -> encodable (pair_codec c d) (x, y).
Proof. intros [bx Hx] [b2 Hy]. unfold encodable. cbn. rewrite Hx. cbn. rewrite Hy. by eexists. Qed.

(** A type represented by another: written as [f b], read with [g]. *)
Definition map_codec {A B} (f : B -> A) (g : A -> option B) (c : codec A) : codec B := mkCodec
  (λ b, enc c (f b)) (λ s, '(a, r) ← dec c s; b ← g a; mret (b, r)).

Lemma map_lawful {A B} (f : B -> A) g (c : codec A) :
  (∀ b, g (f b) = Some b) -> Lawful c -> Lawful (map_codec f g c).
Proof. intros Hg Hc b s r Hs. cbn. rewrite (Hc _ _ _ Hs). cbn. by rewrite Hg. Qed.

Definition vec_codec : codec bytes := mkCodec
  (λ a, l ← enc (int_codec 8) (Z.of_nat (length a)); mret (l ++ a))
  (λ b, '(n, r) ← dec (int_codec 8) b;
        if bool_decide (n <= Z.of_nat (length r))%Z
        then Some (take (Z.to_nat n) r, drop (Z.to_nat n) r) else None).

#[global] Instance vec_lawful : Lawful vec_codec.
Proof.
  intros a b r. unfold vec_codec, enc at 1. cbn [enc].
  intros (l & Hl & [= <-])%bind_Some. cbn [dec].
  rewrite <- (assoc_L (++)), (int_lawful 8 _ _ _ Hl). cbn.
  rewrite bool_decide_true by (rewrite length_app; lia).
  by rewrite Nat2Z.id, take_app_length, drop_app_length.
Qed.

Lemma vec_encodable a : short (length a) -> encodable vec_codec a.
Proof. intros Ha. unfold encodable. cbn. by rewrite bool_decide_true. Qed.

Lemma vec_enc_head a b : enc vec_codec a = Some b -> b = le_bytes 8 (Z.of_nat (length a)) ++ a.
Proof.
  cbn -[le_bytes]. case_bool_decide; [|done]. intros H0. injection H0 as <-. done.
Qed.

Definition string_codec : codec string := map_codec as_bytes (λ b, Some (of_bytes b)) vec_codec.

#[global] Instance string_lawful : Lawful string_codec.
Proof. apply map_lawful; [intros s; by rewrite of_as_bytes|apply _]. Qed.

Lemma string_encodable s : short (String.length s) -> encodable string_codec s.
Proof. intros Hs. apply vec_encodable. by rewrite length_as_bytes. Qed.

Definition option_codec {A} (c : codec A) : codec (option A) := mkCodec
  (λ o, match o with
        | None => Some [byte_of_Z 0]
        | Some a => b ← enc c a; mret (byte_of_Z 1 :: b)
        end)
  (λ b, match b with
        | [] => None
        | t :: r =>
            if bool_decide (t = byte_of_Z 0) then Some (None, r)
            else if bool_decide (t = byte_of_Z 1) then '(a, r') ← dec c r; mret (Some a, r')
            else None
        end).

#[global] Instance option_lawful {A} (c : codec A) : Lawful c -> Lawful (option_codec c).
Proof.
  intros Hc [a|] b r; cbn.
  - intros (b' & Hb & [= <-])%bind_Some. cbn. by rewrite (Hc _ _ _ Hb).
  - by intros [= <-].
Qed.

(** A vector of encoded elements: the count, then each in order. *)
Fixpoint enc_all {A} (c : codec A) (l : list A) : option bytes :=
  match l with
  | [] => Some []
  | a :: l' => b ← enc c a; bs ← enc_all c l'; mret (b ++ bs)
  end.

Fixpoint dec_all {A} (c : codec A) (n : nat) (b : bytes) : option (list A * bytes) :=
  match n with
  | O => Some ([], b)
  | S n' => '(a, r) ← dec c b; '(l, r') ← dec_all c n' r; mret (a :: l, r')
  end.

(** The count is bounded by the address space before it is used. *)
Definition list_codec {A} (c : codec A) : codec (list A) := mkCodec
  (λ l, if bool_decide (Z.of_nat (length l) <= usize_max)%Z then
          n ← enc (int_codec 8) (Z.of_nat (length l)); bs ← enc_all c l; mret (n ++ bs)
        else None)
  (λ b, '(n, r) ← dec (int_codec 8) b;
        if bool_decide (n <= usize_max)%Z then dec_all c (Z.to_nat n) r else None).

Lemma dec_enc_all {A} (c : codec A) `{!Lawful c} l b r :
  enc_all c l = Some b -> dec_all c (length l) (b ++ r) = Some (l, r).
Proof.
  revert b r. induction l as [|a l IH]; intros b r; cbn.
  - by intros [= <-].
  - intros (b1 & Hb & (bs & Hbs & [= <-])%bind_Some)%bind_Some.
    rewrite <- (assoc_L (++)), (dec_enc _ _ _ Hb). cbn. by rewrite (IH _ _ Hbs).
Qed.

#[global] Instance list_lawful {A} (c : codec A) : Lawful c -> Lawful (list_codec c).
Proof.
  intros Hc l b r. unfold list_codec, enc at 1. case_bool_decide as Hl; [|done].
  intros (n & Hn & (bs & Hbs & [= <-])%bind_Some)%bind_Some. cbn [dec].
  rewrite <- (assoc_L (++)), (int_lawful 8 _ _ _ Hn). cbn [mbind option_bind].
  rewrite bool_decide_true by done. rewrite Nat2Z.id. by apply dec_enc_all.
Qed.

Lemma dec_all_length {A} (c : codec A) n b l r : dec_all c n b = Some (l, r) -> length l = n.
Proof.
  revert b l r. induction n as [|n IH]; intros b l r; cbn; [by intros [= <- _]|].
  intros ([a r1] & _ & ([l1 r2] & Hl & [= <- _])%bind_Some)%bind_Some.
  cbn. f_equal. by eapply IH.
Qed.

Lemma list_dec_bounded {A} (c : codec A) b l r :
  dec (list_codec c) b = Some (l, r) -> (Z.of_nat (length l) <= usize_max)%Z.
Proof.
  cbn [list_codec dec]. intros ([n r1] & Hn & H)%bind_Some.
  case_bool_decide as Hle; [|done]. apply dec_all_length in H. rewrite H.
  assert (0 <= n)%Z; [|lia]. revert Hn. cbn. case_bool_decide; [|done]. intros [= <- _].
  clear. generalize (take 8 b). intros l. induction l as [|x l IH]; cbn; [done|].
  pose proof (byte_to_Z_range x). lia.
Qed.

(** ** The two deserializers *)

Definition codec_error : string := "malformed".

(** [bincode::deserialize] ignores what follows the value; the size-limited
    deserializer of the lineage decoder does not. *)
Definition codec_bincode {A} (c : codec A) : Bincode A := {|
  serialize a := match enc c a with Some b => inr b | None => inl codec_error end;
  deserialize b := match dec c b with Some (a, _) => inr a | None => inl codec_error end;
  deserialize_limit n b :=
    if bool_decide (Z.of_nat (length b) <= n)%Z then
      match dec c b with Some (a, []) => inr a | _ => inl codec_error end
    else inl codec_error;
|}.

Section Instance.
Context {A : Type} (c : codec A) `{!Lawful c}.

Lemma codec_serialize (a : A) b :
  serialize (Bincode:=codec_bincode c) a = inr b <-> enc c a = Some b.
Proof. cbn. destruct (enc c a); naive_solver. Qed.

Lemma codec_laws : BincodeLaws A (H:=codec_bincode c).
Proof.
  split.
  - intros a b Hs%codec_serialize. cbn. rewrite <- (app_nil_r b). by rewrite (dec_enc _ _ _ Hs).
  - intros a b n Hs%codec_serialize Hn. cbn. rewrite bool_decide_true by done.
    rewrite <- (app_nil_r b). by rewrite (dec_enc _ _ _ Hs).
Qed.

Lemma codec_trailing : BincodeTrailing A (H:=codec_bincode c).
Proof. intros a b r Hs%codec_serialize. cbn. by rewrite (dec_enc _ _ _ Hs). Qed.

Lemma codec_total (a : A) :
  encodable c a -> ∃ b, serialize (Bincode:=codec_bincode c) a = inr b.
Proof. intros [b Hb]. exists b. by apply codec_serialize. Qed.
End Instance.

(** ** Sizes *)

Definition sized {A} (c : codec A) (size : A -> Z) : Prop :=
  ∀ a b, enc c a = Some b -> Z.of_nat (length b) = size a.

Lemma int_sized k : sized (int_codec k) (λ _, Z.of_nat k).
Proof. intros a b. cbn. case_bool_decide; [|done]. intros [= <-]. by rewrite length_le_bytes. Qed.

Lemma array_sized n : sized (array_codec n) (λ a, Z.of_nat (length a)).
Proof. intros a b. cbn. case_bool_decide; [|done]. by intros [= <-]. Qed.

Lemma vec_sized : sized vec_codec vec_size.
Proof.
  intros a b ->%vec_enc_head. unfold vec_size. rewrite length_app, length_le_bytes. lia.
Qed.

Lemma map_sized {A B} (f : B -> A) g (c : codec A) size :
  sized c size -> sized (map_codec f g c) (λ b, size (f b)).
Proof. intros Hc b s Hs. by apply Hc. Qed.

Lemma string_sized : sized string_codec text_size.
Proof. exact (map_sized as_bytes _ _ _ vec_sized). Qed.

Lemma pair_sized {A B} (c : codec A) (d : codec B) sc sd :
  sized c sc -> sized d sd -> sized (pair_codec c d) (λ x, sc x.1 + sd x.2)%Z.
Proof.
  intros Hc Hd [x y] b. cbn. intros (bx & Hx & (b2 & Hy & [= <-])%bind_Some)%bind_Some.
  rewrite length_app, Nat2Z.inj_add. f_equal; [by apply Hc|by apply Hd].
Qed.

Lemma option_sized n : sized (option_codec (array_codec n)) option_size.
Proof.
  intros [a|] b; cbn.
  - intros (b' & Hb%array_sized & [= <-])%bind_Some. cbn. lia.
  - by intros [= <-].
Qed.

Lemma enc_all_sized {A} (c : codec A) size l b :
  sized c size -> enc_all c l = Some b ->
  Z.of_nat (length b) = foldr (λ a n, size a + n)%Z 0%Z l.
Proof.
  intros Hc. revert b. induction l as [|a l IH]; intros b; cbn; [by intros [= <-]|].
  intros (b1 & Hb & (bs & Hbs & [= <-])%bind_Some)%bind_Some.
  rewrite length_app, Nat2Z.inj_add, (Hc _ _ Hb), (IH _ Hbs). done.
Qed.

Lemma list_sized {A} (c : codec A) size :
  sized c size -> sized (list_codec c) (λ l, 8 + foldr (λ a n, size a + n) 0 l)%Z.
Proof.
  intros Hc l b. cbn [list_codec enc]. case_bool_decide; [|done].
  intros (n & Hn%int_sized & (bs & Hbs & [= <-])%bind_Some)%bind_Some.
  rewrite length_app, Nat2Z.inj_add, Hn, (enc_all_sized _ _ _ _ Hc Hbs). done.
Qed.

Lemma option_encodable n o : (∀ a, o = Some a -> length a = n) -> encodable (option_codec (array_codec n)) o.
Proof.
  intros Ho. unfold encodable. cbn. destruct o as [a|]; [|by eexists].
  rewrite bool_decide_true by auto. by eexists.
Qed.

Lemma list_encodable {A} (c : codec A) l :
  (Z.of_nat (length l) <= usize_max)%Z -> Forall (encodable c) l -> encodable (list_codec c) l.
Proof.
  intros Hn Hl. unfold encodable. cbn [list_codec enc]. rewrite bool_decide_true by done.
  destruct (int_encodable 8 (Z.of_nat (length l))) as [n ->].
  { unfold fits, usize_max, usize_bits in *. lia. }
  cbn [mbind option_bind]. assert (is_Some (enc_all c l)) as [bs ->]; [|by eexists].
  clear Hn. induction Hl as [|a l [b Hb] _ [bs Hbs]]; cbn; [by eexists|].
  rewrite Hb. cbn. rewrite Hbs. by eexists.
Qed.
