(* ===== verification/Messages.v ===== *)
(** * The codecs of the crate's wire types

    One codec per [Serialize] struct ([witan/src/types.rs],
    [witan/src/rotation.rs]), its fields in declaration order, and the
    instances of the codec classes they make. *)

From S2P Require Import Prelude Errors Types Extern F64 Rotation Lineage LineageThms Storage Codec.

Declare Scope codec_scope.
Infix "⊗" := pair_codec (at level 40, left associativity) : codec_scope.
Local Open Scope codec_scope.

Definition u8 : codec Z := int_codec 1.
Definition u64 : codec Z := int_codec 8.
Definition digest_codec : codec bytes := array_codec 32.

(** A unit-variant enum: its index in four bytes. *)
Definition payload_type_codec : codec PayloadType := map_codec as_u8 from_u8 (int_codec 4).

#[global] Instance payload_type_lawful : Lawful payload_type_codec.
Proof. apply map_lawful; [apply from_as_u8|apply _]. Qed.

Lemma payload_type_encodable t : encodable payload_type_codec t.
Proof. unfold payload_type_codec. by destruct t; vm_compute; eexists. Qed.

Definition envelope_codec : codec GossipEnvelope := map_codec
  (λ e, (env_version e, env_message_id e, env_sender_node_id e, env_sender_public_key e,
         env_payload_type e, env_payload e, env_signature e, env_timestamp_unix_ms e, env_ttl e))
  (λ '(v, id, n, pk, t, p, s, ts, ttl), Some (mkEnvelope v id n pk t p s ts ttl))
  (u8 ⊗ digest_codec ⊗ string_codec ⊗ vec_codec ⊗ payload_type_codec ⊗ vec_codec ⊗ vec_codec
   ⊗ u64 ⊗ u8).

Definition probe_codec : codec HandshakeProbe := map_codec
  (λ p, (probe_magic p, probe_version p, probe_client_nonce p, probe_endpoint p,
         probe_client_node_id p, probe_timestamp_unix_ms p))
  (λ '(m, v, c, e, n, ts), Some (mkProbe m v c e n ts))
  (vec_codec ⊗ u8 ⊗ digest_codec ⊗ string_codec ⊗ string_codec ⊗ u64).

Definition ack_codec : codec HandshakeAck := map_codec
  (λ a, (ack_magic a, ack_version a, ack_client_nonce a, ack_server_nonce a,
         ack_hybrid_kem_public_key_json a, ack_ml_dsa_65_public_key a, ack_server_node_id a,
         ack_timestamp_unix_ms a))
  (λ '(m, v, c, s, k, pk, n, ts), Some (mkAck m v c s k pk n ts))
  (vec_codec ⊗ u8 ⊗ digest_codec ⊗ digest_codec ⊗ string_codec ⊗ vec_codec ⊗ string_codec ⊗ u64).

Definition finish_codec : codec HandshakeFinish := map_codec
  (λ f, (fin_magic f, fin_version f, fin_kem_ciphertext_json f, fin_client_ml_dsa_65_public_key f,
         fin_client_node_id f, fin_timestamp_unix_ms f))
  (λ '(m, v, c, pk, n, ts), Some (mkFinish m v c pk n ts))
  (vec_codec ⊗ u8 ⊗ string_codec ⊗ vec_codec ⊗ string_codec ⊗ u64).

Definition finish_ack_codec : codec HandshakeFinishAck := map_codec
  (λ f, (fa_magic f, fa_version f, fa_session_id f, fa_transcript_hash f, fa_server_mac f,
         fa_transcript_signature f, fa_timestamp_unix_ms f))
  (λ '(m, v, s, th, mac, sg, ts), Some (mkFinishAck m v s th mac sg ts))
  (vec_codec ⊗ u8 ⊗ string_codec ⊗ digest_codec ⊗ digest_codec ⊗ vec_codec ⊗ u64).

Definition rotation_codec : codec KeyRotation := map_codec
  (λ r, (rot_version r, rot_node_id r, rot_sequence r, rot_prev_state_digest r,
         rot_new_kem_public_key r, rot_new_sig_public_key r, rot_new_key_epoch r,
         rot_next_key_commitment r, rot_timestamp_unix_ms r, rot_authorization r, rot_possession r))
  (λ '(v, n, sq, d, k, s, e, c, ts, a, p), Some (mkRotation v n sq d k s e c ts a p))
  (u8 ⊗ string_codec ⊗ u64 ⊗ digest_codec ⊗ vec_codec ⊗ vec_codec ⊗ string_codec
   ⊗ option_codec digest_codec ⊗ u64 ⊗ vec_codec ⊗ vec_codec).

Definition lineage_codec : codec LineageWire := map_codec
  (λ w, (wire_version w, wire_inception_kem_public_key w, wire_inception_sig_public_key w,
         wire_inception_key_epoch w, wire_rotations w))
  (λ '(v, k, s, e, r), Some (mkWire v k s e r))
  (u8 ⊗ vec_codec ⊗ vec_codec ⊗ string_codec ⊗ list_codec rotation_codec).

#[global] Instance u8_lawful : Lawful u8 := int_lawful 1.
#[global] Instance u64_lawful : Lawful u64 := int_lawful 8.
#[global] Instance digest_lawful : Lawful digest_codec := array_lawful 32.

Ltac lawful_record := apply map_lawful; [by intros []|repeat apply pair_lawful; apply _].

#[global] Instance envelope_lawful : Lawful envelope_codec.
Proof. lawful_record. Qed.
#[global] Instance probe_lawful : Lawful probe_codec.
Proof. lawful_record. Qed.
#[global] Instance ack_lawful : Lawful ack_codec.
Proof. lawful_record. Qed.
#[global] Instance finish_lawful : Lawful finish_codec.
Proof. lawful_record. Qed.
#[global] Instance finish_ack_lawful : Lawful finish_ack_codec.
Proof. lawful_record. Qed.
#[global] Instance rotation_lawful : Lawful rotation_codec.
Proof. lawful_record. Qed.
#[global] Instance lineage_lawful : Lawful lineage_codec.
Proof. lawful_record. Qed.

(** ** Every value a struct can hold is encodable *)

Ltac encodable_record :=
  repeat first [apply pair_encodable|by apply vec_encodable|by apply string_encodable
               |by apply array_encodable|by apply int_encodable|apply payload_type_encodable].

Lemma envelope_encodable e : envelope_fits e -> encodable envelope_codec e.
Proof. intros []. unfold encodable, envelope_codec, map_codec. cbn [enc]. encodable_record. Qed.
Lemma probe_encodable p : probe_fits p -> encodable probe_codec p.
Proof. intros []. unfold encodable, probe_codec, map_codec. cbn [enc]. encodable_record. Qed.
Lemma ack_encodable a : ack_fits a -> encodable ack_codec a.
Proof. intros []. unfold encodable, ack_codec, map_codec. cbn [enc]. encodable_record. Qed.
Lemma finish_encodable f : finish_fits f -> encodable finish_codec f.
Proof. intros []. unfold encodable, finish_codec, map_codec. cbn [enc]. encodable_record. Qed.
Lemma finish_ack_encodable f : finish_ack_fits f -> encodable finish_ack_codec f.
Proof. intros []. unfold encodable, finish_ack_codec, map_codec. cbn [enc]. encodable_record. Qed.

(** ** The tail of an envelope *)

Lemma pair_enc {A B} (c : codec A) (d : codec B) x y b :
  enc (pair_codec c d) (x, y) = Some b <->
  ∃ b1 b2, enc c x = Some b1 ∧ enc d y = Some b2 ∧ b = b1 ++ b2.
Proof.
  cbn. split.
  - intros (b1 & H1 & (b2 & H2 & [= <-])%bind_Some)%bind_Some. by exists b1, b2.
  - intros (b1 & b2 & H1 & H2 & ->). by rewrite H1, H2.
Qed.

Lemma int_enc k z b : enc (int_codec k) z = Some b <-> fits (8 * Z.of_nat k) z ∧ b = le_bytes k z.
Proof. cbn. case_bool_decide; split; [by intros [= <-]|by intros [_ ->]|done|by intros []]. Qed.

Lemma vec_enc a b :
  enc vec_codec a = Some b <->
  short (length a) ∧ b = le_bytes 8 (Z.of_nat (length a)) ++ a.
Proof.
  unfold vec_codec. cbn [enc]. rewrite bind_Some. setoid_rewrite int_enc. split.
  - by intros (l & [Hl ->] & [= <-]).
  - intros [Hl ->]. by eexists.
Qed.

Lemma envelope_tail : @EnvelopeTail (codec_bincode envelope_codec).
Proof.
  intros e b Hs%codec_serialize. unfold envelope_codec, map_codec in Hs. cbn [enc] in Hs.
  apply pair_enc in Hs as (b1 & bt & Hs & [_ ->]%int_enc & ->).
  apply pair_enc in Hs as (b2 & bs & Hs & [_ ->]%int_enc & ->).
  apply pair_enc in Hs as (b3 & bg & Hs & [Hl ->]%vec_enc & ->).
  exists (b3 ++ le_bytes 8 (Z.of_nat (length (env_signature e)))).
  split; [by rewrite <- !(assoc_L (++))|].
  intros s ts ttl Hlen Hts Httl. apply codec_serialize. unfold envelope_codec, map_codec. cbn [enc].
  apply pair_enc. eexists _, [byte_of_Z ttl]. split; [|split; [apply int_enc; split; [exact Httl|done]|]].
  - apply pair_enc. eexists _, (le_bytes 8 ts). split; [|split; [apply int_enc; split; [exact Hts|done]|done]].
    apply pair_enc. exists b3, (le_bytes 8 (Z.of_nat (length s)) ++ s).
    split; [exact Hs|]. split; [|done]. apply vec_enc. cbn [with_tail env_signature]. by rewrite Hlen.
  - by rewrite Hlen, <- !(assoc_L (++)).
Qed.

(** ** The leading vector *)

(** The encoding starts with that of the given vector field. *)
Definition leads {A} (c : codec A) (head : A -> bytes) : Prop :=
  ∀ a b, enc c a = Some b -> ∃ bh rest, enc vec_codec (head a) = Some bh ∧ b = bh ++ rest.

Lemma pair_leads {A B} (c : codec A) (d : codec B) head :
  leads c head -> leads (pair_codec c d) (λ x, head x.1).
Proof.
  intros Hc [x y] b. cbn [pair_codec enc].
  intros (bx & Hx & (b2 & Hy & [= <-])%bind_Some)%bind_Some.
  destruct (Hc _ _ Hx) as (bh & rest & Hh & ->). exists bh, (rest ++ b2). by rewrite (assoc_L (++)).
Qed.

Lemma vec_leads : leads vec_codec (λ a, a).
Proof. intros a b Hb. exists b, []. by rewrite app_nil_r. Qed.

Lemma leads_head {A} (c : codec A) head :
  leads c head -> BincodeHead A (H:=codec_bincode c) head.
Proof.
  intros Hc a b Hs%codec_serialize. destruct (Hc _ _ Hs) as (bh & rest & Hh%vec_enc_head & ->).
  exists rest. by rewrite Hh, <- (assoc_L (++)).
Qed.

Lemma map_leads {A B} (f : B -> A) g (c : codec A) head :
  leads c head -> leads (map_codec f g c) (λ b, head (f b)).
Proof. intros Hc b s Hs. by apply Hc. Qed.

(** Every one of these codecs begins with a vector. *)
Ltac leading :=
  let H := fresh in
  pose proof vec_leads as H;
  repeat first [exact (map_leads _ _ _ _ H)|eapply pair_leads in H].

Lemma probe_leads : leads probe_codec probe_magic.
Proof. leading. Qed.
Lemma ack_leads : leads ack_codec ack_magic.
Proof. leading. Qed.
Lemma finish_leads : leads finish_codec fin_magic.
Proof. leading. Qed.
Lemma finish_ack_leads : leads finish_ack_codec fa_magic.
Proof. leading. Qed.

(** ** The size of a stored lineage *)

Lemma rotation_sized : sized rotation_codec rotation_size.
Proof.
  intros r b Hb. unfold rotation_codec in Hb.
  apply (map_sized _ _ _ _ (pair_sized _ _ _ _ (pair_sized _ _ _ _ (pair_sized _ _ _ _
    (pair_sized _ _ _ _ (pair_sized _ _ _ _ (pair_sized _ _ _ _ (pair_sized _ _ _ _
    (pair_sized _ _ _ _ (pair_sized _ _ _ _ (pair_sized _ _ _ _ (int_sized 1) string_sized)
    (int_sized 8)) (array_sized 32)) vec_sized) vec_sized) string_sized) (option_sized 32))
    (int_sized 8)) vec_sized) vec_sized)) in Hb.
  rewrite Hb. unfold rotation_size. cbn [fst snd]. lia.
Qed.

Lemma lineage_sized : sized lineage_codec wire_size.
Proof.
  intros w b Hb. unfold lineage_codec in Hb.
  apply (map_sized _ _ _ _ (pair_sized _ _ _ _ (pair_sized _ _ _ _ (pair_sized _ _ _ _
    (pair_sized _ _ _ _ (int_sized 1) vec_sized) vec_sized) string_sized)
    (list_sized _ _ rotation_sized))) in Hb.
  rewrite Hb. unfold wire_size, sum_sizes. cbn [fst snd]. lia.
Qed.

Lemma rotation_encodable r : record_fits r -> encodable rotation_codec r.
Proof.
  intros [[] Ha Hp]. unfold encodable, rotation_codec, map_codec. cbn [enc].
  repeat apply pair_encodable;
    first [by apply vec_encodable|by apply array_encodable|by apply int_encodable
          |by apply option_encodable|apply string_encodable; by rewrite <- length_as_bytes].
Qed.

Lemma lineage_encodable w : stored_fits w -> encodable lineage_codec w.
Proof.
  intros [Hv Hk Hs He Hr Hc]. unfold encodable, lineage_codec, map_codec. cbn [enc].
  repeat apply pair_encodable;
    first [by apply vec_encodable|by apply int_encodable|apply list_encodable; [done|]].
  eapply Forall_impl; [exact Hr|]. apply rotation_encodable.
Qed.
