(* ===== verification/JsonText.v ===== *)
(** * A text for JSON values

    A printer and a parser for [JsonValue], for [Sample]: not the syntax of
    JSON, but a text for every value that reads back as that value, which is
    what the development assumes of serde_json. *)

From S2P Require Import Prelude Types.

(** ** Printing *)

Definition tag (n : Z) : byte := byte_of_Z n.

Fixpoint positive_bits (p : positive) : bytes :=
  match p with
  | xH => [tag 2]
  | xO p => tag 0 :: positive_bits p
  | xI p => tag 1 :: positive_bits p
  end.

Definition number_bytes (z : Z) : bytes :=
  match z with
  | Z0 => [tag 0]
  | Zpos p => tag 1 :: positive_bits p
  | Zneg p => tag 2 :: positive_bits p
  end.

(** Each byte after a mark, then the end. *)
Fixpoint marked (b : bytes) : bytes :=
  match b with
  | [] => [tag 0]
  | x :: b' => tag 1 :: x :: marked b'
  end.

Fixpoint value_bytes (v : JsonValue) : bytes :=
  match v with
  | JNull => [tag 0]
  | JBool b => [tag 1; tag (Z.b2z b)]
  | JNumber z => tag 2 :: number_bytes z
  | JString s => tag 3 :: marked (as_bytes s)
  | JArray l => tag 4 :: concat (map (λ x, tag 1 :: value_bytes x) l) ++ [tag 0]
  | JObject l =>
      tag 5 :: concat (map (λ kx, tag 1 :: marked (as_bytes kx.1) ++ value_bytes kx.2) l) ++ [tag 0]
  end.

(** ** Parsing *)

Fixpoint read_bits (b : bytes) : option (positive * bytes) :=
  match b with
  | [] => None
  | x :: b' =>
      match byte_to_Z x with
      | 2%Z => Some (xH, b')
      | 0%Z => '(p, r) ← read_bits b'; Some (xO p, r)
      | _ => '(p, r) ← read_bits b'; Some (xI p, r)
      end
  end.

Definition read_number (b : bytes) : option (Z * bytes) :=
  match b with
  | [] => None
  | x :: b' =>
      match byte_to_Z x with
      | 0%Z => Some (0%Z, b')
      | 1%Z => '(p, r) ← read_bits b'; Some (Zpos p, r)
      | _ => '(p, r) ← read_bits b'; Some (Zneg p, r)
      end
  end.

Fixpoint read_marked (b : bytes) : option (bytes * bytes) :=
  match b with
  | x :: b' =>
      match byte_to_Z x with
      | 0%Z => Some ([], b')
      | _ => match b' with
             | y :: b'' => '(l, r) ← read_marked b''; Some (y :: l, r)
             | [] => None
             end
      end
  | [] => None
  end.

(** Items up to the end mark. *)
Fixpoint read_items {A} (item : bytes -> option (A * bytes)) (n : nat) (b : bytes) :
    option (list A * bytes) :=
  match n, b with
  | S n', x :: b' =>
      match byte_to_Z x with
      | 0%Z => Some ([], b')
      | _ => '(a, r) ← item b'; '(l, r') ← read_items item n' r; Some (a :: l, r')
      end
  | _, _ => None
  end.

Fixpoint read_value (n : nat) (b : bytes) : option (JsonValue * bytes) :=
  match n, b with
  | S n', x :: b' =>
      match byte_to_Z x with
      | 0%Z => Some (JNull, b')
      | 1%Z => match b' with
               | y :: r => Some (JBool (byte_to_Z y =? 1)%Z, r)
               | [] => None
               end
      | 2%Z => '(z, r) ← read_number b'; Some (JNumber z, r)
      | 3%Z => '(s, r) ← read_marked b'; Some (JString (of_bytes s), r)
      | 4%Z => '(l, r) ← read_items (read_value n') n' b'; Some (JArray l, r)
      | _ =>
          '(l, r) ← read_items (λ b, '(k, r) ← read_marked b; '(v, r') ← read_value n' r;
                                     Some ((of_bytes k, v), r')) n' b';
          Some (JObject l, r)
      end
  | _, _ => None
  end.

Definition text_of (v : JsonValue) : string := of_bytes (value_bytes v).

Definition value_of_text (s : string) : option JsonValue :=
  let b := as_bytes s in
  match read_value (length b) b with
  | Some (v, []) => Some v
  | _ => None
  end.

(** ** Reading back *)

Lemma tags :
  byte_to_Z (tag 0) = 0%Z ∧ byte_to_Z (tag 1) = 1%Z ∧ byte_to_Z (tag 2) = 2%Z ∧
  byte_to_Z (tag 3) = 3%Z ∧ byte_to_Z (tag 4) = 4%Z ∧ byte_to_Z (tag 5) = 5%Z.
Proof. by vm_compute. Qed.

(** Follow the parser past a tag. *)
Ltac past_tag :=
  destruct tags as (T0 & T1 & T2 & T3 & T4 & T5); cbn -[tag byte_to_Z];
  rewrite ?T0, ?T1, ?T2, ?T3, ?T4, ?T5; cbn -[tag byte_to_Z].

Lemma read_bits_print p r : read_bits (positive_bits p ++ r) = Some (p, r).
Proof. induction p as [p IH|p IH|]; past_tag; [by rewrite IH..|done]. Qed.

Lemma read_number_print z r : read_number (number_bytes z ++ r) = Some (z, r).
Proof. destruct z as [|p|p]; past_tag; [done|by rewrite read_bits_print..]. Qed.

Lemma read_marked_print b r : read_marked (marked b ++ r) = Some (b, r).
Proof. induction b as [|x b IH]; past_tag; [done|by rewrite IH]. Qed.

Lemma read_items_print {A} (item : bytes -> option (A * bytes)) (print : A -> bytes) (l : list A) n r :
  (length l < n)%nat -> (∀ a r, a ∈ l -> item (print a ++ r) = Some (a, r)) ->
  read_items item n (concat (map (λ a, tag 1 :: print a) l) ++ [tag 0] ++ r) = Some (l, r).
Proof.
  revert n. induction l as [|a l IH]; intros [|n] Hn Hi; cbn in Hn; try lia.
  { by past_tag. }
  past_tag. rewrite <- (assoc (++)), Hi by left. cbn -[tag]. rewrite IH; [done|lia|].
  intros a' r' Hin. apply Hi. by right.
Qed.

(** Induction on values, through their items. *)
Section JsonInd.
Context (P : JsonValue -> Prop).
Context (Hnull : P JNull) (Hbool : ∀ b, P (JBool b)) (Hnum : ∀ z, P (JNumber z)).
Context (Hstr : ∀ s, P (JString s)).
Context (Harr : ∀ l, Forall P l -> P (JArray l)).
Context (Hobj : ∀ l, Forall (λ kv, P kv.2) l -> P (JObject l)).

Fixpoint json_induction (v : JsonValue) : P v :=
  match v with
  | JNull => Hnull
  | JBool b => Hbool b
  | JNumber z => Hnum z
  | JString s => Hstr s
  | JArray l => Harr l ((fix go l : Forall P l :=
      match l with [] => Forall_nil_2 P | x :: l' => Forall_cons_2 P x l' (json_induction x) (go l') end) l)
  | JObject l => Hobj l ((fix go l : Forall (λ kv, P kv.2) l :=
      match l with
      | [] => Forall_nil_2 _
      | x :: l' => Forall_cons_2 (λ kv, P kv.2) x l' (json_induction x.2) (go l')
      end) l)
  end.
End JsonInd.

Lemma length_concat_item {A} (f : A -> bytes) l a :
  a ∈ l -> (length (f a) <= length (concat (map f l)))%nat.
Proof.
  induction l as [|x l IH]; [by intros ?%not_elem_of_nil|].
  intros [->|Hin]%elem_of_cons; cbn; rewrite length_app; [lia|]. specialize (IH Hin). lia.
Qed.

Lemma length_concat_count {A} (f : A -> bytes) l :
  (∀ a, 0 < length (f a))%nat -> (length l <= length (concat (map f l)))%nat.
Proof.
  intros Hf. induction l as [|x l IH]; cbn; [lia|]. rewrite length_app. specialize (Hf x). lia.
Qed.

Lemma read_value_print v n r :
  (length (value_bytes v) <= n)%nat -> read_value n (value_bytes v ++ r) = Some (v, r).
Proof.
  revert n r. induction v as [|b|z|s|l IH|l IH] using json_induction; intros [|n] r Hn;
    cbn [value_bytes length] in Hn; try lia.
  - by past_tag.
  - past_tag. by destruct b.
  - past_tag. by rewrite read_number_print.
  - past_tag. rewrite read_marked_print. cbn. by rewrite of_as_bytes.
  - rewrite length_app in Hn. past_tag. rewrite <- (assoc (++)).
    rewrite (read_items_print _ value_bytes); [done| |].
    + pose proof (length_concat_count (λ x, tag 1 :: value_bytes x) l ltac:(cbn; lia)). cbn in *. lia.
    + intros a r' Hin. rewrite Forall_forall in IH. apply IH; [done|].
      pose proof (length_concat_item (λ x, tag 1 :: value_bytes x) l a Hin). cbn in *. lia.
  - rewrite length_app in Hn. past_tag. rewrite <- (assoc (++)).
    rewrite (read_items_print _ (λ kx, marked (as_bytes kx.1) ++ value_bytes kx.2)); [done| |].
    + pose proof (length_concat_count
        (λ kx, tag 1 :: marked (as_bytes kx.1) ++ value_bytes kx.2) l ltac:(cbn; lia)).
      cbn in *. lia.
    + intros [k x] r' Hin. rewrite Forall_forall in IH. cbn [fst snd].
      rewrite <- (assoc (++)), read_marked_print. cbn.
      pose proof (length_concat_item
        (λ kx, tag 1 :: marked (as_bytes kx.1) ++ value_bytes kx.2) l (k, x) Hin) as Hl.
      cbn [fst snd length] in Hl. rewrite length_app in Hl.
      rewrite (IH (k, x) Hin); [|cbn in *; lia]. cbn. by rewrite of_as_bytes.
Qed.

Lemma value_of_text_of v : value_of_text (text_of v) = Some v.
Proof.
  unfold value_of_text, text_of. rewrite as_of_bytes.
  pose proof (read_value_print v (length (value_bytes v)) [] (le_n _)) as H.
  by rewrite app_nil_r in H; rewrite H.
Qed.
