(* ===== verification/Sample.v ===== *)
(** * Sample foreign code

    Concrete functions for the classes of [Extern], with their laws: an entropy
    source that counts, a checksum for SHA-256, keys padded to their documented
    lengths, real hexadecimal, the fixed-width codec of [Codec] and [Messages].
    They are not secure; they show that the laws the development assumes hold
    together, and they make every definition run. *)

From S2P Require Import Prelude Errors Types Extern F64 Config Identity Rotation Lineage LineageThms Storage Engine Api Component Memory Wasi WasiThms Host Validate ValidateRuns Codec Messages JsonText.

(** ** Bytes of a given length *)

Definition pad (n : nat) (b : bytes) : bytes := take n (b ++ repeat (byte_of_Z 0) n).

Lemma length_pad n b : length (pad n b) = n.
Proof. unfold pad. rewrite length_take, length_app, repeat_length. lia. Qed.

(** ** Operating system: a counter; the clock stands still *)

#[export] Instance sample_os : OsOps := {|
  Os := Z;
  getrandom n os := (inr (pad n (le_bytes 8 (os + 1))), (os + 1)%Z);
  system_time_ms os := (Some 1000000%Z, os);
|}.

#[export] Instance sample_os_laws : OsLaws.
Proof.
  split.
  - intros n os b os' [= <- _]. apply length_pad.
  - by intros os ms os' [= <- _].
Qed.

(** ** Hashing: a 32-bit polynomial checksum, in 32 bytes *)

Definition checksum (b : bytes) : Z :=
  fold_left (λ h x, Z.land (33 * h + byte_to_Z x + 1) 4294967295) b 1%Z.

#[export] Instance sample_hashing : Hashing := {|
  sha256 m := le_bytes 32 (checksum m);
  hmac_sha256 k m := Some (le_bytes 32 (checksum (k ++ byte_of_Z 92 :: m)));
  hkdf_sha256 ikm info n :=
    if bool_decide (n <= 255 * 32)%nat then Some (pad n (le_bytes 32 (checksum (info ++ ikm))))
    else None;
|}.

#[export] Instance sample_hashing_laws : HashingLaws.
Proof.
  split.
  - intros m. apply length_le_bytes.
  - intros k m. eexists. split; [done|apply length_le_bytes].
  - intros ikm info n Hn. cbn [hkdf_sha256 sample_hashing]. rewrite bool_decide_true by done.
    eexists. split; [done|apply length_pad].
Qed.

(** ** Hexadecimal *)

Definition hex_digit (n : Z) : byte := byte_of_Z (if (n <? 10)%Z then 48 + n else 87 + n)%Z.

Definition hex_value (b : byte) : option Z :=
  let z := byte_to_Z b in
  if (48 <=? z)%Z && (z <=? 57)%Z then Some (z - 48)%Z
  else if (97 <=? z)%Z && (z <=? 102)%Z then Some (z - 87)%Z
  else None.

Fixpoint hex_bytes (b : bytes) : bytes :=
  match b with
  | [] => []
  | x :: b' => hex_digit (byte_to_Z x / 16) :: hex_digit (byte_to_Z x mod 16) :: hex_bytes b'
  end.

Fixpoint unhex (b : bytes) : option bytes :=
  match b with
  | [] => Some []
  | h :: l :: b' =>
      vh ← hex_value h; vl ← hex_value l; r ← unhex b'; mret (byte_of_Z (16 * vh + vl) :: r)
  | [_] => None
  end.

#[export] Instance sample_hex : Hex := {|
  hex_encode b := of_bytes (hex_bytes b);
  hex_decode s := match unhex (as_bytes s) with
                  | Some b => inr b
                  | None => inl "invalid hex"%string
                  end;
|}.

Lemma hex_digits_read x :
  hex_value (hex_digit (byte_to_Z x / 16)) = Some (byte_to_Z x / 16)%Z ∧
  hex_value (hex_digit (byte_to_Z x mod 16)) = Some (byte_to_Z x mod 16)%Z.
Proof. by destruct x. Qed.

Lemma unhex_hex b : unhex (hex_bytes b) = Some b.
Proof.
  induction b as [|x b IH]; [done|]. cbn [hex_bytes unhex].
  destruct (hex_digits_read x) as [-> ->]. cbn. rewrite IH. cbn. f_equal. f_equal.
  rewrite <- (byte_of_to_Z x) at 3. f_equal. pose proof (Z.div_mod (byte_to_Z x) 16). lia.
Qed.

#[export] Instance sample_hex_laws : HexLaws.
Proof.
  split.
  - intros b. change (String.length (of_bytes (hex_bytes b)) = (2 * length b)%nat).
    rewrite <- length_as_bytes, as_of_bytes. induction b as [|x b IH]; cbn [hex_bytes length]; lia.
  - intros b. unfold hex_decode, hex_encode, sample_hex. by rewrite as_of_bytes, unhex_hex.
Qed.

Lemma hex_digit_ascii x :
  is_ascii_hexdigit (hex_digit (byte_to_Z x / 16)) = true ∧
  is_ascii_hexdigit (hex_digit (byte_to_Z x mod 16)) = true.
Proof. by destruct x. Qed.

#[export] Instance sample_hex_digits : HexDigits.
Proof.
  intros b. unfold hex_encode, sample_hex. rewrite as_of_bytes.
  induction b as [|x b IH]; [done|]. cbn [hex_bytes forallb].
  by destruct (hex_digit_ascii x) as [-> ->].
Qed.

(** ** Signatures: a checksum of the key and the message *)

Definition sample_pk (kp : bytes) : bytes := pad 1952 kp.
Definition sample_sig (pk m : bytes) : bytes := pad 3309 (le_bytes 32 (checksum (pk ++ m))).

#[export] Instance sample_sig_ops : PqcSig := {|
  SigKeypair := bytes;
  sig_generate os := (inr (le_bytes 8 (os + 1)), (os + 1)%Z);
  sig_from_secret_key_bytes b := inr b;
  sig_public_key := sample_pk;
  sign_deterministic kp m := inr (sample_sig (sample_pk kp) m);
  sig_verify pk m s := if bool_decide (s = sample_sig pk m) then SigValid else SigVerificationFailed;
|}.

#[export] Instance sample_sig_laws : PqcSigLaws.
Proof.
  split.
  - intros kp m s [= <-]. cbn. by rewrite bool_decide_true.
  - intros kp. apply length_pad.
  - intros kp m s [= <-]. apply length_pad.
Qed.

Lemma last_pad n b : (length b < n)%nat -> List.last (pad n b) (byte_of_Z 0) = byte_of_Z 0.
Proof.
  intros Hb. unfold pad. rewrite take_app_ge by lia.
  replace n with (S (n - length b - 1) + length b)%nat at 2 by lia.
  rewrite repeat_app, take_app_length' by (rewrite repeat_length; lia).
  cbn [repeat]. by rewrite repeat_cons, (assoc_L (++)), last_last.
Qed.

#[export] Instance sample_signature_hint : SignatureHint.
Proof.
  intros pk m s. unfold sig_verify, sample_sig_ops. case_bool_decide as Hs; [|done]. intros _. subst s. unfold sample_sig.
  rewrite last_pad; [done|]. rewrite length_le_bytes. lia.
Qed.

(** ** Key encapsulation: the secret is a checksum of the key and a random
    ciphertext *)

Definition sample_secret (pk ct : bytes) : bytes := le_bytes 32 (checksum (pk ++ ct)).

#[export] Instance sample_kem : PqcKem := {|
  KemKeypair := bytes;
  KemPublicKey := bytes;
  KemCiphertext := bytes;
  KemSecret := bytes;
  kem_generate os := (inr (le_bytes 8 (os + 1)), (os + 1)%Z);
  kem_from_secret_key_bytes x m := inr (x ++ m);
  kem_public_key kp := kp;
  x25519_bytes pk := inr (pad 32 pk);
  mlkem_bytes pk := inr (pad 1184 pk);
  kem_pk_to_json pk := inr (of_bytes pk);
  kem_pk_from_json s := inr (as_bytes s);
  encapsulate_to pk os :=
    (inr (le_bytes 8 (os + 1), sample_secret pk (le_bytes 8 (os + 1))), (os + 1)%Z);
  decapsulate kp ct := inr (sample_secret kp ct);
  as_32_bytes ss :=
    if bool_decide (length ss = 32%nat) then inr ss else inl "wrong length"%string;
  ct_to_json ct := inr (of_bytes ct);
  ct_from_json s := inr (as_bytes s);
|}.

#[export] Instance sample_kem_laws : PqcKemLaws.
Proof.
  split.
  - intros kp os ct ss os' [= <- <- _]. done.
  - intros pk j [= <-]. unfold kem_pk_from_json, sample_kem. by rewrite as_of_bytes.
  - intros ct j [= <-]. unfold ct_from_json, sample_kem. by rewrite as_of_bytes.
  - intros pk b [= <-]. apply length_pad.
  - intros pk b [= <-]. apply length_pad.
  - intros ss b. cbn. case_bool_decide; [|done]. by intros [= <-].
Qed.

#[export] Instance sample_order : HashOrder := {| hash_iter K V _ _ m := map_to_list m |}.

#[export] Instance sample_order_laws : HashOrderLaws.
Proof. done. Qed.

#[export] Instance sample_ext : Ext := {| ext_os := sample_os |}.
#[export] Instance sample_ext_laws : ExtLaws.
Proof. split; apply _. Qed.

(** ** Wire formats *)

#[export] Instance sample_wire : WireCodecs := {|
  wire_envelope := codec_bincode envelope_codec;
  wire_probe := codec_bincode probe_codec;
  wire_ack := codec_bincode ack_codec;
  wire_finish := codec_bincode finish_codec;
  wire_finish_ack := codec_bincode finish_ack_codec;
  wire_ciphertext := codec_bincode vec_codec;
|}.

#[export] Instance sample_wire_laws : WireLaws.
Proof.
  split; try apply codec_laws; try apply _; apply leads_head;
    [apply probe_leads|apply ack_leads|apply finish_leads|apply finish_ack_leads].
Qed.

#[export] Instance sample_envelope_tail : EnvelopeTail.
Proof. exact envelope_tail. Qed.

#[export] Instance sample_wire_total : WireTotal.
Proof.
  split; intros m Hm; apply codec_total.
  - by apply envelope_encodable.
  - by apply probe_encodable.
  - by apply ack_encodable.
  - by apply finish_encodable.
  - by apply finish_ack_encodable.
Qed.

#[export] Instance sample_lineage_wire : Bincode LineageWire := codec_bincode lineage_codec.

#[export] Instance sample_lineage_codec : LineageCodec.
Proof.
  split; [apply codec_laws, _|]. intros n b w. cbn -[lineage_codec].
  case_bool_decide; [|done]. destruct (dec lineage_codec b) as [[w' []]|] eqn:E; try done.
  intros [= <-]. unfold lineage_codec, map_codec in E. cbn [dec] in E.
  apply bind_Some in E as ([[[[[v k] s] e] rs] r] & Hd & [= <- _]).
  cbn [pair_codec dec] in Hd. apply bind_Some in Hd as ([x r1] & _ & Hd).
  apply bind_Some in Hd as ([rs' r2] & Hrs & [= _ <- _]).
  by apply list_dec_bounded in Hrs.
Qed.

#[export] Instance sample_lineage_sizes : LineageSizes.
Proof.
  intros w [b Hb]%lineage_encodable. exists b. split; [|by apply lineage_sized].
  by apply codec_serialize.
Qed.

(** ** JSON: the text of [JsonText] *)

Definition sample_write {A} (view : A -> JsonValue) (a : A) : fallible string :=
  inr (text_of (view a)).

#[export] Instance sample_json : JsonOut := {|
  json_envelope := sample_write envelope_value;
  json_stats := sample_write stats_value;
  json_peers := sample_write (λ ps, JArray (map peer_value ps));
  json_identity := sample_write identity_value;
  json_value := sample_write (λ v, v);
|}.

(** [==] of values: an object is a map. *)
Fixpoint json_eqb (v w : JsonValue) : bool :=
  let fix arrays (l : list JsonValue) : list JsonValue -> bool :=
    match l with
    | [] => λ k, match k with [] => true | _ => false end
    | x :: l' => λ k, match k with y :: k' => json_eqb x y && arrays l' k' | [] => false end
    end in
  let fix covered (l : list (string * JsonValue)) (k : list (string * JsonValue)) : bool :=
    match l with
    | [] => true
    | (key, x) :: l' =>
        match assoc key k with Some y => json_eqb x y | None => false end && covered l' k
    end in
  match v, w with
  | JNull, JNull => true
  | JBool a, JBool b => Bool.eqb a b
  | JNumber a, JNumber b => (a =? b)%Z
  | JString a, JString b => bool_decide (a = b)
  | JArray l, JArray k => arrays l k
  | JObject l, JObject k => (length l =? length k)%nat && covered l k
  | _, _ => false
  end.

#[export] Instance sample_host_json : HostJson := {|
  parse_value s := from_option inr (inl "not a value"%string) (value_of_text s);
  parse_values s :=
    match value_of_text s with
    | Some (JArray l) => inr l
    | _ => inl "not an array"%string
    end;
  value_text := text_of;
  get_field v key := match v with JObject fields => assoc key fields | _ => None end;
  as_str := as_text;
  value_eqb := json_eqb;
|}.

#[export] Instance sample_config_json : FromJson GossipConfig := λ s,
  if bool_decide (s = "{}"%string) then inr empty_config
  else match value_of_text s with
       | Some (JObject fields) =>
           if config_fields_ok fields then inr (config_of_fields fields)
           else inl "wrong field"%string
       | _ => inl "unexpected"%string
       end.

Lemma config_of_fields_fits fields :
  config_fields_ok fields = true -> config_fits (config_of_fields fields).
Proof.
  unfold config_fields_ok. intros Hok.
  apply andb_true_iff in Hok as [[_ Hn]%andb_true_iff _].
  rewrite forallb_forall in Hn.
  assert (∀ k w, In (k, w) [("mesh_n", 8); ("mesh_n_low", 8); ("mesh_n_high", 8);
    ("heartbeat_ms", 64); ("max_message_bytes", usize_bits); ("dedup_cache_secs", 64);
    ("replay_window_ms", 64); ("default_ttl", 8)]%string%Z ->
    opt_fits w (assoc k fields ≫= as_number)) as Hf.
  { intros k w Hin z Hz. specialize (Hn _ Hin). cbn in Hn.
    destruct (assoc k fields) as [[]|]; cbn in Hz; simplify_eq.
    apply andb_true_iff in Hn as [?%Z.leb_le ?%Z.ltb_lt]. done. }
  constructor; apply Hf; cbn; tauto.
Qed.

#[export] Instance sample_config_laws : ConfigJsonLaws.
Proof.
  intros s c. unfold json_from_str, sample_config_json. case_bool_decide.
  - intros [= <-]. by constructor; intros z.
  - destruct (value_of_text s) as [[]|]; try done. destruct (config_fields_ok fields) eqn:Hf; [|done].
    intros [= <-]. by apply config_of_fields_fits.
Qed.

Lemma parse_value_text v : json_from_str (A:=JsonValue) (text_of v) = inr v.
Proof. unfold json_from_str, parse_value, sample_host_json. by rewrite value_of_text_of. Qed.

#[export] Instance sample_host_json_laws : HostJsonLaws.
Proof.
  split; try (intros a; eexists; split; [reflexivity|apply parse_value_text]).
  - intros ps. eexists. split; [reflexivity|].
    unfold json_from_str, parse_values, sample_host_json. by rewrite value_of_text_of.
  - intros fields Hf. unfold json_from_str, sample_config_json. rewrite bool_decide_false by done.
    unfold value_text, sample_host_json. by rewrite value_of_text_of, Hf.
  - done.
  - done.
  - done.
  - done.
  - done.
Qed.

#[export] Instance sample_queries : ValueQueries := {|
  as_u64 v :=
    match v with JNumber n => if bool_decide (fits 64 n) then Some n else None | _ => None end;
  is_array v := match v with JArray _ => true | _ => false end;
  as_array v := match v with JArray l => Some l | _ => None end;
|}.

#[export] Instance sample_report_laws : ReportLaws.
Proof.
  split; try done; try (intros a; eexists; split; [reflexivity|apply parse_value_text]).
  intros n Hn. cbn. by rewrite bool_decide_true.
Qed.

#[export] Instance sample_wasmtime : Wasmtime := {|
  from_binary _ := inr tt;
  add_to_linker := inr tt;
  instantiate _ := inr tt;
|}.

(** ** A bump allocator, at multiples of four

    Short vectors are exact; longer ones keep eight bytes of spare capacity. *)

Definition bump_fits (blocks : gmap Z Z) (p n : Z) : Prop :=
  (0 < p)%Z ∧ (p + n <= 2 ^ 32)%Z ∧
  map_Forall (λ q s, p + n <= q ∨ q + s <= p)%Z blocks.

#[export] Instance bump_fits_dec blocks p n : Decision (bump_fits blocks p n).
Proof. unfold bump_fits. apply _. Defined.

#[export] Instance sample_allocator : Allocator := {|
  Heap := Z;
  malloc h blocks n :=
    if bool_decide (bump_fits blocks h n) then (h, 4 * ((h + n + 3) / 4))%Z else (0, h)%Z;
  spare _ b := if bool_decide (length b <= 64)%nat then 0%Z else 8%Z;
|}.

#[export] Instance sample_allocator_laws : AllocatorLaws.
Proof.
  split.
  - intros h blocks n p h'. cbn. case_bool_decide as Hf; intros [= <- _] Hp; [|done].
    destruct Hf as (H1 & H2 & H3). by split_and!.
  - intros h b. cbn. by case_bool_decide.
Qed.

#[export] Instance sample_string_json : ToJson string := sample_write JString.

#[export] Instance sample_string_laws : JsonStringLaws.
Proof.
  split; [intros s; by eexists|]. intros s1 s2 j [= H1] [= H2].
  assert (Some (JString s1) = Some (JString s2)) as [= ->]; [|done].
  rewrite <- !value_of_text_of. by rewrite H1, H2.
Qed.
