(* ===== verification/Witnesses.v ===== *)
(** * Concrete runs

    Two nodes with seeds, a third as their successor, one handshake, one
    rotation, a few envelopes, all on the functions of [Sample]; and for every
    property that has hypotheses, its statement on such data. *)

From S2P Require Import Prelude Errors Types Extern F64 Config Dedup Quorum Session Identity Envelope Rotation Lineage LineageThms Handshake HandshakeThms Engine EngineThms Api ApiThms Component ComponentThms Codec Messages Sample.

(** The value of a computation that succeeds, with the equation. *)
Definition checked {E A} (r : result E A) : is_ok r = true -> {a : A | r = Ok a} :=
  match r with
  | Ok a => λ _, exist _ a eq_refl
  | _ => λ H, False_rect _ (eq_ind false (λ b, if b then False else True) I true H)
  end.

(** The same for a run of a method: its value and the state it leaves. *)
Definition checked_run {S E A} (r : result E A * S) : is_ok r.1 = true -> {p : A * S | r = (Ok p.1, p.2)} :=
  match r with
  | (Ok a, s) => λ _, exist _ (a, s) eq_refl
  | _ => λ H, False_rect _ (eq_ind false (λ b, if b then False else True) I true H)
  end.

(** And for a call of foreign code. *)
Definition checked_call {A} (r : fallible A) :
    match r with inr _ => true | inl _ => false end = true -> {a : A | r = inr a} :=
  match r with
  | inr a => λ _, exist _ a eq_refl
  | inl _ => λ H, False_rect _ (eq_ind false (λ b, if b then False else True) I true H)
  end.

Ltac computed := vm_compute; reflexivity.
Ltac run_checked := first [apply checked|apply checked_run|apply checked_call]; computed.

(** ** Nodes *)

Definition resolved0_ok : {r | resolve empty_config = Ok r}.
Proof. run_checked. Defined.
Definition resolved0 : ResolvedConfig := proj1_sig resolved0_ok.

Definition seed (n : nat) (b : Z) : bytes := repeat (byte_of_Z b) n.

Definition node_a_ok : {i | from_seeds (seed 32 1) (seed 64 2) (seed 32 3) "epoch-a" = Ok i}.
Proof. run_checked. Defined.
Definition node_a : NodeIdentity := proj1_sig node_a_ok.
Definition node_b_ok : {i | from_seeds (seed 32 4) (seed 64 5) (seed 32 6) "epoch-b" = Ok i}.
Proof. run_checked. Defined.
Definition node_b : NodeIdentity := proj1_sig node_b_ok.
Definition node_c_ok : {i | from_seeds (seed 32 7) (seed 64 8) (seed 32 9) "epoch-c" = Ok i}.
Proof. run_checked. Defined.
Definition node_c : NodeIdentity := proj1_sig node_c_ok.

Lemma sample_can_sign i : can_sign i.
Proof. intros m. by eexists. Qed.

Lemma resolved0_wf : config_wf resolved0.
Proof. exact (proj2 (resolve_inv empty_config resolved0 (proj2_sig resolved0_ok))). Qed.

Definition engine_a : Engine.GossipEngine := Engine.new resolved0 node_a.
Definition engine_b : Engine.GossipEngine := Engine.new resolved0 node_b.

Lemma engine_a_wf : engine_wf engine_a.
Proof. apply new_wf; [apply resolved0_wf|by vm_compute]. Qed.

(** ** Lineages *)

Definition lineage_a_ok : {l | from_identity node_a = Ok l}.
Proof. run_checked. Defined.
Definition lineage_a : KeyLineage := proj1_sig lineage_a_ok.

Lemma lineage_a_of_a : from_identity node_a = Ok lineage_a.
Proof. exact (proj2_sig lineage_a_ok). Qed.

Lemma lineage_a_valid : valid lineage_a.
Proof. apply (from_identity_valid _ _ lineage_a_of_a). Qed.

Lemma lineage_a_room : has_room lineage_a.
Proof. by vm_compute. Qed.

Lemma node_a_wf : node_wf engine_a lineage_a.
Proof.
  destruct (from_identity_ok _ _ lineage_a_of_a) as (Hv & Hid & Hs & Hk).
  exact (Build_node_wf engine_a lineage_a engine_a_wf Hv Hid Hs Hk).
Qed.

(** A commitment to [node_c]'s key, and the rotation from [node_a] to [node_b]
    that carries it. *)
Definition commitment_c : bytes := key_commitment (sig_public_key_bytes node_c).

Definition rotate_ab_ok :
  {p | rotate node_a node_b (Some commitment_c) 1000 lineage_a = (Ok p.1, p.2)}.
Proof. run_checked. Defined.
Definition rotation_ab : KeyRotation := (proj1_sig rotate_ab_ok).1.
Definition lineage_b : KeyLineage := (proj1_sig rotate_ab_ok).2.

Lemma rotate_ab :
  rotate node_a node_b (Some commitment_c) 1000 lineage_a = (Ok rotation_ab, lineage_b).
Proof. exact (proj2_sig rotate_ab_ok). Qed.

Lemma lineage_b_valid : valid lineage_b.
Proof. apply (rotate_valid _ _ _ _ _ _ _ lineage_a_valid lineage_a_room rotate_ab). Qed.

Lemma lineage_b_room : has_room lineage_b.
Proof. by vm_compute. Qed.

(** The recovery to the committed key. *)
Definition recover_bc_ok : {p | recover node_c None 2000 lineage_b = (Ok p.1, p.2)}.
Proof. run_checked. Defined.
Definition rotation_bc : KeyRotation := (proj1_sig recover_bc_ok).1.
Definition lineage_c : KeyLineage := (proj1_sig recover_bc_ok).2.

Definition lineage_b_bytes_ok : {b | encode lineage_b = Ok b}.
Proof. run_checked. Defined.

(** ** One handshake *)

Definition ca : string := "client".
Definition sa : string := "server".

Definition probe_ok :
  {p | Handshakes.build_probe sa node_a 1000 (Handshakes.new, 0%Z) = (Ok p.1, p.2)}.
Proof. run_checked. Defined.
Definition probe_run : bytes * hs := proj1_sig probe_ok.

Definition ack_ok :
  {p | Handshakes.process_probe_build_ack ca probe_run.1 node_b 1000 (Handshakes.new, 100%Z) =
       (Ok p.1, p.2)}.
Proof. run_checked. Defined.
Definition ack_run : bytes * hs := proj1_sig ack_ok.

Definition finish_ok :
  {p | Handshakes.process_ack_build_finish sa ack_run.1 node_a 1000 probe_run.2 = (Ok p.1, p.2)}.
Proof. run_checked. Defined.
Definition finish_run : bytes * hs := proj1_sig finish_ok.

Definition finish_ack_ok :
  {p | Handshakes.process_finish_build_finish_ack ca finish_run.1 node_b 1000 ack_run.2 =
       (Ok (p.1.1, p.1.2), p.2)}.
Proof.
  destruct (checked_run (Handshakes.process_finish_build_finish_ack ca finish_run.1 node_b 1000
    ack_run.2)) as [[[kb ss] s] E]; [computed|]. exact (exist _ (kb, ss, s) E).
Defined.
Definition finish_ack_run : bytes * SessionRecord * hs := proj1_sig finish_ack_ok.

Definition session_ok :
  {p | Handshakes.process_finish_ack sa finish_ack_run.1.1 1000 finish_run.2 = (Ok p.1, p.2)}.
Proof. run_checked. Defined.
Definition session_run : SessionRecord * hs := proj1_sig session_ok.

(** The last two messages as their receivers read them. *)
Definition finish_msg_ok : {f : HandshakeFinish | deserialize finish_run.1 = inr f}.
Proof. run_checked. Defined.
Definition finish_msg : HandshakeFinish := proj1_sig finish_msg_ok.

Definition finish_ack_msg_ok : {f : HandshakeFinishAck | deserialize finish_ack_run.1.1 = inr f}.
Proof. run_checked. Defined.
Definition finish_ack_msg : HandshakeFinishAck := proj1_sig finish_ack_msg_ok.

Lemma sample_foreign_ok : foreign_ok node_b 0%Z 100%Z.
Proof.
  split; [|by do 3 eexists|apply sample_can_sign].
  do 8 eexists. split_and!; [reflexivity|reflexivity|computed|reflexivity|by vm_compute|computed].
Qed.

Lemma sample_in_time : in_time 1000 1000 1000 1000 1000.
Proof. split; [by vm_compute|lia..]. Qed.

Lemma sample_names : names_short sa node_a node_b.
Proof. split; by vm_compute. Qed.

(** ** Envelopes *)

Definition payload1 : bytes := as_bytes "block".

Definition envelope1_made :
  {e | build_envelope BlockProposal payload1 node_a 8 1000 = Ok e}.
Proof. run_checked. Defined.
Definition envelope1 : GossipEnvelope := proj1_sig envelope1_made.

Definition envelope1_wire : {b | encode_envelope envelope1 = Ok b}.
Proof. run_checked. Defined.
Definition envelope1_bytes : bytes := proj1_sig envelope1_wire.

Lemma envelope1_ok : verify_envelope envelope1 resolved0 2000 = Ok true.
Proof. computed. Qed.

(** ** An initialized component *)

Definition booted : Api.Global := (Api.gossip_init "{}" (Api.uninitialized, 0%Z)).2.1.

Lemma booted_reachable : api_reachable booted.
Proof. apply rtc_once. exact (step_init Api.uninitialized "{}" 0%Z). Qed.

(** A connected peer that is not in the mesh. *)
Definition engine_connected : Engine.GossipEngine :=
  Api.record_session finish_ack_run.1.2 engine_a.

Lemma engine_connected_wf : engine_wf engine_connected.
Proof.
  apply (record_session_wf ca); [|exact engine_a_wf].
  exact (finish_session_wf _ _ _ _ _ _ _ _ (proj2_sig finish_ack_ok)).
Qed.

(** A decidable proposition, by computing its decision. *)
Ltac decided := match goal with |- ?P => apply (bool_decide_eq_true_1 P); computed end.

(** ** The properties on this data *)

Lemma handshake_establishes_witness :
  foreign_ok node_b 0%Z 100%Z ∧
  ∃ (mc3 ms2 : hs) (sc ss : SessionRecord),
    Handshakes.get_session mc3.1 sa = Some sc ∧ Handshakes.get_session ms2.1 ca = Some ss ∧
    mirror ca sa node_a node_b 1000 1000 sc ss.
Proof.
  split; [exact sample_foreign_ok|].
  destruct (handshake_establishes ca sa node_a node_b 0%Z 100%Z 1000 1000 1000 1000 1000
    Handshakes.new Handshakes.new sample_foreign_ok sample_in_time sample_names)
    as (pb & ab & fb & kb & mc1 & ms1 & mc2 & ms2 & mc3 & sc & ss & _ & _ & _ & _ & _ & Hc & Hs
        & _ & _ & Hm).
  exact (ex_intro _ mc3 (ex_intro _ ms2 (ex_intro _ sc (ex_intro _ ss (conj Hc (conj Hs Hm)))))).
Defined.

Lemma obtained_valid_witness : valid lineage_b.
Proof.
  apply obtained_valid.
  exact (ob_rotate _ _ _ _ _ _ _ (ob_identity _ _ lineage_a_of_a) lineage_a_room rotate_ab).
Defined.

Lemma apply_outcomes_witness : apply rotation_ab lineage_b = (Ok tt, lineage_b).
Proof.
  apply (proj1 (apply_outcomes lineage_b rotation_ab lineage_b_valid)).
  apply (list_elem_of_lookup_2 _ 0%nat). computed.
Defined.

Lemma commitment_enforced_witness :
  (apply rotation_bc lineage_b).2 ≠ lineage_b ∧
  (current_sig_public_key (apply rotation_bc lineage_b).2 = sig_public_key_bytes node_c ∨
   collide (COMMITMENT_TAG ++ current_sig_public_key (apply rotation_bc lineage_b).2)
     (COMMITMENT_TAG ++ sig_public_key_bytes node_c)).
Proof.
  assert ((apply rotation_bc lineage_b).2 ≠ lineage_b) as Hne.
  { intros H%(f_equal sequence). vm_compute in H. discriminate H. }
  split; [exact Hne|].
  refine (commitment_enforced lineage_b (apply rotation_bc lineage_b).2
    (sig_public_key_bytes node_c) lineage_b_valid _ _ Hne).
  - computed.
  - eapply op_apply. apply surjective_pairing.
Defined.

Lemma api_consistent_witness : global_wf booted.
Proof. exact (api_consistent booted booted_reachable). Defined.

Lemma exports_never_trap_witness :
  (run_call (call_process_handshake_bytes sa finish_run.1) (booted, 7%Z)).1 ≠ Panic.
Proof. exact (exports_never_trap booted 7%Z _ booted_reachable). Defined.

Lemma heartbeat_repairs_witness :
  Engine.mesh_peers engine_connected = [] ∧
  Z.of_nat (length (Engine.mesh_peers (Engine.heartbeat 5000 engine_connected))) = 1%Z.
Proof.
  split; [computed|].
  destruct (heartbeat_repairs 5000 engine_connected engine_connected_wf)
    as (_ & _ & (g & _ & _ & Hl) & _).
  rewrite Hl; [computed|by vm_compute].
Defined.

Lemma dedup_refines_filter_witness :
  (Cache.run (Cache.new 60) [Cache.Query payload1 10; Cache.Insert payload1 10; Cache.Evict 20;
                             Cache.Query payload1 60010; Cache.Query payload1 60011]).1 =
  [false; true; false].
Proof.
  rewrite (Cache.dedup_refines_filter 60 0); [computed|by cbn; lia].
Defined.

Definition acked : Tracker.QuorumTracker :=
  fold_left (λ t p, Tracker.record_ack payload1 p t) ["p1"; "p2"; "p3"; "p4"]%string
    (Tracker.new (f64_literal 67 2)).

Lemma quorum_intersection_witness :
  let peers := list_to_set ["p1"; "p2"; "p3"; "p4"; "p5"]%string : gset string in
  (size peers < 3 * size (Tracker.ackers acked payload1 ∩ Tracker.ackers acked payload1))%nat.
Proof.
  intros peers. apply (Tracker.quorum_intersection acked payload1 payload1 peers).
  - reflexivity.
  - by vm_compute.
  - decided.
  - decided.
  - computed.
  - computed.
Defined.

Lemma node_b_kem : kem_public_key_canonical_bytes node_b = Ok (current_kem_public_key lineage_b).
Proof. computed. Qed.

Lemma node_c_kem : kem_public_key_canonical_bytes node_c = Ok (current_kem_public_key lineage_c).
Proof. computed. Qed.

Lemma lineage_a_opens : opens lineage_a node_b.
Proof. intros c Hc. vm_compute in Hc. discriminate Hc. Qed.

Lemma rotate_moves_keys_witness :
  ∃ r l', rotate node_a node_b None 1000 lineage_a = (Ok r, l') ∧ moved lineage_a node_b None r l'.
Proof.
  apply (rotate_moves_keys lineage_a node_a node_b (current_kem_public_key lineage_b)).
  - exact lineage_a_valid.
  - exact lineage_a_room.
  - computed.
  - apply sample_can_sign.
  - apply sample_can_sign.
  - exact node_b_kem.
  - exact lineage_a_opens.
Defined.

Lemma decode_exact_witness : decode (proj1_sig lineage_b_bytes_ok) ≠ Panic ∧ decode [] ≠ Ok lineage_b.
Proof.
  split; [exact (proj1 (decode_exact (proj1_sig lineage_b_bytes_ok) lineage_b))|].
  intros H. apply (proj2 (decode_exact [] lineage_b)) in H as (_ & H & _).
  vm_compute in H. discriminate H.
Defined.

Lemma engines_connect_witness :
  ∃ (c3 s2 : Engine.GossipEngine * Os) (sc ss : SessionRecord),
    Store.get (Engine.sessions c3.1) sa = Some sc ∧ Store.get (Engine.sessions s2.1) ca = Some ss ∧
    mirror ca sa node_a node_b 1000 1000 sc ss.
Proof.
  destruct (engines_connect (X:=sample_ext) ca sa 0%Z 100%Z 1000 1000 1000 1000 1000 engine_a engine_b
    eq_refl sample_foreign_ok sample_in_time sample_names)
    as (pb & ab & fb & kb & c1 & s1 & c2 & s2 & c3 & sc & ss & _ & _ & _ & _ & _ & _ & _ & Hc & Hs
        & Hm).
  exact (ex_intro _ c3 (ex_intro _ s2 (ex_intro _ sc (ex_intro _ ss (conj Hc (conj Hs Hm)))))).
Defined.

(** The manager of the client after its probe and its finish. *)
Lemma finish_manager_reachable : reachable finish_run.2.1.
Proof.
  eapply rtc_l; [exact (step_build_probe (X:=sample_ext) Handshakes.new sa node_a 1000 0%Z)|].
  apply rtc_once.
  pose proof (step_ack (X:=sample_ext) (Handshakes.build_probe sa node_a 1000 (Handshakes.new, 0%Z)).2.1
    sa ack_run.1 node_a 1000 probe_run.2.2) as H.
  rewrite (proj2_sig probe_ok) in *. cbn [snd] in *. fold probe_run in *.
  rewrite <- surjective_pairing in H.
  pose proof (proj2_sig finish_ok) as E. fold finish_run in E.
  rewrite E in H. exact H.
Qed.

Lemma reachable_wf_witness : manager_wf finish_run.2.1.
Proof. exact (proj1 (reachable_wf finish_run.2.1 finish_manager_reachable)). Defined.

Lemma recover_needs_commitment_witness :
  ∃ r l', recover node_c None 2000 lineage_b = (Ok r, l') ∧ moved lineage_b node_c None r l'.
Proof.
  apply (recover_needs_commitment lineage_b node_c (current_kem_public_key lineage_c) None 2000
    lineage_b_valid lineage_b_room (sample_can_sign _) node_c_kem).
  exists commitment_c. split; [computed|reflexivity].
Defined.

Lemma init_once_witness :
  not_initialized (Api.gossip_publish 1 payload1) (Api.uninitialized, 0%Z).
Proof.
  exact (proj1 (proj1 (init_once (X:=sample_ext) "{}" "b" "epoch-b" [] payload1 [] [] None 1
    (Api.uninitialized, 0%Z)) eq_refl)).
Defined.

Lemma rotation_under_id_witness :
  match Api.identity_from_seed_bytes (seed 96 4) (seed 32 6) "epoch-b", Api.parse_commitment None with
  | Ok next, Ok cm =>
      ∃ r e' l' os', Api.gossip_rotate_keys_under_id (seed 96 4) (seed 32 6) "epoch-b" None
          (Api.mkGlobal (Some engine_a) (Some lineage_a), 0%Z) =
          (r, (Api.mkGlobal (Some e') (Some l'), os')) ∧
        rotation_outcome next cm engine_a lineage_a r e' l' ∧
        node_id (Engine.identity e') = node_id node_a
  | _, _ => False
  end.
Proof.
  pose proof (rotation_under_id (X:=sample_ext) (seed 96 4) (seed 32 6) "epoch-b" None engine_a lineage_a 0%Z
    node_a_wf lineage_a_room) as H.
  assert (is_ok (Api.identity_from_seed_bytes (seed 96 4) (seed 32 6) "epoch-b") = true) as Hok
    by computed.
  destruct (Api.identity_from_seed_bytes (seed 96 4) (seed 32 6) "epoch-b") as [next|err|];
    [exact H|discriminate Hok|discriminate Hok].
Defined.

(** A node that had never seen the envelope and one that is connected give the
    same verdict on its bytes. *)
Lemma receive_keeps_no_memory_witness :
  (Engine.verify_envelope_bytes envelope1_bytes 2000 (engine_a, 0%Z)).1 = Ok true ∧
  (Engine.verify_envelope_bytes envelope1_bytes 2000 (engine_connected, 5%Z)).1 = Ok true.
Proof.
  assert ((Engine.verify_envelope_bytes envelope1_bytes 2000 (engine_a, 0%Z)).1 = Ok true) as H
    by computed.
  split; [exact H|]. rewrite <- H.
  exact (proj1 (receive_keeps_no_memory (X:=sample_ext) envelope1_bytes 2000 (engine_a, 0%Z)
    (engine_connected, 5%Z) eq_refl)).
Defined.

Lemma content_bound_witness :
  env_payload_type envelope1 = env_payload_type envelope1 ∧ env_payload envelope1 = payload1.
Proof.
  destruct (content_bound envelope1 envelope1 resolved0 resolved0 2000 2000 envelope1_ok
    ltac:(computed)) as [_ H].
  destruct (H envelope1_ok eq_refl) as [Ht _]. split; [exact Ht|computed].
Defined.

Lemma built_envelope_verifies_witness : verify_envelope envelope1 resolved0 31000 = Ok true.
Proof.
  refine (built_envelope_verifies BlockProposal payload1 node_a 8 1000 31000 resolved0 envelope1
    (proj2_sig envelope1_made) _ _ _ _); by vm_compute.
Defined.

Lemma accepted_restamped_witness :
  verify_envelope (restamp "somebody else" 999999 200 envelope1) resolved0 1000000 = Ok true.
Proof.
  refine (accepted_restamped envelope1 resolved0 2000 1000000 999999 200 "somebody else"
    envelope1_ok _ _ _); by vm_compute.
Defined.

Definition signed_ok : {s | sign node_a payload1 SIG_CTX_MESSAGE = Ok s}.
Proof. run_checked. Defined.

Lemma sign_verify_separated_witness :
  verify node_a payload1 (proj1_sig signed_ok) SIG_CTX_MESSAGE = Ok true.
Proof.
  exact (proj2 (proj1 (sign_verify_separated node_a SIG_CTX_MESSAGE payload1 (proj1_sig signed_ok)
    payload1 payload1 payload1 payload1) (proj2_sig signed_ok))).
Defined.

Lemma identity_self_derived_witness : self_derived node_a ∧ String.length (node_id node_a) = 64%nat.
Proof.
  destruct (identity_self_derived (X:=sample_ext) (S:=unit) (seed 32 1) (seed 64 2) (seed 32 3)
    "epoch-a" (tt, 0%Z) node_a (or_introl (proj2_sig node_a_ok))) as (Hd & _ & Hl & _).
  exact (conj Hd Hl).
Defined.

Lemma rotation_ab_successor :
  successor (lin_node_id lineage_a) (lin_current lineage_a) rotation_ab.
Proof.
  exact (rotate_successor _ _ _ _ _ _ _ lineage_a_valid rotate_ab).
Qed.

Lemma rotation_ab_fits : rotation_fits rotation_ab.
Proof.
  constructor; try (by vm_compute). intros b Hb.
  assert (rot_next_key_commitment rotation_ab = Some commitment_c) as Hc by computed.
  rewrite Hc in Hb. injection Hb as <-. computed.
Qed.

Lemma lineage_a_fits : lineage_fits lineage_a.
Proof.
  split; [by vm_compute|]. constructor; by vm_compute.
Qed.

Lemma record_binds_state_witness : same_content rotation_ab rotation_ab.
Proof.
  exact (proj1 (record_binds_state lineage_a lineage_a rotation_ab rotation_ab rotation_ab_fits
    rotation_ab_fits lineage_a_fits lineage_a_fits rotation_ab_successor rotation_ab_successor
    eq_refl)).
Defined.

Lemma failure_is_atomic_witness :
  (∃ e, (rotate node_b node_c None 3000 lineage_a).1 = Err e) ∧
  (rotate node_b node_c None 3000 lineage_a).2 = lineage_a.
Proof.
  assert (∃ e, (rotate node_b node_c None 3000 lineage_a).1 = Err e) as [e He]
    by (eexists; computed).
  split; [exact (ex_intro _ e He)|].
  destruct (failure_is_atomic lineage_a node_b node_c rotation_ab None 3000 e
    (rotate node_b node_c None 3000 lineage_a).2 lineage_a_valid) as (_ & H & _).
  apply H. rewrite <- He. apply surjective_pairing.
Defined.

(** The same finish under another client. *)
Definition stolen_ok :
  {b | serialize (with_client (sig_public_key_bytes node_c) "mallory" finish_msg) = inr b}.
Proof. run_checked. Defined.

Lemma client_unauthenticated_witness :
  ∃ kb th, Handshakes.process_finish_build_finish_ack ca (proj1_sig stolen_ok) node_b 1000 ack_run.2 =
    (Ok (kb, mkSession (session_id finish_ack_run.1.2) ca "mallory" (sig_public_key_bytes node_c) th
               1000 true), finish_ack_run.2).
Proof.
  refine (client_unauthenticated ca "mallory" finish_run.1 (proj1_sig stolen_ok)
    (sig_public_key_bytes node_c) finish_ack_run.1.1 node_b 1000 ack_run.2 finish_ack_run.2
    finish_msg finish_ack_run.1.2 (proj2_sig finish_msg_ok) (proj2_sig stolen_ok) _
    (sample_can_sign _) _ (proj2_sig finish_ack_ok)); [computed|by vm_compute].
Defined.

(** The same final message under another session id. *)
Definition renamed_ok : {b | serialize (with_session_id "chosen" finish_ack_msg) = inr b}.
Proof. run_checked. Defined.

Lemma session_run_ok :
  (Handshakes.process_finish_ack sa finish_ack_run.1.1 1000 finish_run.2).1 = Ok session_run.1.
Proof. exact (f_equal fst (proj2_sig session_ok)). Qed.

Lemma session_id_unauthenticated_witness :
  ∃ se, (Handshakes.process_finish_ack sa (proj1_sig renamed_ok) 1000 finish_run.2).1 = Ok se ∧
    session_id se = "chosen"%string.
Proof.
  eexists. split; [exact (session_id_unauthenticated sa "chosen" finish_ack_run.1.1
    (proj1_sig renamed_ok) 1000 finish_run.2 finish_ack_msg session_run.1
    (proj2_sig finish_ack_msg_ok) (proj2_sig renamed_ok) session_run_ok)|reflexivity].
Defined.

Lemma evict_timed_out_exact_witness :
  (Handshakes.evict_timed_out 11001 probe_run.2.1).1 = [sa] ∧
  size (pending (Handshakes.evict_timed_out 11001 probe_run.2.1).2) = 0%nat.
Proof.
  assert ((Handshakes.evict_timed_out 11001 probe_run.2.1).1 = [sa]) as He by computed.
  split; [exact He|].
  pose proof (evict_timed_out_exact 11001 probe_run.2.1) as H.
  rewrite (surjective_pairing (Handshakes.evict_timed_out 11001 probe_run.2.1)) in H.
  destruct H as (_ & _ & _ & _ & Hl).
  change (length (Handshakes.evict_timed_out 11001 probe_run.2.1).1 +
    size (pending (Handshakes.evict_timed_out 11001 probe_run.2.1).2) =
    size (pending probe_run.2.1))%nat in Hl.
  rewrite He in Hl.
  assert (size (pending probe_run.2.1) = 1%nat) as Hs by computed.
  rewrite Hs in Hl. cbn [length] in Hl. lia.
Defined.

(** A codec that cannot write lineages. *)
Definition full_disk : Bincode LineageWire := {|
  serialize _ := inl "no space"%string;
  deserialize _ := inl "no space"%string;
  deserialize_limit _ _ := inl "no space"%string;
|}.

Lemma rotation_unwritten now :
  ∃ r l', rotate node_a node_b None now lineage_a = (Ok r, l') ∧
    encode (Bincode0:=full_disk) l' =
    Err (SerializationError ("bincode encode failed: " +:+ "no space")).
Proof.
  destruct (rotate_run lineage_a node_a node_b (current_kem_public_key lineage_b) None now)
    as (r & l' & E).
  - exact lineage_a_valid.
  - computed.
  - apply sample_can_sign.
  - apply sample_can_sign.
  - exact node_b_kem.
  - exact lineage_a_opens.
  - exists r, l'. split; [exact E|reflexivity].
Qed.

Lemma node_b_seeded :
  Api.identity_from_seed_bytes (seed 32 4 ++ seed 64 5) (seed 32 6) "epoch-b" = Ok node_b.
Proof.
  unfold Api.identity_from_seed_bytes. rewrite !bool_decide_false by (intros []; computed).
  rewrite !slice_ok by (apply Nat.leb_le; computed). exact (proj2_sig node_b_ok).
Qed.

Lemma unsaved_rotation_strands_witness :
  ∃ e1 os1,
    Api.gossip_rotate_keys_under_id (Bincode0:=full_disk) (seed 32 4 ++ seed 64 5) (seed 32 6)
      "epoch-b" None (Api.mkGlobal (Some engine_a) (Some lineage_a), 0%Z)
    = (Err (SerializationError ("bincode encode failed: " +:+ "no space")),
       (Api.mkGlobal (Some e1) (Some lineage_a), os1)) ∧
    is_ok (Api.gossip_rotate_keys_under_id (Bincode0:=full_disk) (seed 96 7) (seed 32 9) "epoch-c"
      None (Api.mkGlobal (Some e1) (Some lineage_a), 0%Z)).1 = false.
Proof.
  assert (sig_public_key_bytes node_b ≠ current_sig_public_key lineage_a) as Hkey.
  { intros H. vm_compute in H. discriminate H. }
  destruct (unsaved_rotation_strands (X:=sample_ext) (Bincode0:=full_disk) (seed 32 4 ++ seed 64 5)
    (seed 32 6) "epoch-b" None None engine_a lineage_a 0%Z node_b _ node_a_wf lineage_a_room
    node_b_seeded eq_refl rotation_unwritten Hkey) as (e1 & os1 & E & _ & _ & _ & Hf).
  exists e1, os1. split; [exact E|]. exact (proj1 (Hf (seed 96 7) (seed 32 9) "epoch-c"%string None 0%Z)).
Defined.

Lemma default_fraction_two_thirds_witness :
  Tracker.has_quorum acked payload1 5 = true ∧ (2 * 5 < 3 * Tracker.ack_count acked payload1)%Z.
Proof.
  assert (Tracker.has_quorum acked payload1 5 = true) as Hq by computed.
  split; [exact Hq|].
  refine (proj1 (Tracker.default_fraction_two_thirds acked payload1 5 eq_refl _) Hq).
  by vm_compute.
Defined.

Lemma classify_incoming_spec_witness :
  classify_incoming (le_bytes 8 25 ++ HANDSHAKE_PROBE_MAGIC ++ payload1) = KHandshakeProbe.
Proof.
  apply (classify_incoming_spec _ KHandshakeProbe HANDSHAKE_PROBE_MAGIC eq_refl).
  exists (le_bytes 8 25), payload1. split; [reflexivity|reflexivity].
Defined.

Lemma resolve_wf_witness : config_wf resolved0.
Proof. exact (resolve_wf empty_config resolved0 (proj2_sig resolved0_ok)). Defined.
