(* ===== verification/HostWitnesses.v ===== *)
(** * Concrete runs of the interfaces

    A linear memory with a bump allocator, and a quiet operating system: the
    properties of the C interface and of the host programs on such data. *)

From S2P Require Import Prelude Errors Types Extern F64 Config Dedup Quorum Session Identity Envelope Rotation Lineage LineageThms Storage Handshake HandshakeThms Engine EngineThms Api ApiThms Component ComponentThms Memory Utf8 Wasi WasiThms Host HostThms NodeRuns RotationRuns Harness HarnessThms RotationTest Validate ValidateRuns ValidateThms Codec Messages JsonText Sample Witnesses.
Import Wasi.

(** ** A memory with an out-slot and a configuration *)

Definition mem0 : Memory := mkMemory ∅ ∅ 16%Z.

Lemma mem0_wf : mem_wf mem0.
Proof. split; intros ? ? *; cbn; by rewrite ?lookup_empty. Qed.

Definition slot_run : ST Memory Fault (Z * Z) :=
  slot ← wasi_alloc 12;
  cfg ← wasi_alloc 2;
  mret (slot, cfg).

Definition slot_ready : {p | slot_run mem0 = (Ok p.1, p.2)}.
Proof. run_checked. Defined.
Definition slot : Z := (proj1_sig slot_ready).1.1.
Definition cfg_ptr : Z := (proj1_sig slot_ready).1.2.
Definition mem1 : Memory := store (as_usize cfg_ptr) (as_bytes "{}") (proj1_sig slot_ready).2.

Lemma mem1_wf : mem_wf mem1.
Proof.
  pose proof (proj2_sig slot_ready) as E.
  apply st_bind_ok in E as (s & m1 & E1 & E).
  apply st_bind_ok in E as (c & m2 & E2 & E). apply ret_ok in E as [_ E].
  assert (mem_wf (proj1_sig slot_ready).2).
  { rewrite E. by eapply wasi_alloc_wf, wasi_alloc_wf, mem0_wf. }
  apply store_wf; [done|]. by apply (bool_decide_eq_true_1 _).
Qed.

Lemma mem1_slot : slot_ok mem1 slot.
Proof. split; [reflexivity|]. by apply (bool_decide_eq_true_1 _). Qed.

(** ** The C interface *)

Definition statics0 : Api.Global * Os := (Api.uninitialized, 0%Z).

Definition statics1 : Api.Global * Os := (api_call (c_init "{}") statics0).2.

Lemma init_call_ok : (api_call (c_init "{}") statics0).1 = Ok RUnit.
Proof. vm_compute. reflexivity. Qed.

Lemma init_call_unit : api_call (c_init "{}") statics0 = (Ok RUnit, statics1).
Proof. rewrite <- init_call_ok. apply surjective_pairing. Qed.

Lemma refusal_length : Z.of_nat (length (as_bytes (error_json NotInitialized))) = 102%Z.
Proof. vm_compute. reflexivity. Qed.

(** A call that succeeds, and one that is refused and leaves its error as text. *)
Lemma abi_refines_api_witness :
  (∃ m', run_abi (c_init (cfg_ptr, 2%Z)) slot (statics0, mem1) = (Ok tt, (statics1, m')) ∧
     read_slot m' slot = Some (1, 0, 0)%Z) ∧
  ∃ m' p, run_abi c_get_stats slot (statics0, mem1) = (Ok tt, (statics0, m')) ∧
     read_slot m' slot = Some (0, p, 102)%Z ∧
     holds m' p (as_bytes (error_json NotInitialized)).
Proof.
  split.
  - pose proof (abi_refines_api (c_init (cfg_ptr, 2%Z)) (c_init "{}"%string) slot statics0 mem1 mem1_wf
      mem1_slot ltac:(vm_compute; reflexivity)) as H.
    rewrite init_call_unit in H. destruct H as [H _].
    destruct (H (or_introl eq_refl)) as (m' & E & Hd & _). exists m'. exact (conj E Hd).
  - pose proof (abi_refines_api c_get_stats c_get_stats slot statics0 mem1 mem1_wf
      mem1_slot eq_refl) as H.
    change (api_call c_get_stats statics0) with (Err NotInitialized : res reply, statics0) in H.
    destruct H as [H _]. destruct H as (m' & E & (p & Hr & Hh) & _);
      [apply (bool_decide_eq_true_1 _); vm_compute; reflexivity|].
    rewrite refusal_length in Hr. exists m', p. exact (conj E (conj Hr Hh)).
Defined.

Lemma mem1_cfg : bytes_at mem1 (cfg_ptr, 2%Z) = Some (as_bytes "{}").
Proof. by vm_compute. Qed.

(** The steps that led there, as a host's: two allocations, a write, a call. *)
Definition init_ready :
  {p | run_abi (c_init (cfg_ptr, 2%Z)) slot (statics0, mem1) = (Ok p.1, p.2)}.
Proof. run_checked. Defined.
Definition final : (Api.Global * Os) * Memory := (proj1_sig init_ready).2.

Lemma first_steps : rtc (host_step (X:=sample_ext)) (Api.uninitialized, mem0) (final.1.1, final.2).
Proof.
  pose proof (proj2_sig slot_ready) as E.
  apply st_bind_ok in E as (s & m1 & E1 & E).
  apply st_bind_ok in E as (c & m2 & E2 & E). apply ret_ok in E as [_ E].
  eapply rtc_l; [exact (host_alloc _ _ _ _ _ E1)|].
  eapply rtc_l; [exact (host_alloc _ _ _ _ _ E2)|].
  eapply rtc_l; [apply (host_write _ m2 (as_usize cfg_ptr) (as_bytes "{}"))|].
  { rewrite <- E. apply (bool_decide_eq_true_1 _). vm_compute. reflexivity. }
  apply rtc_once.
  apply (host_export (X:=sample_ext) _ _ _ _ statics0.2 final.1.2 (c_init (cfg_ptr, 2%Z)) slot); rewrite <- E;
    fold mem1; [exact mem1_slot|].
  pose proof (proj2_sig init_ready) as Hi. unfold final.
  destruct (proj1_sig init_ready) as [[] [[g os] m]]. exact Hi.
Qed.

Lemma host_preserves_witness : mem_wf final.2 ∧ api_reachable final.1.1.
Proof.
  destruct (host_preserves mem0 (final.1.1, final.2) mem0_wf first_steps) as (Hm & Hr & _).
  exact (conj Hm Hr).
Defined.

Lemma read_str_text_witness :
  read_str cfg_ptr 2 mem1 = (Ok "{}"%string, mem1) ∧
  read_str cfg_ptr 1 (store (as_usize cfg_ptr) [byte_of_Z 255] mem1)
  = (Ok ""%string, store (as_usize cfg_ptr) [byte_of_Z 255] mem1).
Proof.
  split.
  - destruct (read_str_text mem1 cfg_ptr 2 (as_bytes "{}") mem1_cfg) as (s & E & Ht & _).
    rewrite E. do 2 f_equal. rewrite <- (of_as_bytes s), Ht; [done|].
    exists [123; 125]%Z. split; [|by vm_compute]. by repeat constructor.
  - set (m := store _ _ mem1).
    destruct (read_str_text m cfg_ptr 1 [byte_of_Z 255] ltac:(by vm_compute)) as (s & E & _ & Ht).
    rewrite E. do 2 f_equal. apply Ht. rewrite <- is_utf8_spec. by vm_compute.
Defined.

(** Eight bytes for the host. *)
Definition alloc_ready : {p | wasi_alloc 8 mem1 = (Ok p.1, p.2)}.
Proof. run_checked. Defined.

Lemma alloc_write_read_free_witness :
  let p := (proj1_sig alloc_ready).1 in
  let written := store (as_usize p) (as_bytes "payload!") (proj1_sig alloc_ready).2 in
  read_bytes p 8 written = (Ok (as_bytes "payload!"), written) ∧
  ∃ m'', wasi_free p 8 written = (Ok tt, m'') ∧ blocks m'' = blocks mem1.
Proof.
  destruct (alloc_write_read_free mem1 (proj1_sig alloc_ready).2 8 (proj1_sig alloc_ready).1
    (as_bytes "payload!") mem1_wf ltac:(unfold is_i32; lia) (proj2_sig alloc_ready)
    ltac:(vm_compute; discriminate) eq_refl) as (_ & Hr & m'' & Hf & _ & Hb).
  split; [exact Hr|]. exists m''. exact (conj Hf Hb).
Defined.

(** A short reply, without spare capacity, and a long one, with some. *)
Definition long_reply : bytes := repeat (byte_of_Z 0) 100.

Definition short_ready : {p | write_ok_bytes slot (as_bytes "ok") mem1 = (Ok p.1, p.2)}.
Proof. run_checked. Defined.
Definition long_ready : {p | write_ok_bytes slot long_reply mem1 = (Ok p.1, p.2)}.
Proof. run_checked. Defined.

Lemma free_reply_iff_exact_witness :
  (∃ p len m'', read_slot (proj1_sig short_ready).2 slot = Some (1, p, len)%Z ∧
     wasi_free p len (proj1_sig short_ready).2 = (Ok tt, m'') ∧ blocks m'' = blocks mem1) ∧
  ∃ p len, read_slot (proj1_sig long_ready).2 slot = Some (1, p, len)%Z ∧
     wasi_free p len (proj1_sig long_ready).2
     = (Err (InvalidFree p len), (proj1_sig long_ready).2).
Proof.
  assert ((proj1_sig short_ready).1 = tt ∧ (proj1_sig long_ready).1 = tt) as [H1 H2]
    by (split; by destruct (proj1_sig _).1).
  pose proof (proj2_sig short_ready) as E1. pose proof (proj2_sig long_ready) as E2.
  cbv beta in E1, E2. rewrite H1 in E1. rewrite H2 in E2. split.
  - destruct (free_reply_iff_exact mem1 (proj1_sig short_ready).2 (as_bytes "ok") slot mem1_wf
      mem1_slot ltac:(discriminate) E1) as (p & len & Hr & m'' & Hf & Hb & _).
    exists p, len, m''. exact (conj Hr (conj Hf Hb)).
  - exact (free_reply_iff_exact mem1 (proj1_sig long_ready).2 long_reply slot mem1_wf
      mem1_slot ltac:(discriminate) E2).
Defined.

Lemma error_json_inj_witness :
  tag_of (error_json (HandshakeError "timeout")) = "HandshakeError"%string.
Proof. exact (proj2 (error_json_inj (HandshakeError "timeout") (HandshakeError "timeout") eq_refl)). Defined.

(** ** The host programs *)

Definition always (os : Os) : Prop := True.

Lemma sample_usable i :
  (length (kem_keypair i : bytes) <= 4000)%nat -> short (String.length (node_id i)) -> usable i.
Proof.
  intros Hk Hi. constructor; [apply sample_can_sign| |done].
  eexists. split; [reflexivity|]. apply short_small.
  by rewrite <- length_as_bytes, as_of_bytes.
Qed.

Lemma node_id_short i : self_derived i -> short (String.length (node_id i)).
Proof. intros Hd. apply short_small. rewrite self_derived_length by exact Hd. lia. Qed.

(** The sample operating system never fails, and its clock stands still. *)
Lemma sample_quiet : quiet always 1000000 1000000.
Proof.
  split.
  - done.
  - intros os _. by exists 1000000%Z, os.
  - intros n os _. by eexists _, _.
  - intros i os _ _. cbn [encapsulate_to sample_kem].
    assert (short (length (le_bytes 8 (os + 1)))) as Hs.
    { apply short_small. rewrite length_le_bytes. lia. }
    destruct (codec_total vec_codec _ (vec_encodable _ Hs)) as [ctb Hb].
    eexists _, _, _, _, ctb, _. split_and!; [reflexivity| |reflexivity| |exact Hb|done].
    + cbn. rewrite bool_decide_true by reflexivity. reflexivity.
    + by rewrite <- length_as_bytes, as_of_bytes.
  - intros epoch os _.
    destruct (generate epoch (tt, os)) as [[i|e|] [[] os']] eqn:E; try discriminate E.
    destruct (generate_inv _ _ _ _ E) as (_ & Hd & _).
    exists i, os'. split_and!; [done| |done|].
    + apply sample_usable; [|by apply node_id_short]. injection E as <- _. cbn. lia.
    + intros S s. by injection E as <- <-.
Qed.

Lemma host_handshake_connects_witness :
  ∃ ec es os', do_handshake ((node_at "a" engine_a None, node_at "b" engine_b None), 0%Z)
    = (Ok tt, ((node_at "a" ec None, node_at "b" es None), os')) ∧
    is_Some (Session.Store.get (Engine.sessions ec) "b").
Proof.
  destruct (host_handshake_connects sample_quiet "a" "b" engine_a engine_b None None 0%Z I)
    as (sc & ss & t4 & t5 & ec & es & os' & E & _ & Hc & _).
  - apply sample_usable; [apply Nat.leb_le; vm_compute; reflexivity|].
    apply short_small, Nat.leb_le. vm_compute. reflexivity.
  - constructor; apply short_small, Nat.leb_le; vm_compute; reflexivity.
  - reflexivity.
  - exists ec, es, os'. split; [exact E|]. rewrite Hc. by exists sc.
Defined.

(** The seeds of the program derive different keys here too. *)
Definition sample_id (n : Z) : NodeIdentity :=
  match Api.identity_from_seed_bytes (kem_of n) (sig_of n) (epoch_of n) with
  | Ok i => i
  | _ => node_a
  end.

Definition sample_derives (n : Z) : bool :=
  is_ok (Api.identity_from_seed_bytes (kem_of n) (sig_of n) (epoch_of n)).

Lemma sample_derived n :
  sample_derives n = true ->
  Api.identity_from_seed_bytes (kem_of n) (sig_of n) (epoch_of n) = Ok (sample_id n) ∧
  usable (sample_id n).
Proof.
  unfold sample_derives, sample_id.
  destruct (Api.identity_from_seed_bytes (kem_of n) (sig_of n) (epoch_of n)) as [i|e|] eqn:E; [|done..].
  intros _. split; [done|]. apply seed_bytes_inv in E as (Hk & Hs & E).
  pose proof (from_seeds_inv _ _ _ _ _ E) as [Hd _].
  apply sample_usable; [|by apply node_id_short].
  revert E. unfold from_seeds. intros (kk & Hkk & (kp & _ & H)%bind_ok)%bind_ok.
  apply identity_of_keys_inv in H as (_ & _ & -> & _). apply map_err_ok in Hkk. injection Hkk as <-.
  change (length (take 32 (kem_of n) ++ drop 32 (kem_of n)) <= 4000)%nat. rewrite take_drop, Hk. lia.
Qed.

Definition commitments : list bytes :=
  (λ n, Rotation.key_commitment (sig_public_key_bytes (sample_id n))) <$> test_seeds.

Lemma sample_seeds : seeds_ok sample_id.
Proof.
  split.
  - assert (Forall (λ n, sample_derives n = true) test_seeds) as Hall.
    { repeat constructor; vm_compute; reflexivity. }
    intros n Hn. apply sample_derived. by eapply Forall_forall in Hall.
  - assert (NoDup commitments) as Hnd.
    { apply (bool_decide_eq_true_1 _). vm_compute. reflexivity. }
    intros n m [i Hi]%list_elem_of_lookup_1 [j Hj]%list_elem_of_lookup_1 Hne He. destruct Hne.
    assert (i = j) as ->; [|congruence].
    eapply (NoDup_lookup commitments); [done|unfold commitments; by rewrite list_lookup_fmap, Hi|].
    unfold commitments. rewrite list_lookup_fmap, Hj. exact (f_equal Some (eq_sym He)).
Qed.

Lemma main_passes_witness :
  ∃ os, Harness.main (λ _, inr []) ["wasmtime-test"; "witan.wasm"]%string 0%Z = (Ok tt, os).
Proof.
  destruct (main_passes sample_quiet sample_id sample_seeds (λ _, inr []) "wasmtime-test" "witan.wasm"
    [] 0%Z eq_refl) as (os & E & _); [by constructor|done|].
  exists os. exact E.
Defined.

Lemma published_distinct : NoDup published_ids.
Proof. apply (bool_decide_eq_true_1 _). vm_compute. reflexivity. Qed.

Lemma validation_passes_witness : ∃ os, Validate.main 0%Z = (Ok 0%Z, os).
Proof.
  destruct (validation_passes sample_quiet 0%Z published_distinct I) as (e & l & os & _ & E & _).
  exists os. exact E.
Defined.

(** The first lineage of [node_a] and its rotation to [node_b]. *)
Lemma lineage_b_grown : grown lineage_b.
Proof.
  apply (grown_rotate lineage_a node_a node_b (Some commitment_c) 1000 rotation_ab).
  - apply (grown_identity node_a); [apply Nat.leb_le; vm_compute; reflexivity|apply lineage_a_of_a].
  - apply lineage_a_room.
  - constructor; [apply Nat.leb_le; vm_compute; reflexivity| |unfold fits; lia].
    intros b [= <-]. vm_compute. reflexivity.
  - apply rotate_ab.
Qed.

Lemma encode_decode_witness : ∃ b, encode lineage_b = Ok b ∧ decode b = Ok lineage_b.
Proof.
  pose proof (grown_light lineage_b lineage_b_grown) as Hl.
  destruct (encode_decode lineage_b lineage_b_valid (light_fits lineage_b Hl)) as (b & Hb & _ & Hd & _).
  exists b. split; [exact Hb|]. apply Hd. apply Z.leb_le. vm_compute. reflexivity.
Defined.

Lemma lineage_lifetime_witness : ∃ b, encode lineage_b = Ok b ∧ decode b = Ok lineage_b.
Proof.
  destruct (lineage_lifetime lineage_b lineage_b_grown) as (b & Hb & _ & Hd & _).
  exists b. split; [exact Hb|]. apply Hd. apply Nat.leb_le. vm_compute. reflexivity.
Defined.
