(* ===== verification/NetWitnesses.v ===== *)
(** * Concrete runs between nodes

    The man in the middle of [Splice] and the crossing probes of [Crossing], on
    the nodes of [Witnesses], a run of the network of [Network], the machines of
    [Peers] along a handshake, a node restarted after a rotation, and a message
    published twice. *)

From S2P Require Import Prelude Errors Types Extern F64 Config Session Identity Envelope Rotation Lineage LineageThms Handshake HandshakeThms Splice Engine EngineThms Api ApiThms Restart Component ComponentThms Frames Peers Republish Network Crossing Host HostThms NodeRuns RotationRuns Harness HarnessThms RotationTest Codec Messages Sample Witnesses.

#[export] Instance sample_probe_trailing : BincodeTrailing HandshakeProbe.
Proof. apply codec_trailing, _. Qed.

#[export] Instance sample_ack_trailing : BincodeTrailing HandshakeAck.
Proof. apply codec_trailing, _. Qed.

(** ** The man in the middle *)

(** Mallory's KEM key pair is that of the third node. *)
Lemma sample_splice_ok : splice_ok "mine" node_b (kem_keypair node_c) 0%Z 100%Z.
Proof.
  constructor.
  - do 8 eexists.
    split; [reflexivity|]. split; [reflexivity|]. split; [computed|]. split; [reflexivity|].
    split; [by vm_compute|]. split; [computed|]. do 2 eexists. split; [reflexivity|computed].
  - do 3 eexists. split; [reflexivity|]. split; [reflexivity|by vm_compute].
  - apply sample_can_sign.
  - eexists. split; [reflexivity|by vm_compute].
  - by vm_compute.
Qed.

Lemma transcript_spliced_witness :
  ∃ (mc3 ms2 : hs) (sc ss : SessionRecord),
    Handshakes.get_session mc3.1 sa = Some sc ∧ Handshakes.get_session ms2.1 ca = Some ss ∧
    session_id sc = "mine"%string ∧ transcript_hash sc = transcript_hash ss.
Proof.
  destruct (transcript_spliced ca sa "mine" node_a node_b (kem_keypair node_c) 0%Z 100%Z 1000 1000 1000
    1000 1000 Handshakes.new Handshakes.new sample_splice_ok sample_in_time sample_names)
    as (pb & xb & ab & fb & kb & kb' & key & mc1 & ms1 & mc2 & ms2 & mc3 & sc & ss & _ & _ & _ & _ & _
        & Hc & Hs & _ & [_ _ _ Hsc Hss]).
  exists mc3, ms2, sc, ss. split; [exact Hc|]. split; [exact Hs|]. rewrite Hsc. exact (conj eq_refl eq_refl).
Defined.

(** ** Crossing probes *)

Lemma sample_side i os :
  (length (kem_keypair i : bytes) <= 4000)%nat -> side_ok i os.
Proof.
  intros Hk. do 5 eexists. split; [reflexivity|]. split; [reflexivity|]. split; [reflexivity|].
  apply short_small. by rewrite <- length_as_bytes, as_of_bytes.
Qed.

Definition one_time : times := mkTimes 1000 1000 1000.

Lemma crossing_probes_lost_witness :
  ∃ sa2 sb2 : Engine.GossipEngine * Os,
    Store.get (Engine.sessions sa2.1) "b" = None ∧ Store.get (Engine.sessions sb2.1) "a" = None.
Proof.
  destruct (crossing_probes_lost "a" "b" engine_a engine_b 0%Z 100%Z one_time one_time)
    as (pa & pb & aa & ab & sa1 & sb1 & sa2 & sb2 & _ & _ & _ & _ & _ & _ & Ha & Hb & _).
  - reflexivity.
  - reflexivity.
  - apply sample_side, Nat.leb_le. vm_compute. reflexivity.
  - apply sample_side, Nat.leb_le. vm_compute. reflexivity.
  - split; by vm_compute.
  - split; by vm_compute.
  - split; [by vm_compute|cbn; lia..].
  - split; [by vm_compute|cbn; lia..].
  - exists sa2, sb2. exact (conj Ha Hb).
Defined.

(** ** A network of two nodes *)

(** A call's answer, in a world. *)
Definition sent (r : res bytes) : bytes := match r with Ok b => b | _ => [] end.
Definition replied (r : res (option bytes)) : bytes :=
  match r with Ok (Some b) => b | _ => [] end.

Definition net2 : World :=
  call_on (call_on start "a" (call_init "{}") 0%Z) "b" (call_init "{}") 50%Z.

Definition net_probe : bytes :=
  sent (Api.gossip_connect_peer "b" (instance_of net2 "a", 200%Z)).1.
Definition net3 : World := call_on net2 "a" (call_connect_peer "b") 200%Z.

Definition net_ack : bytes :=
  replied (Api.gossip_process_handshake_bytes "a" net_probe (instance_of net3 "b", 300%Z)).1.
Definition net4 : World := call_on net3 "b" (call_process_handshake_bytes "a" net_probe) 300%Z.

Definition net_finish : bytes :=
  replied (Api.gossip_process_handshake_bytes "b" net_ack (instance_of net4 "a", 400%Z)).1.
Definition net5 : World := call_on net4 "a" (call_process_handshake_bytes "b" net_ack) 400%Z.

Definition net_finish_ack : bytes :=
  replied (Api.gossip_process_handshake_bytes "a" net_finish (instance_of net5 "b", 500%Z)).1.
Definition net6 : World := call_on net5 "b" (call_process_handshake_bytes "a" net_finish) 500%Z.
Definition net7 : World := call_on net6 "a" (call_process_handshake_bytes "b" net_finish_ack) 600%Z.

(** The key of node "b" is honest. *)
Definition honest_b : list bytes :=
  match Api.GOSSIP_STATE (instance_of net2 "b") with
  | Some e => [sig_public_key_bytes (Engine.identity e)]
  | None => []
  end.

Lemma net7_reachable : network_reachable honest_b net7.
Proof.
  do 7 (eapply rtc_r; [|constructor; vm_compute; reflexivity]). apply rtc_refl.
Qed.

Definition session_a : SessionRecord :=
  match sessions_in (instance_of net7 "a") !! "b"%string with
  | Some se => se
  | None => mkSession "" "" "" [] [] 0 false
  end.

Lemma net7_session : sessions_in (instance_of net7 "a") !! "b"%string = Some session_a.
Proof. vm_compute. reflexivity. Qed.

(** Node "a" opened its handshakes. *)
Lemma net7_sides x : x ∈ log net7 -> at_node x = "a"%string -> on_side x = Opened.
Proof.
  assert (Forall (λ x, at_node x = "a"%string -> on_side x = Opened) (log net7)) as Hall.
  { apply (bool_decide_eq_true_1 _). vm_compute. reflexivity. }
  intros Hx. by apply (proj1 (Forall_forall _ _) Hall).
Qed.

Lemma opened_session_answered_witness :
  peer_sig_public_key session_a ∈ honest_b ∧
  ∃ y, y ∈ log net7 ∧ on_side y = Answered ∧ own_key y = peer_sig_public_key session_a ∧
    transcript_hash (gained y) = transcript_hash session_a.
Proof.
  assert (peer_sig_public_key session_a ∈ honest_b) as Hk.
  { apply (bool_decide_eq_true_1 _). vm_compute. reflexivity. }
  split; [exact Hk|].
  destruct (opened_session_answered honest_b net7 "a" "b" session_a net7_reachable net7_session)
    as (l1 & x & l2 & Hl & Hn & _ & _ & Hy).
  destruct Hy as (y & Hin & Ha & Ho & Ht & _ & _); [|exact Hk|].
  - apply net7_sides; [|exact Hn]. rewrite Hl. apply elem_of_app. right. left.
  - exists y. split; [|exact (conj Ha (conj Ho Ht))].
    rewrite Hl. apply elem_of_app. right. right. exact Hin.
Defined.

(** ** The machines of node "a" *)

Definition script_a : list (host_call * Os) :=
  [(call_init "{}", 0%Z); (call_connect_peer "b", 200%Z);
   (call_process_handshake_bytes "b" net_ack, 400%Z);
   (call_process_handshake_bytes "b" net_finish_ack, 600%Z)].

Definition calls_a : list (host_call * bool) := (play script_a Api.uninitialized).1.

Lemma connected_through_handshake_witness :
  trace_for "b" calls_a = [(Other, true); (Connect, true); (GotAck, true); (GotFinishAck, true)] ∧
  linked (trace_for "b" calls_a).
Proof.
  split; [vm_compute; reflexivity|].
  pose proof (connected_through_handshake script_a "b") as H. unfold calls_a.
  assert (Peers.connected (view (play script_a Api.uninitialized).2 "b") = true) as Hc
    by (vm_compute; reflexivity).
  destruct (play (X:=sample_ext) script_a Api.uninitialized) as [l g]. exact (proj2 H Hc).
Defined.

Lemma component_refines_peers_witness :
  let '(_, (g', _)) :=
    run_call (call_process_handshake_bytes "b" net_finish_ack) (instance_of net6 "a", 600%Z) in
  peer_data g' "c" = peer_data (instance_of net6 "a") "c".
Proof.
  pose proof (component_refines_peers (call_process_handshake_bytes "b" net_finish_ack)
    (instance_of net6 "a") 600%Z "c") as H.
  destruct (run_call _ _) as [r [g' os']]. apply H; [|discriminate]. intros ev. discriminate.
Defined.

(** ** A node that rotates and restarts *)

Definition rotated_ok :
  {p | Api.gossip_rotate_keys_under_id (kem_of 2) (sig_of 2) (epoch_of 2) None
         (Api.mkGlobal (Some engine_a) (Some lineage_a), 0%Z) = (Ok p.1, (p.2.1, p.2.2))}.
Proof.
  destruct (checked_run (Api.gossip_rotate_keys_under_id (kem_of 2) (sig_of 2) (epoch_of 2) None
    (Api.mkGlobal (Some engine_a) (Some lineage_a), 0%Z))) as [[b [g os]] E]; [computed|].
  exact (exist _ (b, (g, os)) E).
Defined.

Lemma rotated_node_restarts_witness :
  ∃ r e1 l1, Api.gossip_init_with_lineage (config_for 2) (proj1_sig rotated_ok).1
      (Api.uninitialized, 0%Z)
    = (Ok tt, (Api.mkGlobal (Some (Engine.new r (Engine.identity e1))) (Some l1), 0%Z)).
Proof.
  destruct (rotated_node_restarts (kem_of 2) (sig_of 2) (epoch_of 2) None engine_a lineage_a 0%Z _ 0%Z
    _ _ node_a_wf lineage_a_room (proj2_sig rotated_ok)) as (e1 & l1 & _ & _ & _ & He1 & Hr & _).
  - apply Z.leb_le. vm_compute. reflexivity.
  - destruct (config_for_seeded 2) as [(c & r & Hc & Hres & _ & Hk & Hs & He)].
    exists r, e1, l1. rewrite <- He1. apply Hr.
    constructor; [exists c; exact (conj Hc Hres)|exact Hk|exact Hs|exact He].
Defined.

(** ** Publishing again *)

Definition published_a : res bytes * (Api.Global * Os) :=
  Api.gossip_publish 1 payload1 (Api.mkGlobal (Some engine_a) (Some lineage_a), 1000%Z).

(** Another message, a heartbeat and new keys in between. *)
Definition busy_script : list (host_call * Os) :=
  [(call_publish 0 (as_bytes "another"), 1100%Z); (call_get_stats, 1200%Z);
   (call_rotate_keys, 1300%Z); (call_connect_peer "b", 1350%Z)].

Lemma publish_once_witness :
  is_ok published_a.1 = true ∧
  ∃ e2 l2, (play busy_script published_a.2.1).2 = Api.mkGlobal (Some e2) l2 ∧
    (Api.gossip_publish 1 payload1 (Api.mkGlobal (Some e2) l2, 1400%Z)).1
    = Err (EnvelopeError "duplicate message").
Proof.
  assert (is_ok published_a.1 = true) as Hok by (vm_compute; reflexivity). split; [exact Hok|].
  destruct (publish_once 1 BlockProposal payload1 engine_a (Some lineage_a) 1000%Z published_a.2.2
    1400%Z published_a.1 published_a.2.1 busy_script) as (e2 & l2 & E & Hp).
  - reflexivity.
  - unfold published_a. by destruct (Api.gossip_publish _ _ _) as [r [g os]].
  - left. destruct published_a.1 as [id|err|]; [by exists id|discriminate Hok|discriminate Hok].
  - apply (bool_decide_eq_true_1 _). vm_compute. reflexivity.
  - apply Z.leb_le. vm_compute. reflexivity.
  - exists e2, l2. split; [exact E|exact (f_equal fst Hp)].
Defined.
